(* ===== verification/_CoqProject ===== *)
-Q . S2P
Prelude.v
JsLang.v
Texts.v
Double.v
Floats.v
StableSort.v
StreamId.v
Json.v
Schema.v
Xdr.v
Worker.v
Contract.v
Samples.v
WorkerFacts.v
Replay.v
Effects.v
IndexerCursor.v
DeadLetter.v
SampleSdk.v
DeadLetterFacts.v
Http.v
Middleware.v
Poll.v
PollFacts.v
Mutex.v
MemoryCache.v
Claimable.v
ClaimableFacts.v
TopUp.v
ContractCalls.v
HandlerRuns.v
Projection.v
Sse.v
SseFacts.v
SseController.v
RpcPool.v
Webhook.v
Runway.v
WebhookController.v
AdminController.v
Soroban.v
Simulate.v
SorobanFacts.v
StreamApi.v
StreamApiFacts.v
StreamQueries.v
StreamQueryFacts.v
EventQueries.v
Amount.v
Dates.v
WalletCalls.v
Csv.v
Payroll.v
PayrollFacts.v
StreamForm.v
Base64.v
PaymentRequest.v
Auth.v
AuthFacts.v
Statement.v
StatementFacts.v
AdminRoutes.v
AdminRoutesFacts.v
SdkClient.v
EventStream.v
Activity.v
Subscriptions.v
ApiClient.v
Dashboard.v
DashboardFacts.v
StreamingAmount.v
Incoming.v
IncomingFacts.v
Cashflow.v
Tracker.v
StreamPage.v
DashboardPage.v
WalletSession.v
Settings.v
Tokens.v
