(* ===== verification/Prelude.v ===== *)
(** * FlowFi: payment streams on Stellar, their indexer and their API

    FlowFi streams tokens from a sender to a recipient at a rate per second.  A
    Soroban contract (contracts/stream_contract, Rust) holds the funds; a
    backend (backend/src, TypeScript) indexes the contract's events into a
    database, serves them over HTTP and server-sent events, delivers webhooks
    and prepares transactions; a web application (frontend/src) formats,
    validates and signs.  This library models the TypeScript code that decides
    something, and as much of the contract as that code mirrors.

    ** How the code is modelled

    Code that changes something is a function in the monad [Js S A] below: state
    passing with JavaScript's exceptions, where a [throw] leaves the state as it
    was when it was thrown and only a database transaction rolls back.  A
    [bigint] is a [Z]; a [number] that is an integer is a [num] ([JsLang]) with
    the rounding of doubles where it matters, and one that may be a fraction is
    a [double] ([Double]); strings are lists of code units below 256.  The clock is an argument [now], in milliseconds.  What other
    packages do is an argument with the laws the code relies on: the storage
    engine under Prisma ([Schema.PrismaEngine], implemented by [gmap_engine]),
    the Stellar SDK ([Xdr.StrKey], [Soroban.SorobanSdk], [DeadLetter.StellarSdk]),
    HMAC and signatures ([Auth.AuthSdk], [Webhook.WebhookEnv]), and what remote
    servers and clients answer ([Soroban.Server], [Sse.Wire]).  Metrics, spans
    and log lines are left out everywhere.

    ** The parts

    - [JsLang], [Texts], [StreamId] (lib/stream-id.ts), [Json], [Base64],
      [Dates], [StableSort]: numbers, texts, JSON, base64, dates and sorting as
      the code uses them; their round trips.  [Double] and [Floats]: binary64
      with its rounding, parseFloat, and what is exact or monotone in it.
    - [Schema] (prisma/schema.prisma): rows with column widths, unique and
      foreign keys, the client operations; the invariant [world_ok].
    - [Xdr], [Worker] (workers/soroban-event-worker.ts): decoding, and
      [processEvent] with its ten handlers.  [WorkerFacts]: every event is
      atomic and keeps the invariant.  [Replay], [Effects]: what an event does
      the first time and when it is processed again.
    - [Contract], [ContractCalls] (stream_contract/src/lib.rs, events.rs): the
      claimable amount, the life of a linear stream, the published events.
      [HandlerRuns], [Projection]: the database refines the contract.
    - [IndexerCursor], [DeadLetter] (lib/indexer-state.ts,
      services/indexerService.ts, indexer.service.ts), [Poll], [Mutex]: the
      cursor, the quarantine, the poll cycle with its counters and life cycle,
      and the exclusion of batches.  [DeadLetterFacts], [PollFacts]: progress of
      a cycle, one record per failing event, replays.
    - [MemoryCache] (lib/redis.ts), [Claimable] (services/claimable.service.ts),
      [ClaimableFacts], [TopUp]: the cached claimable amount against the
      contract's.
    - [Sse] (services/sse.service.ts), [SseController]: clients, caps,
      broadcasts, the Redis path, subscriptions; [SseFacts].
    - [RpcPool] (lib/rpc-pool.ts): circuit breaker, failover.
    - [Webhook] (services/webhook.service.ts), [WebhookController]: deliveries,
      retries, disabling, ownership.
    - [Runway] (workers/stream-runway-worker.ts): alerts.
    - [Soroban], [Simulate] (services/sorobanService.ts,
      controllers/stream/simulate.ts), [SorobanFacts]: deadlines, retries,
      simulations, submissions, the invocations a wallet signs.
    - [Http] (types/api-error.ts), [Middleware] (app.ts, middleware/,
      config/sandbox.ts): error responses, and what every request passes.
    - [StreamApi] (controllers/stream.controller.ts, stream/cancel.ts,
      routes/v1/streams/withdraw.ts, validators/), [StreamQueries],
      [EventQueries] (repositories/, controllers/user.controller.ts,
      routes/v1/events.routes.ts): requests that write, and requests that read;
      [StreamApiFacts], [StreamQueryFacts].
    - [Auth] (middleware/auth.ts, auth.middleware.ts), [AuthFacts]: challenges,
      tokens, guards.
    - [AdminController], [AdminRoutes] (controllers/admin.controller.ts,
      routes/v1/admin.routes.ts), [AdminRoutesFacts]: dead letters, metrics and
      the operations on the indexer.
    - [Statement] (services/export.service.ts), [StatementFacts]: account
      statements; [Csv]: the lines of such files.
    - [SdkClient] (packages/flowfi-sdk): the client library.
    - [Amount] (frontend utils/amount.ts), [Tokens] (the decimals of that file,
      hooks/useTokenPrice.ts, FiatEquivalent.tsx, stellar-config.ts): amounts,
      tokens, prices, networks.  [PaymentRequest] (utils/paymentRequest.ts),
      [Subscriptions] (utils/subscriptions.ts): links, and figures.
    - [WalletSession] (lib/wallet.ts, context/wallet-context.tsx), [WalletCalls]
      (lib/soroban.ts): the wallet that is connected, and what it signs.
    - [StreamForm] (lib/stream-validation.ts, hooks/useStreamForm.ts, the wizard
      and the page for new streams), [Payroll] (lib/csv-parser.ts,
      BatchStreamWizard.tsx), [PayrollFacts]: new streams, one by one and by
      upload.
    - [ApiClient] (lib/api/), [Dashboard] (lib/dashboard.ts), [DashboardFacts],
      [Cashflow] (utils/cashflowCalculations.ts, CashflowChart.tsx), [Activity]
      (utils/activityFilters.ts, activity-content.tsx): what is fetched, and the
      figures made of it.
    - [StreamingAmount] (hooks/useStreamingAmount.ts), [EventStream]
      (hooks/useStreamEvents.ts, NotificationDropdown.tsx), [Incoming]
      (hooks/useIncomingStreams.ts), [IncomingFacts], [Tracker]
      (TransactionTracker.tsx, incoming-content.tsx): hooks that change by
      themselves, and what follows a transaction.
    - [StreamPage] (stream-details-content.tsx), [DashboardPage]
      (dashboard-view.tsx, TopUpModal.tsx, CancelConfirmModal.tsx,
      BatchClaimDrawer.tsx): the pages as state machines.
    - [Settings] (hooks/useSettings.ts, lib/app-data.ts, app-data-sync.tsx,
      settings-content.tsx): preferences and stored data in several tabs.
    [Samples] and [SampleSdk] hold concrete inputs; a file [...Facts] holds the
    properties of the file it is named after, and the evaluation of theorems on
    such inputs stands at the end of the files.

    ** How the parts interact

    A poll ([Poll.runPollCycle]) reads the cursor ([IndexerCursor]), sorts the
    page, gives each event to [Worker.processEvent] and each failure to
    [DeadLetter.quarantineEvent]; a handler writes rows through [Schema] and
    hands messages to [Sse].  [Poll] and [Mutex] say when batches run.  Handlers
    of requests ([StreamApi], [StreamQueries]) run in the state [StreamApi.Api],
    which holds the same world, the claimable cache and what was sent to the
    network; they call [Claimable] and [Soroban].  [Runway] reads the same rows
    with the same cache and sends through [Sse].  A request has passed
    [Middleware.app], and [Auth.requireAuth] if it names a user.

    In the browser a page keeps its state and an [Outbox] of what a wallet
    signed ([WalletCalls]); [StreamPage] and [Incoming] hold a [Tracker].  What a
    page fetches is an answer of the server's own definitions:
    [StreamPage.server_answers] and [Dashboard.server_net] call [StreamQueries],
    and [StreamingAmount] is compared with [Claimable].  [Settings] shares the
    reducer of [WalletSession] and the storage between tabs.

    ** What the theorems show

    - Refinement: [Projection.indexer_refines_contract], a simulation between
      the contract's calls and the handlers of their events.
    - Indexing: once-only processing and exact totals under replay ([Replay],
      [Effects]); atomicity and the invariant ([WorkerFacts]); what a cycle does
      ([PollFacts]); exclusion, order and liveness of batches ([Mutex]).
    - Agreement with the chain: the claimable amount over the whole i128 range
      ([ClaimableFacts]), where it parts from the contract ([TopUp]), the live
      amount of the page ([StreamingAmount]), the types of the calls built for
      signing ([SorobanFacts.invocations_typed], [WalletCalls]).
    - Authority: who is let through ([AuthFacts]), whose rows requests change
      ([StreamApiFacts.requests_authorized]), whose events a client can follow
      ([SseController]), what an open endpoint gives away ([EventQueries]).
    - Reads: pages and cursors visit each row once ([StreamQueryFacts],
      [DeadLetterFacts], [StatementFacts]); what a dashboard leaves out
      ([DashboardFacts]).
    - Delivery and failure: broadcasts, webhooks, failover, retries and polls
      that end ([SseFacts], [Webhook], [RpcPool], [SorobanFacts.retries_end],
      [Tracker.confirmation_polling_ends]).
    - Money in the browser: what a form, an upload or a dialog sends is what was
      typed and validated ([StreamForm], [PayrollFacts],
      [DashboardPage.topup_dialog]); a failed action leaves the page as it was
      ([IncomingFacts], [DashboardPage]).
    - Order of events in the browser: answers that overtake one another
      ([StreamPage.newest_answer_shown]), connections that do
      ([WalletSession.session_survives_reload]), tabs that write at once
      ([Settings.settings_converge]), one live connection ([EventStream]).
    - Texts: round trips of identifiers, i128, amounts, base64, JSON, dates,
      tokens and payment links.

    Several theorems state that the code does not do what it means to: names
    that are not bound make calls fail ([SorobanFacts], [PollFacts],
    [StreamApiFacts.no_request_confirmed]), replays are applied again
    ([Effects]), amounts are counted twice
    ([StreamApiFacts.api_withdrawal_counted_twice]), a page shows only paused
    streams ([StreamPage.only_paused_shown]), a row stands for a stream that is
    not there ([DashboardPage.new_row_is_no_stream]), sandbox mode is a label
    ([Middleware.sandbox_only_labels]).

    ** Fuel and bounds

    [JsLang.digits_acc] has [log2 n + 1] steps, at least the number of decimal
    digits ([digits_fuel_ok]).  [Json.parse_value] takes the length of its input,
    which bounds the nesting ([JSON_parse_stringify] needs no more).
    [Soroban.retry_loop] takes one call more than the retries allowed
    ([retries_end]: more changes nothing); for a bound that is not a number no
    fuel is enough, and the model says so.  [PaymentRequest.search_get] takes
    the length of the query plus one, and each pair is at least one character.
    [StreamForm.startPolling] ends within 16 rounds and [Tracker.poll] within 21,
    which their theorems prove; [Statement.write_batches] needs more than a
    hundredth of the rows, a batch being a hundred.  Database integers keep
    their widths ([fits_int4], [fits_int8]), i128 and u64 their checked and
    saturating operations.  [Projection] assumes ledger times below 2^53, where
    a double holds them exactly; amounts that pass through a double are exact
    below 2^51 base units ([Amount.validated_scaled]).

    ** Not modelled

    Markup, focus and animation of the frontend; the wallet extensions, the
    query cache and the rate limiter, which are libraries (what the code relies
    on is an argument); types made by generators; bootstrapping, route tables
    and OpenAPI comments; metrics, tracing, logging and the database pool (input
    and output); the Redis client itself; transaction bytes and XDR, which the
    SDK builds; texts of the browser's locale and calendar (currency formats,
    the calendar view); step and hybrid schedules, batch withdrawals and
    administration of the contract beyond the claimable amount, which are
    another program; code that nothing calls (deadLetterEvent).  In requests
    integers stand for numbers: a fraction in a request body is out of the model
    unless a validator rejects it.  In the browser a handler that waits for the
    wallet is one step; other occurrences come before or after it. *)
From stdpp Require Export base gmap strings list fin_maps option numbers.
From Stdlib Require Export Lia ZArith Ascii.

(** ** Outcomes of JavaScript computations *)

(** The error codes of the Prisma client that the code can meet. *)
Inductive PrismaCode :=
| P2002 (* unique constraint violated *)
| P2003 (* foreign key constraint violated *)
| P2025 (* record required but not found *)
| PValidation (* argument missing or [undefined] *)
| PRange. (* value does not fit the column's integer type *)

(** What a [throw] carries. *)
Inductive JsError :=
| ErrorMsg (message : string)
| TypeErr
| SyntaxErr
| RangeErr
| ReferenceErr (name : string)
| PrismaErr (code : PrismaCode)
| ApiErr (status : Z) (message code : string) (details : list (string * (Z + string))).

#[export] Instance PrismaCode_eq_dec : EqDecision PrismaCode.
Proof. solve_decision. Defined.
#[export] Instance JsError_eq_dec : EqDecision JsError.
Proof. solve_decision. Defined.

Inductive outcome (A : Type) :=
| Returns (a : A)
| Throws (e : JsError).
Arguments Returns {A} a.
Arguments Throws {A} e.

(** ** The effect monad: mutable state and exceptions

    An exception leaves the state as it was when it was thrown; only a
    database transaction rolls anything back. *)
Definition Js (S A : Type) : Type := S -> outcome A * S.

Definition ret {S A} (a : A) : Js S A := fun s => (Returns a, s).
Definition throw {S A} (e : JsError) : Js S A := fun s => (Throws e, s).
Definition bind {S A B} (m : Js S A) (k : A -> Js S B) : Js S B :=
  fun s =>
    match m s with
    | (Returns a, s') => k a s'
    | (Throws e, s') => (Throws e, s')
    end.
Definition gets {S A} (f : S -> A) : Js S A := fun s => (Returns (f s), s).
Definition modify {S} (f : S -> S) : Js S unit := fun s => (Returns tt, f s).
(** A computation that reads and writes no state. *)
Definition lift {S A} (o : outcome A) : Js S A := fun s => (o, s).
Definition try_catch {S A} (m : Js S A) (h : JsError -> Js S A) : Js S A :=
  fun s =>
    match m s with
    | (Throws e, s') => h e s'
    | r => r
    end.

Declare Scope js_scope.
Delimit Scope js_scope with js.
Notation "'let!' x ':=' m 'in' k" := (bind m (fun x => k))
  (at level 10, x name, m at level 100, k at level 200) : js_scope.
Notation "'do!' m 'in' k" := (bind m (fun _ => k))
  (at level 10, m at level 100, k at level 200) : js_scope.
Open Scope js_scope.

(** [for (const x of xs) body] *)
Fixpoint for_each {S A} (xs : list A) (body : A -> Js S unit) : Js S unit :=
  match xs with
  | [] => ret tt
  | x :: xs' => do! body x in for_each xs' body
  end.

(** Bind for values without state ([outcome] alone). *)
Definition obind {A B} (o : outcome A) (k : A -> outcome B) : outcome B :=
  match o with Returns a => k a | Throws e => Throws e end.
Notation "'let?' x ':=' m 'in' k" := (obind m (fun x => k))
  (at level 10, x name, m at level 100, k at level 200) : js_scope.

Definition of_option {A} (e : JsError) (o : option A) : outcome A :=
  match o with Some a => Returns a | None => Throws e end.

Definition is_returns {A} (o : outcome A) : bool :=
  match o with Returns _ => true | Throws _ => false end.

(** ** Reasoning about effects *)

Section Effects.
Context {S : Type}.

Lemma bind_Returns {A B} (m : Js S A) (k : A -> Js S B) s b s'' :
  bind m k s = (Returns b, s'') <->
  exists a s', m s = (Returns a, s') /\ k a s' = (Returns b, s'').
Proof.
  unfold bind. destruct (m s) as [[a|e] s'] eqn:E; split.
  - eauto.
  - intros (?&?&[= <- <-]&?). done.
  - done.
  - intros (?&?&?&?). done.
Qed.

(** A computation that never writes the state. *)
Definition readonly {A} (m : Js S A) : Prop := forall s, (m s).2 = s.
(** A computation that leaves the state alone when it throws. *)
Definition atomic {A} (m : Js S A) : Prop :=
  forall s e s', m s = (Throws e, s') -> s' = s.
(** A computation that never throws. *)
Definition nothrow {A} (m : Js S A) : Prop := forall s, is_returns (m s).1 = true.
(** A computation that keeps an invariant, whether or not it throws. *)
Definition preserves {A} (I : S -> Prop) (m : Js S A) : Prop :=
  forall s, I s -> I (m s).2.

Lemma readonly_ret {A} (a : A) : readonly (ret a).
Proof. done. Qed.
Lemma readonly_throw {A} e : readonly (throw (A:=A) e).
Proof. done. Qed.
Lemma readonly_lift {A} (o : outcome A) : readonly (lift o).
Proof. done. Qed.
Lemma readonly_gets {A} (f : S -> A) : readonly (gets f).
Proof. done. Qed.
Lemma readonly_bind {A B} (m : Js S A) (k : A -> Js S B) :
  readonly m -> (forall a, readonly (k a)) -> readonly (bind m k).
Proof.
  intros Hm Hk s. unfold bind. specialize (Hm s).
  destruct (m s) as [[a|e] s']; simpl in *; subst; [apply Hk|done].
Qed.

Lemma atomic_readonly {A} (m : Js S A) : readonly m -> atomic m.
Proof. intros H s e s' E. specialize (H s). by rewrite E in H. Qed.
Lemma atomic_nothrow {A} (m : Js S A) : nothrow m -> atomic m.
Proof. intros H s e s' E. specialize (H s). by rewrite E in H. Qed.
Lemma atomic_bind_l {A B} (m : Js S A) (k : A -> Js S B) :
  readonly m -> (forall a, atomic (k a)) -> atomic (bind m k).
Proof.
  intros Hm Hk s e s' E. unfold bind in E. specialize (Hm s).
  destruct (m s) as [[a|e'] s1]; simpl in *; subst; [by eapply Hk|by simplify_eq].
Qed.
Lemma atomic_bind_r {A B} (m : Js S A) (k : A -> Js S B) :
  atomic m -> (forall a, nothrow (k a)) -> atomic (bind m k).
Proof.
  intros Hm Hk s e s' E. unfold bind in E.
  destruct (m s) as [[a|e'] s1] eqn:Em.
  - specialize (Hk a s1). by rewrite E in Hk.
  - simplify_eq. by eapply Hm.
Qed.

Lemma nothrow_bind {A B} (m : Js S A) (k : A -> Js S B) :
  nothrow m -> (forall a, nothrow (k a)) -> nothrow (bind m k).
Proof.
  intros Hm Hk s. unfold bind. specialize (Hm s).
  destruct (m s) as [[a|e] s1]; [apply Hk|done].
Qed.
Lemma nothrow_ret {A} (a : A) : nothrow (ret a).
Proof. done. Qed.
Lemma nothrow_modify (f : S -> S) : nothrow (modify f).
Proof. done. Qed.
Lemma nothrow_gets {A} (f : S -> A) : nothrow (gets f).
Proof. done. Qed.
Lemma nothrow_try_catch {A} (m : Js S A) h :
  (forall e, nothrow (h e)) -> nothrow (try_catch m h).
Proof.
  intros Hh s. unfold try_catch. destruct (m s) as [[a|e] s1]; [done|apply Hh].
Qed.
Lemma nothrow_for_each {A} (xs : list A) (body : A -> Js S unit) :
  (forall x, nothrow (body x)) -> nothrow (for_each xs body).
Proof.
  intros H. induction xs as [|x xs IH]; [done|]. by apply nothrow_bind.
Qed.

Lemma preserves_readonly {A} I (m : Js S A) : readonly m -> preserves I m.
Proof. intros H s Hs. by rewrite H. Qed.
Lemma preserves_bind {A B} I (m : Js S A) (k : A -> Js S B) :
  preserves I m -> (forall a, preserves I (k a)) -> preserves I (bind m k).
Proof.
  intros Hm Hk s Hs. unfold bind. specialize (Hm s Hs).
  destruct (m s) as [[a|e] s1]; [by apply Hk|done].
Qed.
Lemma preserves_modify I (f : S -> S) :
  (forall s, I s -> I (f s)) -> preserves I (modify f).
Proof. intros H s Hs. by apply H. Qed.
Lemma preserves_try_catch {A} I (m : Js S A) h :
  preserves I m -> (forall e, preserves I (h e)) -> preserves I (try_catch m h).
Proof.
  intros Hm Hh s Hs. unfold try_catch. specialize (Hm s Hs).
  destruct (m s) as [[a|e] s1]; [done|by apply Hh].
Qed.
Lemma preserves_for_each {A} I (xs : list A) (body : A -> Js S unit) :
  (forall x, preserves I (body x)) -> preserves I (for_each xs body).
Proof.
  intros H. induction xs as [|x xs IH]; [by intros s|].
  apply preserves_bind; [done|intros _; done].
Qed.
End Effects.

Create HintDb js discriminated.
#[export] Hint Constants Opaque : js.
#[export] Hint Resolve readonly_ret readonly_throw readonly_lift readonly_gets
  nothrow_ret nothrow_modify nothrow_gets : js.

(** Peel the binds off an equation that says a computation returned. *)
Ltac js_inv :=
  repeat match goal with
  | H : bind _ _ _ = (Returns _, _) |- _ =>
      let a := fresh "a" in let s := fresh "s" in
      let E := fresh "E" in
      apply bind_Returns in H as (a & s & E & H)
  | H : lift _ _ = (Returns _, _) |- _ => unfold lift in H
  | H : ret _ _ = (Returns _, _) |- _ => unfold ret in H
  | H : throw _ _ = (Returns _, _) |- _ => discriminate H
  | H : gets _ _ = (Returns _, _) |- _ => unfold gets in H
  | H : modify _ _ = (Returns _, _) |- _ => unfold modify in H
  | H : (_, _) = (Returns _, _) |- _ => injection H as H; subst
  | H : (Returns _, _) = (Returns _, _) |- _ => injection H as; subst
  end.

(** Close an equation between closed terms by evaluating both sides. *)
Ltac vm_refl := match goal with |- @eq ?A _ ?b => vm_cast_no_check (@eq_refl A b) end.

(** Decide the equations between texts written in the code. *)
Ltac closed_texts :=
  repeat match goal with
  | |- context [bool_decide (@eq string ?x ?y)] =>
      let v := eval vm_compute in (bool_decide (@eq string x y)) in
      change (bool_decide (@eq string x y)) with v
  end; cbv iota.

Definition is_some {A} (o : option A) : bool := match o with Some _ => true | None => false end.
Lemma is_some_true {A} (o : option A) : is_some o = true -> is_Some o.
Proof. destruct o; [eauto|done]. Qed.

Ltac destruct_all_units := repeat match goal with u : unit |- _ => destruct u end.

(** Case analysis on every [if] and [match] scrutinee of the goal. *)
Ltac cases := repeat (case_match; simplify_eq/=); try done.

Lemma Forall2_impl_in {A B} (R R' : A -> B -> Prop) xs ys :
  Forall2 R xs ys -> (forall x y, x ∈ xs -> R x y -> R' x y) -> Forall2 R' xs ys.
Proof.
  induction 1 as [|x y xs ys Hxy _ IH]; intros H; constructor; [set_solver|].
  apply IH. intros. apply H; [set_solver|done].
Qed.
