(* ===== verification/JsLang.v ===== *)
(** * The parts of the JavaScript language the code relies on

    Strings are lists of code units below 256.  A [bigint] is a [Z].  A
    [number] is only ever integer valued in the modelled code: [num] has the
    integers a double can hold, the two infinities and NaN.  [Number_of_bigint]
    is the round-to-nearest-even conversion, [BigInt_of_string] the
    StringToBigInt grammar, [parseInt10] is [Number.parseInt(s, 10)]. *)
From S2P Require Import Prelude.
Local Open Scope Z_scope.

(** ** Decimal digits *)

Definition code (c : Ascii.ascii) : Z := Z.of_nat (Ascii.nat_of_ascii c).
Definition is_digit (c : Ascii.ascii) : bool := (48 <=? code c) && (code c <=? 57).
Definition digit_val (c : Ascii.ascii) : Z := code c - 48.
Definition digit_char (d : Z) : Ascii.ascii := Ascii.ascii_of_nat (Z.to_nat (48 + d)).

Fixpoint digits_acc (fuel : nat) (n : Z) (acc : string) : string :=
  match fuel with
  | O => acc
  | S fuel' =>
      if n <? 10 then String (digit_char n) acc
      else digits_acc fuel' (n / 10) (String (digit_char (n mod 10)) acc)
  end.

(** Decimal digits of a natural number; [log2 n + 1] digits are enough. *)
Definition nat_digits (n : Z) : string := digits_acc (S (Z.to_nat (Z.log2 n))) n "".

(** [BigInt.prototype.toString()]. *)
Definition BigInt_toString (z : Z) : string :=
  if z <? 0 then String "-"%char (nat_digits (- z)) else nat_digits z.

Fixpoint parse_digits (v : Z) (s : string) : option Z :=
  match s with
  | EmptyString => Some v
  | String c s' => if is_digit c then parse_digits (v * 10 + digit_val c) s' else None
  end.

(** The regular expression [/^\d+$/]. *)
Fixpoint all_digits (s : string) : bool :=
  match s with
  | EmptyString => true
  | String c s' => is_digit c && all_digits s'
  end.
Definition digits_only (s : string) : bool :=
  match s with EmptyString => false | _ => all_digits s end.

(** ** White space and [BigInt(string)] *)

Definition is_ws (c : Ascii.ascii) : bool :=
  ((9 <=? code c) && (code c <=? 13)) || (code c =? 32) || (code c =? 160).

Fixpoint trim_start (s : string) : string :=
  match s with
  | EmptyString => EmptyString
  | String c s' => if is_ws c then trim_start s' else s
  end.
Fixpoint trim_end (s : string) : string :=
  match s with
  | EmptyString => EmptyString
  | String c s' =>
      match trim_end s' with
      | EmptyString => if is_ws c then EmptyString else String c EmptyString
      | t => String c t
      end
  end.
Definition trim (s : string) : string := trim_end (trim_start s).

Definition hex_val (c : Ascii.ascii) : option Z :=
  let x := code c in
  if (48 <=? x) && (x <=? 57) then Some (x - 48)
  else if (97 <=? x) && (x <=? 102) then Some (x - 87)
  else if (65 <=? x) && (x <=? 70) then Some (x - 55)
  else None.

Fixpoint parse_radix (radix v : Z) (s : string) : option Z :=
  match s with
  | EmptyString => Some v
  | String c s' =>
      match hex_val c with
      | Some d => if d <? radix then parse_radix radix (v * radix + d) s' else None
      | None => None
      end
  end.

Definition nonempty_parse (f : string -> option Z) (s : string) : option Z :=
  match s with EmptyString => None | _ => f s end.

Definition string_to_bigint (s : string) : option Z :=
  match trim s with
  | EmptyString => Some 0
  | String "-"%char t => Z.opp <$> nonempty_parse (parse_digits 0) t
  | String "+"%char t => nonempty_parse (parse_digits 0) t
  | String "0"%char (String ("x"%char | "X"%char) t) => nonempty_parse (parse_radix 16 0) t
  | String "0"%char (String ("o"%char | "O"%char) t) => nonempty_parse (parse_radix 8 0) t
  | String "0"%char (String ("b"%char | "B"%char) t) => nonempty_parse (parse_radix 2 0) t
  | t => parse_digits 0 t
  end.

(** [BigInt(s)]: a malformed string is a SyntaxError. *)
Definition BigInt_of_string (s : string) : outcome Z := of_option SyntaxErr (string_to_bigint s).

(** ** Fixed-width conversions *)

Definition asIntN (w z : Z) : Z := (z + 2 ^ (w - 1)) mod 2 ^ w - 2 ^ (w - 1).
Definition asUintN (w z : Z) : Z := z mod 2 ^ w.

(** ** Numbers *)

Inductive num := NaN | Fin (z : Z) | PosInf | NegInf.

#[export] Instance num_eq_dec : EqDecision num.
Proof. solve_decision. Defined.

Definition MAX_SAFE_INTEGER : Z := 2 ^ 53 - 1.

(** The integer nearest to [n >= 0] with a 53-bit significand, ties to even. *)
Definition round53 (n : Z) : Z :=
  if n <? 2 ^ 53 then n
  else
    let p := 2 ^ (Z.log2 n - 52) in
    let q := n / p in
    let r := n mod p in
    let up := (p <? 2 * r) || ((p =? 2 * r) && Z.odd q) in
    (if up then q + 1 else q) * p.

(** [Number(b)] for a bigint [b]. *)
Definition Number_of_bigint (b : Z) : num :=
  let n := round53 (Z.abs b) in
  if 2 ^ 1024 <=? n then (if b <? 0 then NegInf else PosInf)
  else Fin (if b <? 0 then - n else n).

Definition isSafeInteger (x : num) : bool :=
  match x with Fin z => Z.abs z <=? MAX_SAFE_INTEGER | _ => false end.
Definition isFinite (x : num) : bool := match x with Fin _ => true | _ => false end.

(** The digits at the front of a string. *)
Fixpoint digit_prefix (s : string) : string :=
  match s with
  | String c s' => if is_digit c then String c (digit_prefix s') else EmptyString
  | EmptyString => EmptyString
  end.

Definition neg_num (x : num) : num :=
  match x with Fin z => Fin (- z) | PosInf => NegInf | NegInf => PosInf | NaN => NaN end.

Definition digits_num (s : string) : num :=
  match nonempty_parse (parse_digits 0) (digit_prefix s) with
  | Some v => Number_of_bigint v
  | None => NaN
  end.

(** [Number.parseInt(s, 10)]. *)
Definition parseInt10 (s : string) : num :=
  match trim_start s with
  | String "-"%char t => neg_num (digits_num t)
  | String "+"%char t => digits_num t
  | t => digits_num t
  end.

(** [x || d] on numbers: zero and NaN are falsy. *)
Definition num_or (x : num) (d : Z) : num :=
  match x with NaN => Fin d | Fin 0 => Fin d | _ => x end.

Definition num_min (x : num) (c : Z) : num :=
  match x with NaN => NaN | Fin z => Fin (Z.min z c) | PosInf => Fin c | NegInf => NegInf end.
Definition num_max (c : Z) (x : num) : num :=
  match x with NaN => NaN | Fin z => Fin (Z.max c z) | PosInf => PosInf | NegInf => Fin c end.

(** [String.prototype.toUpperCase] and [startsWith]. *)
Definition upper_char (c : Ascii.ascii) : Ascii.ascii :=
  if (97 <=? code c) && (code c <=? 122) then Ascii.ascii_of_nat (Z.to_nat (code c - 32)) else c.
Fixpoint toUpperCase (s : string) : string :=
  match s with EmptyString => EmptyString | String c s' => String (upper_char c) (toUpperCase s') end.
Fixpoint startsWith (p s : string) : bool :=
  match p, s with
  | EmptyString, _ => true
  | String a p', String b s' => bool_decide (a = b) && startsWith p' s'
  | _, _ => false
  end.

(** [s.split(c)], for the character of code [c] *)
Fixpoint split_on (c : Z) (s : string) : list string :=
  match s with
  | EmptyString => [EmptyString]
  | String x s' =>
      if code x =? c then EmptyString :: split_on c s'
      else match split_on c s' with
           | t :: ts => String x t :: ts
           | [] => [String x EmptyString]
           end
  end.

(** [Math.floor(ms / 1000)] *)
Definition seconds (ms : Z) : Z := ms / 1000.

(** ** Facts *)

Lemma code_digit_char d : 0 <= d < 10 -> code (digit_char d) = 48 + d.
Proof.
  intros H. unfold code, digit_char.
  rewrite Ascii.nat_ascii_embedding by lia. lia.
Qed.

Lemma is_digit_digit_char d : 0 <= d < 10 -> is_digit (digit_char d) = true.
Proof. intros H. unfold is_digit. rewrite code_digit_char by done. lia. Qed.

Lemma digit_val_digit_char d : 0 <= d < 10 -> digit_val (digit_char d) = d.
Proof. intros H. unfold digit_val. rewrite code_digit_char by done. lia. Qed.

Lemma parse_digits_acc fuel n acc :
  0 <= n < 10 ^ Z.of_nat fuel ->
  parse_digits 0 (digits_acc fuel n acc) = parse_digits n acc.
Proof.
  revert n acc. induction fuel as [|fuel IH]; intros n acc Hn.
  { simpl in Hn. by replace n with 0 by lia. }
  simpl digits_acc. case (Z.ltb_spec n 10); intros Hlt.
  - simpl. rewrite is_digit_digit_char, digit_val_digit_char by lia. by f_equal.
  - pose proof (Z.mod_pos_bound n 10 eq_refl) as Hm.
    pose proof (Z.div_mod n 10 ltac:(lia)) as Hd.
    rewrite IH.
    + simpl. rewrite is_digit_digit_char, digit_val_digit_char by lia. f_equal; lia.
    + split; [apply Z.div_pos; lia|]. apply Z.div_lt_upper_bound; [lia|].
      rewrite Nat2Z.inj_succ, Z.pow_succ_r in Hn by lia. lia.
Qed.

Lemma digits_fuel_ok n : 0 <= n -> n < 10 ^ Z.of_nat (S (Z.to_nat (Z.log2 n))).
Proof.
  intros Hn. destruct (decide (n = 0)) as [->|Hne]; [done|].
  rewrite Nat2Z.inj_succ, Z2Nat.id by apply Z.log2_nonneg.
  destruct (Z.log2_spec n) as [_ H]; [lia|].
  eapply Z.lt_le_trans; [exact H|]. apply Z.pow_le_mono_l.
  pose proof (Z.log2_nonneg n). lia.
Qed.

Lemma parse_nat_digits n : 0 <= n -> parse_digits 0 (nat_digits n) = Some n.
Proof.
  intros Hn. unfold nat_digits. rewrite parse_digits_acc; [done|].
  split; [done|by apply digits_fuel_ok].
Qed.

Lemma all_digits_acc fuel n acc :
  0 <= n -> all_digits acc = true -> all_digits (digits_acc fuel n acc) = true.
Proof.
  revert n acc. induction fuel as [|fuel IH]; intros n acc Hn Ha; [done|].
  pose proof (Z.mod_pos_bound n 10 eq_refl). simpl. case (Z.ltb_spec n 10); intros Hlt.
  - simpl. rewrite is_digit_digit_char by lia. done.
  - apply IH; [apply Z.div_pos; lia|]. simpl. rewrite is_digit_digit_char by lia. done.
Qed.

Lemma digits_acc_nonempty fuel n c acc : digits_acc fuel n (String c acc) <> EmptyString.
Proof.
  revert n c acc. induction fuel as [|fuel IH]; intros n c acc; simpl; [done|].
  case_match; [done|apply IH].
Qed.

Lemma nat_digits_only n : 0 <= n -> digits_only (nat_digits n) = true.
Proof.
  intros Hn. assert (nat_digits n <> EmptyString) as Hne.
  { unfold nat_digits. simpl. case_match; [done|]. apply digits_acc_nonempty. }
  unfold digits_only. destruct (nat_digits n) eqn:E; [done|].
  rewrite <- E. unfold nat_digits. by apply all_digits_acc.
Qed.

Lemma is_digit_not_ws c : is_digit c = true -> is_ws c = false.
Proof. unfold is_digit, is_ws. lia. Qed.

Lemma trim_end_digits s : all_digits s = true -> trim_end s = s.
Proof.
  induction s as [|c s IH]; simpl; [done|]. intros [Hc Hs]%andb_prop.
  rewrite IH by done. destruct s; [|done]. by rewrite is_digit_not_ws.
Qed.

Lemma trim_digits s : all_digits s = true -> trim s = s.
Proof.
  intros H. unfold trim. replace (trim_start s) with s; [by apply trim_end_digits|].
  destruct s as [|c s]; [done|]. simpl in *. apply andb_prop in H as [H _].
  by rewrite is_digit_not_ws.
Qed.

(** A string of digits is read in base ten by [BigInt]. *)
Lemma string_to_bigint_digits s :
  digits_only s = true -> string_to_bigint s = parse_digits 0 s.
Proof.
  intros H. unfold string_to_bigint.
  assert (all_digits s = true) as Ha by (by destruct s).
  rewrite trim_digits by done. destruct s as [|c s]; [done|].
  simpl in Ha. apply andb_prop in Ha as [Hc Hs].
  destruct c as [[] [] [] [] [] [] [] []]; try discriminate Hc; try done.
  destruct s as [|c' s]; [done|]. simpl in Hs. apply andb_prop in Hs as [Hc' _].
  destruct c' as [[] [] [] [] [] [] [] []]; try discriminate Hc'; done.
Qed.

Lemma parse_digits_some v s : all_digits s = true -> is_Some (parse_digits v s).
Proof.
  revert v. induction s as [|c s IH]; intros v; simpl; [eauto|].
  intros [-> Hs]%andb_prop. by apply IH.
Qed.

Lemma trim_end_all_digits c s :
  all_digits s = true -> is_ws c = false -> trim_end (String c s) = String c s.
Proof.
  intros Hs Hc. simpl. rewrite trim_end_digits by done. destruct s; [by rewrite Hc|done].
Qed.

(** Reading back the decimal form of an integer gives the integer. *)
Lemma BigInt_roundtrip z : BigInt_of_string (BigInt_toString z) = Returns z.
Proof.
  unfold BigInt_of_string, BigInt_toString. case (Z.ltb_spec z 0); intros Hz.
  - assert (digits_only (nat_digits (- z)) = true) as Hd by (apply nat_digits_only; lia).
    pose proof (parse_nat_digits (- z) ltac:(lia)) as Hp.
    unfold string_to_bigint, trim. simpl trim_start.
    rewrite trim_end_all_digits; [|by destruct (nat_digits (- z))|done].
    destruct (nat_digits (- z)) as [|c s] eqn:E; [done|].
    cbv beta iota. unfold nonempty_parse. rewrite Hp. simpl. f_equal. lia.
  - rewrite string_to_bigint_digits by (apply nat_digits_only; lia).
    by rewrite parse_nat_digits by lia.
Qed.

Lemma round53_small n : n <= 2 ^ 53 -> round53 n = n.
Proof.
  intros H. unfold round53. case (Z.ltb_spec n (2 ^ 53)); intros; [done|].
  by replace n with (2 ^ 53) by lia.
Qed.

Lemma round53_large n : 2 ^ 53 <= n -> 2 ^ 53 <= round53 n.
Proof.
  intros H. unfold round53. case (Z.ltb_spec n (2 ^ 53)); intros; [lia|].
  assert (53 <= Z.log2 n) as Hl by (apply Z.log2_le_pow2; lia).
  set (p := 2 ^ (Z.log2 n - 52)).
  assert (0 < p) as Hp by (apply Z.pow_pos_nonneg; lia).
  assert (2 ^ 52 <= n / p) as Hq.
  { apply Z.div_le_lower_bound; [done|]. unfold p. rewrite <- Z.pow_add_r by lia.
    replace (Z.log2 n - 52 + 52) with (Z.log2 n) by lia. apply Z.log2_spec. lia. }
  assert (2 <= p) as Hp2.
  { unfold p. change 2 with (2 ^ 1) at 1. apply Z.pow_le_mono_r; lia. }
  change (2 ^ 53) with (2 * 2 ^ 52).
  destruct (_ || _); nia.
Qed.

Lemma Number_safe b : Z.abs b <= MAX_SAFE_INTEGER -> Number_of_bigint b = Fin b.
Proof.
  unfold MAX_SAFE_INTEGER. intros H. unfold Number_of_bigint. rewrite round53_small by lia.
  replace (2 ^ 1024 <=? Z.abs b) with false; [f_equal; case (Z.ltb_spec b 0); lia|].
  symmetry. apply Z.leb_gt. eapply Z.le_lt_trans; [exact H|]. by vm_compute.
Qed.

(** A bigint whose double is a safe integer is that integer: nothing was rounded. *)
Lemma Number_isSafe b :
  isSafeInteger (Number_of_bigint b) = true -> Z.abs b <= MAX_SAFE_INTEGER.
Proof.
  intros H. destruct (Z.le_gt_cases (Z.abs b) MAX_SAFE_INTEGER) as [|Hgt]; [done|exfalso].
  unfold MAX_SAFE_INTEGER in *. pose proof (round53_large (Z.abs b) ltac:(lia)) as Hr.
  unfold Number_of_bigint in H. case_match; [by case_match|]. simpl in H.
  unfold MAX_SAFE_INTEGER in H. case_match; lia.
Qed.
