(* ===== verification/Texts.v ===== *)
(** * Text operations shared by the backend, the frontend and the SDK

    [includes], letter case, splitting into lines, and the format of a Stellar
    public key, which four modules spell out each for itself. *)
From S2P Require Import Prelude JsLang.
Local Open Scope Z_scope.

(** [s.includes(p)] *)
Fixpoint includes (p s : string) : bool :=
  startsWith p s || match s with EmptyString => false | String _ s' => includes p s' end.

(** [/p/i.test(s)] for a pattern without special characters *)
Definition contains (p s : string) : bool := includes (toUpperCase p) (toUpperCase s).

Definition lower_char (c : Ascii.ascii) : Ascii.ascii :=
  if (65 <=? code c) && (code c <=? 90) then Ascii.ascii_of_nat (Z.to_nat (code c + 32)) else c.
Fixpoint toLowerCase (s : string) : string :=
  match s with EmptyString => EmptyString | String c s' => String (lower_char c) (toLowerCase s') end.

Definition CR : Ascii.ascii := "013"%char.
Definition LF : Ascii.ascii := "010"%char.

(** [s.split(/\r?\n/)] *)
Fixpoint split_lines (s : string) : list string :=
  match s with
  | EmptyString => [EmptyString]
  | String "010"%char s' => EmptyString :: split_lines s'
  | String "013"%char (String "010"%char s') => EmptyString :: split_lines s'
  | String c s' =>
      match split_lines s' with
      | t :: ts => String c t :: ts
      | [] => [String c EmptyString]
      end
  end.

(** [/^G[A-Z2-7]{55}$/] *)
Definition base32_char (c : Ascii.ascii) : bool :=
  ((65 <=? code c) && (code c <=? 90)) || ((50 <=? code c) && (code c <=? 55)).
Fixpoint all_base32 (s : string) : bool :=
  match s with EmptyString => true | String c s' => base32_char c && all_base32 s' end.
Definition STELLAR_PUBLIC_KEY_REGEX (s : string) : bool :=
  match s with
  | String c s' => (code c =? 71) && all_base32 s' && (String.length s' =? 55)%nat
  | EmptyString => false
  end.

(** [isValidStellarPublicKey]: the key with white space around it is one too. *)
Definition isValidStellarPublicKey (value : string) : bool := STELLAR_PUBLIC_KEY_REGEX (trim value).
