(* ===== verification/Double.v ===== *)
(** * Binary64 numbers, as far as the frontend and the SDK compute with them

    Every finite double is a whole number of ticks of 2^-1074, so [DFin t] is
    the double of value t * 2^-1074; the two zeros are one, since nothing the
    code does with a zero tells them apart.  A result that is not a double is
    rounded to the nearest one, ties to even ([round_ticks]), and becomes an
    infinity from 2^1024 on ([of_ticks]).  [parseFloat] reads the longest
    decimal literal at the front of a text and rounds its value once.

    [rounding_error] and [round_ticks_ge]/[round_ticks_le] are what the facts
    about amounts and fees need: half a unit in the last place, and that
    rounding never crosses a double. *)
From S2P Require Import Prelude JsLang.
Local Open Scope Z_scope.

Inductive double := DNaN | DInf (negative : bool) | DFin (ticks : Z).

#[export] Instance double_eq_dec : EqDecision double.
Proof. solve_decision. Defined.

Definition TICK : Z := 2 ^ 1074.

(** ** Rounding *)

(** [n / d] rounded to the nearest integer, ties to even. *)
Definition half_even (n d : Z) : Z :=
  let q := n / d in
  let r := n mod d in
  if (d <? 2 * r) || ((2 * r =? d) && Z.odd q) then q + 1 else q.

(** How many of the low bits of a tick count a double cannot keep. *)
Definition dropped_bits (t : Z) : Z := Z.max 0 (Z.log2 t - 52).

(** The double nearest to [n / d] ticks, for [0 <= n] and [0 < d]. *)
Definition round_ticks (n d : Z) : Z :=
  let u := 2 ^ dropped_bits (n / d) in half_even n (d * u) * u.

Definition of_ticks (n d : Z) : double :=
  let t := round_ticks (Z.abs n) d in
  if 2 ^ 1024 * TICK <=? t then DInf (n <? 0) else DFin (Z.sgn n * t).

Definition of_rational (n d : Z) : double := of_ticks (n * TICK) d.

(** ** Arithmetic *)

Definition dneg (x : double) : double :=
  match x with DNaN => DNaN | DInf s => DInf (negb s) | DFin t => DFin (- t) end.

Definition dadd (x y : double) : double :=
  match x, y with
  | DFin a, DFin b => of_ticks (a + b) 1
  | DInf s, DInf s' => if Bool.eqb s s' then DInf s else DNaN
  | DInf s, DFin _ | DFin _, DInf s => DInf s
  | _, _ => DNaN
  end.
Definition dsub (x y : double) : double := dadd x (dneg y).

Definition dmul (x y : double) : double :=
  match x, y with
  | DFin a, DFin b => of_ticks (a * b) TICK
  | DInf s, DInf s' => DInf (xorb s s')
  | DInf s, DFin b | DFin b, DInf s => if b =? 0 then DNaN else DInf (xorb s (b <? 0))
  | _, _ => DNaN
  end.

(** Only divisors other than zero occur. *)
Definition ddiv_pos (x : double) (n : Z) : double :=
  match x with DFin a => of_ticks a n | _ => x end.

Definition dltb (x y : double) : bool :=
  match x, y with
  | DFin a, DFin b => a <? b
  | DInf s, DInf s' => s && negb s'
  | DInf s, DFin _ => s
  | DFin _, DInf s => negb s
  | _, _ => false
  end.
Definition dleb (x y : double) : bool :=
  match x, y with
  | DFin a, DFin b => a <=? b
  | DInf s, DInf s' => s || negb s'
  | DInf s, DFin _ => s
  | DFin _, DInf s => negb s
  | _, _ => false
  end.
Definition is_NaN (x : double) : bool := match x with DNaN => true | _ => false end.

(** The number [z] written in the code, or the result of an integer
    computation that a double holds. *)
Definition dint (z : Z) : double := DFin (z * TICK).

(** [isNaN(x) || x <= 0] *)
Definition not_positive (x : double) : bool := is_NaN x || dleb x (dint 0).

(** [Math.round], [Math.floor], [Math.ceil] and [Math.trunc] *)
Definition on_ticks (f : Z -> Z) (x : double) : double :=
  match x with DFin t => DFin (f t * TICK) | _ => x end.
Definition Math_round : double -> double := on_ticks (fun t => (2 * t + TICK) / (2 * TICK)).
Definition Math_floor : double -> double := on_ticks (fun t => t / TICK).
Definition Math_ceil : double -> double := on_ticks (fun t => - (- t / TICK)).
Definition Math_trunc : double -> double := on_ticks (fun t => Z.quot t TICK).

(** [Number(b)] of a bigint, and [BigInt(x)] of a number. *)
Definition Number_double (b : Z) : double := of_rational b 1.
Definition BigInt_double (x : double) : outcome Z :=
  match x with
  | DFin t => if t mod TICK =? 0 then Returns (t / TICK) else Throws RangeErr
  | _ => Throws RangeErr
  end.

(** A [number] known to be an integer, as a double. *)
Definition num_double (x : num) : double :=
  match x with NaN => DNaN | PosInf => DInf false | NegInf => DInf true | Fin z => dint z end.

(** ** [parseFloat] *)

Fixpoint drop_digits (s : string) : string :=
  match s with
  | String c s' => if is_digit c then drop_digits s' else s
  | EmptyString => EmptyString
  end.

(** The value of a run of digits. *)
Definition digits_Z (s : string) : Z := default 0 (parse_digits 0 s).

(** The exponent part at the front of a text, 0 when there is none. *)
Definition exponent_part (s : string) : Z :=
  let unsigned t := digits_Z (digit_prefix t) in
  match s with
  | String "e"%char (String "-"%char t) | String "E"%char (String "-"%char t) => - unsigned t
  | String "e"%char (String "+"%char t) | String "E"%char (String "+"%char t) => unsigned t
  | String "e"%char t | String "E"%char t => unsigned t
  | _ => 0
  end.

(** The digits after a point, and what follows them. *)
Definition fraction_digits (s : string) : string * string :=
  match s with
  | String "."%char t => (digit_prefix t, drop_digits t)
  | _ => (EmptyString, s)
  end.

(** The longest unsigned decimal literal at the front of a text: its digits
    without the point, and the power of ten that scales them. *)
Definition decimal_literal (s : string) : option (Z * Z) :=
  let i := digit_prefix s in
  let '(f, rest) := fraction_digits (drop_digits s) in
  match i +:+ f with
  | EmptyString => None
  | digits => Some (digits_Z digits, exponent_part rest - Z.of_nat (String.length f))
  end.

Definition decimal_double (m k : Z) : double :=
  if 0 <=? k then of_rational (m * 10 ^ k) 1 else of_rational m (10 ^ (- k)).

Definition unsigned_float (s : string) : double :=
  if startsWith "Infinity" s then DInf false
  else match decimal_literal s with Some (m, k) => decimal_double m k | None => DNaN end.

(** A number after its sign. *)
Definition signed_float (s : string) : double :=
  match s with
  | String "-"%char t => dneg (unsigned_float t)
  | String "+"%char t => unsigned_float t
  | t => unsigned_float t
  end.

Definition parseFloat (s : string) : double := signed_float (trim_start s).

(** * Facts about doubles

    Rounding stays within half a unit in the last place and never crosses a
    double; an amount of up to 2^51 base units survives being read as a double,
    multiplied by 10^7 and rounded, which is how the frontend converts it. *)

Local Open Scope Z_scope.

Lemma TICK_pow : TICK = 2 ^ 1074.
Proof. done. Qed.
Lemma TICK_large : 2 ^ 200 <= TICK.
Proof. rewrite TICK_pow. apply Z.pow_le_mono_r; lia. Qed.
Lemma TICK_pos : 0 < TICK.
Proof. pose proof TICK_large. pose proof (Z.pow_pos_nonneg 2 200 ltac:(lia) ltac:(lia)). lia. Qed.
#[global] Opaque TICK.

(** ** Rounding to an integer *)

Lemma half_even_error n d : 0 < d -> 2 * Z.abs (half_even n d * d - n) <= d.
Proof.
  intros Hd. unfold half_even. pose proof (Z.div_mod n d ltac:(lia)).
  pose proof (Z.mod_pos_bound n d Hd).
  case (Z.ltb_spec d (2 * (n mod d))); intros; simpl; [nia|].
  case (Z.eqb_spec (2 * (n mod d)) d); intros; simpl; [destruct (Z.odd _)|]; nia.
Qed.

Lemma half_even_ge a n d : 0 < d -> a * d <= n -> a <= half_even n d.
Proof.
  intros Hd H. unfold half_even.
  pose proof (Z.div_le_lower_bound n d a Hd ltac:(lia)). destruct (_ || _); lia.
Qed.

Lemma half_even_le a n d : 0 < d -> n <= a * d -> half_even n d <= a.
Proof. intros Hd H. pose proof (half_even_error n d Hd). nia. Qed.

(** ** Rounding to a double *)

Lemma dropped_nonneg t : 0 <= dropped_bits t.
Proof. unfold dropped_bits. lia. Qed.

(** The tick counts a double can hold. *)
Definition representable (c : Z) : Prop := exists m j, 0 <= m <= 2 ^ 53 /\ 0 <= j /\ c = m * 2 ^ j.

Section rounding.
Context (n d : Z) (Hn : 0 <= n) (Hd : 0 < d).

#[local] Abbreviation k := (dropped_bits (n / d)).
#[local] Abbreviation u := (2 ^ dropped_bits (n / d)).

Lemma unit_pos : 0 < u.
Proof. apply Z.pow_pos_nonneg; [lia|apply dropped_nonneg]. Qed.

(** When bits are dropped the unit is at most 2^-52 of the value. *)
Lemma unit_below : 0 < k -> 2 ^ 52 * u * d <= n.
Proof.
  intros Hk. assert (k = Z.log2 (n / d) - 52) as E by (unfold dropped_bits in *; lia).
  assert (0 < n / d) as Hq.
  { destruct (Z.le_gt_cases (n / d) 0) as [Hle|]; [|done].
    rewrite (Z.log2_nonpos _ Hle) in E. lia. }
  rewrite <- Z.pow_add_r by lia. rewrite E.
  replace (52 + (Z.log2 (n / d) - 52)) with (Z.log2 (n / d)) by lia.
  pose proof (Z.log2_spec _ Hq) as [Hlog _]. pose proof (Z.mul_div_le n d Hd). nia.
Qed.

Lemma round_ticks_nonneg : 0 <= round_ticks n d.
Proof.
  unfold round_ticks. pose proof unit_pos.
  pose proof (half_even_ge 0 n (d * u) ltac:(nia) ltac:(lia)). nia.
Qed.

(** Half a unit in the last place, relative to the value. *)
Lemma rounding_error : 2 ^ 52 <= n / d -> 2 ^ 53 * Z.abs (round_ticks n d * d - n) <= n.
Proof.
  intros Hq. pose proof unit_pos as Hu. unfold round_ticks.
  pose proof (half_even_error n (d * u) ltac:(nia)) as He.
  assert (2 ^ 52 * u * d <= n) as Hb.
  { pose proof (dropped_nonneg (n / d)) as Hk. destruct (Z.eq_dec k 0) as [E|].
    - rewrite E. pose proof (Z.mul_div_le n d Hd). nia.
    - apply unit_below. lia. }
  rewrite <- Z.mul_assoc, (Z.mul_comm u d). lia.
Qed.

(** A double is a whole number of units, or below the first value that drops
    that many bits. *)
Lemma representable_cases c :
  representable c -> (exists a, c = a * u) \/ (0 < k /\ c <= 2 ^ 52 * u).
Proof.
  intros (m & j & Hm & Hj & ->). destruct (Z.le_gt_cases k j) as [Hkj|Hkj]; [left|right].
  - exists (m * 2 ^ (j - k)). rewrite <- Z.mul_assoc, <- Z.pow_add_r; [do 2 f_equal; lia|lia|apply dropped_nonneg].
  - split; [lia|].
    replace (2 ^ 52 * u) with (2 ^ 53 * 2 ^ (k - 1))
      by (change (2 ^ 53) with (2 ^ 52 * 2); rewrite <- Z.mul_assoc, <- Z.pow_succ_r by lia; do 2 f_equal; lia).
    pose proof (Z.pow_le_mono_r 2 j (k - 1) ltac:(lia) ltac:(lia)).
    pose proof (Z.pow_pos_nonneg 2 j ltac:(lia) Hj). nia.
Qed.

(** A double not above the value is not above its rounding. *)
Lemma round_ticks_ge c : representable c -> c * d <= n -> c <= round_ticks n d.
Proof.
  intros [[a ->]|[Hk Hb]]%representable_cases Hc; pose proof unit_pos; unfold round_ticks.
  - apply Z.mul_le_mono_nonneg_r; [lia|]. apply half_even_ge; nia.
  - pose proof (unit_below Hk). pose proof (half_even_ge (2 ^ 52) n (d * u) ltac:(nia) ltac:(lia)). nia.
Qed.

Lemma round_ticks_le c : representable c -> n <= c * d -> round_ticks n d <= c.
Proof.
  intros Hr Hc. pose proof unit_pos. unfold round_ticks.
  assert (exists a, c = a * u) as [a ->].
  { destruct (representable_cases c Hr) as [|[Hk Hb]]; [done|].
    pose proof (unit_below Hk) as Hn'. exists (2 ^ 52). apply Z.le_antisymm; [done|].
    apply (Z.mul_le_mono_pos_r _ _ d Hd). lia. }
  apply Z.mul_le_mono_nonneg_r; [lia|]. apply half_even_le; nia.
Qed.
End rounding.

Lemma round_exact c d : 0 < d -> representable c -> round_ticks (c * d) d = c.
Proof.
  intros Hd Hc. assert (0 <= c) by (destruct Hc as (m & j & ? & ? & ->);
    pose proof (Z.pow_pos_nonneg 2 j ltac:(lia) ltac:(lia)); nia).
  apply Z.le_antisymm; [apply round_ticks_le|apply round_ticks_ge]; try done; lia.
Qed.

(** ** Finite results *)

Lemma representable_pow k : 0 <= k -> representable (2 ^ k * TICK).
Proof.
  intros Hk. exists 1, (k + 1074). split_and!; try lia. rewrite TICK_pow, <- Z.pow_add_r; lia.
Qed.

Lemma of_ticks_finite n d k :
  0 < n -> 0 < d -> 0 <= k < 1024 -> n <= 2 ^ k * TICK * d -> of_ticks n d = DFin (round_ticks n d).
Proof.
  intros Hn Hd Hk Hb. unfold of_ticks. rewrite Z.abs_eq, Z.sgn_pos by lia.
  pose proof (round_ticks_le n d Hd _ (representable_pow k ltac:(lia)) Hb).
  assert (2 ^ k < 2 ^ 1024) as Hk' by (apply Z.pow_lt_mono_r; lia). revert Hk'.
  generalize (2 ^ 1024). intros top Htop. pose proof TICK_pos.
  replace (top * TICK <=? round_ticks n d) with false; [f_equal; lia|]. symmetry. apply Z.leb_gt. nia.
Qed.

Lemma Number_double_small b : 0 <= b <= 2 ^ 53 -> Number_double b = dint b.
Proof.
  intros Hb. pose proof TICK_pos. unfold Number_double, of_rational, dint.
  assert (representable (b * TICK)) as Hr by (exists b, 1074; rewrite <- TICK_pow; lia).
  destruct (Z.eq_dec b 0) as [->|]; [by vm_compute|].
  rewrite (of_ticks_finite _ _ 53) by nia. f_equal.
  rewrite <- (Z.mul_1_r (b * TICK)) at 1. by apply round_exact.
Qed.

Lemma Math_round_near t u : 2 * Z.abs (t - u * TICK) < TICK -> Math_round (DFin t) = dint u.
Proof.
  intros H. pose proof TICK_pos. unfold Math_round, on_ticks, dint. do 2 f_equal.
  symmetry. apply (Z.div_unique _ _ _ (2 * t + TICK - 2 * TICK * u)); lia.
Qed.

Lemma BigInt_dint z : BigInt_double (dint z) = Returns z.
Proof.
  pose proof TICK_pos. unfold BigInt_double, dint. by rewrite Z.mod_mul, Z.div_mul by lia.
Qed.

(** ** Converting an amount through a double *)

(** The double nearest to [m / q], times [p], is within half of [m * p / q]
    when that is an integer below 2^51. *)
Lemma scaled_exact m q p z :
  0 < m -> 0 < q <= 2 ^ 100 -> 0 < p <= 2 ^ 53 -> z * q = m * p -> z < 2 ^ 51 ->
  BigInt_double (Math_round (dmul (of_rational m q) (dint p))) = Returns z.
Proof.
  intros Hm Hq Hp Hz Hb. pose proof TICK_pos as HT. pose proof TICK_large as HL.
  assert (0 < z) as Hz0 by nia. assert (m <= z * q) as Hmz by nia.
  unfold of_rational. rewrite (of_ticks_finite _ _ 51) by nia.
  set (a := round_ticks (m * TICK) q). unfold dmul, dint.
  assert (2 ^ 52 <= m * TICK / q) as Hbig.
  { apply Z.div_le_lower_bound; [lia|]. change (2 ^ 200) with (2 ^ 100 * 2 ^ 100) in HL. nia. }
  pose proof (rounding_error (m * TICK) q ltac:(lia) Hbig) as E1. fold a in E1.
  assert (2 ^ 53 * Z.abs (a * p - z * TICK) <= z * TICK) as E2.
  { apply (Z.mul_le_mono_pos_r _ _ q ltac:(lia)).
    replace (2 ^ 53 * Z.abs (a * p - z * TICK) * q) with (2 ^ 53 * Z.abs (a * q - m * TICK) * p).
    - transitivity (m * TICK * p); [nia|]. replace (z * TICK * q) with (z * q * TICK) by ring. rewrite Hz. lia.
    - rewrite <- !Z.mul_assoc. f_equal. rewrite <- (Z.abs_eq p) at 1 by lia. rewrite <- (Z.abs_eq q) at 2 by lia.
      rewrite <- !Z.abs_mul. f_equal. transitivity (a * q * p - m * p * TICK); [ring|]. rewrite <- Hz. ring. }
  assert (2 ^ 52 <= a * p <= 2 ^ 52 * TICK) as [Ha Ha'] by nia.
  rewrite (of_ticks_finite _ _ 52) by nia.
  pose proof (rounding_error (a * (p * TICK)) TICK HT) as E3.
  rewrite Z.mul_assoc, Z.div_mul in E3 by lia. specialize (E3 Ha).
  rewrite Z.mul_assoc. set (b := round_ticks (a * p * TICK) TICK) in *.
  assert (2 ^ 53 * Z.abs (b - a * p) <= a * p) as E4.
  { apply (Z.mul_le_mono_pos_r _ _ TICK HT). rewrite <- Z.mul_assoc. rewrite <- (Z.abs_eq TICK) at 1 by lia.
    rewrite <- Z.abs_mul, Z.mul_sub_distr_r. exact E3. }
  rewrite (Math_round_near b z); [apply BigInt_dint|].
  assert (z * TICK <= (2 ^ 51 - 1) * TICK) as E5 by nia. revert E2 E4 E5 HL. clear.
  set (Z0 := z * TICK). set (A := a * p). clearbody Z0 A b. revert b A Z0. generalize TICK. intros T b A Z0.
  change (2 ^ 200) with (2 ^ 53 * 2 ^ 147). lia.
Qed.
