(* ===== verification/Floats.v ===== *)
(** * More of binary64: order, extrema, division

    [Math.min] and [Math.max], division, and what the code's accruals need of
    them: rounding is monotone, so are sums and products with a fixed operand,
    and a clamped value stays within its bounds. *)
From S2P Require Import Prelude JsLang Double.
Local Open Scope Z_scope.

(** ** Operations *)

Definition Math_max (x y : double) : double :=
  if is_NaN x || is_NaN y then DNaN else if dleb x y then y else x.
Definition Math_min (x y : double) : double :=
  if is_NaN x || is_NaN y then DNaN else if dleb x y then x else y.

(** A quotient; a zero divisor counts as positive. *)
Definition ddiv (x y : double) : double :=
  match x, y with
  | DFin a, DFin b =>
      if b =? 0 then (if a =? 0 then DNaN else DInf (a <? 0))
      else of_ticks (a * Z.sgn b * TICK) (Z.abs b)
  | DInf s, DFin b => DInf (xorb s (b <? 0))
  | DFin _, DInf _ => dint 0
  | _, _ => DNaN
  end.

Definition dsum (xs : list double) : double := fold_left dadd xs (dint 0).

(** ** Order *)

Definition dle (x y : double) : Prop := dleb x y = true.

Lemma dle_refl x : is_NaN x = false -> dle x x.
Proof. unfold dle. destruct x as [|[]|]; simpl; try done. intros _. apply Z.leb_refl. Qed.

Lemma dle_trans x y z : dle x y -> dle y z -> dle x z.
Proof. unfold dle. destruct x as [|[]|a], y as [|[]|b], z as [|[]|c]; simpl; try done. lia. Qed.

Lemma dle_total x y : is_NaN x = false -> is_NaN y = false -> dleb x y = false -> dle y x.
Proof. unfold dle. destruct x as [|[]|a], y as [|[]|b]; simpl; try done. lia. Qed.

Lemma dle_antisym x y : dle x y -> dle y x -> x = y.
Proof. unfold dle. destruct x as [|[]|a], y as [|[]|b]; simpl; try done. intros. f_equal. lia. Qed.

Lemma dle_number x y : dle x y -> is_NaN x = false /\ is_NaN y = false.
Proof. unfold dle. by destruct x as [|[]|a], y as [|[]|b]. Qed.

Lemma Math_max_spec x y : is_NaN x = false -> is_NaN y = false ->
  dle x (Math_max x y) /\ dle y (Math_max x y) /\ (Math_max x y = x \/ Math_max x y = y).
Proof.
  intros Hx Hy. unfold Math_max. rewrite Hx, Hy. simpl.
  destruct (dleb x y) eqn:H; split_and!; auto using dle_refl, dle_total.
Qed.
Lemma Math_min_spec x y : is_NaN x = false -> is_NaN y = false ->
  dle (Math_min x y) x /\ dle (Math_min x y) y /\ (Math_min x y = x \/ Math_min x y = y).
Proof.
  intros Hx Hy. unfold Math_min. rewrite Hx, Hy. simpl.
  destruct (dleb x y) eqn:H; split_and!; auto using dle_refl, dle_total.
Qed.

Lemma Math_max_mono x y y' : is_NaN x = false -> dle y y' -> dle (Math_max x y) (Math_max x y').
Proof.
  intros Hx H. destruct (dle_number _ _ H) as [Hy Hy'].
  destruct (Math_max_spec x y Hx Hy) as (_ & _ & [-> | ->]); destruct (Math_max_spec x y' Hx Hy') as (H1 & H2 & _);
    eauto using dle_trans.
Qed.
Lemma Math_min_mono x y y' : is_NaN x = false -> dle y y' -> dle (Math_min x y) (Math_min x y').
Proof.
  intros Hx H. destruct (dle_number _ _ H) as [Hy Hy'].
  destruct (Math_min_spec x y' Hx Hy') as (_ & _ & [-> | ->]); destruct (Math_min_spec x y Hx Hy) as (H1 & H2 & _);
    eauto using dle_trans.
Qed.

Lemma Math_max_number x y : is_NaN x = false -> is_NaN y = false -> is_NaN (Math_max x y) = false.
Proof. intros Hx Hy. by destruct (Math_max_spec x y Hx Hy) as (_ & _ & [-> | ->]). Qed.
Lemma Math_min_number x y : is_NaN x = false -> is_NaN y = false -> is_NaN (Math_min x y) = false.
Proof. intros Hx Hy. by destruct (Math_min_spec x y Hx Hy) as (_ & _ & [-> | ->]). Qed.

(** ** Rounding is monotone *)

Lemma half_even_mono n n' d : 0 < d -> n <= n' -> half_even n d <= half_even n' d.
Proof.
  intros Hd Hn. unfold half_even.
  assert (Hq : n / d <= n' / d) by (apply Z.div_le_mono; lia).
  destruct (Z.eq_dec (n / d) (n' / d)) as [E|E].
  - rewrite E. assert (n mod d <= n' mod d) by (rewrite !Z.mod_eq, E by lia; lia).
    destruct (Z.ltb_spec d (2 * (n mod d))), (Z.eqb_spec (2 * (n mod d)) d), (Z.ltb_spec d (2 * (n' mod d))),
      (Z.eqb_spec (2 * (n' mod d)) d), (Z.odd (n' / d)); simpl; lia.
  - destruct (_ || _), (_ || _); lia.
Qed.

Lemma round_ticks_mono n n' d : 0 < d -> 0 <= n -> n <= n' -> round_ticks n d <= round_ticks n' d.
Proof.
  intros Hd Hn0 Hn. assert (Hq : n / d <= n' / d) by (apply Z.div_le_mono; lia).
  assert (Hq0 : 0 <= n / d) by (apply Z.div_pos; lia).
  destruct (Z.eq_dec (dropped_bits (n / d)) (dropped_bits (n' / d))) as [E|E].
  - unfold round_ticks. rewrite E. set (u := 2 ^ dropped_bits (n' / d)).
    assert (0 < u) by (apply Z.pow_pos_nonneg; [lia|apply dropped_nonneg]).
    apply Z.mul_le_mono_nonneg_r; [lia|]. apply half_even_mono; lia.
  - assert (Hlog : Z.log2 (n / d) <= Z.log2 (n' / d)) by (by apply Z.log2_le_mono).
    assert (Hlt : Z.log2 (n / d) < Z.log2 (n' / d)) by (unfold dropped_bits in E; lia).
    set (p := 2 ^ Z.log2 (n' / d)).
    assert (Hpos : 0 < n' / d).
    { destruct (Z.eq_dec (n' / d) 0) as [E0|]; [rewrite E0 in Hlt; simpl in Hlt; pose proof (Z.log2_nonneg (n / d)); lia|lia]. }
    assert (Hrep : representable p).
    { exists 1, (Z.log2 (n' / d)). split_and!; [lia|lia|apply Z.log2_nonneg|]. unfold p. lia. }
    assert (Hp1 : n / d < p).
    { unfold p. destruct (Z.eq_dec (n / d) 0) as [->|]; [apply Z.pow_pos_nonneg; [lia|apply Z.log2_nonneg]|].
      apply Z.log2_lt_pow2; lia. }
    assert (Hp2 : p <= n' / d) by (unfold p; apply Z.log2_spec; lia).
    transitivity p.
    + apply round_ticks_le; [done|done|]. pose proof (Z.mod_pos_bound n d Hd). pose proof (Z.div_mod n d). nia.
    + apply round_ticks_ge; [done|done|]. pose proof (Z.mod_pos_bound n' d Hd). pose proof (Z.div_mod n' d). nia.
Qed.

(** The rounded value with its sign, and the double it is. *)
Definition signed_round (n d : Z) : Z := Z.sgn n * round_ticks (Z.abs n) d.
Definition encode (t : Z) : double :=
  if 2 ^ 1024 * TICK <=? t then DInf false else if t <=? - (2 ^ 1024 * TICK) then DInf true else DFin t.

Lemma round_ticks_0 d : 0 < d -> round_ticks 0 d = 0.
Proof.
  intros Hd. apply Z.le_antisymm; [|by apply round_ticks_nonneg].
  apply round_ticks_le; [done|exists 0, 0; lia|lia].
Qed.

Lemma of_ticks_encode n d : 0 < d -> of_ticks n d = encode (signed_round n d).
Proof.
  intros Hd. unfold of_ticks, encode, signed_round. pose proof TICK_pos as HT.
  assert (0 < 2 ^ 1024 * TICK) as Htop by lia. revert Htop. generalize (2 ^ 1024 * TICK). intros top Htop.
  pose proof (round_ticks_nonneg (Z.abs n) d ltac:(lia) Hd) as Hr. pose proof (round_ticks_0 d Hd) as H0.
  destruct (Z.lt_trichotomy n 0) as [Hs|[->|Hs]].
  - rewrite (proj2 (Z.ltb_lt n 0)), Z.sgn_neg by lia. generalize dependent (round_ticks (Z.abs n) d). intros r Hr.
    repeat case_match; try done; lia.
  - change (Z.abs 0) with 0 in *. rewrite H0. simpl. repeat case_match; try done; lia.
  - rewrite (proj2 (Z.ltb_ge n 0)), Z.sgn_pos by lia. generalize dependent (round_ticks (Z.abs n) d). intros r Hr.
    repeat case_match; try done; lia.
Qed.

Lemma signed_round_mono n n' d : 0 < d -> n <= n' -> signed_round n d <= signed_round n' d.
Proof.
  intros Hd Hn. unfold signed_round.
  pose proof (round_ticks_nonneg (Z.abs n) d ltac:(lia) Hd). pose proof (round_ticks_nonneg (Z.abs n') d ltac:(lia) Hd).
  destruct (Z.lt_trichotomy n 0) as [Hs|[->|Hs]].
  - rewrite (Z.sgn_neg n) by lia. destruct (Z.le_gt_cases 0 n') as [Hs'|Hs'].
    + pose proof (Z.sgn_nonneg n'). nia.
    + rewrite (Z.sgn_neg n') by lia. pose proof (round_ticks_mono (Z.abs n') (Z.abs n) d Hd ltac:(lia) ltac:(lia)). lia.
  - simpl. pose proof (Z.sgn_nonneg n'). nia.
  - rewrite !Z.sgn_pos by lia. pose proof (round_ticks_mono (Z.abs n) (Z.abs n') d Hd ltac:(lia) ltac:(lia)). lia.
Qed.

Lemma encode_mono t t' : t <= t' -> dle (encode t) (encode t').
Proof.
  intros Ht. unfold dle, encode. pose proof TICK_pos. assert (0 < 2 ^ 1024 * TICK) as Htop by lia.
  revert Htop. generalize (2 ^ 1024 * TICK). intros top Htop.
  repeat case_match; simpl; try done; lia.
Qed.

Lemma of_ticks_mono n n' d : 0 < d -> n <= n' -> dle (of_ticks n d) (of_ticks n' d).
Proof. intros Hd Hn. rewrite !of_ticks_encode by done. by apply encode_mono, signed_round_mono. Qed.

Lemma of_ticks_number n d : is_NaN (of_ticks n d) = false.
Proof. unfold of_ticks. by case_match. Qed.

Lemma of_ticks_0 d : 0 < d -> of_ticks 0 d = dint 0.
Proof.
  intros Hd. rewrite of_ticks_encode by done. unfold signed_round. simpl Z.sgn. rewrite Z.mul_0_l.
  unfold encode. pose proof TICK_pos. rewrite !(proj2 (Z.leb_gt _ _)) by lia. done.
Qed.

(** ** Sums and products with a fixed operand *)

Definition finite (x : double) : Prop := exists t, x = DFin t.
Definition nonneg (x : double) : Prop := dle (dint 0) x.

Lemma dadd_mono x y z : finite z -> dle x y -> dle (dadd x z) (dadd y z).
Proof.
  intros [c ->]. destruct x as [|[]|a], y as [|[]|b]; try done.
  - simpl. intros _. unfold dle. destruct (of_ticks (b + c) 1) as [| |] eqn:E; try done.
    pose proof (of_ticks_number (b + c) 1) as Hn. by rewrite E in Hn.
  - simpl. intros _. unfold dle. pose proof (of_ticks_number (a + c) 1) as Hn.
    by destruct (of_ticks (a + c) 1) as [|[]|].
  - unfold dle at 1. simpl. intros H%Z.leb_le. apply of_ticks_mono; lia.
Qed.

Lemma dsub_mono x y z : finite z -> dle x y -> dle (dsub x z) (dsub y z).
Proof. intros [c ->] H. unfold dsub. apply dadd_mono; [by eexists|done]. Qed.

Lemma dmul_mono x y r : nonneg r -> finite r -> finite x -> finite y -> dle x y -> dle (dmul x r) (dmul y r).
Proof.
  intros Hr [c ->] [a ->] [b ->] H. unfold dle in *. simpl in *. apply of_ticks_mono; [apply TICK_pos|].
  unfold nonneg, dle in Hr. simpl in Hr. apply Z.leb_le in Hr, H. nia.
Qed.

(** ** Exact results *)

Lemma encode_exact c : Z.abs c < 2 ^ 1024 * TICK -> encode c = DFin c.
Proof. intros H. unfold encode. rewrite !(proj2 (Z.leb_gt _ _)) by lia. done. Qed.

Lemma of_ticks_exact c d : 0 < d -> representable (Z.abs c) -> Z.abs c < 2 ^ 1024 * TICK -> of_ticks (c * d) d = DFin c.
Proof.
  intros Hd Hr Hb. rewrite of_ticks_encode by done. unfold signed_round.
  rewrite Z.abs_mul, (Z.abs_eq d), round_exact, Z.sgn_mul, (Z.sgn_pos d) by (done || lia).
  rewrite Z.mul_1_r, Z.mul_comm, Z.abs_sgn. by apply encode_exact.
Qed.

Lemma integer_representable z : Z.abs z <= 2 ^ 53 -> representable (Z.abs (z * TICK)).
Proof.
  intros Hz. exists (Z.abs z), 1074. split_and!; try lia.
  rewrite Z.abs_mul, (Z.abs_eq TICK) by (pose proof TICK_pos; lia). by rewrite TICK_pow.
Qed.

Lemma integer_finite z : Z.abs z <= 2 ^ 53 -> Z.abs (z * TICK) < 2 ^ 1024 * TICK.
Proof.
  intros Hz. pose proof TICK_pos. rewrite Z.abs_mul, (Z.abs_eq TICK) by lia.
  assert (2 ^ 53 < 2 ^ 1024) by (apply Z.pow_lt_mono_r; lia). nia.
Qed.

Lemma of_ticks_integer z d : 0 < d -> Z.abs z <= 2 ^ 53 -> of_ticks (z * TICK * d) d = dint z.
Proof. intros Hd Hz. apply of_ticks_exact; auto using integer_representable, integer_finite. Qed.

Lemma dadd_dint a b : Z.abs (a + b) <= 2 ^ 53 -> dadd (dint a) (dint b) = dint (a + b).
Proof.
  intros H. unfold dadd, dint at 1 2. rewrite <- (of_ticks_integer (a + b) 1) by (lia || done). f_equal. lia.
Qed.

Lemma dsub_dint a b : Z.abs (a - b) <= 2 ^ 53 -> dsub (dint a) (dint b) = dint (a - b).
Proof.
  intros H. unfold dsub. change (dneg (dint b)) with (DFin (- (b * TICK))).
  rewrite <- Z.mul_opp_l. change (DFin (- b * TICK)) with (dint (- b)). rewrite dadd_dint by lia. f_equal; lia.
Qed.

Lemma dmul_dint a b : Z.abs (a * b) <= 2 ^ 53 -> dmul (dint a) (dint b) = dint (a * b).
Proof.
  intros H. unfold dmul, dint at 1 2. rewrite <- (of_ticks_integer (a * b) TICK) by (apply TICK_pos || done). f_equal; lia.
Qed.

Lemma ddiv_pos_dint a n : 0 < n -> Z.abs a <= 2 ^ 53 -> ddiv_pos (dint (a * n)) n = dint a.
Proof.
  intros Hn H. unfold ddiv_pos, dint at 1. rewrite <- (of_ticks_integer a n) by done. f_equal; lia.
Qed.

Lemma Number_double_dint z : Z.abs z <= 2 ^ 53 -> Number_double z = dint z.
Proof. intros H. unfold Number_double, of_rational. rewrite <- (of_ticks_integer z 1) by (lia || done). f_equal. lia. Qed.

Lemma dleb_dint a b : dleb (dint a) (dint b) = (a <=? b).
Proof. unfold dleb, dint. pose proof TICK_pos. apply eq_iff_eq_true. rewrite !Z.leb_le. nia. Qed.

Lemma dltb_dint a b : dltb (dint a) (dint b) = (a <? b).
Proof. unfold dltb, dint. pose proof TICK_pos. apply eq_iff_eq_true. rewrite !Z.ltb_lt. nia. Qed.

Lemma Math_max_dint a b : Math_max (dint a) (dint b) = dint (Z.max a b).
Proof.
  unfold Math_max. change (is_NaN (dint a) || is_NaN (dint b)) with false. cbv iota. rewrite dleb_dint.
  destruct (Z.leb_spec a b); f_equal; lia.
Qed.
Lemma Math_min_dint a b : Math_min (dint a) (dint b) = dint (Z.min a b).
Proof.
  unfold Math_min. change (is_NaN (dint a) || is_NaN (dint b)) with false. cbv iota. rewrite dleb_dint.
  destruct (Z.leb_spec a b); f_equal; lia.
Qed.

Lemma Math_round_dint z : Math_round (dint z) = dint z.
Proof. apply (Math_round_near (z * TICK) z). pose proof TICK_pos. lia. Qed.

Lemma finite_dint z : finite (dint z).
Proof. by eexists. Qed.

(** ** Quotients *)

Lemma Number_double_mono a b : a <= b -> dle (Number_double a) (Number_double b).
Proof. intros H. apply of_ticks_mono; [lia|]. pose proof TICK_pos. nia. Qed.

Lemma ddiv_pos_mono x y n : 0 < n -> dle x y -> dle (ddiv_pos x n) (ddiv_pos y n).
Proof.
  intros Hn H. destruct x as [|[]|a], y as [|[]|b]; try done; simpl.
  - unfold dle. pose proof (of_ticks_number b n). by destruct (of_ticks b n).
  - unfold dle. pose proof (of_ticks_number a n). by destruct (of_ticks a n) as [|[]|].
  - apply of_ticks_mono; [done|]. unfold dle in H. simpl in H. lia.
Qed.

Lemma ddiv_pos_number x n : is_NaN x = false -> is_NaN (ddiv_pos x n) = false.
Proof. destruct x; simpl; try done. intros _. apply of_ticks_number. Qed.

(** ** Results are doubles *)

Definition is_double (x : double) : Prop := match x with DFin t => representable (Z.abs t) | _ => True end.

Lemma round_representable n d : 0 <= n -> 0 < d -> representable (round_ticks n d).
Proof.
  intros Hn Hd. pose proof (unit_pos n d) as Hu. pose proof (dropped_nonneg (n / d)) as Hk.
  exists (half_even n (d * 2 ^ dropped_bits (n / d))), (dropped_bits (n / d)).
  split; [|split; [done|reflexivity]].
  split; [apply half_even_ge; nia|]. apply half_even_le; [nia|].
  assert (Hq : n / d < 2 ^ 53 * 2 ^ dropped_bits (n / d)).
  { rewrite <- Z.pow_add_r by lia. destruct (Z.eq_dec (n / d) 0) as [->|Hne]; [apply Z.pow_pos_nonneg; [lia|]; unfold dropped_bits; lia|].
    assert (0 < n / d) by (pose proof (Z.div_pos n d Hn Hd); lia).
    apply Z.lt_le_trans with (2 ^ Z.succ (Z.log2 (n / d))); [by apply Z.log2_spec|].
    apply Z.pow_le_mono_r; [lia|]. unfold dropped_bits. lia. }
  pose proof (Z.mod_pos_bound n d Hd). pose proof (Z.div_mod n d). nia.
Qed.

Lemma of_ticks_double n d : 0 < d -> is_double (of_ticks n d).
Proof.
  intros Hd. unfold of_ticks. case_match; [done|]. simpl. rewrite Z.abs_mul.
  pose proof (round_ticks_nonneg (Z.abs n) d ltac:(lia) Hd).
  destruct (Z.eq_dec n 0) as [->|Hn]; [exists 0, 0; simpl; lia|].
  replace (Z.abs (Z.sgn n)) with 1 by lia. rewrite Z.mul_1_l, Z.abs_eq by done.
  apply round_representable; lia.
Qed.

Lemma dint_double z : Z.abs z <= 2 ^ 53 -> is_double (dint z).
Proof. apply integer_representable. Qed.

(** Adding what is not negative does not lower a double. *)
Lemma dadd_ge x y : is_double x -> is_NaN x = false -> nonneg x -> nonneg y -> dle x (dadd x y).
Proof.
  unfold nonneg, dle. destruct x as [|[]|a], y as [|[]|b]; simpl; try done.
  intros Hr _ Ha%Z.leb_le Hb%Z.leb_le.
  destruct (Z.lt_ge_cases (Z.abs a) (2 ^ 1024 * TICK)) as [Hs|Hs].
  - pose proof (of_ticks_mono a (a + b) 1 ltac:(lia) ltac:(lia)) as Hm.
    pose proof (of_ticks_exact a 1 ltac:(lia) Hr Hs) as He. rewrite Z.mul_1_r in He. rewrite He in Hm. exact Hm.
  - unfold of_ticks. rewrite (proj2 (Z.leb_le _ _)).
    + rewrite (proj2 (Z.ltb_ge _ _)) by lia. done.
    + transitivity (Z.abs a); [done|]. apply round_ticks_ge; [lia|done|lia].
Qed.

(** ** Numbers of a size *)

Definition within (B : Z) (x : double) : Prop := dle (dint (- B)) x /\ dle x (dint B).

Lemma within_finite B x : within B x -> finite x.
Proof. intros [H1 H2]. unfold dle in *. destruct x as [|[]|t]; simpl in *; try done. by eexists. Qed.

Lemma within_dint B z : Z.abs z <= B -> within B (dint z).
Proof. intros H. unfold within, dle. rewrite !dleb_dint. lia. Qed.

Lemma within_le B B' x : B <= B' -> within B x -> within B' x.
Proof.
  intros HB [H1 H2]. split; eapply dle_trans; eauto; unfold dle; rewrite dleb_dint; lia.
Qed.

Lemma within_sub B C x y : B + C <= 2 ^ 53 -> 0 <= B -> 0 <= C -> within B x -> within C y -> within (B + C) (dsub x y).
Proof.
  intros HBC HB HC Hx Hy. destruct (within_finite _ _ Hx) as [a ->], (within_finite _ _ Hy) as [b ->].
  destruct Hx as [Hx1 Hx2], Hy as [Hy1 Hy2]. unfold dle, dint in *. simpl in *.
  rewrite Z.leb_le in *. split.
  - rewrite <- (of_ticks_integer (- (B + C)) 1) by lia. apply of_ticks_mono; lia.
  - rewrite <- (of_ticks_integer (B + C) 1) by lia. apply of_ticks_mono; lia.
Qed.

Lemma within_max B x y : within B x -> within B y -> within B (Math_max x y).
Proof.
  intros Hx Hy. destruct (within_finite _ _ Hx) as [a ->], (within_finite _ _ Hy) as [b ->].
  by destruct (Math_max_spec (DFin a) (DFin b) eq_refl eq_refl) as (_ & _ & [-> | ->]).
Qed.
