(* ===== verification/StableSort.v ===== *)
(** * Lists that keep their order

    [stable_sort] is [Array.prototype.sort] for a comparator that orders: sorted,
    a rearrangement, and elements the comparator holds equal stay as they came.
    [omap_all] is a map whose body may throw.  The lemmas on filtering are shared by the components that sort. *)
From S2P Require Import Prelude.
From stdpp Require Import sorting.

(** [map] with a body that may throw: the first error ends it. *)
Fixpoint omap_all {A B} (f : A -> outcome B) (xs : list A) : outcome (list B) :=
  match xs with
  | [] => Returns []
  | x :: xs => let? y := f x in let? ys := omap_all f xs in Returns (y :: ys)
  end.

Section sort.
Context {A : Type} (le : A -> A -> bool). (* [comparator(a, b) <= 0] *)

Fixpoint insert_by (x : A) (l : list A) : list A :=
  match l with
  | [] => [x]
  | y :: l' => if le x y then x :: l else y :: insert_by x l'
  end.

Definition stable_sort (l : list A) : list A := fold_right insert_by [] l.

Lemma insert_by_perm x l : insert_by x l ≡ₚ x :: l.
Proof.
  induction l as [|y l IH]; simpl; [done|]. destruct (le x y); [done|].
  rewrite IH. apply Permutation_swap.
Qed.

Lemma stable_sort_perm l : stable_sort l ≡ₚ l.
Proof. induction l as [|x l IH]; simpl; [done|]. by rewrite insert_by_perm, IH. Qed.

(** The comparator orders the elements that satisfy [P]. *)
Context (P : A -> Prop).
Context (total : forall x y, P x -> P y -> le x y = true \/ le y x = true).
Context (trans : forall x y z, P x -> P y -> P z -> le x y = true -> le y z = true -> le x z = true).

Lemma insert_by_Forall x l : P x -> Forall P l -> Forall P (insert_by x l).
Proof. intros Hx Hl. rewrite insert_by_perm. by constructor. Qed.

Lemma insert_by_sorted x l : P x -> Forall P l ->
  StronglySorted (fun a b => le a b = true) l -> StronglySorted (fun a b => le a b = true) (insert_by x l).
Proof.
  intros Hx HP Hs. induction Hs as [|y l Hl IH Hy]; simpl; [repeat constructor|].
  inversion HP as [|? ? Py Pl]; subst. destruct (le x y) eqn:Hxy.
  - constructor; [by constructor|]. constructor; [done|].
    rewrite list.Forall_forall in Hy, Pl |- *. intros z Hz. apply (trans x y z); auto.
  - constructor; [by apply IH|]. rewrite insert_by_perm. constructor; [|done].
    destruct (total x y Hx Py) as [H|H]; [congruence|done].
Qed.

Lemma stable_sort_Forall l : Forall P l -> Forall P (stable_sort l).
Proof. by rewrite stable_sort_perm. Qed.

Lemma stable_sort_sorted l : Forall P l -> StronglySorted (fun a b => le a b = true) (stable_sort l).
Proof.
  induction 1 as [|x l Hx Hl IH]; simpl; [constructor|].
  apply insert_by_sorted; [done|by apply stable_sort_Forall|done].
Qed.

Lemma insert_by_class x l v : P x -> P v -> Forall P l ->
  StronglySorted (fun a b => le a b = true) l ->
  let same y := le v y && le y v in
  List.filter same (insert_by x l) = List.filter same (x :: l).
Proof.
  intros Hx Hv HP Hs same. induction Hs as [|y l Hl IH Hy]; simpl; [done|].
  inversion HP as [|? ? Py Pl]; subst.
  destruct (le x y) eqn:Hxy; [done|]. simpl. rewrite (IH Pl). simpl.
  destruct (same y) eqn:Hsy, (same x) eqn:Hsx; try done. exfalso.
  unfold same in *. apply andb_prop in Hsy as [Hvy Hyv], Hsx as [Hvx Hxv].
  rewrite (trans x v y) in Hxy by done. done.
Qed.

(** Elements equal to [v] keep their order. *)
Lemma stable_sort_class l v : P v -> Forall P l ->
  let same y := le v y && le y v in
  List.filter same (stable_sort l) = List.filter same l.
Proof.
  intros Hv HP same. induction HP as [|x l Hx Hl IH]; [done|]. cbn [stable_sort fold_right].
  etransitivity; [apply (insert_by_class x _ v Hx Hv (stable_sort_Forall l Hl) (stable_sort_sorted l Hl))|].
  cbn [List.filter].
  change (le v x && le x v) with (same x). destruct (same x); [f_equal|]; apply IH.
Qed.
End sort.

(** ** Filters *)

Lemma filter_perm {A} (f : A -> bool) l l' : l ≡ₚ l' -> List.filter f l ≡ₚ List.filter f l'.
Proof. induction 1; simpl; repeat case_match; eauto using Permutation. Qed.

Lemma sorted_filter {A} (R R' : A -> A -> Prop) (f : A -> bool) l :
  (forall a b, f a = true -> f b = true -> R a b -> R' a b) ->
  StronglySorted R l -> StronglySorted R' (List.filter f l).
Proof.
  intros HR. induction 1 as [|a l Hl IH Ha]; simpl; [constructor|].
  destruct (f a) eqn:Hfa; [|done]. constructor; [done|].
  apply List.Forall_forall. intros b [Hb Hfb]%filter_In.
  apply HR; [done|done|]. by eapply List.Forall_forall in Ha.
Qed.

Lemma map_inj_NoDup {A B} (f : A -> B) l a b :
  List.NoDup (map f l) -> In a l -> In b l -> f a = f b -> a = b.
Proof.
  induction l as [|c l IH]; simpl; [done|]. intros Hn [->|Ha] [->|Hb] Hf; try done.
  - inversion Hn as [|? ? Hnot]. destruct Hnot. rewrite Hf. by apply in_map.
  - inversion Hn as [|? ? Hnot]. destruct Hnot. rewrite <- Hf. by apply in_map.
  - inversion Hn. by apply IH.
Qed.

(** ** Maps that may throw *)

Lemma omap_all_length {A B} (f : A -> outcome B) xs ys :
  omap_all f xs = Returns ys -> length ys = length xs.
Proof.
  revert ys; induction xs as [|x xs IH]; intros ys; simpl; [intros [=<-]; done|].
  destruct (f x); simpl; [|done]. destruct (omap_all f xs); simpl; [|done].
  intros [=<-]. simpl. auto.
Qed.

Lemma omap_all_returns {A B} (f : A -> outcome B) xs :
  Forall (fun x => is_returns (f x) = true) xs -> exists ys, omap_all f xs = Returns ys.
Proof.
  induction 1 as [|x xs Hx _ [ys IH]]; simpl; [eauto|].
  destruct (f x); [|done]. simpl. rewrite IH. simpl. eauto.
Qed.

Lemma omap_all_Forall2 {A B} (f : A -> outcome B) xs ys :
  omap_all f xs = Returns ys -> Forall2 (fun x y => f x = Returns y) xs ys.
Proof.
  revert ys; induction xs as [|x xs IH]; intros ys; simpl; [intros [=<-]; constructor|].
  destruct (f x) eqn:Hf; simpl; [|done]. destruct (omap_all f xs); simpl; [|done].
  intros [=<-]. constructor; auto.
Qed.
