(* ===== verification/StreamId.v ===== *)
(** * On-chain stream identifiers: backend/src/lib/stream-id.ts

    [parseStreamId] reads an identifier from a request, [streamIdToJson] is the
    encoding installed as [BigInt.prototype.toJSON], and [JSON_stringify] is
    [JSON.stringify] under that encoding. *)
From S2P Require Import Prelude JsLang.
Local Open Scope Z_scope.
Set Warnings "-register-all".

(** A value of type [unknown], as far as [parseStreamId] tells values apart. *)
Inductive RawId :=
| RawBigint (b : Z)
| RawNumber (x : num)
| RawFraction (* a number that is not an integer *)
| RawString (s : string)
| RawOther.

Definition parseStreamId (raw : RawId) : option Z :=
  match raw with
  | RawBigint b => if 0 <=? b then Some b else None
  | RawNumber (Fin x) =>
      if (x <? 0) || negb (isSafeInteger (Fin x)) then None else Some x
  | RawNumber _ | RawFraction => None
  | RawString s =>
      let trimmed := trim s in
      if digits_only trimmed then string_to_bigint trimmed else None
  | RawOther => None
  end.

(** The number or string that stands for a bigint in JSON. *)
Inductive JsonId := IdNumber (x : num) | IdString (s : string).

Definition streamIdToJson (streamId : Z) : JsonId :=
  let asNumber := Number_of_bigint streamId in
  if isSafeInteger asNumber then IdNumber asNumber else IdString (BigInt_toString streamId).

(** What a client that echoes the JSON value sends back. *)
Definition raw_of_json (j : JsonId) : RawId :=
  match j with IdNumber x => RawNumber x | IdString s => RawString s end.

(** ** JSON *)

Inductive Json :=
| JNull
| JUndefined (* dropped from objects *)
| JBool (b : bool)
| JNumber (n : Z)
| JBigint (b : Z)
| JString (s : string)
| JArray (xs : list Json)
| JObject (fields : list (string * Json)).

Definition hex_char (d : Z) : Ascii.ascii :=
  Ascii.ascii_of_nat (Z.to_nat (if d <? 10 then 48 + d else 87 + d)).

Definition json_escape_char (c : Ascii.ascii) : string :=
  let x := code c in
  if x =? 34 then String "\"%char (String c EmptyString)
  else if x =? 92 then String c (String c EmptyString)
  else if x =? 8 then "\b"
  else if x =? 9 then "\t"
  else if x =? 10 then "\n"
  else if x =? 12 then "\f"
  else if x =? 13 then "\r"
  else if x <? 32 then "\u00" +:+ String (hex_char (x / 16)) (String (hex_char (x mod 16)) EmptyString)
  else String c EmptyString.

Fixpoint json_escape (s : string) : string :=
  match s with
  | EmptyString => EmptyString
  | String c s' => json_escape_char c +:+ json_escape s'
  end.

Definition dquote : string := String (Ascii.ascii_of_nat 34) EmptyString.
Definition json_quote (s : string) : string := dquote +:+ json_escape s +:+ dquote.

Definition json_id (j : JsonId) : string :=
  match j with
  | IdNumber (Fin z) => BigInt_toString z
  | IdNumber _ => "null"
  | IdString s => json_quote s
  end.

Fixpoint join (sep : string) (xs : list string) : string :=
  match xs with
  | [] => EmptyString
  | [x] => x
  | x :: xs' => x +:+ sep +:+ join sep xs'
  end.

(** [JSON.stringify], for numbers that are safe integers. *)
Fixpoint JSON_stringify (j : Json) : string :=
  match j with
  | JNull | JUndefined => "null"
  | JBool b => if b then "true" else "false"
  | JNumber n => BigInt_toString n
  | JBigint b => json_id (streamIdToJson b)
  | JString s => json_quote s
  | JArray xs => "[" +:+ join "," (map JSON_stringify xs) +:+ "]"
  | JObject fields =>
      let field (kv : string * Json) : list string :=
        let '(k, v) := kv in
        match v with
        | JUndefined => []
        | _ => [json_quote k +:+ ":" +:+ JSON_stringify v]
        end in
      "{" +:+ join "," (concat (map field fields)) +:+ "}"
  end.

(** ** Facts *)

Lemma parseStreamId_digits s :
  digits_only s = true -> parseStreamId (RawString s) = parse_digits 0 s.
Proof.
  intros H. unfold parseStreamId. rewrite trim_digits by (by destruct s).
  by rewrite H, string_to_bigint_digits.
Qed.

Lemma parse_digits_nonneg v s z : 0 <= v -> parse_digits v s = Some z -> 0 <= z.
Proof.
  revert v. induction s as [|c s IH]; simpl; intros v Hv Hz; [by simplify_eq|].
  case_match; [|done]. eapply IH; [|exact Hz].
  unfold is_digit, digit_val in *. lia.
Qed.

(** Every identifier the parser accepts is non-negative. *)
Lemma parseStreamId_nonneg raw z : parseStreamId raw = Some z -> 0 <= z.
Proof.
  destruct raw as [b|[| x | |]| |s|]; simpl; intros H; cases.
  - lia.
  - lia.
  - rewrite string_to_bigint_digits in H by done. by eapply parse_digits_nonneg in H.
Qed.

(** An identifier of any size survives the trip to a client and back: the
    JSON value [streamIdToJson] produces is read by [parseStreamId] as the same
    integer, whether it was small enough to travel as a number or had to travel
    as a decimal string. *)
Theorem streamId_roundtrip id :
  0 <= id -> parseStreamId (raw_of_json (streamIdToJson id)) = Some id.
Proof.
  intros Hid. unfold streamIdToJson. case_match eqn:Hs.
  - apply Number_isSafe in Hs. rewrite Number_safe by done. simpl.
    apply Z.leb_le in Hs. unfold MAX_SAFE_INTEGER in *. rewrite Hs.
    case (Z.ltb_spec id 0); [lia|done].
  - simpl raw_of_json. unfold BigInt_toString.
    case (Z.ltb_spec id 0); intros; [lia|].
    rewrite parseStreamId_digits by by apply nat_digits_only. by apply parse_nat_digits.
Qed.

Lemma streamId_roundtrip_witness :
  0 <= 18446744073709551615 /\
  parseStreamId (raw_of_json (streamIdToJson 18446744073709551615)) = Some 18446744073709551615.
Proof. split; [lia|]. apply (streamId_roundtrip 18446744073709551615). lia. Defined.
