(* ===== verification/Json.v ===== *)
(** * [JSON.parse], on the texts [JSON.stringify] produces

    A recursive-descent parser with fuel for the grammar of objects, arrays,
    strings with escapes, integers and the three literals.  Fractions, exponents
    and escapes above U+007F, which [JSON_stringify] never writes, are refused.
    [JSON_parse_stringify] is the round trip for the values JSON can carry. *)
From S2P Require Import Prelude JsLang StreamId.
Local Open Scope Z_scope.

Fixpoint skip_ws (s : string) : string :=
  match s with
  | String c s' =>
      if (code c =? 32) || (code c =? 9) || (code c =? 10) || (code c =? 13)
      then skip_ws s' else s
  | EmptyString => EmptyString
  end.

(** The character after a backslash, for the one-letter escapes. *)
Definition unescape (c : Ascii.ascii) : option Ascii.ascii :=
  let x := code c in
  if (x =? 34) || (x =? 92) || (x =? 47) then Some c
  else if x =? 98 then Some (Ascii.ascii_of_nat 8)
  else if x =? 116 then Some (Ascii.ascii_of_nat 9)
  else if x =? 110 then Some (Ascii.ascii_of_nat 10)
  else if x =? 102 then Some (Ascii.ascii_of_nat 12)
  else if x =? 114 then Some (Ascii.ascii_of_nat 13)
  else None.

Definition hex4 (a b c d : Ascii.ascii) : option Z :=
  match hex_val a, hex_val b, hex_val c, hex_val d with
  | Some a, Some b, Some c, Some d => Some (((a * 16 + b) * 16 + c) * 16 + d)
  | _, _, _, _ => None
  end.

Definition prepend (c : Ascii.ascii) (r : option (string * string)) : option (string * string) :=
  match r with Some (s, rest) => Some (String c s, rest) | None => None end.

(** The rest of a string literal after its opening quote. *)
Fixpoint parse_string (s : string) : option (string * string) :=
  match s with
  | EmptyString => None
  | String c s1 =>
      let x := code c in
      if x =? 34 then Some (EmptyString, s1)
      else if x <? 32 then None
      else if x =? 92 then
        match s1 with
        | EmptyString => None
        | String e s2 =>
            if code e =? 117 then
              match s2 with
              | String h1 (String h2 (String h3 (String h4 s3))) =>
                  match hex4 h1 h2 h3 h4 with
                  | Some v =>
                      if v <? 128
                      then prepend (Ascii.ascii_of_nat (Z.to_nat v)) (parse_string s3)
                      else None
                  | None => None
                  end
              | _ => None
              end
            else
              match unescape e with
              | Some c' => prepend c' (parse_string s2)
              | None => None
              end
        end
      else prepend c (parse_string s1)
  end.

(** The digits at the front of a text, and what follows them. *)
Fixpoint span_digits (s : string) : string * string :=
  match s with
  | String c s' =>
      if is_digit c then let '(d, r) := span_digits s' in (String c d, r) else (EmptyString, s)
  | EmptyString => (EmptyString, EmptyString)
  end.

(** Strip a literal word. *)
Fixpoint strip (p s : string) : option string :=
  match p, s with
  | EmptyString, _ => Some s
  | String a p', String b s' => if Ascii.eqb a b then strip p' s' else None
  | _, _ => None
  end.

Definition parse_int (neg : bool) (s : string) : option (Json * string) :=
  let '(d, rest) := span_digits s in
  if digits_only d then
    match parse_digits 0 d with
    | Some n => Some (JNumber (if neg then - n else n), rest)
    | None => None
    end
  else None.

Definition parse_literal (s : string) : option (Json * string) :=
  match strip "null" s, strip "true" s, strip "false" s with
  | Some r, _, _ => Some (JNull, r)
  | _, Some r, _ => Some (JBool true, r)
  | _, _, Some r => Some (JBool false, r)
  | _, _, _ => None
  end.

Section Containers.
Variable value : string -> option (Json * string).

(** The elements of an array after its bracket, up to the closing one. *)
Fixpoint parse_elements (fuel : nat) (s : string) : option (list Json * string) :=
  match fuel with
  | O => None
  | S fuel' =>
      match value s with
      | Some (v, r) =>
          match skip_ws r with
          | String c r' =>
              if code c =? 44 then
                match parse_elements fuel' r' with
                | Some (vs, r'') => Some (v :: vs, r'')
                | None => None
                end
              else if code c =? 93 then Some ([v], r') else None
          | EmptyString => None
          end
      | None => None
      end
  end.

Fixpoint parse_members (fuel : nat) (s : string) : option (list (string * Json) * string) :=
  match fuel with
  | O => None
  | S fuel' =>
      match skip_ws s with
      | String q s1 =>
          if code q =? 34 then
            match parse_string s1 with
            | Some (k, s2) =>
                match skip_ws s2 with
                | String col s3 =>
                    if code col =? 58 then
                      match value s3 with
                      | Some (v, r) =>
                          match skip_ws r with
                          | String c r' =>
                              if code c =? 44 then
                                match parse_members fuel' r' with
                                | Some (kvs, r'') => Some ((k, v) :: kvs, r'')
                                | None => None
                                end
                              else if code c =? 125 then Some ([(k, v)], r') else None
                          | EmptyString => None
                          end
                      | None => None
                      end
                    else None
                | EmptyString => None
                end
            | None => None
            end
          else None
      | EmptyString => None
      end
  end.
End Containers.

Fixpoint parse_value (fuel : nat) (s : string) : option (Json * string) :=
  match fuel with
  | O => None
  | S fuel' =>
      match skip_ws s with
      | EmptyString => None
      | String c s1 =>
          let x := code c in
          if x =? 34 then
            match parse_string s1 with Some (k, r) => Some (JString k, r) | None => None end
          else if x =? 45 then parse_int true s1
          else if is_digit c then parse_int false (String c s1)
          else if x =? 91 then
            match skip_ws s1 with
            | String d r =>
                if code d =? 93 then Some (JArray [], r)
                else
                  match parse_elements (parse_value fuel') fuel' s1 with
                  | Some (vs, r) => Some (JArray vs, r)
                  | None => None
                  end
            | EmptyString => None
            end
          else if x =? 123 then
            match skip_ws s1 with
            | String d r =>
                if code d =? 125 then Some (JObject [], r)
                else
                  match parse_members (parse_value fuel') fuel' s1 with
                  | Some (kvs, r) => Some (JObject kvs, r)
                  | None => None
                  end
            | EmptyString => None
            end
          else parse_literal (String c s1)
      end
  end.

(** A text of [n] characters nests and lists fewer than [n] values. *)
Definition JSON_parse (s : string) : outcome Json :=
  match parse_value (S (String.length s)) s with
  | Some (j, rest) =>
      match skip_ws rest with EmptyString => Returns j | _ => Throws SyntaxErr end
  | None => Throws SyntaxErr
  end.

(** The last member of that name, as a repeated name is assigned again. *)
Definition member (k : string) (j : Json) : Json :=
  match j with
  | JObject fields =>
      fold_left (fun acc kv => if bool_decide (kv.1 = k) then kv.2 else acc) fields JUndefined
  | _ => JUndefined
  end.

(** Values that JSON text carries unchanged. *)
Fixpoint carried (j : Json) : bool :=
  match j with
  | JNull | JBool _ | JNumber _ | JString _ => true
  | JUndefined | JBigint _ => false
  | JArray xs => forallb carried xs
  | JObject fields => forallb (fun kv => carried kv.2) fields
  end.

(** ** Parsing what was printed *)

Lemma app_string_assoc (a b c : string) : (a +:+ b) +:+ c = a +:+ b +:+ c.
Proof. induction a as [|x a IH]; [done|]. exact (f_equal (String x) IH). Qed.

Lemma length_app_string (a b : string) :
  String.length (a +:+ b) = (String.length a + String.length b)%nat.
Proof. induction a as [|x a IH]; simpl; [done|by rewrite IH]. Qed.

Lemma parse_escape_char c t : parse_string (json_escape_char c +:+ t) = prepend c (parse_string t).
Proof. destruct c as [[] [] [] [] [] [] [] []]; reflexivity. Qed.

Lemma parse_string_escape s rest :
  parse_string (json_escape s +:+ dquote +:+ rest) = Some (s, rest).
Proof.
  induction s as [|c s IH]; [done|]. simpl json_escape.
  by rewrite app_string_assoc, parse_escape_char, IH.
Qed.

(** A text that does not go on with a digit. *)
Definition stops (s : string) : bool :=
  match s with String c _ => negb (is_digit c) | EmptyString => true end.

Lemma span_digits_app d rest :
  all_digits d = true -> stops rest = true -> span_digits (d +:+ rest) = (d, rest).
Proof.
  induction d as [|c d IH]; simpl; intros Hd Hr.
  - destruct rest as [|c r]; simpl in *; [done|]. by destruct (is_digit c).
  - apply andb_prop in Hd as [-> Hd]. by rewrite IH.
Qed.

Lemma parse_int_digits neg n rest :
  0 <= n -> stops rest = true ->
  parse_int neg (nat_digits n +:+ rest) = Some (JNumber (if neg then - n else n), rest).
Proof.
  intros Hn Hr. pose proof (nat_digits_only n Hn) as Hd. unfold parse_int.
  rewrite span_digits_app; [|by destruct (nat_digits n)|done].
  by rewrite Hd, parse_nat_digits.
Qed.

(** The first character of a printed value settles how it is read. *)
Lemma skip_ws_head c s :
  code c <> 32 -> code c <> 9 -> code c <> 10 -> code c <> 13 ->
  skip_ws (String c s) = String c s.
Proof. intros. simpl. repeat (case (Z.eqb_spec (code c) _); intros; [done|]). done. Qed.

Lemma nat_digits_head n : 0 <= n -> exists c s, nat_digits n = String c s /\ is_digit c = true.
Proof.
  intros Hn. pose proof (nat_digits_only n Hn) as H.
  destruct (nat_digits n) as [|c s]; [done|]. apply andb_prop in H as [? _]. eauto.
Qed.

(** Printed values start with neither white space nor a closing bracket. *)
Lemma stringify_head j :
  carried j = true ->
  exists c s, JSON_stringify j = String c s /\ (forall t, skip_ws (String c t) = String c t) /\
              code c <> 93.
Proof.
  destruct j as [| |b|n|z|s|xs|fs]; intros Hj; try done; simpl.
  - by eexists _, _.
  - destruct b; by eexists _, _.
  - unfold BigInt_toString. case (Z.ltb_spec n 0); intros Hn; [by eexists _, _|].
    destruct (nat_digits_head n) as (c & s & -> & Hc); [lia|].
    unfold is_digit in Hc. eexists _, _; split_and!; [done| |lia].
    intros t. apply skip_ws_head; lia.
  - by eexists _, _.
  - by eexists _, _.
  - by eexists _, _.
Qed.

Lemma Json_nested_ind (P : Json -> Prop) :
  P JNull -> P JUndefined -> (forall b, P (JBool b)) -> (forall n, P (JNumber n)) ->
  (forall b, P (JBigint b)) -> (forall s, P (JString s)) ->
  (forall xs, Forall P xs -> P (JArray xs)) ->
  (forall fs, Forall (fun kv : string * Json => P kv.2) fs -> P (JObject fs)) ->
  forall j, P j.
Proof.
  intros Hnull Hundef Hbool Hnum Hbig Hstr Harr Hobj.
  fix IH 1. intros [| |b|n|z|s|xs|fs]; [clear IH; by auto..| |].
  - apply Harr. induction xs; constructor; auto.
  - apply Hobj. induction fs; constructor; auto.
Qed.

(** Enough fuel to read the text of [j]. *)
Definition reads (value : string -> option (Json * string)) (j : Json) : Prop :=
  forall rest, stops rest = true -> value (JSON_stringify j +:+ rest) = Some (j, rest).

Lemma parse_elements_stringify value xs fuel rest :
  Forall (reads value) xs -> xs <> [] -> (length xs <= fuel)%nat ->
  parse_elements value fuel (join "," (map JSON_stringify xs) +:+ "]" +:+ rest) =
  Some (xs, rest).
Proof.
  intros Hr Hne. revert fuel. induction Hr as [|x xs Hx Hxs IH]; intros fuel Hf; [done|].
  destruct fuel as [|fuel]; simpl in Hf; [lia|].
  destruct xs as [|y xs].
  - simpl. rewrite Hx; done.
  - change (join _ _) with (JSON_stringify x +:+ "," +:+ join "," (map JSON_stringify (y :: xs))).
    rewrite !app_string_assoc. simpl parse_elements. rewrite Hx by done.
    simpl. simpl in IH, Hf. rewrite IH; [done|done|lia].
Qed.

Definition member_text (kv : string * Json) : string :=
  json_quote kv.1 +:+ ":" +:+ JSON_stringify kv.2.

Lemma parse_quoted s rest :
  exists t, json_quote s +:+ rest = String (Ascii.ascii_of_nat 34) t /\
            parse_string t = Some (s, rest).
Proof.
  exists (json_escape s +:+ dquote +:+ rest). split; [|apply parse_string_escape].
  unfold json_quote. by rewrite !app_string_assoc.
Qed.

(** One member, up to the comma or brace after it. *)
Lemma parse_member value k v c rest fuel :
  reads value v -> is_digit c = false -> skip_ws (String c rest) = String c rest ->
  parse_members value (S fuel) (member_text (k, v) +:+ String c rest) =
  if code c =? 44 then
    match parse_members value fuel rest with
    | Some (kvs, r) => Some ((k, v) :: kvs, r)
    | None => None
    end
  else if code c =? 125 then Some ([(k, v)], rest) else None.
Proof.
  intros Hv Hc Hws. unfold member_text. simpl fst; simpl snd. rewrite !app_string_assoc.
  destruct (parse_quoted k (":" +:+ JSON_stringify v +:+ String c rest)) as (t & -> & Ht).
  simpl parse_members. rewrite Ht. simpl.
  change ("" +:+ ?s) with s. rewrite Hv by (simpl; by rewrite Hc). by rewrite Hws.
Qed.

Lemma parse_members_stringify value fs fuel rest :
  Forall (fun kv => reads value kv.2) fs -> fs <> [] -> (length fs <= fuel)%nat ->
  parse_members value fuel (join "," (map member_text fs) +:+ "}" +:+ rest) = Some (fs, rest).
Proof.
  intros Hr Hne. revert fuel. induction Hr as [|[k v] fs Hx Hxs IH]; intros fuel Hf; [done|].
  destruct fuel as [|fuel]; simpl in Hf; [lia|]. simpl in Hx.
  destruct fs as [|kv fs].
  - by apply parse_member.
  - change (join _ _) with (member_text (k, v) +:+ "," +:+ join "," (map member_text (kv :: fs))).
    rewrite !app_string_assoc. etrans; [by apply parse_member|]. simpl in *.
    change ("" +:+ ?s) with s. rewrite IH; [done|done|lia].
Qed.

Lemma join_bounds sep ts :
  sep <> "" ->
  Forall (fun t => String.length t <= String.length (join sep ts))%nat ts /\
  (length ts <= S (String.length (join sep ts)))%nat.
Proof.
  intros Hsep. assert (0 < String.length sep)%nat by (destruct sep; simpl; [done|lia]).
  induction ts as [|t [|t' ts] [IH1 IH2]]; [split; [constructor|simpl; lia]|..].
  - split; [by repeat constructor|simpl; lia].
  - change (join sep (t :: t' :: ts)) with (t +:+ sep +:+ join sep (t' :: ts)).
    rewrite !length_app_string. split; [|simpl in *; lia].
    constructor; [lia|]. revert IH1. apply Forall_impl. intros. lia.
Qed.

Lemma stringify_object fs :
  forallb (fun kv => carried kv.2) fs = true ->
  JSON_stringify (JObject fs) = "{" +:+ join "," (map member_text fs) +:+ "}".
Proof.
  intros Hc. change (JSON_stringify (JObject fs)) with ("{" +:+ join "," (concat (map (fun kv : string * Json =>
    let '(k, v) := kv in match v with JUndefined => []
      | _ => [json_quote k +:+ ":" +:+ JSON_stringify v] end) fs)) +:+ "}").
  do 3 f_equal. induction fs as [|[k v] fs IH]; [done|]. simpl in Hc.
  apply andb_prop in Hc as [Hv Hfs]. simpl. rewrite IH by done. by destruct v.
Qed.

Lemma join_head sep t ts : exists u, join sep (t :: ts) = t +:+ u.
Proof.
  destruct ts as [|t' ts]; [|by eexists]. exists "". simpl. clear. induction t; [done|].
  exact (f_equal (String _) IHt).
Qed.

(** More fuel than the text has characters is enough. *)
Definition enough (j : Json) : Prop :=
  forall fuel, (String.length (JSON_stringify j) < fuel)%nat -> reads (parse_value fuel) j.

(** The fuel left for the items of a container reaches each of them. *)
Lemma container_reads {A} (text : A -> string) (item : A -> Json) (xs : list A) fuel :
  Forall (fun x => enough (item x)) xs ->
  (forall x, String.length (JSON_stringify (item x)) <= String.length (text x))%nat ->
  (S (String.length (join "," (map text xs))) <= fuel)%nat ->
  Forall (fun x => reads (parse_value fuel) (item x)) xs /\ (length xs <= fuel)%nat.
Proof.
  intros IH Htext Hf. destruct (join_bounds "," (map text xs)) as [Hj1 Hj2]; [done|].
  rewrite length_map in Hj2. split; [|lia].
  rewrite Forall_map in Hj1. pose proof (Forall_and IH Hj1) as H. revert H.
  apply Forall_impl. intros x [Hx Hlen]. simpl in Hlen. apply Hx. specialize (Htext x). lia.
Qed.

Lemma carried_Forall {A} (item : A -> Json) (P : Json -> Prop) xs :
  Forall (fun x => carried (item x) = true -> P (item x)) xs ->
  forallb (fun x => carried (item x)) xs = true -> Forall (fun x => P (item x)) xs.
Proof.
  induction 1 as [|x xs Hx _ IH]; simpl; [constructor|].
  intros [Hc Hcs]%andb_prop. constructor; auto.
Qed.

Lemma parse_array xs :
  Forall (fun j => carried j = true -> enough j) xs -> carried (JArray xs) = true ->
  enough (JArray xs).
Proof.
  intros IH Hc [|fuel] Hf rest Hrest; [lia|].
  simpl JSON_stringify in *. rewrite !length_app_string in Hf. simpl in Hf.
  destruct (container_reads JSON_stringify (fun x => x) xs fuel) as [Hreads Hlen];
    [by apply (carried_Forall (fun x => x) enough)|done|lia|].
  destruct xs as [|x xs]; [done|].
  pose proof (parse_elements_stringify _ _ fuel rest Hreads ltac:(done) Hlen) as Hp.
  destruct (join_head "," (JSON_stringify x) (map JSON_stringify xs)) as [u Hu].
  simpl in Hc. apply andb_prop in Hc as [Hx _].
  destruct (stringify_head x Hx) as (c & s & Hs & Hws & H93).
  simpl map in *. rewrite !app_string_assoc, Hu, Hs in *. simpl in *.
  rewrite Hws. case (Z.eqb_spec (code c) 93); intros; [done|].
  change ("" +:+ ?t) with t. by rewrite Hp.
Qed.

Lemma parse_object fs :
  Forall (fun kv : string * Json => carried kv.2 = true -> enough kv.2) fs ->
  carried (JObject fs) = true -> enough (JObject fs).
Proof.
  intros IH Hc [|fuel] Hf rest Hrest; [lia|]. rewrite stringify_object in * by done.
  rewrite !length_app_string in Hf. simpl in Hf.
  destruct (container_reads member_text snd fs fuel) as [Hreads Hlen];
    [by apply (carried_Forall snd enough)| |lia|].
  { intros kv. unfold member_text. rewrite !length_app_string. lia. }
  destruct fs as [|kv fs]; [done|].
  pose proof (parse_members_stringify _ _ fuel rest Hreads ltac:(done) Hlen) as Hp.
  destruct (join_head "," (member_text kv) (map member_text fs)) as [u Hu].
  simpl map in *. rewrite !app_string_assoc, Hu in *.
  unfold member_text in *. rewrite !app_string_assoc in *.
  destruct (parse_quoted kv.1 (":" +:+ JSON_stringify kv.2 +:+ u +:+ "}" +:+ rest))
    as (t & Ht & _). rewrite Ht in *.
  simpl in *. change ("" +:+ ?t) with t. by rewrite Hp.
Qed.

Lemma parse_value_stringify j : carried j = true -> enough j.
Proof.
  induction j as [| |b|n|b|s|xs IH|fs IH] using Json_nested_ind; intros Hc;
    [..|by apply parse_array|by apply parse_object];
    intros [|fuel] Hf rest Hrest; try done; try lia.
  - by destruct b.
  - simpl JSON_stringify. unfold BigInt_toString. case (Z.ltb_spec n 0); intros Hn.
    + simpl. etrans; [apply parse_int_digits; [lia|done]|]. do 3 f_equal. lia.
    + destruct (nat_digits_head n) as (c & s & E & Hd); [lia|].
      rewrite E. change (String c s +:+ rest) with (String c (s +:+ rest)).
      cbn [parse_value]. unfold is_digit in Hd.
      rewrite skip_ws_head by lia. unfold is_digit.
      rewrite Hd. do 2 (case (Z.eqb_spec (code c) _); intros; [lia|]).
      change (String c (s +:+ rest)) with (String c s +:+ rest).
      rewrite <- E. apply parse_int_digits; [lia|done].
  - simpl JSON_stringify. destruct (parse_quoted s rest) as (t & -> & Ht).
    simpl. by rewrite Ht.
Qed.

(** Parsing a printed value gives it back. *)
Lemma JSON_parse_stringify j : carried j = true -> JSON_parse (JSON_stringify j) = Returns j.
Proof.
  intros Hc. unfold JSON_parse.
  pose proof (parse_value_stringify j Hc _ (Nat.lt_succ_diag_r _) "" eq_refl) as H.
  assert (JSON_stringify j +:+ "" = JSON_stringify j) as E.
  { clear. induction (JSON_stringify j) as [|c s IH]; [done|]. exact (f_equal (String c) IH). }
  rewrite E in H. by rewrite H.
Qed.

(** ** What a trip through JSON text makes of a value *)

Fixpoint normalize (j : Json) : Json :=
  match j with
  | JUndefined => JNull
  | JBigint b => match streamIdToJson b with
                 | IdNumber (Fin z) => JNumber z
                 | IdNumber _ => JNull
                 | IdString s => JString s
                 end
  | JArray xs => JArray (map normalize xs)
  | JObject fields =>
      JObject (concat (map (fun kv : string * Json =>
        let '(k, v) := kv in
        match v with JUndefined => [] | _ => [(k, normalize v)] end) fields))
  | _ => j
  end.

Lemma normalize_carried j : carried (normalize j) = true.
Proof.
  induction j as [| |b|n|b|s|xs IH|fs IH] using Json_nested_ind; try done; simpl.
  - by destruct (streamIdToJson b) as [[]|].
  - induction IH as [|x xs Hx _ IH]; [done|]. simpl. by rewrite Hx.
  - induction IH as [|[k v] fs Hv _ IH]; [done|]. simpl.
    destruct v; simpl in *; by rewrite ?Hv.
Qed.

Lemma stringify_normalize j : JSON_stringify (normalize j) = JSON_stringify j.
Proof.
  induction j as [| |b|n|b|s|xs IH|fs IH] using Json_nested_ind; try done.
  - simpl. by destruct (streamIdToJson b) as [[]|].
  - simpl. do 3 f_equal. induction IH as [|x xs Hx _ IH]; [done|]. simpl. by rewrite Hx, IH.
  - pose proof (normalize_carried (JObject fs)) as Hc. simpl normalize in *.
    rewrite stringify_object by done.
    change (JSON_stringify (JObject fs)) with ("{" +:+ join "," (concat (map (fun kv : string * Json =>
      let '(k, v) := kv in match v with JUndefined => []
        | _ => [json_quote k +:+ ":" +:+ JSON_stringify v] end) fs)) +:+ "}").
    do 3 f_equal. clear Hc. induction IH as [|[k v] fs Hv _ IH]; [done|].
    cbn [map concat]. rewrite map_app, IH. f_equal.
    cbn [snd] in Hv. rewrite <- Hv. by destruct v.
Qed.

(** Printing and parsing a value normalises it. *)
Lemma JSON_parse_normalize j : JSON_parse (JSON_stringify j) = Returns (normalize j).
Proof. rewrite <- stringify_normalize. apply JSON_parse_stringify, normalize_carried. Qed.
