(* ===== verification/Schema.v ===== *)
(** * The database: backend/prisma/schema.prisma behind the Prisma client

    The rows are the models of schema.prisma.  The store underneath is not
    ours: [Table] is the interface a keyed table offers (point lookup, write,
    delete, enumeration) with the laws the code relies on, and [PrismaEngine]
    bundles one table per model; every theorem of the development holds for any
    engine.  On top of it come the client operations the code calls, with the
    unique keys, foreign keys and integer widths of the schema as the errors the
    client throws.  [gmap_engine] implements the interface with stdpp's [gmap]. *)
From S2P Require Import Prelude JsLang StreamId.
Local Open Scope Z_scope.

(** ** Rows *)

Record User := { publicKey : string }.

Record Stream := {
  streamId : Z;
  sender : string;
  recipient : string;
  tokenAddress : string;
  ratePerSecond : string;
  depositedAmount : string;
  withdrawnAmount : string;
  startTime : Z;
  lastUpdateTime : Z;
  endTime : option Z;
  isActive : bool;
  isPaused : bool;
  pausedAt : option Z;
  totalPausedDuration : Z;
  updatedAt : Z (* milliseconds *)
}.

Record StreamEvent := {
  ev_streamId : Z;
  ev_eventType : string;
  ev_amount : option string;
  ev_transactionHash : string;
  ev_ledgerSequence : Z;
  ev_timestamp : Z;
  ev_metadata : option string
}.

Record IndexerState := { lastLedger : Z; lastCursor : option string; is_updatedAt : Z }.

Record DeadLetter := {
  dl_id : string;
  dl_eventId : string;
  dl_eventType : string;
  dl_txHash : string;
  dl_ledgerSequence : Z;
  dl_cursor : option string;
  dl_payload : string;
  dl_errorMessage : string;
  dl_attempts : Z;
  dl_lastAttemptAt : Z;
  dl_createdAt : Z
}.

#[export] Instance Stream_eq_dec : EqDecision Stream.
Proof. solve_decision. Defined.
#[export] Instance StreamEvent_eq_dec : EqDecision StreamEvent.
Proof. solve_decision. Defined.

(** Field updates of a [Stream] row, one per column the code writes. *)
Definition set_tokenAddress v r := {|
  streamId := streamId r; sender := sender r; recipient := recipient r;
  tokenAddress := v; ratePerSecond := ratePerSecond r;
  depositedAmount := depositedAmount r; withdrawnAmount := withdrawnAmount r;
  startTime := startTime r; lastUpdateTime := lastUpdateTime r; endTime := endTime r;
  isActive := isActive r; isPaused := isPaused r; pausedAt := pausedAt r;
  totalPausedDuration := totalPausedDuration r; updatedAt := updatedAt r |}.
Definition set_amounts rate dep wd r := {|
  streamId := streamId r; sender := sender r; recipient := recipient r;
  tokenAddress := tokenAddress r; ratePerSecond := rate;
  depositedAmount := dep; withdrawnAmount := wd;
  startTime := startTime r; lastUpdateTime := lastUpdateTime r; endTime := endTime r;
  isActive := isActive r; isPaused := isPaused r; pausedAt := pausedAt r;
  totalPausedDuration := totalPausedDuration r; updatedAt := updatedAt r |}.
Definition set_times st last en r := {|
  streamId := streamId r; sender := sender r; recipient := recipient r;
  tokenAddress := tokenAddress r; ratePerSecond := ratePerSecond r;
  depositedAmount := depositedAmount r; withdrawnAmount := withdrawnAmount r;
  startTime := st; lastUpdateTime := last; endTime := en;
  isActive := isActive r; isPaused := isPaused r; pausedAt := pausedAt r;
  totalPausedDuration := totalPausedDuration r; updatedAt := updatedAt r |}.
Definition set_flags act pau pat tot r := {|
  streamId := streamId r; sender := sender r; recipient := recipient r;
  tokenAddress := tokenAddress r; ratePerSecond := ratePerSecond r;
  depositedAmount := depositedAmount r; withdrawnAmount := withdrawnAmount r;
  startTime := startTime r; lastUpdateTime := lastUpdateTime r; endTime := endTime r;
  isActive := act; isPaused := pau; pausedAt := pat;
  totalPausedDuration := tot; updatedAt := updatedAt r |}.
Definition set_updatedAt v r := {|
  streamId := streamId r; sender := sender r; recipient := recipient r;
  tokenAddress := tokenAddress r; ratePerSecond := ratePerSecond r;
  depositedAmount := depositedAmount r; withdrawnAmount := withdrawnAmount r;
  startTime := startTime r; lastUpdateTime := lastUpdateTime r; endTime := endTime r;
  isActive := isActive r; isPaused := isPaused r; pausedAt := pausedAt r;
  totalPausedDuration := totalPausedDuration r; updatedAt := v |}.

Definition set_depositedAmount v r := set_amounts (ratePerSecond r) v (withdrawnAmount r) r.
Definition set_withdrawnAmount v r := set_amounts (ratePerSecond r) (depositedAmount r) v r.
Definition set_ratePerSecond v r := set_amounts v (depositedAmount r) (withdrawnAmount r) r.
Definition set_startTime v r := set_times v (lastUpdateTime r) (endTime r) r.
Definition set_lastUpdateTime v r := set_times (startTime r) v (endTime r) r.
Definition set_endTime v r := set_times (startTime r) (lastUpdateTime r) v r.
Definition set_isActive v r := set_flags v (isPaused r) (pausedAt r) (totalPausedDuration r) r.
Definition set_isPaused v r := set_flags (isActive r) v (pausedAt r) (totalPausedDuration r) r.
Definition set_pausedAt v r := set_flags (isActive r) (isPaused r) v (totalPausedDuration r) r.
Definition set_totalPausedDuration v r := set_flags (isActive r) (isPaused r) (pausedAt r) v r.

(** ** Integer columns *)

Definition fits_int4 (z : Z) : bool := (- 2 ^ 31 <=? z) && (z <? 2 ^ 31).
Definition fits_int8 (z : Z) : bool := (- 2 ^ 63 <=? z) && (z <? 2 ^ 63).
Definition fits_int8_opt (o : option Z) : bool :=
  match o with None => true | Some z => fits_int8 z end.

(** Every integer column of the row fits its type. *)
Definition stream_fits (r : Stream) : bool :=
  fits_int8 (streamId r) && fits_int8 (startTime r) && fits_int8 (lastUpdateTime r) &&
  fits_int8_opt (endTime r) && fits_int8_opt (pausedAt r) && fits_int4 (totalPausedDuration r).
Definition event_fits (r : StreamEvent) : bool :=
  fits_int8 (ev_streamId r) && fits_int4 (ev_ledgerSequence r) && fits_int8 (ev_timestamp r).

(** Goals and hypotheses about column widths, column by column. *)
Ltac fits :=
  unfold stream_fits, event_fits in *; simpl in *;
  repeat match goal with H : _ && _ = true |- _ => apply andb_true_iff in H as [? ?] end;
  rewrite ?andb_true_iff; split_and?; subst; auto.

(** ** The storage engine *)

Class Table (K R T : Type) `{EqDecision K} := {
  t_find : K -> T -> option R;
  t_put : K -> R -> T -> T;
  t_del : K -> T -> T;
  t_rows : T -> list (K * R);
  t_find_put : forall k r t k',
    t_find k' (t_put k r t) = if decide (k = k') then Some r else t_find k' t;
  t_find_del : forall k t k',
    t_find k' (t_del k t) = if decide (k = k') then None else t_find k' t;
  t_rows_spec : forall k r t, (k, r) ∈ t_rows t <-> t_find k t = Some r;
  t_rows_nodup : forall t, NoDup (t_rows t).*1
}.

Class PrismaEngine := {
  UserTable : Type;
  user_table :: Table string User UserTable;
  StreamTable : Type;
  stream_table :: Table Z Stream StreamTable;
  EventTable : Type;
  event_table :: Table (string * string) StreamEvent EventTable;
  DeadLetterTable : Type;
  deadLetter_table :: Table (string * string) DeadLetter DeadLetterTable;
  (** the [n]-th identifier drawn by [@default(uuid())] *)
  uuid : nat -> string;
  uuid_inj : forall n m, uuid n = uuid m -> n = m;
  (** the text of a client error *)
  prisma_message : PrismaCode -> string
}.

Section World.
Context {P : PrismaEngine}.

Record DB := {
  users : UserTable;
  streams : StreamTable;
  events : EventTable;
  indexerState : option IndexerState;
  deadLetters : DeadLetterTable;
  uuids_drawn : nat
}.

Definition set_users v d := {| users := v; streams := streams d; events := events d;
  indexerState := indexerState d; deadLetters := deadLetters d; uuids_drawn := uuids_drawn d |}.
Definition set_streams v d := {| users := users d; streams := v; events := events d;
  indexerState := indexerState d; deadLetters := deadLetters d; uuids_drawn := uuids_drawn d |}.
Definition set_events v d := {| users := users d; streams := streams d; events := v;
  indexerState := indexerState d; deadLetters := deadLetters d; uuids_drawn := uuids_drawn d |}.
Definition set_indexerState v d := {| users := users d; streams := streams d;
  events := events d; indexerState := v; deadLetters := deadLetters d;
  uuids_drawn := uuids_drawn d |}.
Definition set_deadLetters v n d := {| users := users d; streams := streams d;
  events := events d; indexerState := indexerState d; deadLetters := v; uuids_drawn := n |}.

(** Messages handed to the SSE service. *)
Inductive SseTarget := ToStream (id : string) | ToUser (publicKey : string) | ToAdmin.
Record SseMessage := { target : SseTarget; sse_event : string; sse_data : Json }.

(** Fields of the [SorobanEventWorker] instance that change while it runs. *)
Record WorkerState := {
  isRunning : bool;
  pollTimer : bool; (* a poll is scheduled *)
  eventsProcessed : Z;
  eventsFailed : Z;
  lastErrorAt : option Z;
  recentOutcomes : list (bool * Z) (* { ok, at } *)
}.

(** What a request or a poll cycle acts on. *)
Record World := {
  db : DB;
  sse : list SseMessage; (* newest last *)
  worker : WorkerState
}.

Definition set_db d w := {| db := d; sse := sse w; worker := worker w |}.
Definition set_sse m w := {| db := db w; sse := m; worker := worker w |}.
Definition set_worker k w := {| db := db w; sse := sse w; worker := k |}.

(** *** Client operations *)

Definition find_user pk : Js World (option User) := gets (fun w => t_find pk (users (db w))).
Definition find_stream id : Js World (option Stream) :=
  gets (fun w => t_find id (streams (db w))).
Definition put_user (u : User) : Js World unit :=
  modify (fun w => set_db (set_users (t_put (publicKey u) u (users (db w))) (db w)) w).
(** a write of a stream row: column widths, then the row with [@updatedAt] *)
Definition put_stream (now : Z) (r : Stream) : Js World unit :=
  if stream_fits r then
    modify (fun w =>
      set_db (set_streams (t_put (streamId r) (set_updatedAt now r) (streams (db w))) (db w)) w)
  else throw (PrismaErr PRange).
Definition put_event (r : StreamEvent) : Js World unit :=
  if event_fits r then
    modify (fun w =>
      set_db (set_events (t_put (ev_transactionHash r, ev_eventType r) r (events (db w))) (db w)) w)
  else throw (PrismaErr PRange).

(** [user.upsert({ where: { publicKey }, create: { publicKey }, update: {} })] *)
Definition user_upsert (pk : string) : Js World unit :=
  let! u := find_user pk in
  match u with Some _ => ret tt | None => put_user {| publicKey := pk |} end.

Definition stream_findUnique (id : Z) : Js World (option Stream) := find_stream id.

Definition stream_findUniqueOrThrow (id : Z) : Js World Stream :=
  let! r := find_stream id in lift (of_option (PrismaErr P2025) r).

(** [sender] and [recipient] reference [User.publicKey] *)
Definition stream_create (now : Z) (r : Stream) : Js World unit :=
  let! s := find_user (sender r) in
  let! t := find_user (recipient r) in
  match s, t with
  | Some _, Some _ => put_stream now r
  | _, _ => throw (PrismaErr P2003)
  end.

Definition stream_update (now : Z) (id : Z) (upd : Stream -> Stream) : Js World unit :=
  let! r := stream_findUniqueOrThrow id in put_stream now (upd r).

Definition stream_upsert (now : Z) (create : Stream) (upd : Stream -> Stream) : Js World unit :=
  let! r := find_stream (streamId create) in
  match r with
  | Some r => put_stream now (upd r)
  | None => stream_create now create
  end.

(** A compound unique key needs both of its parts. *)
Definition streamEvent_findUnique (txHash : option string) (eventType : string) :
    Js World (option StreamEvent) :=
  match txHash with
  | None => throw (PrismaErr PValidation)
  | Some h => gets (fun w => t_find (h, eventType) (events (db w)))
  end.

(** [streamId] references [Stream.streamId] *)
Definition streamEvent_create (r : StreamEvent) : Js World unit :=
  let! s := find_stream (ev_streamId r) in
  match s with Some _ => put_event r | None => throw (PrismaErr P2003) end.

Definition streamEvent_upsert (txHash : option string) (eventType : string)
    (create : string -> StreamEvent) (upd : StreamEvent -> StreamEvent) : Js World unit :=
  match txHash with
  | None => throw (PrismaErr PValidation)
  | Some h =>
      let! e := streamEvent_findUnique (Some h) eventType in
      match e with
      | Some r => put_event (upd r)
      | None => streamEvent_create (create h)
      end
  end.

(** [prisma.$transaction(body)]: a throw rolls the database back. *)
Definition transaction {A} (body : Js World A) : Js World A :=
  fun w =>
    match body w with
    | (Returns a, w') => (Returns a, w')
    | (Throws e, w') => (Throws e, set_db (db w) w')
    end.

Definition broadcast (t : SseTarget) (event : string) (data : list (string * Json)) :
    Js World unit :=
  modify (fun w =>
    set_sse (sse w ++ [{| target := t; sse_event := event; sse_data := JObject data |}]) w).
End World.

Arguments DB P : clear implicits.
Arguments World P : clear implicits.

(** ** Row lemmas *)

(** Columns an update leaves alone; [updatedAt] is the client's. *)
Definition same_owner (r r' : Stream) : Prop :=
  streamId r' = streamId r /\ sender r' = sender r /\ recipient r' = recipient r.

(** The three amount columns hold integers. *)
Definition amounts_ok (r : Stream) : Prop :=
  is_Some (string_to_bigint (ratePerSecond r)) /\
  is_Some (string_to_bigint (depositedAmount r)) /\
  is_Some (string_to_bigint (withdrawnAmount r)).

(** What an update function of the code may do to a row. *)
Definition update_ok (upd : Stream -> Stream) : Prop :=
  forall r, same_owner r (upd r) /\ (amounts_ok r -> amounts_ok (upd r)).

(** ** The database invariant *)

Section Invariant.
Context {P : PrismaEngine}.

Record stream_row_ok (d : DB P) (id : Z) (r : Stream) : Prop := {
  sro_key : streamId r = id;
  sro_fits : stream_fits r = true;
  sro_sender : is_Some (t_find (sender r) (users d));
  sro_recipient : is_Some (t_find (recipient r) (users d));
  sro_amounts : amounts_ok r
}.

Record event_row_ok (d : DB P) (k : string * string) (r : StreamEvent) : Prop := {
  ero_key : k = (ev_transactionHash r, ev_eventType r);
  ero_fits : event_fits r = true;
  ero_stream : is_Some (t_find (ev_streamId r) (streams d))
}.

(** Referential integrity, keys, integer widths and parseable amounts. *)
Record db_ok (d : DB P) : Prop := {
  ok_streams : forall id r, t_find id (streams d) = Some r -> stream_row_ok d id r;
  ok_events : forall k r, t_find k (events d) = Some r -> event_row_ok d k r
}.

Definition world_ok (w : World P) : Prop := db_ok (db w).

(** Only the database part of the world is written. *)
Definition db_only {A} (m : Js (World P) A) : Prop :=
  forall w, sse (m w).2 = sse w /\ worker (m w).2 = worker w.

Lemma db_only_readonly {A} (m : Js (World P) A) : readonly m -> db_only m.
Proof. intros H w. by rewrite H. Qed.
Lemma db_only_bind {A B} (m : Js (World P) A) (k : A -> Js (World P) B) :
  db_only m -> (forall a, db_only (k a)) -> db_only (bind m k).
Proof.
  intros Hm Hk w. unfold bind. specialize (Hm w).
  destruct (m w) as [[a|e] w1]; [|done]. simpl in Hm. specialize (Hk a w1).
  destruct Hm as [<- <-]. done.
Qed.
Lemma db_only_put_user u : db_only (put_user u).
Proof. done. Qed.
Lemma db_only_put_stream now r : db_only (put_stream now r).
Proof. unfold put_stream. by case_match. Qed.
Lemma db_only_put_event r : db_only (put_event r).
Proof. unfold put_event. by case_match. Qed.

Lemma set_db_self (w : World P) : set_db (db w) w = w.
Proof. by destruct w. Qed.

Lemma atomic_transaction {A} (body : Js (World P) A) :
  db_only body -> atomic (transaction body).
Proof.
  intros H w e w' E. unfold transaction in E. specialize (H w).
  destruct (body w) as [[a|e'] w1]; simplify_eq/=.
  destruct w, w1; simpl in *. by destruct H as [-> ->].
Qed.
Lemma db_only_transaction {A} (body : Js (World P) A) :
  db_only body -> db_only (transaction body).
Proof.
  intros H w. unfold transaction. specialize (H w).
  by destruct (body w) as [[a|e] w1].
Qed.
Lemma preserves_transaction {A} (body : Js (World P) A) (I : DB P -> Prop) :
  preserves (fun w => I (db w)) body -> preserves (fun w => I (db w)) (transaction body).
Proof.
  intros H w Hw. unfold transaction. specialize (H w Hw).
  by destruct (body w) as [[a|e] w1].
Qed.
Lemma nothrow_broadcast t event data : nothrow (broadcast (P:=P) t event data).
Proof. done. Qed.
Lemma transaction_Returns {A} (body : Js (World P) A) w a w' :
  transaction body w = (Returns a, w') <-> body w = (Returns a, w').
Proof. unfold transaction. destruct (body w) as [[|] ?]; split; congruence. Qed.

(** *** Each write keeps the invariant *)

Lemma find_put_mono {K R T} `{Table K R T} (k k' : K) (r : R) (t : T) :
  is_Some (t_find k' t) -> is_Some (t_find k' (t_put k r t)).
Proof. rewrite t_find_put. case_decide; eauto. Qed.

Lemma world_ok_put_user u : preserves world_ok (put_user u).
Proof.
  apply preserves_modify. intros w [Hs He]. split; simpl.
  - intros id r Hr. destruct (Hs id r Hr). split; simpl; auto using find_put_mono.
  - intros k r Hr. destruct (He k r Hr). by split.
Qed.

Lemma stream_fits_updatedAt now r : stream_fits (set_updatedAt now r) = stream_fits r.
Proof. done. Qed.

Lemma put_stream_ok now r w :
  world_ok w ->
  is_Some (t_find (sender r) (users (db w))) ->
  is_Some (t_find (recipient r) (users (db w))) ->
  amounts_ok r ->
  world_ok (put_stream now r w).2.
Proof.
  intros [Hs He] H1 H2 H3. unfold put_stream. case_match eqn:Hf; [|by split].
  split; simpl.
  - intros id r'. rewrite t_find_put. case_decide; intros Hr; simplify_eq/=.
    + by split.
    + destruct (Hs id r' Hr). by split.
  - intros k r' Hr. destruct (He k r' Hr). split; simpl; auto using find_put_mono.
Qed.

Lemma put_event_ok r w :
  world_ok w -> is_Some (t_find (ev_streamId r) (streams (db w))) ->
  world_ok (put_event r w).2.
Proof.
  intros [Hs He] H. unfold put_event. case_match eqn:Hf; [|by split]. split; simpl.
  - intros id r' Hr. destruct (Hs id r' Hr). by split.
  - intros k r'. rewrite t_find_put. case_decide; intros Hr; simplify_eq/=.
    + by split.
    + destruct (He k r' Hr). by split.
Qed.

Lemma world_ok_user_upsert pk : preserves world_ok (user_upsert pk).
Proof.
  apply preserves_bind; [by apply preserves_readonly|]. intros [u|]; [by intros w|].
  apply world_ok_put_user.
Qed.

Lemma world_ok_stream_create now r :
  amounts_ok r -> preserves world_ok (stream_create now r).
Proof.
  intros Ha w Hw. unfold stream_create, bind, find_user, gets.
  destruct (t_find (sender r) _) eqn:E1; [|done].
  destruct (t_find (recipient r) _) eqn:E2; [|done].
  apply put_stream_ok; eauto.
Qed.

Lemma put_update_ok now id r upd w :
  world_ok w -> t_find id (streams (db w)) = Some r -> update_ok upd ->
  world_ok (put_stream now (upd r) w).2.
Proof.
  intros Hw Hr Hu. destruct (ok_streams _ Hw id r Hr).
  destruct (Hu r) as [(?&E1&E2) Ha].
  apply put_stream_ok; rewrite ?E1, ?E2; auto.
Qed.

Lemma world_ok_stream_update now id upd :
  update_ok upd -> preserves world_ok (stream_update now id upd).
Proof.
  intros Hu w Hw. unfold stream_update, stream_findUniqueOrThrow, bind, find_stream, gets, lift.
  destruct (t_find id _) as [r|] eqn:E; simpl; [|done]. by eapply put_update_ok.
Qed.

Lemma world_ok_stream_upsert now create upd :
  amounts_ok create -> update_ok upd -> preserves world_ok (stream_upsert now create upd).
Proof.
  intros Hc Hu w Hw. unfold stream_upsert, bind, find_stream, gets.
  destruct (t_find _ _) as [r|] eqn:E; simpl.
  - by eapply put_update_ok.
  - by apply world_ok_stream_create.
Qed.

Lemma world_ok_event_upsert h t create upd :
  (forall r, ev_streamId (upd r) = ev_streamId r) ->
  preserves world_ok (streamEvent_upsert h t create upd).
Proof.
  intros Hu w Hw. destruct h as [h|]; [|done]. simpl. unfold bind, gets.
  destruct (t_find (h, t) _) as [r|] eqn:E; simpl.
  - apply put_event_ok; [done|]. rewrite Hu. by apply (ok_events _ Hw) in E as [].
  - unfold streamEvent_create, bind, find_stream, gets.
    destruct (t_find _ (streams _)) eqn:E'; simpl; [|done]. apply put_event_ok; eauto.
Qed.

Lemma db_only_user_upsert pk : db_only (user_upsert pk).
Proof.
  apply db_only_bind; [by apply db_only_readonly|]. intros [|]; [done|apply db_only_put_user].
Qed.
Lemma db_only_stream_create now r : db_only (stream_create now r).
Proof.
  do 2 (apply db_only_bind; [by apply db_only_readonly|intros ?]).
  repeat case_match; try done. apply db_only_put_stream.
Qed.
Lemma db_only_stream_update now id upd : db_only (stream_update now id upd).
Proof.
  apply db_only_bind; [by apply db_only_readonly|]. intros; apply db_only_put_stream.
Qed.
Lemma db_only_stream_upsert now create upd : db_only (stream_upsert now create upd).
Proof.
  apply db_only_bind; [by apply db_only_readonly|]. intros [|];
    [apply db_only_put_stream|apply db_only_stream_create].
Qed.
Lemma db_only_event_upsert h t create upd : db_only (streamEvent_upsert h t create upd).
Proof.
  destruct h; [|done]. apply db_only_bind; [by apply db_only_readonly|].
  intros [|]; [apply db_only_put_event|].
  apply db_only_bind; [by apply db_only_readonly|].
  intros [|]; [apply db_only_put_event|done].
Qed.
Lemma readonly_event_findUnique h t : readonly (streamEvent_findUnique (P:=P) h t).
Proof. by destruct h. Qed.
Lemma readonly_find_user pk : readonly (find_user (P:=P) pk).
Proof. done. Qed.
Lemma readonly_find_stream id : readonly (find_stream (P:=P) id).
Proof. done. Qed.
Lemma readonly_findUniqueOrThrow id : readonly (stream_findUniqueOrThrow (P:=P) id).
Proof. by intros w. Qed.
End Invariant.

#[export] Hint Resolve readonly_event_findUnique readonly_findUniqueOrThrow
  readonly_find_user readonly_find_stream nothrow_broadcast
  db_only_user_upsert db_only_stream_create db_only_stream_update db_only_stream_upsert
  db_only_event_upsert : js.
#[export] Hint Resolve world_ok_user_upsert world_ok_stream_update world_ok_stream_upsert
  world_ok_event_upsert : js.

(** Prove [db_only], [atomic] or [preserves world_ok] of a handler by its structure. *)
Ltac js_walk :=
  repeat (intros;
    first
      [ solve [eauto with js]
      | apply db_only_bind
      | apply preserves_transaction
      | apply atomic_transaction
      | apply (preserves_bind world_ok)
      | apply db_only_readonly; solve [eauto with js]
      | apply preserves_readonly; solve [eauto with js]
      | case_match ]).

(** ** The store used in examples: one [gmap] per model *)

Section GmapTable.
Context {K R : Type} `{Countable K}.

Implicit Types (k : K) (r : R) (t : gmap K R).

Lemma gmap_find_put k r t k' :
  <[k := r]> t !! k' = if decide (k = k') then Some r else t !! k'.
Proof. rewrite lookup_insert. by case_decide. Qed.
Lemma gmap_find_del k t k' :
  delete k t !! k' = if decide (k = k') then None else t !! k'.
Proof. rewrite lookup_delete. by case_decide. Qed.
Lemma gmap_rows k r t : (k, r) ∈ map_to_list t <-> t !! k = Some r.
Proof. apply elem_of_map_to_list. Qed.
Lemma gmap_rows_nodup t : NoDup (map_to_list t).*1.
Proof. apply NoDup_fst_map_to_list. Qed.

#[export] Instance gmap_table : Table K R (gmap K R) := {|
  t_find k t := t !! k;
  t_put k r t := <[k := r]> t;
  t_del k t := delete k t;
  t_rows t := map_to_list t;
  t_find_put := gmap_find_put;
  t_find_del := gmap_find_del;
  t_rows_spec := gmap_rows;
  t_rows_nodup := gmap_rows_nodup
|}.
End GmapTable.

Lemma decimal_inj n m : BigInt_toString (Z.of_nat n) = BigInt_toString (Z.of_nat m) -> n = m.
Proof.
  intros H. apply (f_equal BigInt_of_string) in H. rewrite !BigInt_roundtrip in H.
  injection H. lia.
Qed.

Definition gmap_engine : PrismaEngine := {|
  UserTable := gmap string User;
  StreamTable := gmap Z Stream;
  EventTable := gmap (string * string) StreamEvent;
  DeadLetterTable := gmap (string * string) DeadLetter;
  uuid n := BigInt_toString (Z.of_nat n);
  uuid_inj := decimal_inj;
  prisma_message _ := "prisma error"%string
|}.

Definition empty_db : DB gmap_engine :=
  @Build_DB gmap_engine (∅ : gmap string User) (∅ : gmap Z Stream)
    (∅ : gmap (string * string) StreamEvent) None (∅ : gmap (string * string) DeadLetter) 0.

Definition empty_world : World gmap_engine :=
  {| db := empty_db; sse := [];
     worker := {| isRunning := true; pollTimer := false; eventsProcessed := 0; eventsFailed := 0;
                  lastErrorAt := None; recentOutcomes := [] |} |}.
