(* ===== verification/Xdr.v ===== *)
(** * Contract events: the XDR decoding helpers of soroban-event-worker.ts

    An [ScVal] is what @stellar/stellar-sdk hands to the code; reading the
    payload of another arm of the union gives [undefined], whose method calls
    are TypeErrors.  The base32 encodings of StrKey belong to the SDK and are
    the parameters [encodeEd25519PublicKey] and [encodeContract]. *)
From S2P Require Import Prelude JsLang StreamId.
Local Open Scope Z_scope.
Set Warnings "-register-all".

Class StrKey := {
  encodeEd25519PublicKey : list Z -> string;
  encodeContract : list Z -> string
}.

Inductive ScAddress :=
| AccountAddress (ed25519 : list Z)
| ContractAddress (contractId : list Z)
| OtherAddress.

Inductive ScVal :=
| ScvVoid
| ScvBool (b : bool)
| ScvU32 (u32 : Z)
| ScvU64 (u64 : Z)
| ScvI128 (hi lo : Z)
| ScvSymbol (sym : string)
| ScvAddress (address : ScAddress)
| ScvMap (map : option (list (ScVal * ScVal)))
| ScvOther.

(** [rpc.Api.EventResponse], with the fields the code reads. [txHash] can be
    absent: an event rebuilt from a dead letter has none. *)
Record EventResponse := {
  id : string;
  type : string;
  ledger : Z;
  ledgerClosedAt : string;
  transactionIndex : Z;
  operationIndex : Z;
  inSuccessfulContractCall : bool;
  contractId : option string;
  txHash : option string;
  topic : list ScVal;
  value : ScVal
}.

Section Decode.
Context `{StrKey}.

Definition decodeSymbol (val : ScVal) : outcome string :=
  match val with ScvSymbol s => Returns s | _ => Throws TypeErr end.

Definition decodeU64 (val : ScVal) : outcome Z :=
  match val with ScvU64 u => Returns u | _ => Throws TypeErr end.

(** The field is read without a method call, so another arm is [undefined]. *)
Definition decodeU32 (val : ScVal) : outcome (option Z) :=
  match val with ScvU32 u => Returns (Some u) | _ => Returns None end.

Definition decodeI128 (val : ScVal) : outcome string :=
  match val with
  | ScvI128 h l =>
      let hi := asIntN 64 h in
      let lo := asUintN 64 l in
      Returns (BigInt_toString (Z.lor (Z.shiftl hi 64) lo))
  | _ => Throws TypeErr
  end.

Definition decodeAddress (val : ScVal) : outcome string :=
  match val with
  | ScvAddress (AccountAddress k) => Returns (encodeEd25519PublicKey k)
  | ScvAddress (ContractAddress h) => Returns (encodeContract h)
  | _ => Throws TypeErr
  end.

Fixpoint decodeMap_entries (entries : list (ScVal * ScVal)) (result : gmap string ScVal) :
    outcome (gmap string ScVal) :=
  match entries with
  | [] => Returns result
  | (k, v) :: rest =>
      match k with
      | ScvSymbol s => decodeMap_entries rest (<[s := v]> result)
      | _ => Throws TypeErr
      end
  end.

Definition decodeMap (val : ScVal) : outcome (gmap string ScVal) :=
  match val with
  | ScvMap (Some entries) => decodeMap_entries entries ∅
  | _ => Returns ∅
  end.

(** [!body["a"] || !body["b"] || ...] *)
Definition missing (body : gmap string ScVal) (names : list string) : bool :=
  existsb (fun n => match body !! n with Some _ => false | None => true end) names.

(** [decode(body[name])] *)
Definition field {A} (decode : ScVal -> outcome A) (body : gmap string ScVal) (name : string) :
    outcome A :=
  match body !! name with Some v => decode v | None => Throws TypeErr end.
End Decode.

(** The two XDR halves of an i128. *)
Definition i128_parts (x : Z) : ScVal := ScvI128 (Z.shiftr x 64) (Z.land x (Z.ones 64)).

Lemma asIntN_small w z : 0 < w -> - 2 ^ (w - 1) <= z < 2 ^ (w - 1) -> asIntN w z = z.
Proof.
  intros Hw Hz. unfold asIntN.
  assert (2 ^ w = 2 * 2 ^ (w - 1)) by (rewrite <- Z.pow_succ_r by lia; f_equal; lia).
  rewrite Z.mod_small by lia. lia.
Qed.

Lemma lor_shiftl_add hi lo : 0 <= lo < 2 ^ 64 -> Z.lor (Z.shiftl hi 64) lo = hi * 2 ^ 64 + lo.
Proof.
  intros Hlo. rewrite <- Z.add_nocarry_lor; [by rewrite Z.shiftl_mul_pow2 by lia|].
  apply Z.bits_inj'; intros n Hn. rewrite Z.land_spec, Z.shiftl_spec, Z.bits_0 by lia.
  destruct (Z.lt_ge_cases n 64); [by rewrite Z.testbit_neg_r by lia|].
  destruct (decide (lo = 0)) as [->|]; [by rewrite Z.bits_0, andb_false_r|].
  assert (Z.log2 lo < 64) by (apply Z.log2_lt_pow2; lia).
  rewrite (Z.bits_above_log2 lo n); [by rewrite andb_false_r|lia|lia].
Qed.

Lemma decodeI128_parts x :
  - 2 ^ 127 <= x < 2 ^ 127 -> decodeI128 (i128_parts x) = Returns (BigInt_toString x).
Proof.
  intros Hx. unfold decodeI128, i128_parts. do 2 f_equal.
  rewrite Z.shiftr_div_pow2, Z.land_ones by lia.
  pose proof (Z.mod_pos_bound x (2 ^ 64) eq_refl) as Hm.
  rewrite asIntN_small; [|done|].
  - unfold asUintN. rewrite Zmod_mod, lor_shiftl_add by done.
    pose proof (Z_div_mod_eq_full x (2 ^ 64)). lia.
  - simpl (64 - 1). split.
    + apply Z.div_le_lower_bound; lia.
    + apply Z.div_lt_upper_bound; lia.
Qed.

(** For every 128-bit integer, splitting it into the signed high and unsigned
    low 64-bit halves of the XDR encoding and decoding with [decodeI128] gives its
    decimal representation, negative values included. *)
Theorem decodeI128_roundtrip x :
  - 2 ^ 127 <= x < 2 ^ 127 -> decodeI128 (i128_parts x) = Returns (BigInt_toString x).
Proof. apply decodeI128_parts.
Qed.

Lemma decodeI128_roundtrip_witness :
  (- 2 ^ 127 <= - 1 < 2 ^ 127) /\ decodeI128 (i128_parts (- 1)) = Returns "-1"%string.
Proof. split; [lia|]. apply (decodeI128_roundtrip (- 1)). lia. Defined.
