(* ===== verification/Worker.v ===== *)
(** * Event handlers: backend/src/workers/soroban-event-worker.ts

    [processEvent] dispatches a contract event on its first topic to one of ten
    handlers.  Each handler decodes the event, runs one database transaction and
    broadcasts over SSE.  [now] is the reading of [Date.now()]; log lines are
    left out. *)
From S2P Require Import Prelude JsLang StreamId Schema Xdr.
Local Open Scope Z_scope.

(** [Number(b)] of a u64, which is always a finite integer. *)
Definition Number_int (b : Z) : Z :=
  match Number_of_bigint b with Fin z => z | _ => 0 end.

Definition JOptNumber (o : option Z) : Json :=
  match o with Some z => JNumber z | None => JUndefined end.
Definition JOptString (o : option string) : Json :=
  match o with Some s => JString s | None => JUndefined end.

Section Handlers.
Context `{P : PrismaEngine} `{K : StrKey}.

Definition systemUser : string := "GAAAAAAAAAAAAAAAAAAAAAAAAAAAAAAAAAAAAAAAAAAAAAAAAAAAAWHF".

Definition system_stream : Stream := {|
  streamId := 0; sender := systemUser; recipient := systemUser;
  tokenAddress := "CDAAAAAAAAAAAAAAAAAAAAAAAAAAAAAAAAAAAAAAAAAAAAAAAAAAAAHF";
  ratePerSecond := "0"; depositedAmount := "0"; withdrawnAmount := "0";
  startTime := 0; lastUpdateTime := 0; endTime := Some 0;
  isActive := false; isPaused := false; pausedAt := None; totalPausedDuration := 0;
  updatedAt := 0 |}.

Definition ensureSystemStream (now : Z) : Js (World P) unit :=
  do! user_upsert systemUser in
  stream_upsert now system_stream (fun r => r).

(** The [update] branch of most [streamEvent.upsert] calls. *)
Definition touch_event (ledgerSequence timestamp : Z) (r : StreamEvent) : StreamEvent := {|
  ev_streamId := ev_streamId r; ev_eventType := ev_eventType r; ev_amount := ev_amount r;
  ev_transactionHash := ev_transactionHash r; ev_ledgerSequence := ledgerSequence;
  ev_timestamp := timestamp; ev_metadata := ev_metadata r |}.

Definition new_event (sid : Z) (t : string) (amount : option string) (ledgerSequence : Z)
    (timestamp : Z) (metadata : list (string * Json)) (hash : string) : StreamEvent := {|
  ev_streamId := sid; ev_eventType := t; ev_amount := amount;
  ev_transactionHash := hash; ev_ledgerSequence := ledgerSequence;
  ev_timestamp := timestamp; ev_metadata := Some (JSON_stringify (JObject metadata)) |}.

Definition handleFeeConfigUpdated (now : Z) (event : EventResponse) : Js (World P) unit :=
  let! body := lift (decodeMap (value event)) in
  if missing body ["admin"; "old_treasury"; "new_treasury"; "old_fee_rate_bps";
                   "new_fee_rate_bps"]
  then throw (ErrorMsg "FeeConfigUpdated: missing body fields")
  else
  let! admin := lift (field decodeAddress body "admin") in
  let! oldTreasury := lift (field decodeAddress body "old_treasury") in
  let! newTreasury := lift (field decodeAddress body "new_treasury") in
  let! oldFeeRateBps := lift (field decodeU32 body "old_fee_rate_bps") in
  let! newFeeRateBps := lift (field decodeU32 body "new_fee_rate_bps") in
  let timestamp := seconds now in
  do! transaction (
    do! ensureSystemStream now in
    streamEvent_upsert (txHash event) "FEE_CONFIG_UPDATED"
      (new_event 0 "FEE_CONFIG_UPDATED" None (ledger event) timestamp
        [("admin", JString admin); ("old_treasury", JString oldTreasury);
         ("new_treasury", JString newTreasury);
         ("old_fee_rate_bps", JOptNumber oldFeeRateBps);
         ("new_fee_rate_bps", JOptNumber newFeeRateBps)])
      (touch_event (ledger event) timestamp)) in
  broadcast ToAdmin "stream.fee_config_updated"
    [("admin", JString admin); ("oldTreasury", JString oldTreasury);
     ("newTreasury", JString newTreasury); ("oldFeeRateBps", JOptNumber oldFeeRateBps);
     ("newFeeRateBps", JOptNumber newFeeRateBps);
     ("transactionHash", JOptString (txHash event)); ("ledger", JNumber (ledger event));
     ("timestamp", JNumber timestamp)].

Definition handleAdminTransferred (now : Z) (event : EventResponse) : Js (World P) unit :=
  let! body := lift (decodeMap (value event)) in
  if missing body ["previous_admin"; "new_admin"]
  then throw (ErrorMsg "AdminTransferred: missing body fields")
  else
  let! previousAdmin := lift (field decodeAddress body "previous_admin") in
  let! newAdmin := lift (field decodeAddress body "new_admin") in
  let timestamp := seconds now in
  do! transaction (
    do! ensureSystemStream now in
    streamEvent_upsert (txHash event) "ADMIN_TRANSFERRED"
      (new_event 0 "ADMIN_TRANSFERRED" None (ledger event) timestamp
        [("previous_admin", JString previousAdmin); ("new_admin", JString newAdmin);
         ("transactionHash", JOptString (txHash event))])
      (touch_event (ledger event) timestamp)) in
  broadcast ToAdmin "stream.admin_transferred"
    [("previousAdmin", JString previousAdmin); ("newAdmin", JString newAdmin);
     ("transactionHash", JOptString (txHash event)); ("ledger", JNumber (ledger event));
     ("timestamp", JNumber timestamp)].

Definition missing_fields (what : string) (sid : Z) : JsError :=
  ErrorMsg (what +:+ " #" +:+ BigInt_toString sid +:+ ": missing body fields").

(** [startTime + depositedAmount / ratePerSecond], or null for a zero rate *)
Definition end_time (start deposited rate extra : Z) : option Z :=
  if rate =? 0 then None else Some (start + Z.quot deposited rate + extra).

(** The transaction of [handleStreamCreated]. *)
Definition created_tx (now : Z) (event : EventResponse) (sid : Z) (snd rcp token rate deposited : string) (start : Z) (endT : option Z) :
    Js (World P) unit :=
  do! user_upsert snd in
  do! user_upsert rcp in
  do! stream_upsert now
    {| streamId := sid; sender := snd; recipient := rcp; tokenAddress := token;
       ratePerSecond := rate; depositedAmount := deposited; withdrawnAmount := "0";
       startTime := start; lastUpdateTime := start; endTime := endT;
       isActive := true; isPaused := false; pausedAt := None; totalPausedDuration := 0;
       updatedAt := now |}
    (fun r => set_isActive true (set_times start start endT
      (set_depositedAmount deposited (set_ratePerSecond rate (set_tokenAddress token r))))) in
  let! existing := streamEvent_findUnique (txHash event) "CREATED" in
  match existing with
  | Some _ => ret tt
  | None =>
      streamEvent_upsert (txHash event) "CREATED"
        (new_event sid "CREATED" (Some deposited) (ledger event) start
          [("tokenAddress", JString token); ("ratePerSecond", JString rate)])
        (touch_event (ledger event) start)
  end.

Definition handleStreamCreated (now : Z) (event : EventResponse) (streamIdTopic : ScVal) :
    Js (World P) unit :=
  let! sid := lift (decodeU64 streamIdTopic) in
  let! body := lift (decodeMap (value event)) in
  if missing body ["sender"; "recipient"; "token_address"; "rate_per_second";
                   "deposited_amount"; "start_time"]
  then throw (missing_fields "StreamCreated" sid)
  else
  let! snd := lift (field decodeAddress body "sender") in
  let! rcp := lift (field decodeAddress body "recipient") in
  let! token := lift (field decodeAddress body "token_address") in
  let! rate := lift (field decodeI128 body "rate_per_second") in
  let! deposited := lift (field decodeI128 body "deposited_amount") in
  let! start := lift (field decodeU64 body "start_time") in
  let! rateBigInt := lift (BigInt_of_string rate) in
  let! depositedBigInt := lift (BigInt_of_string deposited) in
  let endT := end_time start depositedBigInt rateBigInt 0 in
  do! transaction (created_tx now event sid snd rcp token rate deposited start endT) in
  broadcast (ToStream (BigInt_toString sid)) "stream.created"
    [("streamId", JBigint sid); ("sender", JString snd); ("recipient", JString rcp);
     ("tokenAddress", JString token); ("ratePerSecond", JString rate);
     ("depositedAmount", JString deposited); ("startTime", JBigint start);
     ("transactionHash", JOptString (txHash event)); ("ledger", JNumber (ledger event))].

(** The transaction of [handleStreamToppedUp]. *)
Definition topped_up_tx (now : Z) (event : EventResponse) (sid : Z) (amount newDepositedAmount : string) :
    Js (World P) unit :=
  let timestamp := seconds now in
  let! existing := streamEvent_findUnique (txHash event) "TOPPED_UP" in
  match existing with
  | Some _ => ret tt
  | None =>
      let! stream := stream_findUniqueOrThrow sid in
      let! rateBigInt := lift (BigInt_of_string (ratePerSecond stream)) in
      let! depositedBigInt := lift (BigInt_of_string newDepositedAmount) in
      let newEndTime := end_time (startTime stream) depositedBigInt rateBigInt
                          (totalPausedDuration stream) in
      do! stream_update now sid (fun r =>
        set_lastUpdateTime timestamp
          (set_endTime newEndTime (set_depositedAmount newDepositedAmount r))) in
      streamEvent_upsert (txHash event) "TOPPED_UP"
        (new_event sid "TOPPED_UP" (Some amount) (ledger event) timestamp
          [("newDepositedAmount", JString newDepositedAmount)])
        (touch_event (ledger event) timestamp)
  end.

Definition handleStreamToppedUp (now : Z) (event : EventResponse) (streamIdTopic : ScVal) :
    Js (World P) unit :=
  let! sid := lift (decodeU64 streamIdTopic) in
  let! body := lift (decodeMap (value event)) in
  if missing body ["amount"; "new_deposited_amount"]
  then throw (missing_fields "StreamToppedUp" sid)
  else
  let! amount := lift (field decodeI128 body "amount") in
  let! newDepositedAmount := lift (field decodeI128 body "new_deposited_amount") in
  let timestamp := seconds now in
  do! transaction (topped_up_tx now event sid amount newDepositedAmount) in
  broadcast (ToStream (BigInt_toString sid)) "stream.topped_up"
    [("streamId", JBigint sid); ("amount", JString amount);
     ("newDepositedAmount", JString newDepositedAmount);
     ("transactionHash", JOptString (txHash event)); ("ledger", JNumber (ledger event));
     ("timestamp", JNumber timestamp)].

(** The transaction of [handleTokensWithdrawn]. *)
Definition withdrawn_tx (now : Z) (event : EventResponse) (sid : Z) (rcp amount : string) (timestamp : Z) :
    Js (World P) unit :=
  let! existing := streamEvent_findUnique (txHash event) "WITHDRAWN" in
  match existing with
  | Some _ => ret tt
  | None =>
      let! stream := stream_findUniqueOrThrow sid in
      let! withdrawn := lift (BigInt_of_string (withdrawnAmount stream)) in
      let! amountBigInt := lift (BigInt_of_string amount) in
      let newWithdrawnAmount := BigInt_toString (withdrawn + amountBigInt) in
      do! stream_update now sid (fun r =>
        set_lastUpdateTime timestamp (set_withdrawnAmount newWithdrawnAmount r)) in
      streamEvent_upsert (txHash event) "WITHDRAWN"
        (new_event sid "WITHDRAWN" (Some amount) (ledger event) timestamp
          [("recipient", JString rcp)])
        (touch_event (ledger event) timestamp)
  end.

Definition handleTokensWithdrawn (now : Z) (event : EventResponse) (streamIdTopic : ScVal) :
    Js (World P) unit :=
  let! sid := lift (decodeU64 streamIdTopic) in
  let! body := lift (decodeMap (value event)) in
  if missing body ["recipient"; "amount"; "timestamp"]
  then throw (missing_fields "TokensWithdrawn" sid)
  else
  let! rcp := lift (field decodeAddress body "recipient") in
  let! amount := lift (field decodeI128 body "amount") in
  let! ts := lift (field decodeU64 body "timestamp") in
  let timestamp := Number_int ts in
  do! transaction (withdrawn_tx now event sid rcp amount timestamp) in
  broadcast (ToStream (BigInt_toString sid)) "stream.withdrawn"
    [("streamId", JBigint sid); ("recipient", JString rcp); ("amount", JString amount);
     ("transactionHash", JOptString (txHash event)); ("ledger", JNumber (ledger event));
     ("timestamp", JNumber timestamp)].

(** The transaction of [handleStreamCancelled]. *)
Definition cancelled_tx (now : Z) (event : EventResponse) (sid : Z) (amountWithdrawn refundedAmount : string) :
    Js (World P) unit :=
  let timestamp := seconds now in
  do! stream_update now sid (fun r =>
    set_lastUpdateTime timestamp
      (set_withdrawnAmount amountWithdrawn (set_isActive false r))) in
  let! existing := streamEvent_findUnique (txHash event) "CANCELLED" in
  match existing with
  | Some _ => ret tt
  | None =>
      streamEvent_upsert (txHash event) "CANCELLED"
        (new_event sid "CANCELLED" (Some refundedAmount) (ledger event) timestamp
          [("amountWithdrawn", JString amountWithdrawn);
           ("refundedAmount", JString refundedAmount)])
        (touch_event (ledger event) timestamp)
  end.

Definition handleStreamCancelled (now : Z) (event : EventResponse) (streamIdTopic : ScVal) :
    Js (World P) unit :=
  let! sid := lift (decodeU64 streamIdTopic) in
  let! body := lift (decodeMap (value event)) in
  if missing body ["amount_withdrawn"; "refunded_amount"]
  then throw (missing_fields "StreamCancelled" sid)
  else
  let! amountWithdrawn := lift (field decodeI128 body "amount_withdrawn") in
  let! refundedAmount := lift (field decodeI128 body "refunded_amount") in
  let timestamp := seconds now in
  do! transaction (cancelled_tx now event sid amountWithdrawn refundedAmount) in
  broadcast (ToStream (BigInt_toString sid)) "stream.cancelled"
    [("streamId", JBigint sid); ("refundedAmount", JString refundedAmount);
     ("amountWithdrawn", JString amountWithdrawn);
     ("transactionHash", JOptString (txHash event)); ("ledger", JNumber (ledger event));
     ("timestamp", JNumber timestamp)].

(** The transaction of [handleStreamCompleted]. *)
Definition completed_tx (now : Z) (event : EventResponse) (sid : Z) (rcp totalWithdrawn : string) :
    Js (World P) unit :=
  let timestamp := seconds now in
  do! stream_update now sid (fun r =>
    set_lastUpdateTime timestamp
      (set_withdrawnAmount totalWithdrawn (set_isActive false r))) in
  let! existing := streamEvent_findUnique (txHash event) "COMPLETED" in
  match existing with
  | Some _ => ret tt
  | None =>
      streamEvent_upsert (txHash event) "COMPLETED"
        (new_event sid "COMPLETED" (Some totalWithdrawn) (ledger event) timestamp
          [("recipient", JString rcp)])
        (touch_event (ledger event) timestamp)
  end.

Definition handleStreamCompleted (now : Z) (event : EventResponse) (streamIdTopic : ScVal) :
    Js (World P) unit :=
  let! sid := lift (decodeU64 streamIdTopic) in
  let! body := lift (decodeMap (value event)) in
  if missing body ["recipient"; "total_withdrawn"]
  then throw (missing_fields "StreamCompleted" sid)
  else
  let! rcp := lift (field decodeAddress body "recipient") in
  let! totalWithdrawn := lift (field decodeI128 body "total_withdrawn") in
  let timestamp := seconds now in
  do! transaction (completed_tx now event sid rcp totalWithdrawn) in
  broadcast (ToStream (BigInt_toString sid)) "stream.completed"
    [("streamId", JBigint sid); ("recipient", JString rcp);
     ("totalWithdrawn", JString totalWithdrawn);
     ("transactionHash", JOptString (txHash event)); ("ledger", JNumber (ledger event));
     ("timestamp", JNumber timestamp)].

(** The transaction of [handleFeeCollected]. *)
Definition fee_collected_tx (now : Z) (event : EventResponse) (sid : Z) (treasury feeAmount token : string) :
    Js (World P) unit :=
  let timestamp := seconds now in
  let! existing := streamEvent_findUnique (txHash event) "FEE_COLLECTED" in
  match existing with
  | Some _ => ret tt
  | None =>
      streamEvent_upsert (txHash event) "FEE_COLLECTED"
        (new_event sid "FEE_COLLECTED" (Some feeAmount) (ledger event) timestamp
          [("treasury", JString treasury); ("token", JString token)])
        (fun r => r)
  end.

Definition handleFeeCollected (now : Z) (event : EventResponse) (streamIdTopic : ScVal) :
    Js (World P) unit :=
  let! sid := lift (decodeU64 streamIdTopic) in
  let! body := lift (decodeMap (value event)) in
  if missing body ["treasury"; "fee_amount"; "token"]
  then throw (missing_fields "FeeCollected" sid)
  else
  let! treasury := lift (field decodeAddress body "treasury") in
  let! feeAmount := lift (field decodeI128 body "fee_amount") in
  let! token := lift (field decodeAddress body "token") in
  let timestamp := seconds now in
  do! transaction (fee_collected_tx now event sid treasury feeAmount token) in
  broadcast ToAdmin "stream.fee_collected"
    [("streamId", JBigint sid); ("treasury", JString treasury);
     ("feeAmount", JString feeAmount); ("token", JString token);
     ("transactionHash", JOptString (txHash event)); ("ledger", JNumber (ledger event));
     ("timestamp", JNumber timestamp)].

(** The transaction of [handleStreamPaused]. *)
Definition paused_tx (now : Z) (event : EventResponse) (sid : Z) (snd : string) (pausedAtN : Z) :
    Js (World P) unit :=
  let timestamp := seconds now in
  do! stream_update now sid (fun r =>
    set_lastUpdateTime timestamp (set_pausedAt (Some pausedAtN) (set_isPaused true r))) in
  let! existing := streamEvent_findUnique (txHash event) "PAUSED" in
  match existing with
  | Some _ => ret tt
  | None =>
      streamEvent_upsert (txHash event) "PAUSED"
        (new_event sid "PAUSED" None (ledger event) timestamp
          [("sender", JString snd); ("pausedAt", JNumber pausedAtN)])
        (touch_event (ledger event) timestamp)
  end.

Definition handleStreamPaused (now : Z) (event : EventResponse) (streamIdTopic : ScVal) :
    Js (World P) unit :=
  let! sid := lift (decodeU64 streamIdTopic) in
  let! body := lift (decodeMap (value event)) in
  if missing body ["sender"; "paused_at"]
  then throw (missing_fields "StreamPaused" sid)
  else
  let! snd := lift (field decodeAddress body "sender") in
  let! paused := lift (field decodeU64 body "paused_at") in
  let pausedAtN := Number_int paused in
  let timestamp := seconds now in
  do! transaction (paused_tx now event sid snd pausedAtN) in
  broadcast (ToStream (BigInt_toString sid)) "stream.paused"
    [("streamId", JBigint sid); ("sender", JString snd); ("pausedAt", JNumber pausedAtN);
     ("transactionHash", JOptString (txHash event)); ("ledger", JNumber (ledger event));
     ("timestamp", JNumber timestamp)].

(** [pausedAt ? timestamp - Number(pausedAt) : 0]; a zero bigint is falsy *)
Definition paused_duration (timestamp : Z) (pausedAt : option Z) : Z :=
  match pausedAt with
  | Some p => if p =? 0 then 0 else timestamp - Number_int p
  | None => 0
  end.

(** The transaction of [handleStreamResumed]. *)
Definition resumed_tx (now : Z) (event : EventResponse) (sid : Z) (snd : string) (newEndTime : Z) :
    Js (World P) unit :=
  let timestamp := seconds now in
  let! currentStream := stream_findUniqueOrThrow sid in
  let additionalPausedDuration := paused_duration timestamp (pausedAt currentStream) in
  let newTotalPausedDuration :=
    totalPausedDuration currentStream + additionalPausedDuration in
  do! stream_update now sid (fun r =>
    set_lastUpdateTime timestamp
      (set_totalPausedDuration newTotalPausedDuration
        (set_endTime (Some newEndTime) (set_pausedAt None (set_isPaused false r))))) in
  let! existing := streamEvent_findUnique (txHash event) "RESUMED" in
  match existing with
  | Some _ => ret tt
  | None =>
      streamEvent_upsert (txHash event) "RESUMED"
        (new_event sid "RESUMED" None (ledger event) timestamp
          [("sender", JString snd); ("newEndTime", JString (BigInt_toString newEndTime));
           ("pausedDuration", JNumber additionalPausedDuration);
           ("totalPausedDuration", JNumber newTotalPausedDuration)])
        (touch_event (ledger event) timestamp)
  end.

Definition handleStreamResumed (now : Z) (event : EventResponse) (streamIdTopic : ScVal) :
    Js (World P) unit :=
  let! sid := lift (decodeU64 streamIdTopic) in
  let! body := lift (decodeMap (value event)) in
  if missing body ["sender"; "new_end_time"]
  then throw (missing_fields "StreamResumed" sid)
  else
  let! snd := lift (field decodeAddress body "sender") in
  let! newEndTime := lift (field decodeU64 body "new_end_time") in
  let timestamp := seconds now in
  do! transaction (resumed_tx now event sid snd newEndTime) in
  broadcast (ToStream (BigInt_toString sid)) "stream.resumed"
    [("streamId", JBigint sid); ("sender", JString snd);
     ("newEndTime", JString (BigInt_toString newEndTime));
     ("transactionHash", JOptString (txHash event)); ("ledger", JNumber (ledger event));
     ("timestamp", JNumber timestamp)].

(** The handler of an event name that carries a stream id in its second topic. *)
Definition stream_handler (eventName : string) :
    option (Z -> EventResponse -> ScVal -> Js (World P) unit) :=
  if bool_decide (eventName = "stream_created") then Some handleStreamCreated
  else if bool_decide (eventName = "stream_topped_up") then Some handleStreamToppedUp
  else if bool_decide (eventName = "tokens_withdrawn") then Some handleTokensWithdrawn
  else if bool_decide (eventName = "stream_paused") then Some handleStreamPaused
  else if bool_decide (eventName = "stream_resumed") then Some handleStreamResumed
  else if bool_decide (eventName = "stream_cancelled") then Some handleStreamCancelled
  else if bool_decide (eventName = "stream_completed") then Some handleStreamCompleted
  else if bool_decide (eventName = "fee_collected") then Some handleFeeCollected
  else None.

Definition processEvent (now : Z) (event : EventResponse) : Js (World P) unit :=
  match topic event with
  | [] => ret tt
  | topic0 :: rest =>
      let! eventName := lift (decodeSymbol topic0) in
      if bool_decide (eventName = "fee_config_updated") then handleFeeConfigUpdated now event
      else if bool_decide (eventName = "admin_transferred")
      then handleAdminTransferred now event
      else
        match rest with
        | [] => ret tt
        | topic1 :: _ =>
            match stream_handler eventName with
            | Some handler => handler now event topic1
            | None => ret tt (* unrecognised event: ignored *)
            end
        end
  end.
End Handlers.
