(* ===== verification/Contract.v ===== *)
(** * The stream contract, as far as the TypeScript code mirrors it

    contracts/stream_contract/src: the claimable-amount function of lib.rs with
    its three vesting schedules, and the events of events.rs the worker indexes,
    as the XDR values a node reports.  i128 and u64 are [Z] with the checked and
    saturating operations written out. *)
From S2P Require Import Prelude JsLang Xdr.
Local Open Scope Z_scope.

Definition I128_MAX : Z := 2 ^ 127 - 1.
Definition I128_MIN : Z := - 2 ^ 127.
Definition sat_i128 (x : Z) : Z := Z.max I128_MIN (Z.min I128_MAX x).
Definition saturating_sub (a b : Z) : Z := sat_i128 (a - b).
Definition saturating_add (a b : Z) : Z := sat_i128 (a + b).
Definition checked_mul (a b : Z) : option Z :=
  if (I128_MIN <=? a * b) && (a * b <=? I128_MAX) then Some (a * b) else None.
Definition saturating_sub_u64 (a b : Z) : Z := Z.max 0 (a - b).

Inductive VestingSchedule :=
| Linear
| StepTranches (steps : list (Z * Z)) (* unlock_time, unlock_amount *)
| HybridCliffLinear (cliff_time cliff_unlock_amount : Z).

Record ChainStream := {
  rate_per_second : Z;
  deposited_amount : Z;
  withdrawn_amount : Z;
  last_update_time : Z;
  is_active : bool;
  paused : bool;
  paused_at : option Z;
  schedule : VestingSchedule
}.

(** The loop over the tranches stops at the first future step. *)
Fixpoint unlocked_by (steps : list (Z * Z)) (now unlocked : Z) : Z :=
  match steps with
  | [] => unlocked
  | (t, a) :: rest =>
      if now <? t then unlocked else unlocked_by rest now (saturating_add unlocked a)
  end.

Definition calculate_claimable (s : ChainStream) (now : Z) : Z :=
  let effective_now :=
    if paused s then default (last_update_time s) (paused_at s) else now in
  let remaining := Z.max 0 (saturating_sub (deposited_amount s) (withdrawn_amount s)) in
  match schedule s with
  | Linear =>
      let elapsed := saturating_sub_u64 effective_now (last_update_time s) in
      match checked_mul elapsed (rate_per_second s) with
      | Some streamed => Z.min streamed remaining
      | None => remaining
      end
  | StepTranches steps =>
      Z.min (Z.max 0 (saturating_sub (unlocked_by steps effective_now 0) (withdrawn_amount s)))
        remaining
  | HybridCliffLinear cliff_time cliff_unlock_amount =>
      if effective_now <? cliff_time then 0
      else
        let linear_total := saturating_sub (deposited_amount s) cliff_unlock_amount in
        let linear_elapsed := saturating_sub_u64 effective_now cliff_time in
        let linear :=
          match checked_mul linear_elapsed (rate_per_second s) with
          | Some result => Z.min result linear_total
          | None => linear_total
          end in
        Z.min (Z.max 0 (saturating_sub (saturating_add cliff_unlock_amount linear)
                          (withdrawn_amount s))) remaining
  end.

Definition get_claimable_amount (s : ChainStream) (now : Z) : Z :=
  if is_active s then calculate_claimable s now else 0.

(** ** Events *)

(** What the RPC adds to an event. *)
Record EventMeta := { m_id : string; m_ledger : Z; m_txHash : string }.

Definition publish (m : EventMeta) (name : string) (stream_id : Z)
    (fields : list (string * ScVal)) : EventResponse := {|
  id := m_id m; type := "contract"; ledger := m_ledger m; ledgerClosedAt := "";
  transactionIndex := 0; operationIndex := 0; inSuccessfulContractCall := true;
  contractId := None; txHash := Some (m_txHash m);
  topic := [ScvSymbol name; ScvU64 stream_id];
  value := ScvMap (Some (map (fun kv => (ScvSymbol kv.1, kv.2))
                     (("stream_id", ScvU64 stream_id) :: fields))) |}.

Definition StreamCreatedEvent m stream_id sender recipient rate token deposited start :=
  publish m "stream_created" stream_id
    [("sender", ScvAddress sender); ("recipient", ScvAddress recipient);
     ("rate_per_second", i128_parts rate); ("token_address", ScvAddress token);
     ("deposited_amount", i128_parts deposited); ("start_time", ScvU64 start)].

Definition StreamToppedUpEvent m stream_id sender amount new_deposited new_end :=
  publish m "stream_topped_up" stream_id
    [("sender", ScvAddress sender); ("amount", i128_parts amount);
     ("new_deposited_amount", i128_parts new_deposited); ("new_end_time", ScvU64 new_end)].

Definition TokensWithdrawnEvent m stream_id recipient amount timestamp :=
  publish m "tokens_withdrawn" stream_id
    [("recipient", ScvAddress recipient); ("amount", i128_parts amount);
     ("timestamp", ScvU64 timestamp)].

Definition StreamPausedEvent m stream_id sender paused_at :=
  publish m "stream_paused" stream_id
    [("sender", ScvAddress sender); ("paused_at", ScvU64 paused_at)].

Definition StreamResumedEvent m stream_id sender new_end :=
  publish m "stream_resumed" stream_id
    [("sender", ScvAddress sender); ("new_end_time", ScvU64 new_end)].

Definition StreamCancelledEvent m stream_id sender recipient amount_withdrawn refunded :=
  publish m "stream_cancelled" stream_id
    [("sender", ScvAddress sender); ("recipient", ScvAddress recipient);
     ("amount_withdrawn", i128_parts amount_withdrawn); ("refunded_amount", i128_parts refunded)].
