(* ===== verification/Samples.v ===== *)
(** * Concrete inputs shared by the examples

    A database on [gmap_engine] holding one stream, built by processing the
    creation event itself, and some events about that stream. *)
From S2P Require Import Prelude JsLang StreamId Schema Xdr Worker Contract.
Local Open Scope Z_scope.

(** Stand-in encodings: a distinct first letter per kind of address, then a digit per byte. *)
Definition sample_strkey : StrKey := {|
  encodeEd25519PublicKey k := String "G"%char (String.string_of_list_ascii (map digit_char k));
  encodeContract h := String "C"%char (String.string_of_list_ascii (map digit_char h)) |}.
#[export] Existing Instance sample_strkey.
#[export] Existing Instance gmap_engine.

Definition alice : ScAddress := AccountAddress [1].
Definition bob : ScAddress := AccountAddress [2].
Definition token : ScAddress := ContractAddress [7].

Definition meta (n : string) (l : Z) : EventMeta :=
  {| m_id := "ev-" +:+ n; m_ledger := l; m_txHash := "tx-" +:+ n |}.

(** Stream 1: 10 per second, 1000 deposited, from second 100. *)
Definition created1 : EventResponse :=
  StreamCreatedEvent (meta "c" 1) 1 alice bob 10 token 1000 100.
Definition withdrawn1 : EventResponse := TokensWithdrawnEvent (meta "w" 2) 1 bob 50 105.
Definition paused1 : EventResponse := StreamPausedEvent (meta "p" 3) 1 alice 110.
Definition resumed1 : EventResponse := StreamResumedEvent (meta "r" 4) 1 alice 220.
Definition toppedUp1 : EventResponse := StreamToppedUpEvent (meta "t" 5) 1 alice 500 1500 250.

Definition sample_world : World gmap_engine := (processEvent 100000 created1 empty_world).2.

Definition sample_stream : Stream := {|
  streamId := 1; sender := "G1"; recipient := "G2"; tokenAddress := "C7";
  ratePerSecond := "10"; depositedAmount := "1000"; withdrawnAmount := "0";
  startTime := 100; lastUpdateTime := 100; endTime := Some 200;
  isActive := true; isPaused := false; pausedAt := None; totalPausedDuration := 0;
  updatedAt := 100000 |}.

Lemma sample_world_stream : t_find 1 (streams (db sample_world)) = Some sample_stream.
Proof. vm_refl. Qed.

Lemma empty_world_ok : world_ok empty_world.
Proof. split; intros ? ? H; vm_compute in H; discriminate. Qed.
