(* ===== verification/Replay.v ===== *)
(** * Replays: what an event that is processed twice does

    The indexer re-reads events after a reset, a crash or a cursor regression.
    Three handlers look for the stored event before they write and are
    idempotent under any later history; five write the stream first, and the
    effect of their replay is shown for pauses and creations.  The unique key
    (transactionHash, eventType) has no stream in it, which matters for
    transactions that touch several streams. *)
From S2P Require Import Prelude JsLang StreamId Schema Xdr Worker Contract Samples WorkerFacts.
Local Open Scope Z_scope.

Section Replay.
Context `{P : PrismaEngine} `{K : StrKey}.
Implicit Types (w : World P) (e : EventResponse).

(** Process a batch in order; an event that throws is skipped. *)
Definition process_all (es : list (Z * EventResponse)) (w : World P) : World P :=
  foldl (fun w '(now, e) => (processEvent now e w).2) w es.

(** The events whose handler looks for a stored event first, with its type. *)
Definition guarded (e : EventResponse) : option string :=
  match topic e with
  | ScvSymbol name :: _ =>
      if bool_decide (name = "stream_topped_up") then Some "TOPPED_UP"
      else if bool_decide (name = "tokens_withdrawn") then Some "WITHDRAWN"
      else if bool_decide (name = "fee_collected") then Some "FEE_COLLECTED"
      else None
  | _ => None
  end%string.

Definition same_db (d : DB P) (w : World P) : Prop := db w = d.

Lemma found_noop h t d r (k : Js (World P) unit) :
  t_find (h, t) (events d) = Some r ->
  preserves (same_db d)
    (let! existing := streamEvent_findUnique (Some h) t in
     match existing with Some _ => ret tt | None => k end).
Proof.
  intros H w Hw. unfold bind, streamEvent_findUnique, gets. simpl. unfold same_db in Hw.
  by rewrite Hw, H.
Qed.

Lemma same_db_tx d (body : Js (World P) unit) :
  preserves (same_db d) body -> preserves (same_db d) (transaction body).
Proof. apply (preserves_transaction body (fun d' => d' = d)). Qed.

(** A guarded event whose key is stored changes nothing. *)
Lemma guarded_noop now e h t w :
  guarded e = Some t -> txHash e = Some h -> recorded (h, t) w ->
  db (processEvent now e w).2 = db w.
Proof.
  intros Hg Hh [r Hr]. cut (preserves (same_db (db w)) (processEvent now e)).
  { intros H. by apply (H w). }
  unfold guarded in Hg. unfold processEvent.
  destruct (topic e) as [|[] rest]; try done.
  apply preserves_bind_lift. intros name [= <-].
  destruct (decide (sym = "stream_topped_up")) as [->|];
    [|destruct (decide (sym = "tokens_withdrawn")) as [->|];
      [|destruct (decide (sym = "fee_collected")) as [->|];
        [|by rewrite !bool_decide_eq_false_2 in Hg]]]; simplify_eq/=.
  all: destruct rest as [|v rest]; [by intros ?|].
  all: unfold handleStreamToppedUp, handleTokensWithdrawn, handleFeeCollected.
  all: repeat (intros; first
    [ apply same_db_tx; unfold topped_up_tx, withdrawn_tx, fee_collected_tx; rewrite Hh;
        by eapply found_noop
    | apply preserves_bind_lift
    | apply preserves_bind
    | case_match
    | by intros ? ? ]).
Qed.

(** A guarded transaction that commits has its event stored. *)
Lemma guarded_tx_records h t (m : Js (World P) unit) w w' :
  (forall h' w1 w2, h = Some h' -> t_find (h', t) (events (db w1)) = None ->
     m w1 = (Returns tt, w2) -> recorded (h', t) w2) ->
  (let! existing := streamEvent_findUnique h t in
   match existing with Some _ => ret tt | None => m end) w = (Returns tt, w') ->
  exists h', h = Some h' /\ recorded (h', t) w'.
Proof.
  intros Hm H. destruct h as [h|]; [|done]. exists h. split; [done|].
  unfold bind, streamEvent_findUnique, gets in H.
  destruct (t_find (h, t) _) eqn:E; [|by eapply Hm].
  injection H as <-. unfold recorded. rewrite E. eauto.
Qed.

Lemma upsert_records h t create upd w w' :
  t_find (h, t) (events (db w)) = None ->
  ev_transactionHash (create h) = h -> ev_eventType (create h) = t ->
  streamEvent_upsert (Some h) t create upd w = (Returns tt, w') -> recorded (h, t) w'.
Proof.
  intros Hn H1 H2 H. apply event_upsert_Returns in H as [_ ->]%put_event_Returns; [|done].
  unfold recorded. simpl. rewrite H1, H2, t_find_put. rewrite decide_True by done. eauto.
Qed.

Lemma findUniqueOrThrow_state sid w r w' :
  stream_findUniqueOrThrow sid w = (Returns r, w') -> w' = w.
Proof.
  intros H. pose proof (readonly_findUniqueOrThrow sid w) as Hro. by rewrite H in Hro.
Qed.

Lemma update_events now sid upd w w' :
  stream_update now sid upd w = (Returns tt, w') -> events (db w') = events (db w).
Proof.
  intros H. apply bind_Returns in H as (r & w1 & H1 & [_ ->]%put_stream_Returns).
  by apply findUniqueOrThrow_state in H1 as ->.
Qed.

Lemma guarded_records now e t w w' :
  guarded e = Some t -> (1 < length (topic e))%nat -> processEvent now e w = (Returns tt, w') ->
  exists h, txHash e = Some h /\ recorded (h, t) w'.
Proof.
  intros Hg Hl H. unfold guarded in Hg. unfold processEvent in H.
  destruct (topic e) as [|[] rest]; try done.
  destruct rest as [|v rest]; [simpl in Hl; lia|]. clear Hl.
  unfold bind at 1, lift at 1 in H. simpl in H.
  destruct (decide (sym = "stream_topped_up")) as [->|];
    [|destruct (decide (sym = "tokens_withdrawn")) as [->|];
      [|destruct (decide (sym = "fee_collected")) as [->|];
        [|by rewrite !bool_decide_eq_false_2 in Hg]]]; simplify_eq/=.
  all: unfold handleStreamToppedUp, handleTokensWithdrawn, handleFeeCollected in H.
  all: js_inv; case_match; js_inv.
  all: unfold broadcast, modify in H; injection H as <-; destruct_all_units.
  all: match goal with E : transaction _ _ = _ |- _ =>
         rewrite transaction_Returns in E;
         unfold topped_up_tx, withdrawn_tx, fee_collected_tx in E;
         edestruct guarded_tx_records as (hash & ? & ?); [|exact E|by exists hash] end.
  all: intros h w1 w2 Hh Hn Hm; rewrite Hh in Hm; js_inv; destruct_all_units.
  all: eapply upsert_records; [| | |exact Hm]; try done.
  all: match goal with
       | E : stream_update _ _ _ _ = (Returns _, _) |- _ => apply update_events in E as ->
       end.
  all: match goal with
       | E : stream_findUniqueOrThrow _ _ = (Returns _, _) |- _ =>
           apply findUniqueOrThrow_state in E as ->; done
       end.
Qed.

Lemma process_all_recorded k es w : recorded k w -> recorded k (process_all es w).
Proof.
  unfold process_all. revert w. induction es as [|[now e] es IH]; intros w Hw; simpl; [done|].
  apply IH. by apply processEvent_recorded.
Qed.

(** C2. Top-ups, withdrawals and fee records are indexed exactly once: once such
    an event has been processed, then whatever other events are processed in the
    meantime, processing it again (at any later time) leaves every table as it
    is. *)
Theorem guarded_event_once now now' e es w w1 :
  is_Some (guarded e) -> processEvent now e w = (Returns tt, w1) ->
  let w2 := process_all es w1 in
  db (processEvent now' e w2).2 = db w2.
Proof.
  intros [t Hg] H w2. destruct (decide (1 < length (topic e))%nat) as [Hl|Hl].
  - destruct (guarded_records now e t w w1 Hg Hl H) as (h & Hh & Hr).
    eapply guarded_noop; [done|done|]. by apply process_all_recorded.
  - unfold guarded in Hg. unfold processEvent.
    destruct (topic e) as [|[] [|? ?]]; try done; [|simpl in Hl; lia].
    unfold bind, lift. simpl.
    repeat case_bool_decide; simplify_eq; done.
Qed.

(** One transaction that withdraws from several streams is indexed for the
    first of them only: a second [tokens_withdrawn] event with the same
    transaction hash, whatever its stream and amount, changes no table. *)
Theorem same_transaction_withdrawal_lost now now' m m' sid sid' a a' x x' ts ts' w w1 :
  m_txHash m = m_txHash m' ->
  processEvent now (TokensWithdrawnEvent m sid a x ts) w = (Returns tt, w1) ->
  db (processEvent now' (TokensWithdrawnEvent m' sid' a' x' ts') w1).2 = db w1.
Proof.
  intros Hm H.
  destruct (guarded_records now (TokensWithdrawnEvent m sid a x ts) "WITHDRAWN" w w1 eq_refl
              ltac:(simpl; lia) H)
    as (h & Hh & Hr).
  eapply guarded_noop; [done| |exact Hr]. simpl in *. by rewrite <- Hm.
Qed.
End Replay.

(** ** Examples *)

Definition after_withdrawal : World gmap_engine := (processEvent 105000 withdrawn1 sample_world).2.

Lemma after_withdrawal_run :
  processEvent 105000 withdrawn1 sample_world = (Returns tt, after_withdrawal).
Proof. vm_refl. Qed.

Definition pause_and_resume : list (Z * EventResponse) :=
  [(110000, paused1); (120000, resumed1)].

Lemma guarded_event_once_witness :
  db (processEvent 130000 withdrawn1 (process_all pause_and_resume after_withdrawal)).2 =
  db (process_all pause_and_resume after_withdrawal).
Proof.
  exact (guarded_event_once 105000 130000 withdrawn1 pause_and_resume sample_world
    after_withdrawal (ex_intro _ "WITHDRAWN"%string eq_refl) after_withdrawal_run).
Defined.

Lemma same_transaction_withdrawal_lost_witness :
  db (processEvent 105000 (TokensWithdrawnEvent (meta "w" 2) 2 bob 70 105) after_withdrawal).2 =
  db after_withdrawal.
Proof.
  exact (same_transaction_withdrawal_lost 105000 105000 (meta "w" 2) (meta "w" 2) 1 2
    bob bob 50 70 105 105 sample_world after_withdrawal eq_refl after_withdrawal_run).
Defined.
