(* ===== verification/Effects.v ===== *)
(** * Effects of the handlers on the rows

    What each kind of contract event does to the stream it names, stated on the
    events the contract publishes: withdrawals add up, and each is counted once
    however often a batch is replayed; a replayed pause or creation is applied
    again. *)
From S2P Require Import Prelude JsLang StreamId Schema Xdr Worker Contract Samples WorkerFacts Replay.
Local Open Scope Z_scope.

(** Run the decoding prefix of a handler on a published event. *)
Ltac dec_step := unfold bind at 1, lift at 1; cbv beta iota.
Ltac got_body b :=
  change (decodeMap _) with (Returns (A:=gmap string ScVal) b); dec_step;
  change (missing _ _) with false; cbv iota.
Ltac got_address n a Ha :=
  change (field decodeAddress _ n) with (decodeAddress (ScvAddress a)); rewrite Ha; dec_step.
Ltac got_i128 n x :=
  change (field decodeI128 _ n) with (decodeI128 (i128_parts x));
  rewrite (decodeI128_parts x) by done; dec_step.

Section Effects.
Context `{P : PrismaEngine} `{K : StrKey}.
Implicit Types (w : World P) (e : EventResponse).

(** What the followers of a stream are told about a withdrawal. *)
Definition withdrawn_message (m : EventMeta) (sid x : Z) (rcp : string) (timestamp : Z) : SseMessage := {|
  target := ToStream (BigInt_toString sid); sse_event := "stream.withdrawn";
  sse_data := JObject
    [("streamId", JBigint sid); ("recipient", JString rcp); ("amount", JString (BigInt_toString x));
     ("transactionHash", JString (m_txHash m)); ("ledger", JNumber (m_ledger m));
     ("timestamp", JNumber timestamp)] |}.

Lemma process_withdrawn now m sid a x ts rcp :
  - 2 ^ 127 <= x < 2 ^ 127 -> decodeAddress (ScvAddress a) = Returns rcp ->
  processEvent (P:=P) now (TokensWithdrawnEvent m sid a x ts) =
  (do! transaction (withdrawn_tx now (TokensWithdrawnEvent m sid a x ts) sid rcp
         (BigInt_toString x) (Number_int ts)) in
   let msg := withdrawn_message m sid x rcp (Number_int ts) in
   modify (fun w => set_sse (sse w ++ [msg]) w)).
Proof.
  intros Hx Ha.
  change (processEvent now (TokensWithdrawnEvent m sid a x ts)) with
    (handleTokensWithdrawn (P:=P) now (TokensWithdrawnEvent m sid a x ts) (ScvU64 sid)).
  unfold handleTokensWithdrawn. dec_step.
  got_body (<["timestamp":=ScvU64 ts]> (<["amount":=i128_parts x]>
      (<["recipient":=ScvAddress a]> (<["stream_id":=ScvU64 sid]> (∅ : gmap string ScVal))))).
  got_address "recipient"%string a Ha. got_i128 "amount"%string x. reflexivity.
Qed.

Lemma process_topped_up now m sid a x dep en :
  - 2 ^ 127 <= x < 2 ^ 127 -> - 2 ^ 127 <= dep < 2 ^ 127 ->
  exists t ev data,
    processEvent (P:=P) now (StreamToppedUpEvent m sid a x dep en) =
    (do! transaction (topped_up_tx now (StreamToppedUpEvent m sid a x dep en) sid
           (BigInt_toString x) (BigInt_toString dep)) in broadcast t ev data).
Proof.
  intros Hx Hd. do 3 eexists.
  change (processEvent now (StreamToppedUpEvent m sid a x dep en)) with
    (handleStreamToppedUp (P:=P) now (StreamToppedUpEvent m sid a x dep en) (ScvU64 sid)).
  unfold handleStreamToppedUp. dec_step.
  got_body (<["new_end_time":=ScvU64 en]> (<["new_deposited_amount":=i128_parts dep]>
      (<["amount":=i128_parts x]> (<["sender":=ScvAddress a]>
        (<["stream_id":=ScvU64 sid]> (∅ : gmap string ScVal)))))).
  got_i128 "amount"%string x. got_i128 "new_deposited_amount"%string dep. reflexivity.
Qed.

Lemma process_paused now m sid a at_ snd :
  decodeAddress (ScvAddress a) = Returns snd ->
  exists t ev data,
    processEvent (P:=P) now (StreamPausedEvent m sid a at_) =
    (do! transaction (paused_tx now (StreamPausedEvent m sid a at_) sid snd (Number_int at_)) in
     broadcast t ev data).
Proof.
  intros Ha. do 3 eexists.
  change (processEvent now (StreamPausedEvent m sid a at_)) with
    (handleStreamPaused (P:=P) now (StreamPausedEvent m sid a at_) (ScvU64 sid)).
  unfold handleStreamPaused. dec_step.
  got_body (<["paused_at":=ScvU64 at_]> (<["sender":=ScvAddress a]>
      (<["stream_id":=ScvU64 sid]> (∅ : gmap string ScVal)))).
  got_address "sender"%string a Ha. reflexivity.
Qed.

(** The rows other than those under [sid] and [k] are as before. *)
Definition frame (sid : Z) (k : string * string) w w' : Prop :=
  (forall sid', sid' <> sid -> t_find sid' (streams (db w')) = t_find sid' (streams (db w))) /\
  (forall k', k' <> k -> t_find k' (events (db w')) = t_find k' (events (db w))).

(** A transaction that updates stream [sid] and stores a first event under its key. *)
Lemma update_then_record now sid r upd h t create touch w :
  t_find sid (streams (db w)) = Some r -> streamId (upd r) = sid ->
  stream_fits (upd r) = true ->
  t_find (h, t) (events (db w)) = None ->
  ev_transactionHash (create h) = h -> ev_eventType (create h) = t ->
  ev_streamId (create h) = sid -> event_fits (create h) = true ->
  exists w',
    (do! stream_update now sid upd in streamEvent_upsert (Some h) t create touch) w =
      (Returns tt, w') /\
    t_find sid (streams (db w')) = Some (set_updatedAt now (upd r)) /\
    t_find (h, t) (events (db w')) = Some (create h) /\
    frame sid (h, t) w w' /\ sse w' = sse w.
Proof.
  intros Hr Hid Hf Hn Hh Ht Hs He. eexists. split.
  - unfold bind at 1. erewrite stream_update_found, put_stream_fits by done. cbv iota.
    rewrite event_upsert_absent; [by rewrite put_event_fits|done|].
    simpl. rewrite Hs, Hid, t_find_put, decide_True by done. eauto.
  - split_and!; simpl.
    + by rewrite Hid, t_find_put, decide_True.
    + by rewrite Hh, Ht, t_find_put, decide_True.
    + split; intros k' Hk; simpl; rewrite ?Hh, ?Ht, ?Hid, t_find_put, decide_False; congruence.
    + done.
Qed.

Lemma run_handler {A} (tx : Js (World P) A) t ev data w w' a :
  tx w = (Returns a, w') ->
  (do! transaction tx in broadcast t ev data) w =
  (Returns tt, set_sse (sse w' ++ [{| target := t; sse_event := ev; sse_data := JObject data |}]) w').
Proof. intros H. unfold bind, transaction. by rewrite H. Qed.

Lemma withdrawal_run now m sid a x ts rcp r wd w :
  - 2 ^ 127 <= x < 2 ^ 127 -> decodeAddress (ScvAddress a) = Returns rcp ->
  t_find sid (streams (db w)) = Some r -> streamId r = sid -> stream_fits r = true ->
  string_to_bigint (withdrawnAmount r) = Some wd ->
  t_find (m_txHash m, "WITHDRAWN") (events (db w)) = None ->
  fits_int8 (Number_int ts) = true -> fits_int4 (m_ledger m) = true ->
  exists w',
    processEvent now (TokensWithdrawnEvent m sid a x ts) w = (Returns tt, w') /\
    t_find sid (streams (db w')) =
      Some (set_updatedAt now (set_lastUpdateTime (Number_int ts)
             (set_withdrawnAmount (BigInt_toString (wd + x)) r))) /\
    t_find (m_txHash m, "WITHDRAWN") (events (db w')) =
      Some (new_event sid "WITHDRAWN" (Some (BigInt_toString x)) (m_ledger m) (Number_int ts)
              [("recipient", JString rcp)] (m_txHash m)) /\
    frame sid (m_txHash m, "WITHDRAWN") w w' /\
    sse w' = sse w ++ [withdrawn_message m sid x rcp (Number_int ts)].
Proof.
  intros Hx Ha Hr Hid Hf Hwd Hn Hts Hl.
  rewrite (process_withdrawn now m sid a x ts rcp Hx Ha).
  set (e := TokensWithdrawnEvent m sid a x ts).
  destruct (update_then_record now sid r
    (fun r => set_lastUpdateTime (Number_int ts)
                (set_withdrawnAmount (BigInt_toString (wd + x)) r))
    (m_txHash m) "WITHDRAWN"
    (new_event sid "WITHDRAWN" (Some (BigInt_toString x)) (m_ledger m) (Number_int ts)
       [("recipient", JString rcp)])
    (touch_event (m_ledger m) (Number_int ts)) w) as (w' & Hrun & H1 & H2 & H3 & H4);
    try done.
  - fits.
  - fits.
  - eexists. split; [eapply run_handler|].
    + unfold withdrawn_tx. unfold bind at 1. simpl. rewrite Hn.
      unfold bind at 1. erewrite findUniqueOrThrow_found by done.
      unfold bind at 1, lift at 1, BigInt_of_string. rewrite Hwd. simpl.
      unfold bind at 1, lift at 1, BigInt_of_string. rewrite toString_parses. simpl. exact Hrun.
    + split_and!; try done. simpl. by rewrite H4.
Qed.

(** A withdrawal seen for the first time adds its amount to the stream's
    withdrawn total, moves its accrual anchor to the ledger time of the event,
    stores one WITHDRAWN row and tells the followers of the stream; no other
    stream and no other event changes. *)
Theorem withdrawal_effect now m sid a x ts rcp r wd w :
  - 2 ^ 127 <= x < 2 ^ 127 -> decodeAddress (ScvAddress a) = Returns rcp ->
  t_find sid (streams (db w)) = Some r -> streamId r = sid -> stream_fits r = true ->
  string_to_bigint (withdrawnAmount r) = Some wd ->
  t_find (m_txHash m, "WITHDRAWN") (events (db w)) = None ->
  fits_int8 (Number_int ts) = true -> fits_int4 (m_ledger m) = true ->
  exists w',
    processEvent now (TokensWithdrawnEvent m sid a x ts) w = (Returns tt, w') /\
    t_find sid (streams (db w')) =
      Some (set_updatedAt now (set_lastUpdateTime (Number_int ts)
             (set_withdrawnAmount (BigInt_toString (wd + x)) r))) /\
    t_find (m_txHash m, "WITHDRAWN") (events (db w')) =
      Some (new_event sid "WITHDRAWN" (Some (BigInt_toString x)) (m_ledger m) (Number_int ts)
              [("recipient", JString rcp)] (m_txHash m)) /\
    frame sid (m_txHash m, "WITHDRAWN") w w' /\
    sse w' = sse w ++ [withdrawn_message m sid x rcp (Number_int ts)].
Proof. apply withdrawal_run.
Qed.

(** *** Accounting over a history *)

(** A withdrawal as the ledger reports it: transaction, amount, ledger time. *)
Definition withdrawal : Type := EventMeta * Z * Z.
Definition withdrawal_event now sid a (x : withdrawal) : Z * EventResponse :=
  let '(m, amt, ts) := x in (now, TokensWithdrawnEvent m sid a amt ts).
Definition withdrawal_key (x : withdrawal) : string * string :=
  (m_txHash x.1.1, "WITHDRAWN"%string).
Definition withdrawal_amount (x : withdrawal) : Z := x.1.2.
(** The integers of the event fit i128, int4 and int8. *)
Definition withdrawal_fits (x : withdrawal) : Prop :=
  - 2 ^ 127 <= x.1.2 < 2 ^ 127 /\ fits_int4 (m_ledger x.1.1) = true /\
  fits_int8 (Number_int x.2) = true.

(** Stream [sid] is stored with a withdrawn total of [n]. *)
Definition withdrawn_total sid n w : Prop :=
  exists r, t_find sid (streams (db w)) = Some r /\ streamId r = sid /\
    stream_fits r = true /\ string_to_bigint (withdrawnAmount r) = Some n.

Lemma withdrawal_step now sid a rcp x n w :
  decodeAddress (ScvAddress a) = Returns rcp -> withdrawal_fits x ->
  withdrawn_total sid n w -> t_find (withdrawal_key x) (events (db w)) = None ->
  let w' := (processEvent now (withdrawal_event now sid a x).2 w).2 in
  withdrawn_total sid (n + withdrawal_amount x) w' /\ recorded (withdrawal_key x) w' /\
  (forall k, k <> withdrawal_key x -> t_find k (events (db w')) = t_find k (events (db w))).
Proof.
  destruct x as [[m x] ts]. intros Ha (Hx&Hl&Hts) (r&Hr&Hid&Hf&Hn) Hnew.
  destruct (withdrawal_run now m sid a x ts rcp r n w) as (w' & Hrun & H1 & H2 & H3 & _); try done.
  simpl. rewrite Hrun. simpl. split_and!; [|eexists; exact H2|apply H3].
  eexists. split_and!; [exact H1|done| |apply toString_parses]. simpl in Hts. fits.
Qed.

Definition total (es : list withdrawal) : Z := foldr Z.add 0 (map withdrawal_amount es).

Lemma withdrawals_first_pass now sid a rcp es n w :
  decodeAddress (ScvAddress a) = Returns rcp -> Forall withdrawal_fits es ->
  NoDup (map withdrawal_key es) ->
  withdrawn_total sid n w ->
  Forall (fun x => t_find (withdrawal_key x) (events (db w)) = None) es ->
  let w' := process_all (map (withdrawal_event now sid a) es) w in
  withdrawn_total sid (n + total es) w' /\ Forall (fun x => recorded (withdrawal_key x) w') es.
Proof.
  intros Ha. revert n w. induction es as [|x es IH]; intros n w Hf Hd Hn Hnew; simpl.
  { unfold total. simpl. by rewrite Z.add_0_r. }
  inversion_clear Hf as [|? ? Hfx Hfs]. inversion_clear Hd as [|? ? Hdx Hds].
  inversion_clear Hnew as [|? ? Hnx Hns].
  destruct (withdrawal_step now sid a rcp x n w) as (H1 & H2 & H3); try done.
  destruct x as [[m amt] ts]; simpl in *.
  destruct (IH (n + amt) (processEvent now (TokensWithdrawnEvent m sid a amt ts) w).2)
    as [IH1 IH2]; try done.
  { rewrite Forall_forall in Hns |- *. intros y Hy. rewrite H3; [by apply Hns|].
    intros Heq. apply Hdx. rewrite <- Heq.
    by apply list_elem_of_In, in_map. }
  split.
  - revert IH1. unfold total. simpl. by rewrite Z.add_assoc.
  - constructor; [|done]. by apply process_all_recorded.
Qed.

Lemma replays_noop now sid a es w :
  Forall (fun x => recorded (withdrawal_key x) w) es ->
  db (process_all (map (withdrawal_event now sid a) es) w) = db w.
Proof.
  intros H. cut (forall w', db w' = db w ->
    db (process_all (map (withdrawal_event now sid a) es) w') = db w); [by auto|].
  induction H as [|[[m x] ts] es Hx Hes IH]; intros w' Hw; simpl; [done|].
  apply IH. rewrite <- Hw. eapply guarded_noop; [done|done|].
  unfold recorded in *. by rewrite Hw.
Qed.

(** C3. The withdrawn total is exact under replay: process any list of
    withdrawals of a stream from distinct transactions, then re-process, in any
    order and any number of times, withdrawals of that list; the stream ends
    with its old total plus each amount once. *)
Theorem withdrawals_counted_once now now' sid a rcp es replays n w :
  decodeAddress (ScvAddress a) = Returns rcp -> Forall withdrawal_fits es ->
  NoDup (map withdrawal_key es) ->
  withdrawn_total sid n w ->
  Forall (fun x => t_find (withdrawal_key x) (events (db w)) = None) es ->
  Forall (fun x => x ∈ es) replays ->
  withdrawn_total sid (n + total es)
    (process_all (map (withdrawal_event now' sid a) replays)
       (process_all (map (withdrawal_event now sid a) es) w)).
Proof.
  intros Ha Hf Hd Hn Hnew Hrep.
  destruct (withdrawals_first_pass now sid a rcp es n w) as [(r&?&?&?&?) H2]; try done.
  exists r. rewrite replays_noop; [done|].
  rewrite Forall_forall in H2. eapply Forall_impl; [|exact Hrep].
  intros x Hx. by apply H2, list_elem_of_In.
Qed.

(** *** Handlers that write before they look for a duplicate *)

(** A transaction that updates stream [sid] and finds its event stored. *)
Lemma update_then_found now sid r upd h t m w ev :
  t_find sid (streams (db w)) = Some r -> streamId (upd r) = sid ->
  stream_fits (upd r) = true -> t_find (h, t) (events (db w)) = Some ev ->
  exists w',
    (do! stream_update now sid upd in
     let! existing := streamEvent_findUnique (Some h) t in
     match existing with Some _ => ret tt | None => m end) w = (Returns tt, w') /\
    t_find sid (streams (db w')) = Some (set_updatedAt now (upd r)) /\
    events (db w') = events (db w).
Proof.
  intros Hr Hid Hf Hev. eexists. split_and!.
  - unfold bind at 1. erewrite stream_update_found, put_stream_fits by done. cbv iota.
    unfold bind, streamEvent_findUnique, gets. simpl. by rewrite Hev.
  - simpl. by rewrite Hid, t_find_put, decide_True.
  - done.
Qed.

(** The pause handler writes the stream before it looks for a duplicate, so
    a pause that is already stored is applied again: whatever happened to the
    stream since (a resume in particular), re-processing the pause marks the
    stream paused at the old time and moves its accrual anchor to the present. *)
Theorem replayed_pause_applied_again now m sid a at_ snd r w :
  decodeAddress (ScvAddress a) = Returns snd -> world_ok w ->
  t_find sid (streams (db w)) = Some r -> recorded (m_txHash m, "PAUSED"%string) w ->
  fits_int8 (Number_int at_) = true -> fits_int8 (seconds now) = true ->
  exists w' r',
    processEvent now (StreamPausedEvent m sid a at_) w = (Returns tt, w') /\
    t_find sid (streams (db w')) = Some r' /\
    isPaused r' = true /\ pausedAt r' = Some (Number_int at_) /\
    lastUpdateTime r' = seconds now /\ events (db w') = events (db w).
Proof.
  intros Ha Hw Hr [ev Hev] Hat Hnow.
  destruct (process_paused now m sid a at_ snd Ha) as (t & evn & data & ->).
  destruct (ok_streams _ Hw sid r Hr) as [Hid Hfit _ _ _].
  edestruct (update_then_found now sid r
    (fun r => set_lastUpdateTime (seconds now)
                (set_pausedAt (Some (Number_int at_)) (set_isPaused true r)))
    (m_txHash m) "PAUSED") as (w' & Hrun & H1 & H2); [done|done|fits|exact Hev|].
  do 2 eexists. split_and!; [eapply run_handler; exact Hrun|exact H1|done..|exact H2].
Qed.

Lemma user_upsert_run pk w :
  exists w', user_upsert pk w = (Returns tt, w') /\
    streams (db w') = streams (db w) /\ events (db w') = events (db w).
Proof.
  unfold user_upsert, bind, find_user, gets, put_user, modify.
  destruct (t_find pk _); eauto.
Qed.

Lemma process_created now m sid a b c rate dep start snd rcp tok :
  - 2 ^ 127 <= rate < 2 ^ 127 -> - 2 ^ 127 <= dep < 2 ^ 127 ->
  decodeAddress (ScvAddress a) = Returns snd -> decodeAddress (ScvAddress b) = Returns rcp ->
  decodeAddress (ScvAddress c) = Returns tok ->
  exists t ev data,
    processEvent (P:=P) now (StreamCreatedEvent m sid a b rate c dep start) =
    (do! transaction (created_tx now (StreamCreatedEvent m sid a b rate c dep start) sid
           snd rcp tok (BigInt_toString rate) (BigInt_toString dep) start
           (end_time start dep rate 0)) in broadcast t ev data).
Proof.
  intros Hrate Hdep Ha Hb Hc. do 3 eexists.
  change (processEvent now (StreamCreatedEvent m sid a b rate c dep start)) with
    (handleStreamCreated (P:=P) now (StreamCreatedEvent m sid a b rate c dep start) (ScvU64 sid)).
  unfold handleStreamCreated. dec_step.
  got_body (<["start_time":=ScvU64 start]> (<["deposited_amount":=i128_parts dep]>
    (<["token_address":=ScvAddress c]> (<["rate_per_second":=i128_parts rate]>
      (<["recipient":=ScvAddress b]> (<["sender":=ScvAddress a]>
        (<["stream_id":=ScvU64 sid]> (∅ : gmap string ScVal)))))))).
  got_address "sender"%string a Ha. got_address "recipient"%string b Hb.
  got_address "token_address"%string c Hc.
  got_i128 "rate_per_second"%string rate. got_i128 "deposited_amount"%string dep.
  change (field decodeU64 _ "start_time"%string) with (Returns start). dec_step.
  rewrite BigInt_roundtrip. dec_step. rewrite BigInt_roundtrip. dec_step. reflexivity.
Qed.

(** A creation that is already stored is applied again as well: it resets the
    deposited amount, the rate and the accrual anchor of the stream to those of
    the creation and marks it active, whatever top-ups, withdrawals or
    cancellation came since; the withdrawn total is kept. *)
Theorem replayed_creation_resets_stream now m sid a b c rate dep start snd rcp tok r w :
  - 2 ^ 127 <= rate < 2 ^ 127 -> - 2 ^ 127 <= dep < 2 ^ 127 ->
  decodeAddress (ScvAddress a) = Returns snd -> decodeAddress (ScvAddress b) = Returns rcp ->
  decodeAddress (ScvAddress c) = Returns tok -> world_ok w ->
  t_find sid (streams (db w)) = Some r -> recorded (m_txHash m, "CREATED"%string) w ->
  fits_int8 start = true -> fits_int8_opt (end_time start dep rate 0) = true ->
  exists w' r',
    processEvent now (StreamCreatedEvent m sid a b rate c dep start) w = (Returns tt, w') /\
    t_find sid (streams (db w')) = Some r' /\
    isActive r' = true /\ lastUpdateTime r' = start /\
    depositedAmount r' = BigInt_toString dep /\ withdrawnAmount r' = withdrawnAmount r.
Proof.
  intros Hrate Hdep Ha Hb Hc Hw Hr [ev Hev] Hst Hen.
  destruct (process_created now m sid a b c rate dep start snd rcp tok)
    as (t & evn & data & ->); try done.
  destruct (ok_streams _ Hw sid r Hr) as [Hid Hfit _ _ _].
  destruct (user_upsert_run snd w) as (w1 & E1 & S1 & V1).
  destruct (user_upsert_run rcp w1) as (w2 & E2 & S2 & V2).
  do 2 eexists. split_and!.
  - eapply run_handler. unfold created_tx. unfold bind at 1. rewrite E1.
    unfold bind at 1. rewrite E2. unfold bind at 1.
    unfold stream_upsert, bind at 1, find_stream, gets. simpl.
    rewrite S2, S1, Hr. rewrite put_stream_fits by fits.
    unfold bind, streamEvent_findUnique, gets. simpl. rewrite V2, V1, Hev. reflexivity.
  - simpl. by rewrite Hid, t_find_put, decide_True.
  - done.
  - done.
  - done.
  - done.
Qed.
End Effects.

(** ** Examples *)

Lemma withdrawal_effect_witness :
  exists w', processEvent 105000 withdrawn1 sample_world = (Returns tt, w') /\
    t_find 1 (streams (db w')) =
      Some (set_updatedAt 105000 (set_lastUpdateTime 105
              (set_withdrawnAmount "50" sample_stream))) /\
    t_find ("tx-w", "WITHDRAWN")%string (events (db w')) =
      Some (new_event 1 "WITHDRAWN" (Some "50") 2 105 [("recipient", JString "G2")] "tx-w") /\
    frame 1 ("tx-w", "WITHDRAWN")%string sample_world w' /\
    sse w' = sse sample_world ++ [withdrawn_message (meta "w" 2) 1 50 "G2" 105].
Proof.
  apply (withdrawal_effect 105000 (meta "w" 2) 1 bob 50 105 "G2" sample_stream 0 sample_world);
    first [vm_refl|lia].
Defined.

Lemma withdrawals_counted_once_witness :
  let es := [(meta "w" 2, 50, 105); (meta "x" 3, 30, 108)] in
  withdrawn_total 1 80
    (process_all (map (withdrawal_event 300000 1 bob) [(meta "x" 3, 30, 108); (meta "w" 2, 50, 105)])
       (process_all (map (withdrawal_event 200000 1 bob) es) sample_world)).
Proof.
  intros es. apply (withdrawals_counted_once 200000 300000 1 bob "G2" es
    [(meta "x" 3, 30, 108); (meta "w" 2, 50, 105)] 0 sample_world).
  - reflexivity.
  - repeat apply Forall_cons_2; try done; split_and!; simpl; first [lia|vm_refl].
  - apply NoDup_ListNoDup. repeat constructor; simpl; intuition discriminate.
  - exists sample_stream. split_and!; vm_refl.
  - repeat apply Forall_cons_2; first [vm_refl|done].
  - repeat apply Forall_cons_2; first [set_solver|done].
Defined.

Definition resumed_world : World gmap_engine := process_all pause_and_resume sample_world.
Definition resumed_row : Stream :=
  set_flags true false None 10 (set_times 100 120 (Some 220) (set_updatedAt 120000 sample_stream)).
Lemma resumed_world_row : t_find 1 (streams (db resumed_world)) = Some resumed_row.
Proof. vm_refl. Qed.
Lemma resumed_world_paused_stored : recorded ("tx-p", "PAUSED")%string resumed_world.
Proof. apply is_some_true. vm_refl. Qed.
Lemma resumed_world_ok : world_ok resumed_world.
Proof. do 3 apply processEvent_keeps_ok. apply empty_world_ok. Qed.

(** The stream was resumed at second 120; replaying the pause of second 110 pauses it again. *)
Lemma replayed_pause_applied_again_witness :
  isPaused resumed_row = false /\
  exists w' r', processEvent 130000 paused1 resumed_world = (Returns tt, w') /\
    t_find 1 (streams (db w')) = Some r' /\ isPaused r' = true /\ pausedAt r' = Some 110 /\
    lastUpdateTime r' = 130 /\ events (db w') = events (db resumed_world).
Proof.
  split; [reflexivity|].
  exact (replayed_pause_applied_again 130000 (meta "p" 3) 1 alice 110 "G1" resumed_row
    resumed_world eq_refl resumed_world_ok resumed_world_row resumed_world_paused_stored
    eq_refl eq_refl).
Defined.

Definition toppedUp_world : World gmap_engine := process_all [(150000, toppedUp1)] sample_world.
Definition toppedUp_row : Stream :=
  set_updatedAt 150000 (set_lastUpdateTime 150 (set_endTime (Some 250)
    (set_depositedAmount "1500" sample_stream))).
Lemma toppedUp_world_row : t_find 1 (streams (db toppedUp_world)) = Some toppedUp_row.
Proof. vm_refl. Qed.
Lemma toppedUp_world_created_stored : recorded ("tx-c", "CREATED")%string toppedUp_world.
Proof. apply is_some_true. vm_refl. Qed.
Lemma toppedUp_world_ok : world_ok toppedUp_world.
Proof. do 2 apply processEvent_keeps_ok. apply empty_world_ok. Qed.

(** Replaying the creation after a top-up takes the deposit back to 1000. *)
Lemma replayed_creation_resets_stream_witness :
  depositedAmount toppedUp_row = "1500"%string /\
  exists w' r', processEvent 160000 created1 toppedUp_world = (Returns tt, w') /\
    t_find 1 (streams (db w')) = Some r' /\ isActive r' = true /\ lastUpdateTime r' = 100 /\
    depositedAmount r' = "1000"%string /\ withdrawnAmount r' = "0"%string.
Proof.
  split; [reflexivity|].
  exact (replayed_creation_resets_stream 160000 (meta "c" 1) 1 alice bob token 10 1000 100
    "G1" "G2" "C7" toppedUp_row toppedUp_world ltac:(lia) ltac:(lia) eq_refl eq_refl eq_refl
    toppedUp_world_ok toppedUp_world_row toppedUp_world_created_stored eq_refl eq_refl).
Defined.
