(* ===== verification/IndexerCursor.v ===== *)
(** * The indexer's cursor: backend/src/lib/indexer-state.ts, and the status,
    reset and preview operations of services/indexer.service.ts and
    services/indexerService.ts

    One row holds the last indexed ledger and the paging cursor.  What other
    callers do between two database calls of [ensureIndexerState] is an argument
    of the model: a function on the world for each of the two gaps. *)
From S2P Require Import Prelude JsLang StreamId Schema.
Local Open Scope Z_scope.

(** ** Aggregates *)

Definition choice (f : Z -> Z -> Z) (R : Z -> Z -> Prop) : Prop :=
  forall a b, (f a b = a \/ f a b = b) /\ R (f a b) a /\ R (f a b) b.

(** Folding a choice function gives a member that bounds the list. *)
Lemma fold_choice f R `{!Reflexive R, !Transitive R} x xs :
  choice f R -> fold_left f xs x ∈ x :: xs /\ Forall (R (fold_left f xs x)) (x :: xs).
Proof.
  intros Hf. revert x. induction xs as [|y xs IH]; intros x; simpl.
  { split; [set_solver|]. by apply Forall_cons. }
  destruct (IH (f x y)) as [Hin H]. inversion_clear H as [|? ? Hx Hxs].
  destruct (Hf x y) as ([E|E] & Hl & Hr); (split;
    [clear -E Hin; rewrite E in *; set_solver|by repeat (constructor; [by etrans|])]).
Qed.

Lemma choice_min : choice Z.min Z.le.
Proof. intros a b. lia. Qed.
Lemma choice_max : choice Z.max (flip Z.le).
Proof. intros a b. unfold flip. lia. Qed.

Section Cursor.
Context `{P : PrismaEngine}.
Implicit Types (w : World P).

(** ** Client operations on the singleton row *)

Definition indexerState_findUnique : Js (World P) (option IndexerState) :=
  gets (fun w => indexerState (db w)).

Definition put_indexerState (r : IndexerState) : Js (World P) IndexerState :=
  if fits_int4 (lastLedger r) then
    do! modify (fun w => set_db (set_indexerState (Some r) (db w)) w) in ret r
  else throw (PrismaErr PRange).

Definition indexerState_create (now : Z) (ledger : Z) (cursor : option string) :
    Js (World P) IndexerState :=
  let! existing := indexerState_findUnique in
  match existing with
  | Some _ => throw (PrismaErr P2002)
  | None =>
      put_indexerState {| lastLedger := ledger; lastCursor := cursor; is_updatedAt := now |}
  end.

(** The create and update branches write the same two columns. *)
Definition indexerState_upsert (now : Z) (ledger : Z) (cursor : option string) :
    Js (World P) unit :=
  do! put_indexerState {| lastLedger := ledger; lastCursor := cursor; is_updatedAt := now |} in
  ret tt.

(** ** Operations *)

Definition ensureIndexerState (now : Z) (others others' : World P -> World P)
    (startLedger : Z) : Js (World P) IndexerState :=
  let! existing := indexerState_findUnique in
  match existing with
  | Some r => ret r
  | None =>
      do! modify others in
      try_catch (indexerState_create now startLedger None) (fun err =>
        match err with
        | PrismaErr P2002 =>
            do! modify others' in
            let! existingAfterRace := indexerState_findUnique in
            match existingAfterRace with
            | None => throw (ErrorMsg
                "[IndexerState] Unique-constraint violation but row not found after race.")
            | Some r => ret r
            end
        | _ => throw err
        end)
  end.

Record IndexerStatus := {
  st_lastLedger : Z;
  st_lastCursor : option string;
  st_updatedAt : Z;
  st_lagSeconds : Z
}.

Definition getIndexerStatus (now : Z) : Js (World P) IndexerStatus :=
  let! state := indexerState_findUnique in
  ret {| st_lastLedger := from_option lastLedger 0 state;
         st_lastCursor := from_option lastCursor None state;
         st_updatedAt := from_option is_updatedAt 0 state;
         st_lagSeconds := from_option (fun r => (now - is_updatedAt r) / 1000) (-1) state |}.

Definition resetIndexer (now toLedger : Z) : Js (World P) unit :=
  indexerState_upsert now toLedger None.

Record ResetPreview := {
  currentLastLedger : Z;
  currentLastCursor : option string;
  targetLastLedger : Z
}.

Definition previewReset (targetLedger : Z) : Js (World P) ResetPreview :=
  let! state := indexerState_findUnique in
  ret {| currentLastLedger := from_option lastLedger 0 state;
         currentLastCursor := from_option lastCursor None state;
         targetLastLedger := targetLedger |}.

Record ReplayPreview := {
  fromLedger : Z;
  rp_currentLastLedger : Z;
  rp_currentLastCursor : option string;
  eventCount : Z;
  minLedgerInReplayRange : option Z;
  maxLedgerInReplayRange : option Z
}.

Definition in_replay_range (from current : Z) (r : StreamEvent) : bool :=
  (from <=? ev_ledgerSequence r) &&
  (if 0 <? current then ev_ledgerSequence r <=? current else true).

(** The aggregates of SQL: null on no rows. *)
Definition sql_min (xs : list Z) : option Z :=
  match xs with [] => None | x :: xs => Some (fold_left Z.min xs x) end.
Definition sql_max (xs : list Z) : option Z :=
  match xs with [] => None | x :: xs => Some (fold_left Z.max xs x) end.

Definition previewReplay (from : Z) : Js (World P) ReplayPreview :=
  let! state := indexerState_findUnique in
  let current := from_option lastLedger 0 state in
  let! rows := gets (fun w => List.filter (in_replay_range from current) (t_rows (events (db w))).*2) in
  let ledgers := map ev_ledgerSequence rows in
  ret {| fromLedger := from; rp_currentLastLedger := current;
         rp_currentLastCursor := from_option lastCursor None state;
         eventCount := Z.of_nat (length rows);
         minLedgerInReplayRange := sql_min ledgers;
         maxLedgerInReplayRange := sql_max ledgers |}.

(** ** Facts *)

Lemma put_indexerState_fits r w :
  fits_int4 (lastLedger r) = true ->
  put_indexerState r w = (Returns r, set_db (set_indexerState (Some r) (db w)) w).
Proof. intros H. unfold put_indexerState. by rewrite H. Qed.

Lemma indexerState_upsert_fits now ledger cursor w :
  fits_int4 ledger = true ->
  indexerState_upsert now ledger cursor w =
  (Returns tt, set_db (set_indexerState
     (Some {| lastLedger := ledger; lastCursor := cursor; is_updatedAt := now |}) (db w)) w).
Proof. intros H. unfold indexerState_upsert, bind. by rewrite put_indexerState_fits. Qed.

Lemma ensureIndexerState_found now others others' start w r :
  indexerState (db w) = Some r ->
  ensureIndexerState now others others' start w = (Returns r, w).
Proof. intros H. unfold ensureIndexerState, bind, indexerState_findUnique, gets. by rewrite H. Qed.

Lemma ensureIndexerState_first now start w :
  indexerState (db w) = None -> fits_int4 start = true ->
  ensureIndexerState now id id start w =
  (Returns {| lastLedger := start; lastCursor := None; is_updatedAt := now |},
   set_db (set_indexerState (Some {| lastLedger := start; lastCursor := None;
     is_updatedAt := now |}) (db w)) w).
Proof.
  intros H Hfit. unfold ensureIndexerState, bind, indexerState_findUnique, gets, modify, try_catch.
  rewrite H. unfold indexerState_create, bind, indexerState_findUnique, gets. simpl.
  rewrite H, put_indexerState_fits by done. done.
Qed.

(** Two callers that race to create the cursor row agree: if another caller
    inserts the row after this one found it missing, the unique-constraint
    error is absorbed and both return the other caller's row, which is the one
    stored, whatever start ledger each was configured with. *)
Theorem ensureIndexerState_race now now' start start' w :
  indexerState (db w) = None -> fits_int4 start' = true ->
  let winner := ensureIndexerState now' id id start' w in
  ensureIndexerState now (fun _ => winner.2) id start w = winner /\
  indexerState (db winner.2) = Some {| lastLedger := start'; lastCursor := None; is_updatedAt := now' |}.
Proof.
  intros H Hfit winner. unfold winner. rewrite ensureIndexerState_first by done.
  split; [|done]. simpl.
  unfold ensureIndexerState, bind, indexerState_findUnique, gets, modify, try_catch. by rewrite H.
Qed.


Lemma sql_min_spec xs m : sql_min xs = Some m -> m ∈ xs /\ Forall (fun x => m <= x) xs.
Proof. destruct xs as [|x xs]; [done|]. intros [= <-]. apply (fold_choice _ Z.le), choice_min. Qed.
Lemma sql_max_spec xs m : sql_max xs = Some m -> m ∈ xs /\ Forall (fun x => x <= m) xs.
Proof.
  destruct xs as [|x xs]; [done|]. intros [= <-].
  apply (fold_choice _ (flip Z.le)), choice_max.
Qed.

Lemma previewReplay_rows from w r :
  r ∈ List.filter (in_replay_range from (from_option lastLedger 0 (indexerState (db w))))
        (t_rows (events (db w))).*2 <->
  (exists k, t_find k (events (db w)) = Some r) /\
  in_replay_range from (from_option lastLedger 0 (indexerState (db w))) r = true.
Proof.
  rewrite list_elem_of_In, filter_In, <- list_elem_of_In, list_elem_of_fmap. split.
  - intros [([k r'] & -> & Hk%t_rows_spec) Hf]. eauto.
  - intros [[k Hk%t_rows_spec] Hf]. split; [|done]. by exists (k, r).
Qed.

(** The replay preview reads the database only, and is exact about it: its
    bounds are ledgers of stored events of the range, every stored event of the
    range lies between them, and they are null exactly when the count is zero. *)
Theorem previewReplay_exact from w :
  exists p, previewReplay from w = (Returns p, w) /\
  let in_range r := (exists k, t_find k (events (db w)) = Some r) /\
    in_replay_range from (rp_currentLastLedger p) r = true in
  (eventCount p = 0 <-> forall r, ~ in_range r) /\
  (minLedgerInReplayRange p = None <-> eventCount p = 0) /\
  (maxLedgerInReplayRange p = None <-> eventCount p = 0) /\
  forall lo hi, minLedgerInReplayRange p = Some lo -> maxLedgerInReplayRange p = Some hi ->
    (exists r, in_range r /\ ev_ledgerSequence r = lo) /\
    (exists r, in_range r /\ ev_ledgerSequence r = hi) /\
    forall r, in_range r -> lo <= ev_ledgerSequence r <= hi.
Proof.
  unfold previewReplay, bind, indexerState_findUnique, gets, ret. eexists; split; [done|].
  cbn [rp_currentLastLedger eventCount minLedgerInReplayRange maxLedgerInReplayRange].
  pose proof (previewReplay_rows from w) as Hrows. revert Hrows.
  generalize (List.filter (in_replay_range from (from_option lastLedger 0 (indexerState (db w))))
                (t_rows (events (db w))).*2) as rows.
  intros rows Hrows. setoid_rewrite <- Hrows. split_and!.
  - destruct rows as [|r rows]; simpl; split; intros H; try done; [intros r; set_solver|].
    destruct (H r). set_solver.
  - by destruct rows.
  - by destruct rows.
  - intros lo hi [Hlo Hlos]%sql_min_spec [Hhi Hhis]%sql_max_spec.
    apply list_elem_of_fmap in Hlo as (r & -> & Hr). apply list_elem_of_fmap in Hhi as (s & -> & Hs).
    split_and!; eauto. intros q Hq.
    rewrite Forall_forall in Hlos. rewrite Forall_forall in Hhis.
    assert (Hin : In (ev_ledgerSequence q) (map ev_ledgerSequence rows))
      by (by apply in_map, list_elem_of_In).
    split; [by apply Hlos|by apply Hhis].
Qed.
End Cursor.

Lemma ensureIndexerState_race_witness :
  (ensureIndexerState (P:=gmap_engine) 1000
     (fun _ => (ensureIndexerState 900 id id 7 empty_world).2) id 5 empty_world).1 =
  Returns {| lastLedger := 7; lastCursor := None; is_updatedAt := 900 |}.
Proof.
  exact (f_equal fst (proj1 (ensureIndexerState_race (P:=gmap_engine) 1000 900 5 7 empty_world
    eq_refl eq_refl))).
Defined.
