(* ===== verification/DeadLetter.v ===== *)
(** * Dead letters: backend/src/services/indexerService.ts

    Events that failed to process are written to a table with a JSON payload,
    and can be listed, replayed through [processEvent] or discarded.  XDR
    (de)serialization and [new Contract] belong to the SDK, and the texts of
    built-in errors to the engine: both are parameters. *)
From S2P Require Import Prelude JsLang StreamId Json Schema Xdr Worker.
From stdpp Require Import sorting.
Local Open Scope Z_scope.

Class StellarSdk := {
  toXDR : ScVal -> string; (* base64 *)
  fromXDR : string -> option ScVal;
  fromXDR_toXDR : forall v, fromXDR (toXDR v) = Some v;
  (** whether [new Contract(id)] accepts the identifier *)
  new_Contract : string -> bool;
  (** [topic0.sym().toString()], unless it throws *)
  sym_method : ScVal -> option string;
  xdr_error : JsError;
  engine_message : JsError -> string
}.

Section DeadLetters.
Context `{P : PrismaEngine} `{K : StrKey} `{Sdk : StellarSdk}.
Implicit Types (w : World P) (e : EventResponse).

(** [err instanceof Error ? err.message : String(err)] *)
Definition error_message (err : JsError) : string :=
  match err with
  | ErrorMsg m => m
  | PrismaErr c => prisma_message c
  | ReferenceErr n => n +:+ " is not defined"
  | err => engine_message err
  end.

(** ** The payload *)

(** A string that JavaScript takes for true. *)
Definition truthy (o : option string) : bool :=
  match o with Some s => negb (bool_decide (s = "")) | None => false end.

Definition payload_json e : Json :=
  JObject ([("id", JString (Xdr.id e)); ("type", JString (type e)); ("ledger", JNumber (ledger e));
            ("ledgerClosedAt", JString (ledgerClosedAt e));
            ("transactionIndex", JNumber (transactionIndex e));
            ("operationIndex", JNumber (operationIndex e));
            ("inSuccessfulContractCall", JBool (inSuccessfulContractCall e));
            ("topic", JArray (map (fun v => JString (toXDR v)) (topic e)));
            ("value", JString (toXDR (value e)))] ++
           if truthy (contractId e) then [("contractId", JString (default "" (contractId e)))]
           else []).

Definition serializeDeadLetterPayload e : string := JSON_stringify (payload_json e).

(** A base64 XDR value; [Buffer.from] refuses what is not a string. *)
Definition scval_of_json (j : Json) : outcome ScVal :=
  match j with
  | JString b64 => of_option xdr_error (fromXDR b64)
  | _ => Throws TypeErr
  end.

Fixpoint omap_outcome {A B} (f : A -> outcome B) (xs : list A) : outcome (list B) :=
  match xs with
  | [] => Returns []
  | x :: xs => let? y := f x in let? ys := omap_outcome f xs in Returns (y :: ys)
  end.

(** [(parsed.topic ?? []).map(...)] *)
Definition topic_of_json (j : Json) : outcome (list ScVal) :=
  match j with
  | JNull | JUndefined => Returns []
  | JArray xs => omap_outcome scval_of_json xs
  | _ => Throws TypeErr
  end.

(** Members read at the type that the cast to [DeadLetterPayload] gives them. *)
Definition as_string (j : Json) : string := match j with JString s => s | _ => "" end.
Definition as_number (j : Json) : Z := match j with JNumber n => n | _ => 0 end.
Definition as_bool (j : Json) : bool := match j with JBool b => b | _ => false end.

Definition deserializeDeadLetterPayload (payload : string) : outcome EventResponse :=
  let? parsed := JSON_parse payload in
  let? topic :=
    match parsed with JNull => Throws TypeErr | _ => topic_of_json (member "topic" parsed) end in
  let? value := scval_of_json (member "value" parsed) in
  let cid := as_string (member "contractId" parsed) in
  Returns {|
    Xdr.id := as_string (member "id" parsed); type := as_string (member "type" parsed);
    ledger := as_number (member "ledger" parsed);
    ledgerClosedAt := as_string (member "ledgerClosedAt" parsed);
    transactionIndex := as_number (member "transactionIndex" parsed);
    operationIndex := as_number (member "operationIndex" parsed);
    inSuccessfulContractCall := as_bool (member "inSuccessfulContractCall" parsed);
    contractId := if truthy (Some cid) && new_Contract cid then Some cid else None;
    txHash := None; (* the payload has no such member *)
    Xdr.topic := topic; Xdr.value := value |}.

Definition eventTypeOf e : string :=
  match topic e with
  | [] => "unknown"
  | topic0 :: _ => default "unknown" (sym_method topic0)
  end.

(** ** Client operations on the table *)

Definition put_deadLetter (r : DeadLetter) : Js (World P) unit :=
  if fits_int4 (dl_ledgerSequence r) && fits_int4 (dl_attempts r) then
    modify (fun w => set_db (set_deadLetters
      (t_put (dl_eventId r, dl_eventType r) r (deadLetters (db w))) (uuids_drawn (db w)) (db w)) w)
  else throw (PrismaErr PRange).

Definition draw_uuid : Js (World P) string :=
  fun w => (Returns (uuid (uuids_drawn (db w))),
            set_db (set_deadLetters (deadLetters (db w)) (S (uuids_drawn (db w))) (db w)) w).

(** [{ errorMessage, attempts: { increment: 1 }, lastAttemptAt }] *)
Definition another_attempt (now : Z) (message : string) (r : DeadLetter) : DeadLetter := {|
  dl_id := dl_id r; dl_eventId := dl_eventId r; dl_eventType := dl_eventType r;
  dl_txHash := dl_txHash r; dl_ledgerSequence := dl_ledgerSequence r; dl_cursor := dl_cursor r;
  dl_payload := dl_payload r; dl_errorMessage := message; dl_attempts := dl_attempts r + 1;
  dl_lastAttemptAt := now; dl_createdAt := dl_createdAt r |}.

Definition deadLetter_rows : Js (World P) (list DeadLetter) :=
  gets (fun w => (t_rows (deadLetters (db w))).*2).

Definition deadLetter_findById (id : string) : Js (World P) (option DeadLetter) :=
  gets (fun w => List.find (fun r => bool_decide (dl_id r = id)) (t_rows (deadLetters (db w))).*2).

Definition deadLetter_update (id : string) (upd : DeadLetter -> DeadLetter) :
    Js (World P) DeadLetter :=
  let! row := deadLetter_findById id in
  let! r := lift (of_option (PrismaErr P2025) row) in
  do! put_deadLetter (upd r) in
  ret (upd r).

Definition deadLetter_delete (id : string) : Js (World P) unit :=
  let! row := deadLetter_findById id in
  let! r := lift (of_option (PrismaErr P2025) row) in
  modify (fun w => set_db (set_deadLetters
    (t_del (dl_eventId r, dl_eventType r) (deadLetters (db w))) (uuids_drawn (db w)) (db w)) w).

(** ** Operations *)

Definition quarantineEvent (now : Z) e (err : JsError) (cursor : option string) :
    Js (World P) unit :=
  let eventType := eventTypeOf e in
  let errorMessage := error_message err in
  try_catch
    (let! existing := gets (fun w => t_find (Xdr.id e, eventType) (deadLetters (db w))) in
     match txHash e with
     | None => throw (PrismaErr PValidation) (* [txHash: undefined] in the create branch *)
     | Some hash =>
         match existing with
         | Some r => put_deadLetter (another_attempt now errorMessage r)
         | None =>
             let! fresh_id := draw_uuid in
             put_deadLetter {|
               dl_id := fresh_id; dl_eventId := Xdr.id e; dl_eventType := eventType;
               dl_txHash := hash; dl_ledgerSequence := ledger e; dl_cursor := cursor;
               dl_payload := serializeDeadLetterPayload e; dl_errorMessage := errorMessage;
               dl_attempts := 1; dl_lastAttemptAt := now; dl_createdAt := now |}
         end
     end)
    (fun _ => ret tt).

Inductive ReplayOutcome := replayed | failed | not_found | undecodable.

#[export] Instance ReplayOutcome_eq_dec : EqDecision ReplayOutcome.
Proof. solve_decision. Defined.

Record ReplayResult := {
  rr_id : string;
  rr_outcome : ReplayOutcome;
  rr_attempts : Z;
  rr_errorMessage : option string
}.

Definition replayDeadLetterEvent (now : Z) (id : string) : Js (World P) ReplayResult :=
  let! record := deadLetter_findById id in
  match record with
  | None => ret {| rr_id := id; rr_outcome := not_found; rr_attempts := 0; rr_errorMessage := None |}
  | Some record =>
      match deserializeDeadLetterPayload (dl_payload record) with
      | Throws err =>
          let message := "Undecodable dead-letter payload: " +:+ error_message err in
          do! deadLetter_update id (another_attempt now message) in
          ret {| rr_id := id; rr_outcome := undecodable; rr_attempts := dl_attempts record + 1;
                 rr_errorMessage := Some message |}
      | Returns event =>
          try_catch
            (do! processEvent now event in
             do! deadLetter_delete id in
             ret {| rr_id := id; rr_outcome := replayed; rr_attempts := dl_attempts record;
                    rr_errorMessage := None |})
            (fun err =>
              let message := error_message err in
              let! updated := deadLetter_update id (another_attempt now message) in
              ret {| rr_id := id; rr_outcome := failed; rr_attempts := dl_attempts updated;
                     rr_errorMessage := Some message |})
      end
  end.

Fixpoint map_js {S A B} (f : A -> Js S B) (xs : list A) : Js S (list B) :=
  match xs with
  | [] => ret []
  | x :: xs => let! y := f x in let! ys := map_js f xs in ret (y :: ys)
  end.

Record ReplayAllResult := {
  attempted : nat;
  ra_replayed : nat;
  ra_failed : nat;
  ra_undecodable : nat;
  ra_notFound : nat;
  results : list ReplayResult
}.

Definition count_outcome (o : ReplayOutcome) (rs : list ReplayResult) : nat :=
  length (List.filter (fun r => bool_decide (rr_outcome r = o)) rs).

(** [orderBy: [{ ledgerSequence: 'asc' }, { createdAt: 'asc' }]] *)
Definition older (r r' : DeadLetter) : Prop :=
  dl_ledgerSequence r < dl_ledgerSequence r' \/
  (dl_ledgerSequence r = dl_ledgerSequence r' /\ dl_createdAt r <= dl_createdAt r').
#[export] Instance older_dec : RelDecision older.
Proof. unfold older. solve_decision. Defined.

Definition replayAllDeadLetterEvents (now : Z) : Js (World P) ReplayAllResult :=
  let! rows := deadLetter_rows in
  let pending := map dl_id (merge_sort older rows) in
  let! results := map_js (replayDeadLetterEvent now) pending in
  ret {| attempted := length results; ra_replayed := count_outcome replayed results;
         ra_failed := count_outcome failed results;
         ra_undecodable := count_outcome undecodable results;
         ra_notFound := count_outcome not_found results; results := results |}.

Definition DeadLetterNotFoundError (id : string) : JsError :=
  ErrorMsg ("Dead-letter event " +:+ id +:+ " not found").

(** The returned record is that of the deleted row; the log line is left out. *)
Definition discardDeadLetterEvent (id : string) : Js (World P) (string * string * string * Z) :=
  let! record := deadLetter_findById id in
  match record with
  | None => throw (DeadLetterNotFoundError id)
  | Some record =>
      do! deadLetter_delete id in
      ret (dl_id record, dl_eventType record, dl_txHash record, dl_ledgerSequence record)
  end.

(** ** Listing *)

Definition DEFAULT_DEAD_LETTER_PAGE_SIZE : Z := 25.
Definition MAX_DEAD_LETTER_PAGE_SIZE : Z := 100.

Record DeadLetterQuery := {
  q_page : Z;
  q_limit : Z;
  q_ledgerSequence : option Z;
  q_startDate : option Z;
  q_endDate : option Z;
  q_eventType : option string
}.

Definition dl_matches (q : DeadLetterQuery) (r : DeadLetter) : bool :=
  match q_ledgerSequence q with Some l => dl_ledgerSequence r =? l | None => true end &&
  (if truthy (q_eventType q) then bool_decide (Some (dl_eventType r) = q_eventType q) else true) &&
  match q_startDate q with Some d => d <=? dl_createdAt r | None => true end &&
  match q_endDate q with Some d => dl_createdAt r <=? d | None => true end.

(** [orderBy: [{ createdAt: 'desc' }, { ledgerSequence: 'desc' }]] *)
Definition newer (r r' : DeadLetter) : Prop :=
  dl_createdAt r > dl_createdAt r' \/
  (dl_createdAt r = dl_createdAt r' /\ dl_ledgerSequence r >= dl_ledgerSequence r').
#[export] Instance newer_dec : RelDecision newer.
Proof. unfold newer. solve_decision. Defined.

Record DeadLetterListResult := {
  lr_items : list DeadLetter;
  lr_total : Z;
  lr_page : Z;
  lr_limit : Z;
  lr_hasMore : bool
}.

(** [x || d] for a number that is never NaN *)
Definition or_default (x d : Z) : Z := if x =? 0 then d else x.

(** The records that match; a ledger that fits no column, or a number of records to
    skip that fits no integer of the database, is an error. *)
Definition deadLetter_find (q : DeadLetterQuery) (skip : Z) : Js (World P) (list DeadLetter) :=
  if match q_ledgerSequence q with Some l => fits_int4 l | None => true end && fits_int8 skip then
    let! rows := deadLetter_rows in ret (List.filter (dl_matches q) rows)
  else throw (PrismaErr PRange).

Definition listDeadLetterEvents (q : DeadLetterQuery) : Js (World P) DeadLetterListResult :=
  let limit := Z.min (Z.max 1 (or_default (q_limit q) DEFAULT_DEAD_LETTER_PAGE_SIZE))
                 MAX_DEAD_LETTER_PAGE_SIZE in
  let page := Z.max 1 (or_default (q_page q) 1) in
  let! rows := deadLetter_find q ((page - 1) * limit) in
  let matching := merge_sort newer rows in
  let total := Z.of_nat (length matching) in
  ret {| lr_items := take (Z.to_nat limit) (drop (Z.to_nat ((page - 1) * limit)) matching);
         lr_total := total; lr_page := page; lr_limit := limit;
         lr_hasMore := page * limit <? total |}.
End DeadLetters.
