(* ===== verification/SampleSdk.v ===== *)
(** * A concrete SDK for the examples

    Stand-in XDR text: the JSON of a value.  It satisfies the one law the
    development asks of the SDK, that a value survives serialization. *)
From S2P Require Import Prelude JsLang StreamId Json Schema Xdr DeadLetter.
Local Open Scope Z_scope.

Definition address_json (a : ScAddress) : Json :=
  match a with
  | AccountAddress k => JArray [JString "account"; JArray (map JNumber k)]
  | ContractAddress h => JArray [JString "contract"; JArray (map JNumber h)]
  | OtherAddress => JNull
  end.

Fixpoint scval_json (v : ScVal) : Json :=
  match v with
  | ScvVoid => JNull
  | ScvBool b => JBool b
  | ScvU32 n => JArray [JString "u32"; JNumber n]
  | ScvU64 n => JNumber n
  | ScvI128 hi lo => JArray [JString "i128"; JNumber hi; JNumber lo]
  | ScvSymbol s => JString s
  | ScvAddress a => JArray [JString "address"; address_json a]
  | ScvMap None => JArray [JString "map"]
  | ScvMap (Some kvs) =>
      JArray [JString "map"; JArray (map (fun kv => JArray [scval_json kv.1; scval_json kv.2]) kvs)]
  | ScvOther => JArray []
  end.

Definition json_numbers (xs : list Json) : list Z :=
  map (fun j => match j with JNumber n => n | _ => 0 end) xs.

Definition json_address (j : Json) : ScAddress :=
  match j with
  | JArray [JString tag; JArray xs] =>
      if bool_decide (tag = "account") then AccountAddress (json_numbers xs)
      else ContractAddress (json_numbers xs)
  | _ => OtherAddress
  end.

Fixpoint json_scval (j : Json) : ScVal :=
  match j with
  | JBool b => ScvBool b
  | JNumber n => ScvU64 n
  | JString s => ScvSymbol s
  | JArray [JString _; JNumber n] => ScvU32 n
  | JArray [JString _; JNumber hi; JNumber lo] => ScvI128 hi lo
  | JArray [JString tag; JArray xs] =>
      if bool_decide (tag = "map") then
        ScvMap (Some (map (fun j =>
          match j with JArray [k; v] => (json_scval k, json_scval v) | _ => (ScvVoid, ScvVoid) end) xs))
      else ScvAddress (json_address (JArray xs))
  | JArray [JString _; JNull] => ScvAddress OtherAddress
  | JArray [JString _] => ScvMap None
  | JArray [] => ScvOther
  | _ => ScvVoid
  end.

Lemma ScVal_nested_ind (Q : ScVal -> Prop) :
  (forall kvs, Forall (fun kv : ScVal * ScVal => Q kv.1 /\ Q kv.2) kvs -> Q (ScvMap (Some kvs))) ->
  (forall v, (forall kvs, v <> ScvMap (Some kvs)) -> Q v) -> forall v, Q v.
Proof.
  intros Hmap Hleaf. fix IH 1. intros [| | | | | | |[kvs|]|]; try (clear IH; by apply Hleaf).
  apply Hmap. induction kvs as [|[k v] kvs IHk]; constructor; [split; apply IH|exact IHk].
Qed.

Lemma json_numbers_map ns : json_numbers (map JNumber ns) = ns.
Proof. unfold json_numbers. rewrite map_map. apply map_id. Qed.

Lemma scval_json_roundtrip v : json_scval (scval_json v) = v /\ carried (scval_json v) = true.
Proof.
  assert (Hn : forall ns, forallb carried (map JNumber ns) = true) by (by induction ns).
  induction v as [kvs IH|v Hv] using ScVal_nested_ind.
  - induction IH as [|[k v] kvs [[Hk Hk'] [Hv Hv']] _ [IH1 IH2]]; [done|]. simpl in *.
    rewrite Hk, Hv, Hk', Hv'. injection IH1 as ->.
    split; [done|]. rewrite andb_true_r in *. simpl. by rewrite IH2.
  - destruct v as [| | | | | |[k|h|]|[kvs|]|]; try done; try (by destruct (Hv kvs)); simpl;
      rewrite ?json_numbers_map, ?Hn; done.
Qed.

Lemma sample_XDR_roundtrip v :
  match JSON_parse (JSON_stringify (scval_json v)) with
  | Returns j => Some (json_scval j) | Throws _ => None end = Some v.
Proof.
  destruct (scval_json_roundtrip v) as [H1 H2].
  by rewrite JSON_parse_stringify, H1 by done.
Qed.

Definition sample_sdk : StellarSdk := {|
  toXDR v := JSON_stringify (scval_json v);
  fromXDR s := match JSON_parse s with Returns j => Some (json_scval j) | Throws _ => None end;
  fromXDR_toXDR := sample_XDR_roundtrip;
  new_Contract s := startsWith "C" s;
  sym_method v := match v with ScvSymbol s => Some s | _ => None end;
  xdr_error := ErrorMsg "XDR read error";
  engine_message _ := "error"%string
|}.
#[export] Existing Instance sample_sdk.
