(* ===== verification/DeadLetterFacts.v ===== *)
(** * Properties of the dead-letter table

    Quarantining never throws and keeps one row per event; the payload round
    trip loses exactly the transaction hash, so that replaying a recognised
    event cannot succeed; replay-all visits every record once, oldest first;
    the pages of the listing partition the matching records. *)
From S2P Require Import WorkerFacts Prelude JsLang StreamId Json Schema Xdr Worker Contract Samples DeadLetter SampleSdk.
From stdpp Require Import sorting.
Local Open Scope Z_scope.

Section Facts.
Context `{P : PrismaEngine} `{K : StrKey} `{Sdk : StellarSdk}.
Implicit Types (w : World P) (e : EventResponse).

(** ** The table's invariant *)

Record deadLetters_ok w : Prop := {
  dlo_key : forall k r, t_find k (deadLetters (db w)) = Some r ->
    k = (dl_eventId r, dl_eventType r);
  dlo_fits : forall k r, t_find k (deadLetters (db w)) = Some r ->
    fits_int4 (dl_ledgerSequence r) = true /\ fits_int4 (dl_attempts r) = true;
  dlo_drawn : forall k r, t_find k (deadLetters (db w)) = Some r ->
    exists n, (n < uuids_drawn (db w))%nat /\ dl_id r = uuid n;
  dlo_unique : forall k r k' r', t_find k (deadLetters (db w)) = Some r ->
    t_find k' (deadLetters (db w)) = Some r' -> dl_id r = dl_id r' -> k = k'
}.

Lemma stored_rows k r (t : DeadLetterTable) : t_find k t = Some r -> r ∈ (t_rows t).*2.
Proof. intros H. apply list_elem_of_fmap. exists (k, r). by rewrite t_rows_spec. Qed.
Lemma rows_stored r (t : DeadLetterTable) : r ∈ (t_rows t).*2 -> exists k, t_find k t = Some r.
Proof. intros ([k r'] & -> & H)%list_elem_of_fmap. exists k. by apply t_rows_spec. Qed.

Lemma findById_stored w k r :
  deadLetters_ok w -> t_find k (deadLetters (db w)) = Some r ->
  deadLetter_findById (dl_id r) w = (Returns (Some r), w).
Proof.
  intros Hok Hr. unfold deadLetter_findById, gets. do 2 f_equal.
  destruct (List.find _ _) as [r'|] eqn:E.
  - apply find_some in E as [Hin Hid%bool_decide_eq_true].
    apply list_elem_of_In, rows_stored in Hin as [k' Hr'].
    assert (k' = k) as -> by (eapply dlo_unique; eauto). congruence.
  - apply stored_rows, list_elem_of_In, (find_none _ _ E) in Hr.
    by rewrite bool_decide_eq_false in Hr.
Qed.

(** A row may be rewritten under its key and identifier. *)
Lemma deadLetters_ok_rewrite w k r r' :
  deadLetters_ok w -> t_find k (deadLetters (db w)) = Some r ->
  dl_id r' = dl_id r -> (dl_eventId r', dl_eventType r') = k ->
  fits_int4 (dl_ledgerSequence r') = true -> fits_int4 (dl_attempts r') = true ->
  deadLetters_ok (set_db (set_deadLetters (t_put k r' (deadLetters (db w)))
                            (uuids_drawn (db w)) (db w)) w).
Proof.
  intros [H1 H2 H3 H4] Hr Hid Hk Hf1 Hf2.
  assert (Hold : forall k' q, t_find k' (t_put k r' (deadLetters (db w))) = Some q ->
    k' = k /\ q = r' \/ k' <> k /\ t_find k' (deadLetters (db w)) = Some q).
  { intros k' q. rewrite t_find_put. case_decide; intros; simplify_eq; auto. }
  split; simpl.
  - intros k' q [[-> ->]|[_ Hq]]%Hold; eauto.
  - intros k' q [[-> ->]|[_ Hq]]%Hold; eauto.
  - intros k' q [[-> ->]|[_ Hq]]%Hold; rewrite ?Hid; eauto.
  - intros k1 q1 k2 q2 [[-> ->]|[? Hq1]]%Hold [[-> ->]|[? Hq2]]%Hold; rewrite ?Hid; eauto.
Qed.

Lemma deadLetters_ok_insert w k r' :
  deadLetters_ok w -> t_find k (deadLetters (db w)) = None ->
  dl_id r' = uuid (uuids_drawn (db w)) -> (dl_eventId r', dl_eventType r') = k ->
  fits_int4 (dl_ledgerSequence r') = true -> fits_int4 (dl_attempts r') = true ->
  deadLetters_ok (set_db (set_deadLetters (t_put k r' (deadLetters (db w)))
                            (S (uuids_drawn (db w))) (db w)) w).
Proof.
  intros [H1 H2 H3 H4] Hr Hid Hk Hf1 Hf2.
  assert (Hold : forall k' q, t_find k' (t_put k r' (deadLetters (db w))) = Some q ->
    k' = k /\ q = r' \/ k' <> k /\ t_find k' (deadLetters (db w)) = Some q).
  { intros k' q. rewrite t_find_put. case_decide; intros; simplify_eq; auto. }
  assert (Hfresh : forall k' q, t_find k' (deadLetters (db w)) = Some q ->
    dl_id q <> uuid (uuids_drawn (db w))).
  { intros k' q Hq Heq. destruct (H3 _ _ Hq) as (n & Hn & Hid').
    assert (n = uuids_drawn (db w)) by (apply uuid_inj; congruence). lia. }
  split; simpl.
  - intros k' q [[-> ->]|[_ Hq]]%Hold; eauto.
  - intros k' q [[-> ->]|[_ Hq]]%Hold; eauto.
  - intros k' q [[-> ->]|[_ Hq]]%Hold; [eauto with lia|].
    destruct (H3 _ _ Hq) as (n & ? & ?). exists n. split; [lia|done].
  - intros k1 q1 k2 q2 [[-> ->]|[? Hq1]]%Hold [[-> ->]|[? Hq2]]%Hold; rewrite ?Hid; intros;
      eauto; exfalso; eapply Hfresh; eauto.
Qed.

Lemma deadLetters_ok_delete w k :
  deadLetters_ok w ->
  deadLetters_ok (set_db (set_deadLetters (t_del k (deadLetters (db w)))
                            (uuids_drawn (db w)) (db w)) w).
Proof.
  intros [H1 H2 H3 H4].
  assert (Hold : forall k' q, t_find k' (t_del k (deadLetters (db w))) = Some q ->
    t_find k' (deadLetters (db w)) = Some q).
  { intros k' q. rewrite t_find_del. by case_decide. }
  split; simpl; eauto.
Qed.

Lemma put_deadLetter_fits r w :
  fits_int4 (dl_ledgerSequence r) = true -> fits_int4 (dl_attempts r) = true ->
  put_deadLetter r w = (Returns tt, set_db (set_deadLetters
    (t_put (dl_eventId r, dl_eventType r) r (deadLetters (db w))) (uuids_drawn (db w)) (db w)) w).
Proof. intros H1 H2. unfold put_deadLetter. by rewrite H1, H2. Qed.

Lemma update_stored w k r upd :
  deadLetters_ok w -> t_find k (deadLetters (db w)) = Some r ->
  (dl_eventId (upd r), dl_eventType (upd r)) = k ->
  fits_int4 (dl_ledgerSequence (upd r)) = true -> fits_int4 (dl_attempts (upd r)) = true ->
  deadLetter_update (dl_id r) upd w =
  (Returns (upd r), set_db (set_deadLetters (t_put k (upd r) (deadLetters (db w)))
                              (uuids_drawn (db w)) (db w)) w).
Proof.
  intros Hok Hr Hk H1 H2. unfold deadLetter_update, bind.
  erewrite findById_stored by done. simpl. by rewrite put_deadLetter_fits, Hk.
Qed.

Lemma delete_stored w k r :
  deadLetters_ok w -> t_find k (deadLetters (db w)) = Some r ->
  deadLetter_delete (dl_id r) w =
  (Returns tt, set_db (set_deadLetters (t_del k (deadLetters (db w)))
                         (uuids_drawn (db w)) (db w)) w).
Proof.
  intros Hok Hr. unfold deadLetter_delete, bind.
  erewrite findById_stored by done. simpl. by rewrite <- (dlo_key w Hok _ _ Hr).
Qed.

(** ** Quarantine *)

(** The event as it comes back from its payload. *)
Definition without_hash e : EventResponse := {|
  Xdr.id := Xdr.id e; type := type e; ledger := ledger e; ledgerClosedAt := ledgerClosedAt e;
  transactionIndex := transactionIndex e; operationIndex := operationIndex e;
  inSuccessfulContractCall := inSuccessfulContractCall e;
  contractId := match contractId e with
                | Some c => if truthy (Some c) && new_Contract c then Some c else None
                | None => None
                end;
  txHash := None; Xdr.topic := topic e; Xdr.value := value e |}.

Lemma omap_scvals vs :
  omap_outcome scval_of_json (map (fun v => JString (toXDR v)) vs) = Returns vs.
Proof.
  induction vs as [|v vs IH]; [done|]. simpl. rewrite fromXDR_toXDR. simpl. by rewrite IH.
Qed.

Lemma payload_carried e : carried (payload_json e) = true.
Proof.
  assert (forall vs, forallb carried (map (fun v => JString (toXDR v)) vs) = true) as H
    by (by induction vs).
  unfold payload_json. destruct (truthy (contractId e)); simpl; by rewrite H.
Qed.

Lemma deserialize_serialize e :
  deserializeDeadLetterPayload (serializeDeadLetterPayload e) = Returns (without_hash e).
Proof.
  unfold deserializeDeadLetterPayload, serializeDeadLetterPayload.
  rewrite JSON_parse_stringify by apply payload_carried.
  unfold obind, payload_json, member, without_hash.
  destruct (contractId e) as [c|]; [destruct (truthy (Some c)) eqn:Hc|]; simpl;
    rewrite omap_scvals; simpl; rewrite fromXDR_toXDR; simpl; [|done..].
  unfold truthy in Hc. by rewrite Hc.
Qed.

(** A quarantined event loses exactly its transaction hash: what
    deserialization gives back is the event that was serialized, with no hash and
    with the contract id only if the SDK accepts it. *)
Theorem payload_roundtrip e :
  exists e', deserializeDeadLetterPayload (serializeDeadLetterPayload e) = Returns e' /\
    topic e' = topic e /\ value e' = value e /\ ledger e' = ledger e /\ Xdr.id e' = Xdr.id e /\
    txHash e' = None.
Proof. exists (without_hash e). by rewrite deserialize_serialize. Qed.

Lemma quarantine_fresh now e err cursor hash w :
  t_find (Xdr.id e, eventTypeOf e) (deadLetters (db w)) = None ->
  txHash e = Some hash -> fits_int4 (ledger e) = true ->
  quarantineEvent now e err cursor w =
  (Returns tt, set_db (set_deadLetters (t_put (Xdr.id e, eventTypeOf e)
     {| dl_id := uuid (uuids_drawn (db w)); dl_eventId := Xdr.id e; dl_eventType := eventTypeOf e;
        dl_txHash := hash; dl_ledgerSequence := ledger e; dl_cursor := cursor;
        dl_payload := serializeDeadLetterPayload e; dl_errorMessage := error_message err;
        dl_attempts := 1; dl_lastAttemptAt := now; dl_createdAt := now |}
     (deadLetters (db w))) (S (uuids_drawn (db w))) (db w)) w).
Proof.
  intros Hr Hh Hf. unfold quarantineEvent, try_catch, bind, gets, draw_uuid. rewrite Hr, Hh.
  rewrite put_deadLetter_fits by done. done.
Qed.

Lemma quarantine_again now e err cursor hash w r :
  t_find (Xdr.id e, eventTypeOf e) (deadLetters (db w)) = Some r -> txHash e = Some hash ->
  deadLetters_ok w -> fits_int4 (dl_attempts r + 1) = true ->
  quarantineEvent now e err cursor w =
  (Returns tt, set_db (set_deadLetters (t_put (Xdr.id e, eventTypeOf e)
     (another_attempt now (error_message err) r) (deadLetters (db w))) (uuids_drawn (db w)) (db w)) w).
Proof.
  intros Hr Hh Hok Hf. unfold quarantineEvent, try_catch, bind, gets. rewrite Hr, Hh.
  pose proof (dlo_key w Hok _ _ Hr) as [= E1 E2].
  pose proof (dlo_fits w Hok _ _ Hr) as [Hl _].
  rewrite put_deadLetter_fits by done. simpl. by rewrite <- E1, <- E2.
Qed.

Lemma quarantine_ok now e err cursor : preserves deadLetters_ok (quarantineEvent now e err cursor).
Proof.
  intros w Hok. destruct (txHash e) as [hash|] eqn:Hh.
  - destruct (t_find (Xdr.id e, eventTypeOf e) (deadLetters (db w))) as [r|] eqn:Hr.
    + destruct (fits_int4 (dl_attempts r + 1)) eqn:Hf.
      * erewrite quarantine_again by done. pose proof (dlo_key w Hok _ _ Hr).
        pose proof (dlo_fits w Hok _ _ Hr) as [Hl _].
        eapply deadLetters_ok_rewrite; eauto.
      * unfold quarantineEvent, try_catch, bind, gets. rewrite Hr, Hh.
        unfold put_deadLetter. simpl. by rewrite Hf, andb_false_r.
    + destruct (fits_int4 (ledger e)) eqn:Hf.
      * erewrite quarantine_fresh by done. by apply deadLetters_ok_insert.
      * unfold quarantineEvent, try_catch, bind, gets. rewrite Hr, Hh. simpl.
        unfold put_deadLetter. simpl. rewrite Hf. simpl. destruct Hok as [H1 H2 H3 H4].
        split; simpl; eauto. intros k r Hk. destruct (H3 k r Hk) as (n & ? & ?).
        exists n. split; [lia|done].
  - unfold quarantineEvent, try_catch, bind, gets. by rewrite Hh.
Qed.

(** Quarantine the same event once per error of the list, at its time. *)
Definition quarantine_all e (failures : list (Z * JsError)) : Js (World P) unit :=
  for_each failures (fun f => quarantineEvent f.1 e f.2 None).

Lemma quarantine_all_again e hash fs w r :
  t_find (Xdr.id e, eventTypeOf e) (deadLetters (db w)) = Some r -> txHash e = Some hash ->
  deadLetters_ok w -> 0 <= dl_attempts r -> dl_attempts r + Z.of_nat (length fs) < 2 ^ 31 ->
  exists w' r', quarantine_all e fs w = (Returns tt, w') /\
    t_find (Xdr.id e, eventTypeOf e) (deadLetters (db w')) = Some r' /\
    (forall k, k <> (Xdr.id e, eventTypeOf e) ->
       t_find k (deadLetters (db w')) = t_find k (deadLetters (db w))) /\
    dl_attempts r' = dl_attempts r + Z.of_nat (length fs) /\ dl_payload r' = dl_payload r /\
    dl_createdAt r' = dl_createdAt r /\
    dl_errorMessage r' = default (dl_errorMessage r) (error_message <$> last fs.*2).
Proof.
  intros Hr Hh. revert w r Hr. induction fs as [|[now err] fs IH]; intros w r Hr Hok H0 Hb.
  { exists w, r. split_and!; try done. simpl. lia. }
  simpl length in Hb. assert (Hf : fits_int4 (dl_attempts r + 1) = true) by (unfold fits_int4; lia).
  pose proof (quarantine_ok now e err None w Hok) as Hok'.
  pose proof (quarantine_again now e err None hash w r Hr Hh Hok Hf) as E.
  unfold quarantine_all in *. cbn [for_each]. unfold bind. cbn [fst snd]. rewrite E in *.
  simpl in Hok'. edestruct IH as (w' & r' & E' & Hr' & Hother & Hn & Hp & Hc & Hm);
    [..|exists w', r'; rewrite E'; split_and!; [done|exact Hr'|..]].
  - simpl. rewrite t_find_put. by rewrite decide_True.
  - done.
  - simpl. lia.
  - simpl. lia.
  - intros k Hk. rewrite Hother by done. simpl. rewrite t_find_put. by rewrite decide_False.
  - rewrite Hn. simpl. lia.
  - by rewrite Hp.
  - by rewrite Hc.
  - rewrite Hm. cbn [fmap list_fmap snd]. rewrite last_cons. by destruct (last fs.*2).
Qed.

(** However often an event fails, the table holds one row for it: the first
    failure stores the payload, each further one raises the attempt count by one
    and refreshes the error, no other row moves, and nothing is ever thrown. *)
Theorem quarantine_counts_attempts e hash now err fs w :
  deadLetters_ok w -> t_find (Xdr.id e, eventTypeOf e) (deadLetters (db w)) = None ->
  txHash e = Some hash -> fits_int4 (ledger e) = true ->
  Z.of_nat (S (length fs)) < 2 ^ 31 ->
  exists w' r, quarantine_all e ((now, err) :: fs) w = (Returns tt, w') /\
    t_find (Xdr.id e, eventTypeOf e) (deadLetters (db w')) = Some r /\
    (forall k, k <> (Xdr.id e, eventTypeOf e) ->
       t_find k (deadLetters (db w')) = t_find k (deadLetters (db w))) /\
    dl_attempts r = Z.of_nat (S (length fs)) /\ dl_createdAt r = now /\
    dl_payload r = serializeDeadLetterPayload e /\
    Some (dl_errorMessage r) = error_message <$> last (err :: fs.*2).
Proof.
  intros Hok Hr Hh Hf Hb.
  pose proof (quarantine_ok now e err None w Hok) as Hok'.
  pose proof (quarantine_fresh now e err None hash w Hr Hh Hf) as E. rewrite E in Hok'.
  simpl in Hok'. edestruct (quarantine_all_again e hash fs) as
    (w' & r' & E' & Hr' & Hother & Hn & Hp & Hc & Hm); [| |exact Hok'|..];
    [simpl; rewrite t_find_put; by rewrite decide_True|done|simpl; lia|simpl; lia|].
  exists w', r'. unfold quarantine_all in *. cbn [for_each]. unfold bind. cbn [fst snd].
  rewrite E, E'. split_and!; [done|done| |rewrite Hn; simpl; lia|by rewrite Hc|by rewrite Hp|].
  - intros k Hk. rewrite Hother by done. simpl. rewrite t_find_put. by rewrite decide_False.
  - rewrite Hm, last_cons. simpl. by destruct (last fs.*2).
Qed.

(** ** Replay *)

Definition throws {A} (m : Js (World P) A) : Prop := forall w, is_returns (m w).1 = false.

Lemma throws_bind_l {A B} (m : Js (World P) A) (k : A -> Js (World P) B) :
  throws m -> throws (bind m k).
Proof. intros H w. unfold bind. specialize (H w). by destruct (m w) as [[]]. Qed.
Lemma throws_bind_r {A B} (m : Js (World P) A) (k : A -> Js (World P) B) :
  (forall a, throws (k a)) -> throws (bind m k).
Proof. intros H w. unfold bind. destruct (m w) as [[a|] w1]; [apply H|done]. Qed.
Lemma throws_transaction {A} (m : Js (World P) A) : throws m -> throws (transaction m).
Proof. intros H w. unfold transaction. specialize (H w). by destruct (m w) as [[]]. Qed.

Ltac no_hash := intros ?; match goal with H : txHash _ = None |- _ => rewrite H end; reflexivity.
Ltac throws_walk :=
  repeat (intros;
    first
      [ solve [intros ?; done]
      | solve [no_hash]
      | apply throws_bind_l; solve [no_hash]
      | apply throws_bind_l; apply throws_transaction
      | apply throws_bind_r
      | case_match; [solve [intros ?; done]|] ]).

Lemma stream_handler_no_hash name h now e t :
  stream_handler name = Some h -> txHash e = None -> throws (h now e t).
Proof.
  unfold stream_handler. intros Hh Hhash. repeat case_match; simplify_eq.
  all: throws_walk.
Qed.

(** Events the worker has a handler for. *)
Definition recognised e : bool :=
  match topic e with
  | [] => false
  | topic0 :: rest =>
      match decodeSymbol topic0 with
      | Throws _ => true
      | Returns name =>
          bool_decide (name = "fee_config_updated") || bool_decide (name = "admin_transferred") ||
          (is_some (stream_handler (P:=P) name) && negb (bool_decide (rest = [])))
      end
  end.

Lemma processEvent_no_hash now e w :
  recognised e = true -> txHash e = None -> exists err, processEvent now e w = (Throws err, w).
Proof.
  intros Hrec Hhash. assert (throws (processEvent (P:=P) now e)) as H.
  { unfold processEvent, recognised in *. destruct (topic e) as [|topic0 rest]; [done|].
    destruct (decodeSymbol topic0) as [name|]; [|intros ?; done]. intros w'. unfold bind, lift.
    case_bool_decide; [|case_bool_decide].
    - revert w'. unfold handleFeeConfigUpdated. throws_walk.
    - revert w'. unfold handleAdminTransferred. throws_walk.
    - simpl in Hrec. apply andb_prop in Hrec as [Hh Hrest].
      destruct rest as [|topic1 rest]; [done|].
      destruct (stream_handler name) as [h|] eqn:Eh; [|done].
      by eapply stream_handler_no_hash. }
  specialize (H w). pose proof (processEvent_is_atomic now e w) as Hat.
  destruct (processEvent now e w) as [[[]|err] w']; [done|].
  exists err. by rewrite (Hat err w' eq_refl).
Qed.

(** Everything that is out of reach of the event handlers: the dead letters, the
    cursor and the worker's counters. *)
Record same_deadLetters (w0 w : World P) : Prop := {
  same_dl : deadLetters (db w) = deadLetters (db w0);
  same_uuids : uuids_drawn (db w) = uuids_drawn (db w0);
  same_cursor : indexerState (db w) = indexerState (db w0);
  same_worker : worker w = worker w0
}.

Lemma same_refl w : same_deadLetters w w.
Proof. done. Qed.
Lemma same_put_user w0 u : preserves (same_deadLetters w0) (put_user u).
Proof. by intros w []. Qed.
Lemma same_put_stream w0 now r : preserves (same_deadLetters w0) (put_stream now r).
Proof. unfold put_stream. case_match; [|by intros w]. by intros w []. Qed.
Lemma same_put_event w0 r : preserves (same_deadLetters w0) (put_event r).
Proof. unfold put_event. case_match; [|by intros w]. by intros w []. Qed.
Lemma same_transaction {A} w0 (body : Js (World P) A) :
  preserves (same_deadLetters w0) body -> preserves (same_deadLetters w0) (transaction body).
Proof.
  intros H w Hw. unfold transaction. specialize (H w Hw). destruct (body w) as [[a|e] w1]; [done|].
  destruct H as [_ _ _ H], Hw. by split.
Qed.
Lemma same_broadcast w0 t ev data : preserves (same_deadLetters w0) (broadcast t ev data).
Proof. by intros w []. Qed.

Ltac same_walk :=
  repeat (intros;
    first
      [ apply same_put_user | apply same_put_stream | apply same_put_event
      | apply same_broadcast | apply same_transaction
      | apply preserves_readonly; solve [auto with js]
      | apply (preserves_bind (same_deadLetters _))
      | case_match
      | progress unfold user_upsert, stream_upsert, stream_create, stream_update,
          streamEvent_upsert, streamEvent_create ]).

Lemma stream_handler_same w0 name h now e t :
  stream_handler name = Some h -> preserves (same_deadLetters w0) (h now e t).
Proof. unfold stream_handler. intros Hh. repeat case_match; simplify_eq; same_walk. Qed.

Lemma processEvent_same w0 now e : preserves (same_deadLetters w0) (processEvent now e).
Proof.
  unfold processEvent. case_match; [by intros w|].
  apply preserves_bind; [apply preserves_readonly; auto with js|]. intros name.
  case_match; [|case_match; [|repeat case_match; try by intros w]].
  - unfold handleFeeConfigUpdated, ensureSystemStream. same_walk.
  - unfold handleAdminTransferred, ensureSystemStream. same_walk.
  - by eapply stream_handler_same.
Qed.

(** Replaying a quarantined event that the worker recognises always fails:
    the payload carries no transaction hash, so the handler's database
    transaction is refused.  The record stays, with one more attempt and the new
    error; no stream, event, user or SSE message is touched. *)
Theorem dead_letter_never_replays now e k r w :
  deadLetters_ok w -> t_find k (deadLetters (db w)) = Some r ->
  dl_payload r = serializeDeadLetterPayload e -> recognised e = true ->
  fits_int4 (dl_attempts r + 1) = true ->
  exists message,
    replayDeadLetterEvent now (dl_id r) w =
    (Returns {| rr_id := dl_id r; rr_outcome := failed; rr_attempts := dl_attempts r + 1;
                rr_errorMessage := Some message |},
     set_db (set_deadLetters (t_put k (another_attempt now message r) (deadLetters (db w)))
               (uuids_drawn (db w)) (db w)) w).
Proof.
  intros Hok Hr Hp Hrec Hf.
  destruct (processEvent_no_hash now (without_hash e) w) as [err Herr]; [done..|].
  exists (error_message err). unfold replayDeadLetterEvent, bind at 1.
  erewrite findById_stored by done. rewrite Hp, deserialize_serialize.
  unfold try_catch, bind at 1. rewrite Herr. unfold bind.
  pose proof (dlo_fits w Hok _ _ Hr) as [Hl _].
  rewrite (update_stored w k) by (done || by rewrite (dlo_key w Hok _ _ Hr)). done.
Qed.

(** One replay removes the record or counts an attempt, and touches no other. *)
Lemma replay_step now k r w :
  deadLetters_ok w -> t_find k (deadLetters (db w)) = Some r ->
  fits_int4 (dl_attempts r + 1) = true ->
  exists res w', replayDeadLetterEvent now (dl_id r) w = (Returns res, w') /\
    rr_id res = dl_id r /\ deadLetters_ok w' /\
    uuids_drawn (db w') = uuids_drawn (db w) /\
    (rr_outcome res = replayed /\ deadLetters (db w') = t_del k (deadLetters (db w)) \/
     (rr_outcome res = failed \/ rr_outcome res = undecodable) /\ exists message,
       deadLetters (db w') = t_put k (another_attempt now message r) (deadLetters (db w))).
Proof.
  intros Hok Hr Hf. pose proof (dlo_fits w Hok _ _ Hr) as [Hl _].
  pose proof (dlo_key w Hok _ _ Hr) as Hk.
  unfold replayDeadLetterEvent, bind at 1. erewrite findById_stored by done.
  destruct (deserializeDeadLetterPayload _) as [e|err].
  - unfold try_catch, bind at 1. pose proof (processEvent_same w now e w (same_refl w)) as Hs.
    pose proof (processEvent_is_atomic now e w) as Hat.
    destruct (processEvent now e w) as [[[]|err] w1];
      destruct Hs as [Hd Hu _ _]; simpl in Hd, Hu.
    + assert (deadLetters_ok w1) as Hok1.
      { destruct Hok as [H1 H2 H3 H4]. split; rewrite ?Hd, ?Hu; done. }
      unfold bind. rewrite (delete_stored w1 k) by (done || by rewrite Hd). simpl in *.
      eexists _, _; split_and!; [done..|by apply deadLetters_ok_delete| |]; simpl; [done|].
      left. by rewrite Hd.
    + rewrite (Hat err w1 eq_refl). unfold bind. rewrite (update_stored w k) by done.
      eexists _, _; split_and!; [done..|eapply deadLetters_ok_rewrite; eauto|done|].
      right. simpl. eauto.
  - unfold bind. rewrite (update_stored w k) by done.
    eexists _, _; split_and!; [done..|eapply deadLetters_ok_rewrite; eauto|done|].
    right. simpl. eauto.
Qed.

Lemma count_outcomes rs :
  (count_outcome replayed rs + count_outcome failed rs + count_outcome undecodable rs +
   count_outcome not_found rs)%nat = length rs.
Proof.
  induction rs as [|r rs IH]; [done|]. unfold count_outcome in *. simpl.
  destruct (rr_outcome r); simpl; lia.
Qed.

(** The records with the given identifiers are stored, each with room for an attempt. *)
Definition pending_rows w (rows : list DeadLetter) : Prop :=
  forall r, r ∈ rows -> exists k, t_find k (deadLetters (db w)) = Some r /\
    fits_int4 (dl_attempts r + 1) = true.

(** What the replay of a stored record leaves under its key. *)
Definition replay_left now (before after : World P) (r : DeadLetter) (q : ReplayResult) : Prop :=
  rr_id q = dl_id r /\ exists k, t_find k (deadLetters (db before)) = Some r /\
    (rr_outcome q = replayed /\ t_find k (deadLetters (db after)) = None \/
     (rr_outcome q = failed \/ rr_outcome q = undecodable) /\ exists message,
       t_find k (deadLetters (db after)) = Some (another_attempt now message r)).

Lemma replay_pending now rows w :
  deadLetters_ok w -> pending_rows w rows -> NoDup (map dl_id rows) ->
  exists res w', map_js (replayDeadLetterEvent now) (map dl_id rows) w = (Returns res, w') /\
    deadLetters_ok w' /\ Forall2 (replay_left now w w') rows res /\
    forall k, (forall r, t_find k (deadLetters (db w)) = Some r -> dl_id r ∉ map dl_id rows) ->
      t_find k (deadLetters (db w')) = t_find k (deadLetters (db w)).
Proof.
  revert w. induction rows as [|r rows IH]; intros w Hok Hp Hnd.
  { exists [], w. split_and!; [done|done|constructor|done]. }
  destruct (Hp r) as (k & Hr & Hf); [set_solver|]. apply NoDup_cons in Hnd as [Hni Hnd].
  destruct (replay_step now k r w Hok Hr Hf) as (q & w1 & E & Hq & Hok1 & _ & Hcase).
  assert (Hother : forall k', k' <> k ->
    t_find k' (deadLetters (db w1)) = t_find k' (deadLetters (db w))).
  { intros k' Hk'. destruct Hcase as [[_ ->]|[_ [m ->]]];
      [rewrite t_find_del|rewrite t_find_put]; by rewrite decide_False. }
  assert (Hk : forall k' r', t_find k' (deadLetters (db w)) = Some r' ->
    dl_id r' ∈ map dl_id rows -> k' <> k).
  { intros k' r' Hr' Hin ->. by simplify_eq. }
  destruct (IH w1 Hok1) as (res & w2 & E2 & Hok2 & Hall & Hrest); [|done|].
  { intros r' Hin. destruct (Hp r') as (k' & Hr' & Hf'); [set_solver|].
    exists k'. split; [|done]. rewrite Hother; [done|]. eapply Hk; [done|].
    apply list_elem_of_fmap. eauto. }
  exists (q :: res), w2. split_and!; [|done| |].
  - cbn [map map_js]. unfold bind. by rewrite E, E2.
  - constructor.
    + split; [done|]. exists k. split; [done|]. destruct Hcase as [[Ho Hd]|[Ho [m Hd]]];
        [left|right]; (split; [done|]); [|exists m]; rewrite Hrest; rewrite Hd;
        rewrite ?t_find_del, ?t_find_put, decide_True by done; [done|done|done|].
      intros r' [= <-]. done.
    + apply (Forall2_impl_in _ _ _ _ Hall). intros r' q' Hin (Hq' & k' & Hr' & Hc').
      split; [done|]. exists k'. split; [|done]. rewrite <- Hother; [done|]. intros ->.
      assert (Hid : dl_id r' ∈ map dl_id rows) by (apply list_elem_of_fmap; eauto).
      destruct Hcase as [[_ Hd]|[_ [m Hd]]]; rewrite Hd in Hr';
        rewrite ?t_find_del, ?t_find_put, decide_True in Hr' by done; simplify_eq. done.
  - intros k' Hk'. assert (k' <> k) by (intros ->; destruct (Hk' _ Hr); set_solver).
    rewrite Hrest; rewrite Hother by done; [done|]. intros r' Hr'. specialize (Hk' r' Hr'). set_solver.
Qed.

#[local] Instance older_total : Total older.
Proof. intros r r'. unfold older. lia. Qed.
#[local] Instance older_trans : Transitive older.
Proof. intros r r' r''. unfold older. lia. Qed.
#[local] Instance newer_total : Total newer.
Proof. intros r r'. unfold newer. lia. Qed.
#[local] Instance newer_trans : Transitive newer.
Proof. intros r r' r''. unfold newer. lia. Qed.

Lemma rows_ids_nodup w : deadLetters_ok w -> NoDup (map dl_id (t_rows (deadLetters (db w))).*2).
Proof.
  intros Hok. rewrite map_map. apply NoDup_fmap_2_strong.
  - intros [k r] [k' r'] Hr%t_rows_spec Hr'%t_rows_spec Hid. simpl in Hid.
    assert (k = k') as <- by (eapply dlo_unique; eauto). congruence.
  - eapply NoDup_fmap_1, t_rows_nodup.
Qed.

Lemma replay_left_outcomes now w w' rows res :
  Forall2 (replay_left now w w') rows res -> count_outcome not_found res = 0%nat.
Proof.
  induction 1 as [|r q rows res (_ & k & _ & Hc) _ IH]; [done|].
  unfold count_outcome in *. simpl. by destruct Hc as [[-> _]|[[->| ->] _]].
Qed.

(** C19. Replay-all replays every record once, oldest ledger first, and never
    stops early: each record is either gone (replayed) or kept with one more
    attempt, and the four counts of the summary add up to the number of records,
    with none reported as not found. *)
Theorem replay_all_once now w :
  deadLetters_ok w ->
  (forall k r, t_find k (deadLetters (db w)) = Some r -> fits_int4 (dl_attempts r + 1) = true) ->
  exists rows res w', replayAllDeadLetterEvents now w = (Returns res, w') /\
    rows ≡ₚ (t_rows (deadLetters (db w))).*2 /\ StronglySorted older rows /\
    Forall2 (replay_left now w w') rows (results res) /\
    attempted res = length rows /\ ra_notFound res = 0%nat /\
    (ra_replayed res + ra_failed res + ra_undecodable res)%nat = attempted res.
Proof.
  intros Hok Hf. set (rows := merge_sort older (t_rows (deadLetters (db w))).*2).
  assert (Hperm : rows ≡ₚ (t_rows (deadLetters (db w))).*2) by apply merge_sort_Permutation.
  destruct (replay_pending now rows w Hok) as (res & w' & E & _ & Hall & _).
  - intros r Hr. rewrite Hperm in Hr. apply rows_stored in Hr as [k Hr]. eauto.
  - rewrite Hperm. by apply rows_ids_nodup.
  - exists rows. unfold replayAllDeadLetterEvents, bind at 1, deadLetter_rows, gets.
    fold rows. unfold bind. rewrite E. eexists _, w'. split; [done|].
    pose proof (replay_left_outcomes _ _ _ _ _ Hall) as Hnone.
    pose proof (count_outcomes res) as Hc. simpl.
    split_and!; [done|by apply (StronglySorted_merge_sort older)|done|
      by erewrite <- Forall2_length by done|done|lia].
Qed.

(** Discarding removes exactly the named record and reports it; an unknown
    identifier is an error that leaves the table alone. *)
Theorem discard_exact id w :
  deadLetters_ok w ->
  (forall k r, t_find k (deadLetters (db w)) = Some r -> dl_id r = id ->
   exists w', discardDeadLetterEvent id w =
     (Returns (id, dl_eventType r, dl_txHash r, dl_ledgerSequence r), w') /\
     forall k', t_find k' (deadLetters (db w')) =
       if decide (k = k') then None else t_find k' (deadLetters (db w))) /\
  ((forall k r, t_find k (deadLetters (db w)) = Some r -> dl_id r <> id) ->
   discardDeadLetterEvent id w = (Throws (DeadLetterNotFoundError id), w)).
Proof.
  intros Hok. split.
  - intros k r Hr <-. unfold discardDeadLetterEvent, bind at 1. erewrite findById_stored by done.
    unfold bind. rewrite (delete_stored w k) by done. eexists; split; [done|].
    intros k'. simpl. by rewrite t_find_del.
  - intros Hno. unfold discardDeadLetterEvent, deadLetter_findById, bind, gets.
    destruct (List.find _ _) as [r|] eqn:E; [|done].
    apply find_some in E as [[k Hk]%list_elem_of_In%rows_stored Hid%bool_decide_eq_true].
    by destruct (Hno k r).
Qed.

(** ** Listing *)

(** The page of a query, and the same query for another page. *)
Definition page_of w (q : DeadLetterQuery) (page : Z) : list DeadLetter * bool :=
  match (listDeadLetterEvents {| q_page := page; q_limit := q_limit q;
           q_ledgerSequence := q_ledgerSequence q; q_startDate := q_startDate q;
           q_endDate := q_endDate q; q_eventType := q_eventType q |} w).1 with
  | Returns l => (lr_items l, lr_hasMore l)
  | Throws _ => ([], false)
  end.

(** The pages of a listing partition the matching records: for any filter that
    fits its column and any requested page size, pages 1 to n together are the
    first records of one list, which is a permutation of the stored records that
    match, newest first; and [hasMore] holds exactly when the next page is not
    empty.  (Pages below 2^56 skip a number of records that is in range.) *)
Theorem dead_letter_pages w q :
  match q_ledgerSequence q with Some l => fits_int4 l | None => true end = true ->
  exists rows limit,
    rows ≡ₚ List.filter (dl_matches q) (t_rows (deadLetters (db w))).*2 /\
    StronglySorted newer rows /\ 1 <= limit <= 100 /\
    (forall n, Z.of_nat n < 2 ^ 56 ->
       concat (map (fun p => (page_of w q (Z.of_nat p)).1) (seq 1 n)) = take (n * Z.to_nat limit) rows) /\
    (forall page, 1 <= page < 2 ^ 56 - 1 -> ((page_of w q page).2 = true <-> (page_of w q (page + 1)).1 <> [])).
Proof.
  intros Hledger.
  set (matching := merge_sort newer (List.filter (dl_matches q) (t_rows (deadLetters (db w))).*2)).
  set (limit := Z.min (Z.max 1 (or_default (q_limit q) DEFAULT_DEAD_LETTER_PAGE_SIZE))
                  MAX_DEAD_LETTER_PAGE_SIZE).
  assert (1 <= limit <= 100) as Hlim by (unfold limit, MAX_DEAD_LETTER_PAGE_SIZE; lia).
  assert (Hpage : forall page, 1 <= page < 2 ^ 56 -> page_of w q page =
    (take (Z.to_nat limit) (drop (Z.to_nat ((page - 1) * limit)) matching),
     page * limit <? Z.of_nat (length matching))).
  { intros page Hp. unfold page_of, listDeadLetterEvents. cbn [q_page q_limit]. fold limit.
    replace (Z.max 1 (or_default page 1)) with page; [|unfold or_default; case (Z.eqb_spec page 0); lia].
    assert (Hskip : fits_int8 ((page - 1) * limit) = true).
    { unfold fits_int8. apply andb_true_intro. split; [apply Z.leb_le|apply Z.ltb_lt]; nia. }
    unfold deadLetter_find. cbn [q_ledgerSequence]. rewrite Hledger, Hskip. done. }
  exists matching, limit. split_and!.
  - apply merge_sort_Permutation.
  - by apply (StronglySorted_merge_sort newer).
  - lia.
  - lia.
  - induction n as [|n IH]; intros Hn; [done|]. rewrite seq_S, map_app, concat_app, IH by lia.
    cbn [map concat]. rewrite app_nil_r, Hpage by lia. cbn [fst].
    replace (Z.of_nat (1 + n) - 1) with (Z.of_nat n) by lia.
    rewrite Z2Nat.inj_mul, Nat2Z.id by lia.
    rewrite take_take_drop. f_equal. lia.
  - intros page Hp. rewrite !Hpage by lia. cbn [fst snd].
    rewrite Z.ltb_lt. replace (page + 1 - 1) with page by lia.
    destruct (drop (Z.to_nat (page * limit)) matching) as [|r rows] eqn:E;
      apply (f_equal length) in E; rewrite length_drop in E; simpl in E.
    + rewrite take_nil. split; [nia|done].
    + destruct (Z.to_nat limit) eqn:El; [lia|]. simpl. split; [done|]. nia.
Qed.
End Facts.

(** * Dead letters on concrete inputs

    A withdrawal from a stream that was never indexed is quarantined, listed,
    replayed and discarded. *)

Local Open Scope Z_scope.

Definition orphan : EventResponse := TokensWithdrawnEvent (meta "x" 9) 77 bob 5 100.
Definition orphan_error : JsError := PrismaErr P2025.

Definition quarantined_world : World gmap_engine :=
  (quarantineEvent 1000 orphan orphan_error None empty_world).2.

Definition orphan_row : DeadLetter := {|
  dl_id := "0"; dl_eventId := "ev-x"; dl_eventType := "tokens_withdrawn"; dl_txHash := "tx-x";
  dl_ledgerSequence := 9; dl_cursor := None; dl_payload := serializeDeadLetterPayload orphan;
  dl_errorMessage := "prisma error"; dl_attempts := 1; dl_lastAttemptAt := 1000;
  dl_createdAt := 1000 |}.

Lemma empty_world_deadLetters_ok : deadLetters_ok empty_world.
Proof. split; intros ? ? H; vm_compute in H; discriminate. Qed.

Lemma quarantined_world_ok : deadLetters_ok quarantined_world.
Proof. apply (quarantine_ok (P:=gmap_engine)), empty_world_deadLetters_ok. Qed.

Lemma quarantined_world_row :
  t_find ("ev-x", "tokens_withdrawn")%string (deadLetters (db quarantined_world)) = Some orphan_row.
Proof. vm_refl. Qed.

(** The handler fails on the orphan, as there is no stream 77. *)
Example orphan_fails : (processEvent 1000 orphan empty_world).1 = Throws orphan_error.
Proof. vm_refl. Qed.

Lemma quarantine_counts_attempts_witness :
  exists w' r,
    quarantine_all orphan [(1000, orphan_error); (2000, TypeErr)] empty_world = (Returns tt, w') /\
    t_find ("ev-x", "tokens_withdrawn")%string (deadLetters (db w')) = Some r /\ dl_attempts r = 2.
Proof.
  destruct (quarantine_counts_attempts (P:=gmap_engine) orphan "tx-x" 1000 orphan_error
    [(2000, TypeErr)] empty_world empty_world_deadLetters_ok eq_refl eq_refl eq_refl eq_refl)
    as (w' & r & E & Hr & _ & Hn & _).
  exists w', r. exact (conj E (conj Hr Hn)).
Defined.

Lemma dead_letter_never_replays_witness :
  exists message,
    (replayDeadLetterEvent 2000 "0" quarantined_world).1 =
    Returns {| rr_id := "0"; rr_outcome := failed; rr_attempts := 2;
               rr_errorMessage := Some message |}.
Proof.
  destruct (dead_letter_never_replays (P:=gmap_engine) 2000 orphan
    ("ev-x", "tokens_withdrawn")%string orphan_row quarantined_world quarantined_world_ok
    quarantined_world_row eq_refl eq_refl eq_refl) as (message & E).
  exists message. exact (f_equal fst E).
Defined.

Lemma quarantined_attempts k r :
  t_find k (deadLetters (db quarantined_world)) = Some r -> fits_int4 (dl_attempts r + 1) = true.
Proof.
  intros H. apply (stored_rows (P:=gmap_engine)) in H.
  replace (t_rows (deadLetters (db quarantined_world))).*2 with [orphan_row] in H by vm_refl.
  apply list_elem_of_singleton in H as ->. done.
Qed.

Lemma replay_all_once_witness :
  exists rows res w', replayAllDeadLetterEvents 2000 quarantined_world = (Returns res, w') /\
    rows ≡ₚ (t_rows (deadLetters (db quarantined_world))).*2 /\ attempted res = length rows.
Proof.
  destruct (replay_all_once (P:=gmap_engine) 2000 quarantined_world quarantined_world_ok
    quarantined_attempts) as (rows & res & w' & E & Hp & _ & _ & Hn & _).
  exists rows, res, w'. exact (conj E (conj Hp Hn)).
Defined.

Lemma discard_exact_witness :
  exists w', discardDeadLetterEvent "0" quarantined_world =
    (Returns ("0", "tokens_withdrawn", "tx-x", 9)%string, w').
Proof.
  destruct (discard_exact (P:=gmap_engine) "0" quarantined_world quarantined_world_ok) as [H _].
  destruct (H ("ev-x", "tokens_withdrawn")%string orphan_row quarantined_world_row eq_refl)
    as (w' & E & _).
  exists w'. exact E.
Defined.
