(* ===== verification/Http.v ===== *)
(** * Requests and error responses: backend/src/types/api-error.ts

    What the controllers share: a path parameter as Express gives it, an error
    answered through [sendApiError], and a request body's optional string. *)
From S2P Require Import Prelude JsLang StreamId.

(** [req.params.x] *)
Inductive PathParam := Segment (s : string) | Segments (xs : list string) | NoSegment.

(** [Array.isArray(p) ? p[0] : p] *)
Definition first_id (p : PathParam) : option string :=
  match p with
  | Segment s => Some s
  | Segments xs => head xs
  | NoSegment => None
  end.

Definition raw_id (p : PathParam) : RawId :=
  match first_id p with Some s => RawString s | None => RawOther end.

(** The body of an error response; [details] are left out. *)
Record ApiProblem := { problem_code : string; problem_message : string }.

(** A response: an error of [sendApiError], or an answer of the handler's own. *)
Inductive Reply (B : Type) :=
| Problem (statusCode : Z) (error : ApiProblem)
| Answer (statusCode : Z) (body : B).
Arguments Problem {B}. Arguments Answer {B}.

Definition sendApiError {S B} (statusCode : Z) (code message : string) : Js S (Reply B) :=
  ret (Problem statusCode {| problem_code := code; problem_message := message |}).
Definition send {S B} (statusCode : Z) (body : B) : Js S (Reply B) := ret (Answer statusCode body).

Definition status_of {B} (r : Reply B) : Z :=
  match r with Problem s _ | Answer s _ => s end.

(** [catch (error) { return sendApiError(res, 500, ...) }] around a whole handler. *)
Definition or_500 {S B} (m : Js S (Reply B)) : Js S (Reply B) :=
  try_catch m (fun _ => sendApiError 500 "INTERNAL_SERVER_ERROR"
    "A technical error occurred. Please try again later.").
