(* ===== verification/Middleware.v ===== *)
(** * What every request passes: backend/src/app.ts, middleware/requestId.ts,
    sandbox.middleware.ts, api-version.middleware.ts, error.middleware.ts and
    config/sandbox.ts

    [app] takes a request up to the routes of version 1: the request identifier,
    the origin, the sandbox mode and the version of the address.  Rate limits,
    metrics and fixed headers are left out; express, the parser of a query and the
    source of identifiers are given with the request. *)
From S2P Require Import Prelude JsLang Texts StreamId Json Http.
Local Open Scope Z_scope.
Local Open Scope string_scope.

(** ** Requests *)

(** [headers]: by their names in lower case; [query]: as it was parsed. *)
Inductive HeaderValue := Text (s : string) | Texts (xs : list string).

Record Request := {
  url : string;
  origin : option string;
  headers : string -> option HeaderValue;
  query : string -> Json;
  fresh_id : string (* what [randomUUID] gives *)
}.

(** The environment of the process. *)
Definition Env : Type := string -> option string.

Definition non_empty (s : string) : bool := match s with EmptyString => false | _ => true end.

(** ** The identifier of a request *)

Definition MAX_REQUEST_ID_LENGTH : nat := 128.

Definition safe_char (c : Ascii.ascii) : bool :=
  (is_digit c || ((65 <=? code c) && (code c <=? 90)) || ((97 <=? code c) && (code c <=? 122)) || (code c =? 45))%Z.
Fixpoint all_safe (s : string) : bool :=
  match s with EmptyString => true | String c s' => safe_char c && all_safe s' end.

Definition isValidRequestId (value : string) : bool :=
  (0 <? String.length value)%nat && (String.length value <=? MAX_REQUEST_ID_LENGTH)%nat &&
  (non_empty value && all_safe value).

Definition requestId (r : Request) : string :=
  match headers r "x-request-id" with
  | Some (Text header) => if isValidRequestId header then header else fresh_id r
  | _ => fresh_id r
  end.

(** ** Origins *)

Definition allowedOrigins (env : Env) : list string :=
  let rawCors := default "" (env "CORS_ALLOWED_ORIGINS") in
  let listed := List.filter non_empty (map trim (split_on 44 rawCors)) in
  if negb (non_empty rawCors) && negb (bool_decide (env "NODE_ENV" = Some "production"))
  then (listed ++ ["http://localhost:3000"])%list else listed.

Definition origin_allowed (env : Env) (o : option string) : bool :=
  match o with
  | None | Some EmptyString => true
  | Some origin => bool_decide (origin ∈ allowedOrigins env)
  end.

(** ** Sandbox mode *)

Record SandboxConfig := {
  sb_enabled : bool;
  databaseUrl : option string;
  allowHeader : bool;
  allowQueryParam : bool;
  headerName : string;
  queryParamName : string
}.

Definition parseBooleanEnv (varName : string) (value : option string) (defaultValue : bool) : outcome bool :=
  match value with
  | None => Returns defaultValue
  | Some v =>
      if bool_decide (v = "true") then Returns true
      else if bool_decide (v = "false") then Returns false
      else Throws (ErrorMsg (varName +:+ " has invalid value '" +:+ v +:+ "'. Expected one of: 'true', 'false'."))
  end.

(** [value || fallback] *)
Definition or_text (o : option string) (fallback : string) : string :=
  match o with None | Some EmptyString => fallback | Some s => s end.

Definition getSandboxConfig (env : Env) : outcome SandboxConfig :=
  let? enabled := parseBooleanEnv "SANDBOX_MODE_ENABLED" (env "SANDBOX_MODE_ENABLED") false in
  let? header := parseBooleanEnv "SANDBOX_ALLOW_HEADER" (env "SANDBOX_ALLOW_HEADER") true in
  let? param := parseBooleanEnv "SANDBOX_ALLOW_QUERY_PARAM" (env "SANDBOX_ALLOW_QUERY_PARAM") true in
  Returns {|
    sb_enabled := enabled;
    databaseUrl := match env "SANDBOX_DATABASE_URL" with Some (String _ _ as u) => Some u | _ => None end;
    allowHeader := header; allowQueryParam := param;
    headerName := or_text (env "SANDBOX_HEADER_NAME") "X-Sandbox-Mode";
    queryParamName := or_text (env "SANDBOX_QUERY_PARAM_NAME") "sandbox" |}.

Definition switched_on (s : string) : bool := bool_decide (s = "true") || bool_decide (s = "1").

(** What the middleware leaves on the request and adds to the response; nothing
    is added where the mode is off. *)
Definition sandboxMiddleware (config : SandboxConfig) (r : Request) : bool * list (string * string) :=
  if negb (sb_enabled config) then (false, [])
  else
    let by_header := allowHeader config &&
      match headers r (toLowerCase (headerName config)) with Some (Text s) => switched_on s | _ => false end in
    let by_query := allowQueryParam config &&
      match query r (queryParamName config) with JString s => switched_on s | _ => false end in
    if by_header || by_query then (true, [("X-Sandbox-Mode", "true"); ("X-Environment", "sandbox")])
    else (false, [("X-Environment", "production")]).

(** ** Versions *)

(** A path, and what follows its first question mark up to the next. *)
Fixpoint path_of (u : string) : string :=
  match u with
  | EmptyString => EmptyString
  | String c u' => if (code c =? 63)%Z then EmptyString else String c (path_of u')
  end.
Fixpoint after_question (u : string) : string :=
  match u with
  | EmptyString => EmptyString
  | String c u' => if (code c =? 63)%Z then path_of u' else after_question u'
  end.

Definition pathParts (path : string) : list string := List.filter non_empty (split_on 47 path).

(** [/^v(\d+)$/] *)
Definition version_text (s : string) : bool :=
  match s with String c t => (code c =? 118)%Z && digits_only t | EmptyString => false end.

Inductive Versioned := Routed (new_url : string) | NotVersioned | Unsupported (version : string).

Definition apiVersionMiddleware (u : string) : Versioned :=
  match pathParts (path_of u) with
  | version :: rest =>
      if version_text version then
        if bool_decide (version = "v1") then
          let newPath := "/" +:+ StreamId.join "/" rest in
          Routed (newPath +:+ match after_question u with EmptyString => "" | q => "?" +:+ q end)
        else Unsupported version
      else NotVersioned
  | [] => NotVersioned
  end.

(** ** Errors *)

(** What can reach the error handler. *)
Inductive Unhandled :=
| ZodError (issues : list (string * string * string)) (* path, message and code of each *)
| ApiError (statusCode : Z) (code message : string)
| UniqueError (target : option (list string)) (* P2002 *)
| MissingError (* P2025 *)
| AnyError (status statusCode : option Z) (message : string)
| NoError.

Definition or_zero (o : option Z) : option Z := match o with Some 0%Z | None => None | Some z => Some z end.

(** [None]: the headers are sent, and express ends the response. *)
Definition errorHandler (headersSent : bool) (err : Unhandled) : option (Z * ApiProblem) :=
  let problem s c m := Some (s, {| problem_code := c; problem_message := m |}) in
  if headersSent then None
  else
    match err with
    | ZodError _ => problem 400 "VALIDATION_ERROR" "Request validation failed"
    | ApiError s c m => problem s c m
    | UniqueError target =>
        let joined := match target with Some xs => or_text (Some (StreamId.join ", " xs)) "field" | None => "field" end in
        problem 409 "CONFLICT" ("Record with this " +:+ joined +:+ " already exists.")
    | MissingError => problem 404 "NOT_FOUND" "The requested record was not found."
    | AnyError _ _ _ | NoError =>
        let statusCode :=
          match err with
          | AnyError s s' _ => default 500 (match or_zero s with Some z => Some z | None => or_zero s' end)
          | _ => 500
          end in
        let message := match err with AnyError _ _ m => m | _ => "Request failed" end in
        if (statusCode =? 500)%Z
        then problem 500 "INTERNAL_SERVER_ERROR" "A technical error occurred. Please try again later."
        else problem statusCode "REQUEST_ERROR" message
    end%Z.

(** ** The application *)

Inductive Passed :=
| Refused (status : Z) (* 403 for an origin, 400 for a version *)
| Failed (problem : option (Z * ApiProblem))
| ToV1 (new_url : string)
| ToOthers (u : string). (* health, metrics and the root *)

(** The response headers so far, with where the request goes. *)
Definition app (env : Env) (r : Request) : list (string * string) * Passed :=
  let hs := [("X-Request-ID", requestId r)] in
  if negb (origin_allowed env (origin r)) then (hs, Refused 403)
  else
    match getSandboxConfig env with
    | Throws e => (hs, Failed (errorHandler false (AnyError None None match e with ErrorMsg m => m | _ => "" end)))
    | Returns config =>
        let '(_, marks) := sandboxMiddleware config r in
        ((hs ++ marks)%list,
         match apiVersionMiddleware (url r) with
         | Unsupported _ => Refused 400
         | Routed u => ToV1 u
         | NotVersioned => ToOthers (url r)
         end)
    end.

(** A server: the routes get an address (and a body and a user, which the
    middleware does not touch). *)
Definition serve {S B} (env : Env) (v1 : string -> Js S B) (r : Request) (s : S) : list (string * string) * option (outcome B) * S :=
  let '(hs, passed) := app env r in
  match passed with
  | ToV1 u => let '(a, s') := v1 u s in (hs, Some a, s')
  | _ => (hs, None, s)
  end.

(** * What every request passes: properties *)

Lemma isValid_spec s : isValidRequestId s = true -> all_safe s = true /\ (1 <= String.length s <= 128)%nat.
Proof.
  unfold isValidRequestId, MAX_REQUEST_ID_LENGTH. intros [[H1%Nat.ltb_lt H2%Nat.leb_le]%andb_prop [_ H3]%andb_prop]%andb_prop.
  split; [done|lia].
Qed.

(** The identifier that is echoed and logged is the client's only if it is short
    and made of letters, digits and hyphens: nothing can be injected with it. *)
Theorem request_id_safe (r : Request) :
  requestId r = fresh_id r \/
  (headers r "x-request-id" = Some (Text (requestId r)) /\ all_safe (requestId r) = true /\
   (1 <= String.length (requestId r) <= 128)%nat).
Proof.
  unfold requestId. destruct (headers r "x-request-id") as [[s|xs]|]; [|by left|by left].
  destruct (isValidRequestId s) eqn:E; [right|by left]. by apply isValid_spec in E.
Qed.

Lemma all_safe_includes c s : safe_char c = false -> all_safe s = true -> includes (String c EmptyString) s = false.
Proof.
  intros Hc. induction s as [|d s IH]; [done|]. simpl. intros [Hd Hs]%andb_prop. rewrite IH by done.
  rewrite orb_false_r. rewrite bool_decide_eq_false_2 by congruence. done.
Qed.

(** Line ends, in particular. *)
Corollary request_id_one_line (r : Request) :
  includes (String LF EmptyString) (fresh_id r) = false ->
  includes (String LF EmptyString) (requestId r) = false.
Proof.
  intros Hf. destruct (request_id_safe r) as [->|(_ & Hs & _)]; [done|]. by apply all_safe_includes.
Qed.

(** ** Addresses *)

Fixpoint without (c : Z) (s : string) : bool :=
  match s with EmptyString => true | String d s' => negb (code d =? c)%Z && without c s' end.

Lemma split_without c s : without c s = true -> split_on c s = [s].
Proof.
  induction s as [|d s IH]; [done|]. simpl. intros [Hd%negb_true_iff Hs]%andb_prop. by rewrite Hd, IH.
Qed.
Lemma split_at c d s t : code d = c -> without c s = true -> split_on c (s +:+ String d t) = s :: split_on c t.
Proof.
  intros Hd. induction s as [|x s IH]; simpl.
  - intros _. by rewrite (proj2 (Z.eqb_eq _ _) Hd).
  - intros [Hx%negb_true_iff Hs]%andb_prop. by rewrite Hx, IH.
Qed.
Lemma without_app c s t : without c (s +:+ t) = without c s && without c t.
Proof. induction s as [|d s IH]; simpl; [done|]. by rewrite IH, andb_assoc. Qed.

Definition segment (s : string) : Prop := s <> EmptyString /\ without 47 s = true /\ without 63 s = true.

Lemma split_join segs : segs <> [] -> Forall segment segs -> split_on 47 (StreamId.join "/" segs) = segs.
Proof.
  induction segs as [|s segs IH]; [done|]. intros _ [(Hne & Hs & Hq) Hsegs]%list.Forall_cons.
  destruct segs as [|t segs]; [by apply split_without|].
  change (StreamId.join "/" (s :: t :: segs)) with (s +:+ String "/" (StreamId.join "/" (t :: segs))).
  rewrite split_at by done. by rewrite IH.
Qed.

Lemma join_plain segs : Forall segment segs -> without 63 (StreamId.join "/" segs) = true.
Proof.
  induction segs as [|s segs IH]; [done|]. intros [(Hne & Hs & Hq) Hsegs]%list.Forall_cons.
  destruct segs as [|t segs]; [done|].
  change (StreamId.join "/" (s :: t :: segs)) with (s +:+ String "/" (StreamId.join "/" (t :: segs))).
  rewrite without_app, Hq. exact (IH Hsegs).
Qed.

Lemma path_of_plain a : without 63 a = true -> path_of a = a /\ after_question a = "".
Proof.
  induction a as [|c a IH]; [done|]. simpl. intros [Hc%negb_true_iff Ha]%andb_prop. rewrite Hc.
  destruct (IH Ha) as [-> ->]. done.
Qed.
Lemma path_of_query a q : without 63 a = true ->
  path_of (a +:+ String "?" q) = a /\ after_question (a +:+ String "?" q) = path_of q.
Proof.
  induction a as [|c a IH]; [done|]. simpl. intros [Hc%negb_true_iff Ha]%andb_prop. rewrite Hc.
  destruct (IH Ha) as [-> ->]. done.
Qed.

Definition with_query (path : string) (q : string) : string := path +:+ match q with EmptyString => "" | _ => String "?" q end.

(** A request for version 1 is routed to the same address without the version,
    with its query as it was if that has no question mark of its own; of a query
    that has one, only what stands before it is left. *)
Theorem version_stripped (segs : list string) (q : string) :
  Forall segment segs ->
  apiVersionMiddleware (with_query ("/v1/" +:+ StreamId.join "/" segs) q) =
  Routed (with_query ("/" +:+ StreamId.join "/" segs) (path_of q)).
Proof.
  intros Hsegs. set (path := "/v1/" +:+ StreamId.join "/" segs).
  assert (Hpath : without 63 path = true).
  { unfold path. rewrite without_app. simpl. by apply join_plain. }
  assert (Hu : path_of (with_query path q) = path /\ after_question (with_query path q) = path_of q).
  { unfold with_query. destruct q as [|c q].
    - assert (E : path +:+ "" = path) by (clear; induction path as [|c s IH]; [done|exact (f_equal (String c) IH)]).
      rewrite E. by apply path_of_plain.
    - by apply path_of_query. }
  unfold apiVersionMiddleware. destruct Hu as [-> ->].
  assert (Hparts : pathParts path = "v1" :: segs).
  { unfold pathParts, path. change (split_on 47 ("/v1/" +:+ StreamId.join "/" segs))
      with ("" :: split_on 47 ("v1" +:+ String "/" (StreamId.join "/" segs))).
    rewrite split_at by done. simpl. f_equal. destruct segs as [|s segs]; [done|]. rewrite split_join by done.
    clear -Hsegs. induction Hsegs as [|x xs (Hx & _) _ IH]; [done|]. simpl. destruct x; [done|]. simpl. by rewrite IH. }
  rewrite Hparts. simpl. unfold with_query. by destruct (path_of q).
Qed.

(** ** Sandbox mode *)

(** The same request in sandbox mode, asked for by its header. *)
Definition in_sandbox (name : string) (r : Request) : Request := {|
  url := url r; origin := origin r;
  headers := fun h => if bool_decide (h = toLowerCase name) then Some (Text "true") else headers r h;
  query := query r; fresh_id := fresh_id r |}.

(** Sandbox mode is a label: a request in it reaches the same routes at the same
    address and does the same to the same state; only headers of the response
    tell.  (The routes have no other database to choose: nothing calls
    [getPrismaClient].) *)
Theorem sandbox_only_labels {S B} (env : Env) (config : SandboxConfig) (v1 : string -> Js S B) (r : Request) (s : S) :
  getSandboxConfig env = Returns config -> sb_enabled config = true -> allowHeader config = true ->
  toLowerCase (headerName config) <> "x-request-id" -> origin_allowed env (origin r) = true ->
  let marked := serve env v1 (in_sandbox (headerName config) r) s in
  let plain := serve env v1 r s in
  marked.2 = plain.2 /\ marked.1.2 = plain.1.2 /\
  ("X-Sandbox-Mode", "true") ∈ marked.1.1.
Proof.
  intros Hc He Hh Hn Ho. unfold serve, app. cbn [origin url in_sandbox]. rewrite Ho, Hc. cbn [negb].
  assert (Hm : sandboxMiddleware config (in_sandbox (headerName config) r) =
               (true, [("X-Sandbox-Mode", "true"); ("X-Environment", "sandbox")])).
  { unfold sandboxMiddleware. rewrite He, Hh. cbn [negb in_sandbox headers andb].
    rewrite bool_decide_eq_true_2 by done. done. }
  rewrite Hm. destruct (sandboxMiddleware config r) as [b marks].
  assert (Hin : forall id, ("X-Sandbox-Mode", "true") ∈
     ([("X-Request-ID", id)] ++ [("X-Sandbox-Mode", "true"); ("X-Environment", "sandbox")])%list).
  { intros id. apply elem_of_cons. right. apply elem_of_cons. by left. }
  destruct (apiVersionMiddleware (url r)) as [u| |]; [destruct (v1 u s) as [a s']| |]; (split; [done|]; split; [done|]);
    apply Hin.
Qed.

(** ** Origins and errors *)

(** In production a browser's request is let in only from an origin that is
    listed; without a list, from none. *)
Theorem production_origins (env : Env) (o : string) :
  env "NODE_ENV" = Some "production" -> non_empty o = true ->
  (origin_allowed env (Some o) = true ->
     o ∈ map trim (split_on 44 (default "" (env "CORS_ALLOWED_ORIGINS")))) /\
  (env "CORS_ALLOWED_ORIGINS" = None -> origin_allowed env (Some o) = false).
Proof.
  intros Hp Ho. unfold origin_allowed, allowedOrigins. rewrite Hp. rewrite andb_false_r.
  destruct o as [|c o]; [done|]. split.
  - intros H%bool_decide_eq_true_1. apply list_elem_of_In in H. apply filter_In in H as [H _]. by apply list_elem_of_In.
  - intros ->. apply bool_decide_eq_false_2. by apply not_elem_of_nil.
Qed.

(** An error answer has a status of an error of express or of the code's own; the
    message of an error that was not meant for clients is never sent with 500. *)
Theorem unmeant_errors_hidden (status statusCode : option Z) (message : string) :
  exists s p, errorHandler false (AnyError status statusCode message) = Some (s, p) /\
    (s = 500 -> problem_message p = "A technical error occurred. Please try again later.") /\
    (status = None -> statusCode = None -> s = 500).
Proof.
  unfold errorHandler. set (code := default 500 _). destruct (Z.eqb_spec code 500) as [E|E]; do 2 eexists.
  - split; [done|]. split; done.
  - split; [done|]. split; [done|]. intros -> ->. by destruct E.
Qed.
