(* ===== verification/Poll.v ===== *)
(** * The polling worker: backend/src/workers/soroban-event-worker.ts

    Counters and the degraded signal, one poll cycle, and the lifecycle around
    it.  [getEvents] is the RPC node; [now] is the clock reading of a cycle.
    Metrics, spans and log lines are left out. *)
From S2P Require Import Prelude JsLang StreamId Schema Xdr Worker IndexerCursor DeadLetter.
Local Open Scope Z_scope.

(** ** Counters *)

Definition FAILURE_WINDOW_MS : Z := 5 * 60 * 1000.
Definition MIN_SAMPLES_FOR_DEGRADED : nat := 3.

Record IndexerEventCounters := {
  c_eventsProcessed : Z;
  c_eventsFailed : Z;
  c_lastErrorAt : option Z;
  c_degraded : bool
}.

Definition in_window (now : Z) (o : bool * Z) : bool := now - FAILURE_WINDOW_MS <=? o.2.

Definition recordOutcome (now : Z) (ok : bool) (k : WorkerState) : WorkerState := {|
  isRunning := isRunning k; pollTimer := pollTimer k;
  eventsProcessed := eventsProcessed k; eventsFailed := eventsFailed k;
  lastErrorAt := lastErrorAt k;
  recentOutcomes := List.filter (in_window now) (recentOutcomes k ++ [(ok, now)]) |}.

(** [failed / recent.length >= 0.5], without the division *)
Definition isFailureSpike (now : Z) (k : WorkerState) : bool :=
  let recent := List.filter (in_window now) (recentOutcomes k) in
  if (length recent <? MIN_SAMPLES_FOR_DEGRADED)%nat then false
  else (length recent <=? 2 * length (List.filter (fun o => negb o.1) recent))%nat.

Definition getEventCounters (now : Z) (k : WorkerState) : IndexerEventCounters := {|
  c_eventsProcessed := eventsProcessed k; c_eventsFailed := eventsFailed k;
  c_lastErrorAt := lastErrorAt k; c_degraded := isFailureSpike now k |}.

Definition resetEventCounters (k : WorkerState) : WorkerState := {|
  isRunning := isRunning k; pollTimer := pollTimer k; eventsProcessed := 0; eventsFailed := 0;
  lastErrorAt := None; recentOutcomes := [] |}.

(** [this.eventsProcessed += 1] *)
Definition count_processed (k : WorkerState) : WorkerState := {|
  isRunning := isRunning k; pollTimer := pollTimer k;
  eventsProcessed := eventsProcessed k + 1; eventsFailed := eventsFailed k;
  lastErrorAt := lastErrorAt k; recentOutcomes := recentOutcomes k |}.

Definition set_running (b : bool) (k : WorkerState) : WorkerState := {|
  isRunning := b; pollTimer := pollTimer k; eventsProcessed := eventsProcessed k;
  eventsFailed := eventsFailed k; lastErrorAt := lastErrorAt k;
  recentOutcomes := recentOutcomes k |}.
Definition set_pollTimer (b : bool) (k : WorkerState) : WorkerState := {|
  isRunning := isRunning k; pollTimer := b; eventsProcessed := eventsProcessed k;
  eventsFailed := eventsFailed k; lastErrorAt := lastErrorAt k;
  recentOutcomes := recentOutcomes k |}.

(** ** Ordering a batch *)

(** [event.topic[0] ? decodeSymbol(event.topic[0]) : dflt] *)
Definition event_type (dflt : string) (e : EventResponse) : outcome string :=
  match topic e with [] => Returns dflt | t :: _ => decodeSymbol t end.

Definition is_creation (t : string) : bool := bool_decide (t = "stream_created"%string).

(** The comparator given to [Array.prototype.sort]. *)
Definition compare_events (a b : EventResponse) : outcome Z :=
  let? aType := event_type "" a in
  let? bType := event_type "" b in
  Returns (if is_creation aType && negb (is_creation bType) then -1
           else if is_creation bType && negb (is_creation aType) then 1 else 0).

Section Sort.
Context {A : Type} (compare : A -> A -> outcome Z).

(** Put [x] after the elements of a sorted list that it does not precede. *)
Fixpoint sort_insert (x : A) (ys : list A) : outcome (list A) :=
  match ys with
  | [] => Returns [x]
  | y :: ys' =>
      let? c := compare x y in
      if c <? 0 then Returns (x :: ys) else let? r := sort_insert x ys' in Returns (y :: r)
  end.

(** A stable sort: elements are inserted from the left. *)
Fixpoint sort_onto (acc xs : list A) : outcome (list A) :=
  match xs with
  | [] => Returns acc
  | x :: xs' => let? acc' := sort_insert x acc in sort_onto acc' xs'
  end.
Definition array_sort (xs : list A) : outcome (list A) := sort_onto [] xs.
End Sort.

(** ** One poll cycle *)

Inductive GetEventsParams :=
| FromCursor (cursor : string)
| FromLedger (startLedger : Z).

Record EventsPage := {
  page_events : list EventResponse;
  latestLedger : option Z;
  latestCursor : option string
}.

(** Set from the environment by the constructor. *)
Record WorkerConfig := { stream_contract_id : string; start_ledger : Z }.

(** The local variables of the event loop. *)
Record Progress := { p_cursor : option string; p_ledger : Z; sawSuccess : bool }.

Section Poll.
Context `{P : PrismaEngine} `{K : StrKey} `{Sdk : StellarSdk}.
Variable getEvents : GetEventsParams -> outcome EventsPage.

Definition on_worker (f : WorkerState -> WorkerState) : Js (World P) unit :=
  modify (fun w => set_worker (f (worker w)) w).

(** The [try … catch] of the event loop: process, or quarantine and go on. *)
Definition attempt (now : Z) (event : EventResponse) (acc : Progress) : Js (World P) Progress :=
  try_catch
    (do! processEvent now event in
     do! on_worker count_processed in
     do! on_worker (recordOutcome now true) in
     ret {| p_cursor := Some (Xdr.id event); p_ledger := ledger event; sawSuccess := true |})
    (fun err =>
      do! quarantineEvent now event err None in
      ret acc).

Fixpoint process_batch (now : Z) (events : list EventResponse) (acc : Progress) :
    Js (World P) Progress :=
  match events with
  | [] => ret acc
  | event :: rest =>
      if inSuccessfulContractCall event then
        let! eventType := lift (event_type "unknown" event) in
        let! acc' := attempt now event acc in
        process_batch now rest acc'
      else process_batch now rest acc
  end.

Definition poll_params (cfg : WorkerConfig) (state : IndexerState) : GetEventsParams :=
  match lastCursor state with
  | Some c => if truthy (Some c) then FromCursor c
              else FromLedger (or_default (lastLedger state) (start_ledger cfg))
  | None => FromLedger (or_default (lastLedger state) (start_ledger cfg))
  end.

(** [sawSuccess ? (response.latestCursor || lastCursor) : lastCursor] *)
Definition final_cursor (response : EventsPage) (p : Progress) : option string :=
  if sawSuccess p && truthy (latestCursor response) then latestCursor response else p_cursor p.

Definition runPollCycle (cfg : WorkerConfig) (now : Z) : Js (World P) unit :=
  let! state := ensureIndexerState now Datatypes.id Datatypes.id (start_ledger cfg) in
  let! response := lift (getEvents (poll_params cfg state)) in
  match page_events response with
  | [] => ret tt
  | _ =>
      let! sortedEvents := lift (array_sort compare_events (page_events response)) in
      let! p := process_batch now sortedEvents
                  {| p_cursor := lastCursor state; p_ledger := lastLedger state;
                     sawSuccess := false |} in
      indexerState_upsert now (p_ledger p) (final_cursor response p)
  end.

(** ** Lifecycle *)

(** The module never imports [requestContext]: reading it throws. *)
Definition requestContext {A} : Js (World P) A := throw (ReferenceErr "requestContext").

Definition scheduleNext : Js (World P) unit :=
  let! running := gets (fun w => isRunning (worker w)) in
  if running then on_worker (set_pollTimer true) else ret tt.

(** [try { m } finally { f }], for an [f] that does not throw *)
Definition finally {A} (m : Js (World P) A) (f : Js (World P) unit) : Js (World P) A :=
  fun w => match m w with (r, w') => (r, (f w').2) end.

(** [requestContext && typeof requestContext.run === "function" ? requestContext.run(…) : run()] *)
Definition in_context (run : Js (World P) unit) : Js (World P) unit :=
  let! bound := requestContext (A:=bool) in
  if bound then run else run.

Definition poll (cfg : WorkerConfig) (now : Z) : Js (World P) unit :=
  finally (in_context (try_catch (runPollCycle cfg now) (fun _ => ret tt))) scheduleNext.

Definition start (cfg : WorkerConfig) (now : Z) : Js (World P) unit :=
  if bool_decide (stream_contract_id cfg = "")%string then ret tt
  else do! on_worker (set_running true) in poll cfg now.

Definition stop : Js (World P) unit :=
  do! on_worker (set_running false) in on_worker (set_pollTimer false).

(** [customRequestId || requestContext?.getStore?.()?.requestId || randomUUID()] *)
Definition request_id (custom : option string) : Js (World P) string :=
  match custom with
  | Some c => if truthy (Some c) then ret c else requestContext
  | None => requestContext
  end.

Definition triggerPoll (cfg : WorkerConfig) (now : Z) (custom : option string) :
    Js (World P) string :=
  let! running := gets (fun w => isRunning (worker w)) in
  if negb running then request_id custom
  else
    let! requestId := request_id custom in
    do! try_catch (in_context (runPollCycle cfg now)) (fun _ => ret tt) in
    ret requestId.

(** indexerService.ts: reset, then poll without a request identifier *)
Definition replayFromLedger (cfg : WorkerConfig) (now fromLedger : Z) : Js (World P) unit :=
  do! resetIndexer now fromLedger in
  do! triggerPoll cfg now None in
  ret tt.

(** indexer.service.ts: the request identifier (the caller's, the one of the
    request's context, or a fresh one) is handed on *)
Definition replayWithRequestId (cfg : WorkerConfig) (now fromLedger : Z) (requestId : string) :
    Js (World P) string :=
  do! resetIndexer now fromLedger in
  do! triggerPoll cfg now (Some requestId) in
  ret requestId.
End Poll.
