(* ===== verification/PollFacts.v ===== *)
(** * Properties of the poll cycle

    The sort is a stable partition; a failing event is quarantined and the rest
    of the batch goes on; what the cursor becomes; counters and the degraded
    signal; what the unbound [requestContext] does to the lifecycle. *)
From S2P Require Import Prelude JsLang StreamId Json Schema Xdr Worker Contract Samples WorkerFacts IndexerCursor DeadLetter DeadLetterFacts SampleSdk Poll.
From stdpp Require Import sorting.
Local Open Scope Z_scope.

(** ** The sort *)

Definition typed (e : EventResponse) : bool := is_returns (event_type "" e).
Definition creates (e : EventResponse) : bool :=
  match event_type "" e with Returns t => is_creation t | Throws _ => false end.
Definition sorted_batch (events : list EventResponse) : list EventResponse :=
  List.filter creates events ++ List.filter (fun e => negb (creates e)) events.

Lemma compare_typed a b :
  typed a = true -> typed b = true ->
  compare_events a b = Returns (if creates a && negb (creates b) then -1
                                else if creates b && negb (creates a) then 1 else 0).
Proof.
  unfold typed, creates, compare_events, obind. by destruct (event_type "" a), (event_type "" b).
Qed.

Lemma sort_insert_typed x C N :
  typed x = true -> forallb typed (C ++ N) = true ->
  forallb creates C = true -> forallb (fun e => negb (creates e)) N = true ->
  sort_insert compare_events x (C ++ N) =
  Returns (if creates x then C ++ x :: N else C ++ N ++ [x]).
Proof.
  intros Hx Ht HC HN. induction C as [|c C IH].
  - destruct (creates x) eqn:Ex.
    + destruct N as [|n N]; [done|]. simpl in *. destruct (andb_prop _ _ Ht) as [Htn _].
      destruct (andb_prop _ _ HN) as [Hn _]. rewrite compare_typed, Ex by done.
      simpl. by rewrite Hn.
    + simpl in *. induction N as [|n N IH]; [done|]. simpl in *.
      apply andb_prop in Ht as [Htn Ht], HN as [Hn HN].
      rewrite compare_typed, Ex by done. destruct (creates n); [done|]. simpl. by rewrite IH.
  - simpl in *. apply andb_prop in Ht as [Htc Ht], HC as [Hc HC].
    rewrite compare_typed, Hc by done. simpl. rewrite andb_false_r.
    destruct (creates x); simpl; by rewrite IH.
Qed.

Lemma sort_onto_typed xs C N :
  forallb typed xs = true -> forallb typed (C ++ N) = true ->
  forallb creates C = true -> forallb (fun e => negb (creates e)) N = true ->
  sort_onto compare_events (C ++ N) xs =
  Returns ((C ++ List.filter creates xs) ++ N ++ List.filter (fun e => negb (creates e)) xs).
Proof.
  revert C N. induction xs as [|x xs IH]; intros C N Hxs Ht HC HN; simpl.
  { by rewrite !app_nil_r. }
  simpl in Hxs. apply andb_prop in Hxs as [Hx Hxs].
  rewrite sort_insert_typed by done. simpl. rewrite forallb_app in Ht.
  apply andb_prop in Ht as [HtC HtN]. destruct (creates x) eqn:Ex; simpl.
  - change (x :: N) with ([x] ++ N). rewrite app_assoc, IH.
    + by rewrite <- !app_assoc.
    + done.
    + rewrite !forallb_app. simpl. by rewrite HtC, Hx, HtN.
    + rewrite forallb_app. simpl. by rewrite HC, Ex.
    + done.
  - rewrite IH.
    + by rewrite <- !app_assoc.
    + done.
    + rewrite !forallb_app. simpl. by rewrite HtC, Hx, HtN.
    + done.
    + rewrite forallb_app. simpl. by rewrite HN, Ex.
Qed.

Lemma sort_typed events :
  forallb typed events = true -> array_sort compare_events events = Returns (sorted_batch events).
Proof. intros H. by apply (sort_onto_typed events [] []). Qed.

(** The batch sort is a stable partition: the creations come first, and both
    the creations and the other events keep the order in which the node
    reported them; no event is lost or repeated. *)
Theorem batch_sort_stable events :
  forallb typed events = true ->
  array_sort compare_events events =
    Returns (List.filter creates events ++ List.filter (fun e => negb (creates e)) events) /\
  List.filter creates events ++ List.filter (fun e => negb (creates e)) events ≡ₚ events.
Proof.
  intros H. split; [by apply sort_typed|]. clear H.
  induction events as [|e es IH]; [done|]. simpl. destruct (creates e); simpl.
  - by rewrite IH.
  - by rewrite <- Permutation_middle, IH.
Qed.

Lemma compare_untyped_l a b : typed a = false -> compare_events a b = Throws TypeErr.
Proof.
  unfold typed, compare_events, event_type. destruct (topic a) as [|t ?]; [done|].
  by destruct t.
Qed.
Lemma compare_untyped_r a b : typed b = false -> compare_events a b = Throws TypeErr.
Proof.
  destruct (typed a) eqn:Ha; [|by rewrite compare_untyped_l].
  unfold typed, compare_events, event_type in *. destruct (topic b) as [|t ?]; [done|].
  destruct (match topic a with [] => _ | _ => _ end) as [u|]; [|done].
  by destruct t.
Qed.

Lemma sort_untyped_onto xs acc :
  acc <> [] -> forallb typed acc = true -> forallb typed xs = false ->
  sort_onto compare_events acc xs = Throws TypeErr.
Proof.
  revert acc. induction xs as [|x xs IH]; intros acc Hne Ht Hx; simpl in *; [done|].
  destruct (typed x) eqn:Ex; simpl in Hx.
  - destruct (sort_insert compare_events x acc) as [acc'|e] eqn:Ei.
    + assert (forallb typed acc' = true /\ acc' <> []) as [??]; [|simpl; by apply IH].
      clear -Ei Ht Ex. revert acc' Ei. induction acc as [|y ys IH]; intros acc' Ei; simpl in *.
      { simplify_eq. simpl. by rewrite Ex. }
      apply andb_prop in Ht as [Hy Hys]. rewrite compare_typed in Ei by done. simpl in Ei.
      case_match; simplify_eq; simpl; [by rewrite Ex, Hy, Hys|].
      destruct (sort_insert compare_events x ys) as [r|]; simplify_eq/=.
      destruct (IH Hys r eq_refl) as [-> _]. by rewrite Hy.
    + exfalso. clear -Ei Ht Ex. revert e Ei. induction acc as [|y ys IH]; intros e Ei; [done|].
      simpl in *. apply andb_prop in Ht as [Hy Hys]. rewrite compare_typed in Ei by done.
      simpl in Ei. case_match; simplify_eq.
      destruct (sort_insert compare_events x ys) as [r|e']; simplify_eq/=. by eapply IH.
  - destruct acc as [|y ys]; [done|]. simpl. by rewrite compare_untyped_l.
Qed.

Lemma sort_untyped events :
  forallb typed events = false -> (2 <= length events)%nat ->
  array_sort compare_events events = Throws TypeErr.
Proof.
  intros H Hl. destruct events as [|x [|y es]]; simpl in Hl; [lia..|].
  change (sort_onto compare_events [x] (y :: es) = Throws TypeErr).
  destruct (typed x) eqn:Ex.
  - apply sort_untyped_onto; simpl in *; [done|by rewrite Ex|by rewrite Ex in H].
  - simpl. by rewrite compare_untyped_r.
Qed.

Section Facts.
Context `{P : PrismaEngine} `{K : StrKey} `{Sdk : StellarSdk}.
Variable getEvents : GetEventsParams -> outcome EventsPage.
Implicit Types (w : World P) (e : EventResponse).

(** ** Quarantine and the rest of the world *)

Lemma quarantine_Returns now e err cursor w :
  exists w', quarantineEvent now e err cursor w = (Returns tt, w').
Proof.
  unfold quarantineEvent, try_catch. destruct (bind _ _ w) as [[[]|e'] w']; [eauto|].
  by exists w'.
Qed.

Lemma put_deadLetter_rest r w :
  indexerState (db (put_deadLetter r w).2) = indexerState (db w) /\
  worker (put_deadLetter r w).2 = worker w /\ sse (put_deadLetter r w).2 = sse w /\
  streams (db (put_deadLetter r w).2) = streams (db w) /\
  events (db (put_deadLetter r w).2) = events (db w) /\
  users (db (put_deadLetter r w).2) = users (db w).
Proof. unfold put_deadLetter. by case_match. Qed.

(** Quarantine writes the dead-letter table only. *)
Lemma quarantine_rest now e err cursor w :
  let w' := (quarantineEvent now e err cursor w).2 in
  indexerState (db w') = indexerState (db w) /\ worker w' = worker w /\ sse w' = sse w /\
  streams (db w') = streams (db w) /\ events (db w') = events (db w) /\
  users (db w') = users (db w).
Proof.
  unfold quarantineEvent, try_catch, bind, gets, draw_uuid, throw, ret.
  destruct (txHash e) as [h|]; [|done]. destruct (t_find _ _) as [r|].
  - pose proof (put_deadLetter_rest (another_attempt now (error_message err) r) w) as H.
    by destruct (put_deadLetter _ w) as [[|] ?].
  - match goal with |- context [put_deadLetter ?r ?w1] =>
      pose proof (put_deadLetter_rest r w1) as H; by destruct (put_deadLetter r w1) as [[|] ?] end.
Qed.

Definition stored_letter (k : string * string) w : Prop := is_Some (t_find k (deadLetters (db w))).

Lemma put_deadLetter_keeps k r : preserves (stored_letter k) (put_deadLetter r).
Proof.
  unfold put_deadLetter. case_match; [|by intros w]. apply preserves_modify.
  intros w Hw. by apply find_put_mono.
Qed.

Lemma quarantine_keeps k now e err cursor :
  preserves (stored_letter k) (quarantineEvent now e err cursor).
Proof.
  apply preserves_try_catch; [|by intros ? w]. apply preserves_bind; [by intros w|].
  intros existing. case_match; [|by intros w].
  destruct existing; [apply put_deadLetter_keeps|]. apply preserves_bind; [by intros w|].
  intros; apply put_deadLetter_keeps.
Qed.

Lemma quarantine_stores now e err cursor hash w :
  txHash e = Some hash -> fits_int4 (ledger e) = true ->
  stored_letter (Xdr.id e, eventTypeOf e) (quarantineEvent now e err cursor w).2.
Proof.
  intros Hh Hf. destruct (t_find (Xdr.id e, eventTypeOf e) (deadLetters (db w))) eqn:E.
  - apply quarantine_keeps. by eexists.
  - rewrite (quarantine_fresh _ _ _ _ hash) by done. unfold stored_letter. simpl.
    rewrite t_find_put, decide_True by done. eauto.
Qed.

(** ** The event loop *)

(** What a successful event does to the counters. *)
Definition counted (now : Z) (k : WorkerState) : WorkerState :=
  recordOutcome now true (count_processed k).

Definition advance (p : Progress) (oks : list EventResponse) : Progress :=
  match last oks with
  | None => p
  | Some e => {| p_cursor := Some (Xdr.id e); p_ledger := ledger e; sawSuccess := true |}
  end.

Lemma advance_cons p e oks :
  advance {| p_cursor := Some (Xdr.id e); p_ledger := ledger e; sawSuccess := true |} oks =
  advance p (e :: oks).
Proof. unfold advance. rewrite last_cons. by destruct (last oks). Qed.

Lemma process_batch_attempt now e rest p w :
  inSuccessfulContractCall e = true -> typed e = true ->
  process_batch now (e :: rest) p w = bind (attempt now e p) (process_batch now rest) w.
Proof.
  intros Hin Ht. cbn [process_batch]. rewrite Hin. unfold bind at 1, lift.
  unfold typed, event_type in *. destruct (topic e) as [|t ?]; [done|].
  by destruct (decodeSymbol t).
Qed.

Lemma attempt_ok now e p w w1 :
  processEvent now e w = (Returns tt, w1) ->
  attempt now e p w =
  (Returns {| p_cursor := Some (Xdr.id e); p_ledger := ledger e; sawSuccess := true |},
   set_worker (counted now (worker w1)) w1).
Proof. intros H. unfold attempt, try_catch, bind. by rewrite H. Qed.
Lemma attempt_err now e p w w1 w2 err :
  processEvent now e w = (Throws err, w1) ->
  quarantineEvent now e err None w1 = (Returns tt, w2) ->
  attempt now e p w = (Returns p, w2).
Proof. intros H1 H2. unfold attempt, try_catch, bind. by rewrite H1, H2. Qed.

(** An attempt succeeds and counts, or quarantines; it never throws. *)
Lemma attempt_cases now e p w :
  exists w', let next := {| p_cursor := Some (Xdr.id e); p_ledger := ledger e; sawSuccess := true |} in
    indexerState (db w') = indexerState (db w) /\
    (forall k, stored_letter k w -> stored_letter k w') /\
    (attempt now e p w = (Returns next, w') /\ worker w' = counted now (worker w) \/
     attempt now e p w = (Returns p, w') /\ worker w' = worker w /\
     forall hash, txHash e = Some hash -> fits_int4 (ledger e) = true ->
       stored_letter (Xdr.id e, eventTypeOf e) w').
Proof.
  pose proof (processEvent_same w now e w (same_refl w)) as Hs.
  pose proof (processEvent_is_atomic now e w) as Hat.
  destruct (processEvent now e w) as [[[]|err] w1] eqn:Ep.
  - destruct Hs as [Hd _ Hc Hwk]. simpl in Hd, Hc, Hwk.
    eexists; split_and!; [..|left; split; [by apply attempt_ok|]]; simpl; [done| |by rewrite Hwk].
    intros k. unfold stored_letter. simpl. by rewrite Hd.
  - rewrite (Hat err w1 eq_refl) in *.
    destruct (quarantine_Returns now e err None w) as [w2 E2].
    pose proof (quarantine_rest now e err None w) as (Hi2 & Hw2 & _).
    pose proof (fun k => quarantine_keeps k now e err None w) as Hk2.
    pose proof (fun hash => quarantine_stores now e err None hash w) as Hs2.
    rewrite E2 in *. exists w2. split_and!; [done|done|]. right.
    split; [by eapply attempt_err|done].
Qed.

Lemma process_batch_spec now events p w :
  forallb typed events = true ->
  exists oks bad w', process_batch now events p w = (Returns (advance p oks), w') /\
    oks `sublist_of` events /\
    oks ++ bad ≡ₚ List.filter inSuccessfulContractCall events /\
    worker w' = Nat.iter (length oks) (counted now) (worker w) /\
    indexerState (db w') = indexerState (db w) /\
    (forall k, stored_letter k w -> stored_letter k w') /\
    (forall e hash, e ∈ bad -> txHash e = Some hash -> fits_int4 (ledger e) = true ->
       stored_letter (Xdr.id e, eventTypeOf e) w').
Proof.
  revert p w. induction events as [|e events IH]; intros p w Ht.
  { exists [], [], w. split_and!; [done|constructor|done|done|done|done|set_solver]. }
  simpl in Ht. apply andb_prop in Ht as [Hte Ht]. cbn [List.filter].
  destruct (inSuccessfulContractCall e) eqn:Hin.
  2:{ destruct (IH p w Ht) as (oks & bad & w' & E & Hsub & Hp & Hrest).
      exists oks, bad, w'. cbn [process_batch]. rewrite Hin.
      split_and!; [done|by apply sublist_cons|done|apply Hrest..]. }
  rewrite process_batch_attempt by done. unfold bind.
  destruct (attempt_cases now e p w) as (w1 & Hi1 & Hk1 & [[-> Hw1]|(-> & Hw1 & Hs1)]).
  - edestruct IH as (oks & bad & w' & E & Hsub & Hp & Hw & Hi & Hk & Hb); [done|].
    exists (e :: oks), bad, w'. rewrite <- (advance_cons p).
    split_and!; [exact E|by constructor| | |by rewrite Hi|auto|done].
    + simpl. by rewrite Hp.
    + rewrite Hw. simpl length. by rewrite Nat.iter_succ_r, Hw1.
  - destruct (IH p w1 Ht) as (oks & bad & w' & E & Hsub & Hp & Hw & Hi & Hk & Hb).
    exists oks, (e :: bad), w'.
    split_and!; [exact E|by apply sublist_cons| |by rewrite Hw, Hw1|by rewrite Hi|auto|].
    + by rewrite <- Permutation_middle, Hp.
    + intros e' hash [->|Hin']%elem_of_cons Hh Hf; [eauto|by eapply Hb].
Qed.

Lemma iter_counted now n k :
  eventsProcessed (Nat.iter n (counted now) k) = eventsProcessed k + Z.of_nat n /\
  eventsFailed (Nat.iter n (counted now) k) = eventsFailed k /\
  lastErrorAt (Nat.iter n (counted now) k) = lastErrorAt k /\
  isRunning (Nat.iter n (counted now) k) = isRunning k.
Proof.
  induction n as [|n (IH1 & IH2 & IH3 & IH4)]; [simpl; split_and!; lia || done|].
  rewrite Nat.iter_succ. generalize dependent (Nat.iter n (counted now) k). intros k' H1 H2 H3 H4.
  change (eventsProcessed (counted now k')) with (eventsProcessed k' + 1). split_and!; [lia|done..].
Qed.

Lemma last_elem {A} (xs : list A) x : last xs = Some x -> x ∈ xs.
Proof. apply last_Some_elem_of. Qed.

Lemma runPollCycle_batch cfg now w r page :
  indexerState (db w) = Some r -> getEvents (poll_params cfg r) = Returns page ->
  page_events page <> [] -> forallb typed (page_events page) = true ->
  runPollCycle getEvents cfg now w =
  (let! p := process_batch now (sorted_batch (page_events page))
     {| p_cursor := lastCursor r; p_ledger := lastLedger r; sawSuccess := false |} in
   indexerState_upsert now (p_ledger p) (final_cursor page p)) w.
Proof.
  intros Hr Hg Hne Ht. unfold runPollCycle, bind at 1.
  rewrite (ensureIndexerState_found _ _ _ _ _ r) by done.
  unfold bind at 1, lift at 1. rewrite Hg. pose proof (sort_typed _ Ht) as Hs.
  destruct (page_events page) as [|e es]; [done|]. unfold bind at 1, lift. by rewrite Hs.
Qed.

Lemma sorted_batch_perm events : sorted_batch events ≡ₚ events.
Proof.
  unfold sorted_batch. induction events as [|e es IH]; [done|]. simpl. destruct (creates e); simpl.
  - by rewrite IH.
  - by rewrite <- Permutation_middle, IH.
Qed.


(** One event whose first topic is not a symbol stops the whole batch before
    any event is processed: the cycle throws and the world is unchanged, so
    every later cycle meets the same page again. *)
Theorem untyped_topic_blocks_batch cfg now w r page :
  indexerState (db w) = Some r -> getEvents (poll_params cfg r) = Returns page ->
  (2 <= length (page_events page))%nat -> forallb typed (page_events page) = false ->
  runPollCycle getEvents cfg now w = (Throws TypeErr, w).
Proof.
  intros Hr Hg Hl Ht. unfold runPollCycle, bind at 1.
  rewrite (ensureIndexerState_found _ _ _ _ _ r) by done.
  unfold bind at 1, lift at 1. rewrite Hg. pose proof (sort_untyped _ Ht Hl) as Hs.
  destruct (page_events page) as [|e es]; [done|]. unfold bind at 1, lift. by rewrite Hs.
Qed.

(** ** Invariants of the cycle *)

Lemma preserves_attempt (I : World P -> Prop) now e p :
  preserves I (processEvent now e) ->
  (forall f, preserves I (on_worker f)) ->
  (forall err, preserves I (quarantineEvent now e err None)) ->
  preserves I (attempt now e p).
Proof.
  intros H1 H2 H3. apply preserves_try_catch.
  - apply preserves_bind; [done|]. intros. do 2 (apply preserves_bind; [done|intros]).
    by intros w.
  - intros err. apply preserves_bind; [done|]. by intros ? w.
Qed.

Lemma preserves_batch (I : World P -> Prop) now events p :
  (forall e p, preserves I (attempt now e p)) -> preserves I (process_batch now events p).
Proof.
  intros H. revert p. induction events as [|e es IH]; intros p; [by intros w|]. simpl.
  case_match; [|apply IH]. apply preserves_bind; [apply preserves_readonly; auto with js|].
  intros _. by apply preserves_bind.
Qed.

Lemma preserves_put_cursor (I : World P -> Prop) r :
  (forall w d, I w -> I (set_db (set_indexerState d (db w)) w)) -> preserves I (put_indexerState r).
Proof.
  intros H. unfold put_indexerState. case_match; [|by intros w].
  apply preserves_bind; [apply preserves_modify; auto|]. by intros _ w.
Qed.

Lemma preserves_cycle (I : World P -> Prop) cfg now :
  (forall w d, I w -> I (set_db (set_indexerState d (db w)) w)) ->
  (forall e p, preserves I (attempt now e p)) -> preserves I (runPollCycle getEvents cfg now).
Proof.
  intros Hc Ha. pose proof (preserves_put_cursor I) as Hput. unfold runPollCycle.
  apply preserves_bind.
  { unfold ensureIndexerState. apply preserves_bind; [by intros w|]. intros [r|]; [by intros w|].
    apply preserves_bind; [by apply preserves_modify|]. intros _. apply preserves_try_catch.
    - unfold indexerState_create. apply preserves_bind; [by intros w|].
      intros [r|]; [by intros w|by apply Hput].
    - intros err. repeat case_match; try by intros w. apply preserves_bind; [by apply preserves_modify|].
      intros _. apply preserves_bind; [by intros w|]. intros; case_match; by intros w. }
  intros state. apply preserves_bind; [apply preserves_readonly; auto with js|]. intros page.
  case_match; [by intros w|]. apply preserves_bind; [apply preserves_readonly; auto with js|].
  intros sorted. apply preserves_bind; [by apply preserves_batch|]. intros p.
  unfold indexerState_upsert. apply preserves_bind; [by apply Hput|]. by intros _ w.
Qed.

(** The whole database's invariant. *)
Definition all_ok w : Prop := world_ok w /\ deadLetters_ok w.

Lemma all_ok_same w w' :
  users (db w') = users (db w) -> streams (db w') = streams (db w) ->
  events (db w') = events (db w) -> deadLetters (db w') = deadLetters (db w) ->
  uuids_drawn (db w') = uuids_drawn (db w) -> all_ok w -> all_ok w'.
Proof.
  intros E1 E2 E3 E4 E5 [[H1 H2] [H3 H4 H5 H6]]. split.
  - split; rewrite ?E2, ?E3; [intros id r Hr; destruct (H1 id r Hr)|intros k r Hr; destruct (H2 k r Hr)];
      split; rewrite ?E1, ?E2; done.
  - split; rewrite ?E4, ?E5; done.
Qed.

Lemma deadLetters_ok_same w w' :
  deadLetters (db w') = deadLetters (db w) -> uuids_drawn (db w') = uuids_drawn (db w) ->
  deadLetters_ok w -> deadLetters_ok w'.
Proof. intros E4 E5 [H3 H4 H5 H6]. split; rewrite ?E4, ?E5; done. Qed.

(** A poll cycle keeps the whole database consistent, whatever the node
    answers and however it ends: streams, events and users stay referentially
    intact, and the dead-letter table keeps one row per key with unique
    identifiers. *)
Theorem poll_cycle_preserves_ok cfg now w :
  all_ok w -> all_ok (runPollCycle getEvents cfg now w).2.
Proof.
  revert w. apply preserves_cycle; [by intros w d; apply all_ok_same|].
  intros e p. apply preserves_attempt.
  - intros w [Hw Hd]. split; [by apply processEvent_keeps_ok|].
    destruct (processEvent_same w now e w (same_refl w)). by eapply deadLetters_ok_same.
  - intros f w. by apply all_ok_same.
  - intros err w [Hw Hd]. split; [|by apply quarantine_ok].
    pose proof (quarantine_rest now e err None w) as (_ & _ & _ & E1 & E2 & E3).
    destruct Hw as [H1 H2]. split; rewrite ?E1, ?E2;
      [intros id r Hr; destruct (H1 id r Hr)|intros k r Hr; destruct (H2 k r Hr)];
      split; rewrite ?E3, ?E1; done.
Qed.

(** ** The degraded signal *)

Definition healthy (k : WorkerState) : Prop :=
  eventsFailed k = 0 /\ lastErrorAt k = None /\ forallb fst (recentOutcomes k) = true.

Lemma forallb_filter {A} (f g : A -> bool) xs : forallb f xs = true -> forallb f (List.filter g xs) = true.
Proof.
  induction xs as [|x xs IH]; [done|]. simpl. intros [H1 H2]%andb_prop.
  destruct (g x); simpl; [by rewrite H1, IH|by apply IH].
Qed.

Lemma healthy_not_degraded now k : healthy k -> isFailureSpike now k = false.
Proof.
  intros (_ & _ & H). unfold isFailureSpike. apply (forallb_filter _ (in_window now)) in H.
  revert H. generalize (List.filter (in_window now) (recentOutcomes k)) as xs. intros xs H.
  replace (List.filter (fun o : bool * Z => negb o.1) xs) with (@nil (bool * Z)).
  - simpl. case_match; [done|]. apply Nat.leb_gt. apply Nat.ltb_ge in H0.
    unfold MIN_SAMPLES_FOR_DEGRADED in *. lia.
  - induction xs as [|[[] t] xs IH]; [done|..]; simpl in *; [by apply IH|done].
Qed.

Lemma healthy_counted now k : healthy k -> healthy (counted now k).
Proof.
  intros (H1 & H2 & H3). split_and!; [done|done|]. simpl. apply forallb_filter.
  by rewrite forallb_app, H3.
Qed.

Lemma healthy_cycle cfg now :
  preserves (fun w => healthy (worker w)) (runPollCycle getEvents cfg now).
Proof.
  apply preserves_cycle; [done|]. intros e p w Hw.
  destruct (attempt_cases now e p w) as (w1 & _ & _ & [[E Ew]|(E & Ew & _)]);
    rewrite E; simpl; rewrite Ew; [by apply healthy_counted|done].
Qed.
End Facts.

(** Poll cycles one after the other, each with its node, configuration and
    clock; one that throws does not stop the next. *)
Definition run_cycles `{P : PrismaEngine} `{K : StrKey} `{Sdk : StellarSdk}
    (cycles : list ((GetEventsParams -> outcome EventsPage) * WorkerConfig * Z)) (w : World P) :
    World P :=
  fold_left (fun w c => (runPollCycle c.1.1 c.1.2 c.2 w).2) cycles w.

Section Lifecycle.
Context `{P : PrismaEngine} `{K : StrKey} `{Sdk : StellarSdk}.
Implicit Types (w : World P).

(** The health signal cannot fire: after a counter reset, whatever cycles run
    and however many events fail in them, no failure is ever counted and the
    worker is never reported as degraded. *)
Theorem never_degraded cycles w t :
  let w' := run_cycles cycles (set_worker (resetEventCounters (worker w)) w) in
  let c := getEventCounters t (worker w') in
  c_eventsFailed c = 0 /\ c_lastErrorAt c = None /\ c_degraded c = false.
Proof.
  assert (H : forall w, healthy (worker w) -> healthy (worker (run_cycles cycles w))).
  { unfold run_cycles. induction cycles as [|[[g cfg] now] cycles IH]; intros w0 H0; [done|].
    simpl. by apply IH, healthy_cycle. }
  simpl. destruct (H (set_worker (resetEventCounters (worker w)) w)) as (H1 & H2 & H3); [done|].
  split_and!; [done|done|]. by apply healthy_not_degraded.
Qed.

(** As [requestContext] is not in scope in the worker's module, no scheduled or
    manual poll ever reaches the node or the database: [start] and [poll] throw
    a ReferenceError, and an admin replay leaves the cursor reset and throws. *)
Theorem lifecycle_never_polls getEvents cfg now w from :
  stream_contract_id cfg <> "" -> fits_int4 from = true ->
  let unbound := ReferenceErr "requestContext" in
  (start getEvents cfg now w).1 = Throws unbound /\
  db (start getEvents cfg now w).2 = db w /\
  (poll getEvents cfg now w).1 = Throws unbound /\ db (poll getEvents cfg now w).2 = db w /\
  replayFromLedger getEvents cfg now from w =
    (Throws unbound, set_db (set_indexerState (Some {| lastLedger := from; lastCursor := None;
                               is_updatedAt := now |}) (db w)) w) /\
  forall id, id <> "" -> triggerPoll getEvents cfg now (Some id) w = (Returns id, w).
Proof.
  intros Hc Hf. assert (forall w1 : World P, db (scheduleNext w1).2 = db w1) as Hn.
  { intros w1. unfold scheduleNext, bind, gets. by destruct (isRunning (worker w1)). }
  assert (Hpoll : forall w1 : World P, poll getEvents cfg now w1 =
    (Throws (ReferenceErr "requestContext"), (scheduleNext w1).2)) by done.
  assert (Hstart : start getEvents cfg now w =
    poll getEvents cfg now (set_worker (set_running true (worker w)) w)).
  { unfold start. by rewrite bool_decide_eq_false_2. }
  split_and!.
  - by rewrite Hstart.
  - rewrite Hstart, Hpoll. cbn [snd]. by rewrite Hn.
  - done.
  - rewrite Hpoll. cbn [snd]. by rewrite Hn.
  - unfold replayFromLedger, resetIndexer, bind at 1. rewrite indexerState_upsert_fits by done.
    unfold triggerPoll, bind, gets. simpl. by destruct (isRunning (worker w)).
  - intros id Hid. unfold triggerPoll, bind, gets, request_id, truthy.
    rewrite bool_decide_eq_false_2 by done. by destruct (isRunning (worker w)).
Qed.
End Lifecycle.

(** * Poll cycles on concrete inputs *)

Local Open Scope Z_scope.

Definition sample_cfg : WorkerConfig := {| stream_contract_id := "CABC"; start_ledger := 1 |}.

(** A batch whose second event fails: there is no stream 77. *)
Definition mixed_page : EventsPage :=
  {| page_events := [withdrawn1; orphan; paused1; created1]; latestLedger := Some 20;
     latestCursor := None |}.
Definition mixed_node (p : GetEventsParams) : outcome EventsPage := Returns mixed_page.

(** A batch with an event whose first topic is a number. *)
Definition untyped_event : EventResponse := {|
  Xdr.id := "ev-u"; type := "contract"; ledger := 6; ledgerClosedAt := ""; transactionIndex := 0;
  operationIndex := 0; inSuccessfulContractCall := true; contractId := None;
  txHash := Some "tx-u"%string; topic := [ScvU32 1]; value := ScvVoid |}.
Definition untyped_page : EventsPage :=
  {| page_events := [withdrawn1; untyped_event]; latestLedger := None; latestCursor := None |}.

Definition cursor_row : IndexerState := {| lastLedger := 1; lastCursor := None; is_updatedAt := 0 |}.
Definition cursor_world : World gmap_engine := (resetIndexer 0 1 sample_world).2.

Lemma cursor_world_row : indexerState (db cursor_world) = Some cursor_row.
Proof. vm_refl. Qed.

Lemma cursor_world_ok : all_ok cursor_world.
Proof.
  eapply (all_ok_same (P:=gmap_engine) sample_world); [reflexivity..|]. split.
  - apply (processEvent_keeps_ok (P:=gmap_engine)), empty_world_ok.
  - destruct (processEvent_same (P:=gmap_engine) empty_world 100000 created1 empty_world
      (same_refl empty_world)) as [E1 E2 _ _].
    eapply (deadLetters_ok_same (P:=gmap_engine)); [exact E1|exact E2|].
    apply empty_world_deadLetters_ok.
Qed.

Lemma batch_sort_stable_witness :
  array_sort compare_events [withdrawn1; orphan; paused1; created1] =
  Returns [created1; withdrawn1; orphan; paused1].
Proof. exact (proj1 (batch_sort_stable [withdrawn1; orphan; paused1; created1] eq_refl)). Defined.


(** Three of the four events apply, the orphan is quarantined. *)
Example mixed_page_result :
  let w' := (runPollCycle mixed_node sample_cfg 300000 cursor_world).2 in
  eventsProcessed (worker w') = 3 /\
  map dl_eventId (t_rows (deadLetters (db w'))).*2 = ["ev-x"%string] /\
  indexerState (db w') = Some {| lastLedger := 3; lastCursor := Some "ev-p"%string;
                                 is_updatedAt := 300000 |}.
Proof. split; [vm_refl|split; vm_refl]. Qed.

Lemma untyped_topic_blocks_batch_witness :
  runPollCycle (fun _ => Returns untyped_page) sample_cfg 300000 cursor_world =
  (Throws TypeErr, cursor_world).
Proof.
  exact (untyped_topic_blocks_batch (P:=gmap_engine) (fun _ => Returns untyped_page) sample_cfg
    300000 cursor_world cursor_row untyped_page cursor_world_row eq_refl (le_n 2) eq_refl).
Defined.

Lemma poll_cycle_preserves_ok_witness :
  all_ok (runPollCycle mixed_node sample_cfg 300000 cursor_world).2.
Proof.
  exact (poll_cycle_preserves_ok (P:=gmap_engine) mixed_node sample_cfg 300000 cursor_world
    cursor_world_ok).
Defined.

Lemma lifecycle_never_polls_witness :
  (start mixed_node sample_cfg 300000 cursor_world).1 = Throws (ReferenceErr "requestContext").
Proof.
  exact (proj1 (lifecycle_never_polls (P:=gmap_engine) mixed_node sample_cfg 300000 cursor_world 5
    ltac:(discriminate) eq_refl)).
Defined.
