(* ===== verification/Mutex.v ===== *)
(** * [runExclusive] and [waitForDrain] of soroban-event-worker.ts

    The promise chain that serializes poll, replay and reset batches, as a step
    relation: a batch is registered, starts once the batch before it has
    settled, and settles.  Batches are numbered in the order of the calls. *)
From S2P Require Import Prelude.
From stdpp Require Import relations.

Record MutexState := {
  chain : list nat; (* unsettled batches, oldest first: batchMutex is the last *)
  activeBatch : option nat;
  running : option nat;
  calls : nat;
  started : list nat (* newest first *)
}.

Definition initial : MutexState :=
  {| chain := []; activeBatch := None; running := None; calls := 0; started := [] |}.

(** A call of [runExclusive] chains its gate and registers it. *)
Definition register (s : MutexState) : MutexState := {|
  chain := chain s ++ [calls s]; activeBatch := Some (calls s); running := running s;
  calls := S (calls s); started := started s |}.

Definition start_batch (b : nat) (s : MutexState) : MutexState := {|
  chain := chain s; activeBatch := activeBatch s; running := Some b; calls := calls s;
  started := b :: started s |}.

(** The gate resolves, whether the batch fulfilled or rejected; [activeBatch] is
    cleared only if nothing newer was registered. *)
Definition settle (b : nat) (s : MutexState) : MutexState := {|
  chain := tail (chain s);
  activeBatch := if decide (activeBatch s = Some b) then None else activeBatch s;
  running := None; calls := calls s; started := started s |}.

Inductive step : MutexState -> MutexState -> Prop :=
| step_register s : step s (register s)
| step_start s b rest :
    running s = None -> chain s = b :: rest -> step s (start_batch b s)
| step_settle s b : running s = Some b -> step s (settle b s).

Definition reachable (s : MutexState) : Prop := rtc step initial s.

(** What holds of every reachable state: the chain is the interval of the calls
    that are not settled, the running batch is its head and was started last,
    and [activeBatch] is its end. *)
Definition in_flight (s : MutexState) : nat := match running s with Some _ => 1 | None => 0 end.
Definition mutex_inv (s : MutexState) : Prop :=
  exists settled unsettled,
    chain s = seq settled unsettled /\ calls s = settled + unsettled /\
    activeBatch s = last (chain s) /\ rev (started s) = seq 0 (settled + in_flight s) /\
    forall b, running s = Some b -> b = settled /\ 0 < unsettled.

Lemma last_seq k n : last (seq k (S n)) = Some (k + n).
Proof. rewrite seq_S. apply last_snoc. Qed.

Lemma inv_register s : mutex_inv s -> mutex_inv (register s).
Proof.
  intros (k & n & Hc & Hn & Ha & Hs & Hr). exists k, (S n). rewrite seq_S.
  simpl. rewrite Hc, Hn. split_and!; [done|lia|by rewrite last_snoc|done|].
  intros b Hb. destruct (Hr b Hb). split; [done|lia].
Qed.

Lemma inv_start s b rest :
  running s = None -> chain s = b :: rest -> mutex_inv s -> mutex_inv (start_batch b s).
Proof.
  intros Hrun Hch (k & n & Hc & Hn & Ha & Hs & Hr). exists k, n. simpl.
  unfold in_flight in *. rewrite Hrun in Hs. destruct n as [|n]; [by rewrite Hc in Hch|].
  assert (b = k) as -> by (rewrite Hc in Hch; by injection Hch).
  split_and!; [done|done|done| |intros b [= <-]; split; [done|lia]].
  simpl. by rewrite Hs, Nat.add_0_r, Nat.add_1_r, seq_S.
Qed.

Lemma inv_settle s b : running s = Some b -> mutex_inv s -> mutex_inv (settle b s).
Proof.
  intros Hrun (k & n & Hc & Hn & Ha & Hs & Hr). destruct (Hr b Hrun) as [-> Hpos].
  destruct n as [|n]; [lia|]. exists (S k), n. unfold in_flight in *. rewrite Hrun in Hs. simpl.
  rewrite Hc, Hn in *. rewrite last_seq in Ha. split_and!; [done|lia| | |done].
  - rewrite Ha. destruct n as [|n].
    + by rewrite decide_True by (f_equal; lia).
    + rewrite decide_False by (intros [=]; lia).
      etrans; [|symmetry; apply (last_seq (S k) n)]. f_equal. lia.
  - rewrite Hs. by replace (k + 1) with (S k + 0) by lia.
Qed.

Lemma inv_reachable s : reachable s -> mutex_inv s.
Proof.
  apply (rtc_ind_r mutex_inv initial).
  - exists 0, 0. by split_and!.
  - intros s1 s2 _ Hst IH. destruct Hst; eauto using inv_register, inv_start, inv_settle.
Qed.

Lemma calls_mono s s' : rtc step s s' -> calls s <= calls s'.
Proof.
  induction 1 as [|s1 s2 s3 Hst _ IH]; [done|]. destruct Hst; simpl in *; lia.
Qed.


(** A drain waits for everything registered before it: once the batch that
    [waitForDrain] found in [activeBatch] has settled, no batch that was pending
    at that moment is pending any more; and if it found none, none was. *)
Theorem drain_covers_pending s s' :
  reachable s -> rtc step s s' ->
  (forall b, activeBatch s = Some b -> b ∉ chain s' -> forall b', b' ∈ chain s -> b' ∉ chain s') /\
  (activeBatch s = None -> chain s = []).
Proof.
  intros Hs Hrtc. assert (Hs' : reachable s') by (unfold reachable in *; by etrans).
  pose proof (calls_mono _ _ Hrtc) as Hm.
  apply inv_reachable in Hs as (k & n & Hc & Hn & Ha & _).
  apply inv_reachable in Hs' as (k' & n' & Hc' & Hn' & _). rewrite Hc in *. rewrite Hc'.
  destruct n as [|n]; [simpl in *; by split; [set_solver|]|]. rewrite last_seq in Ha. split.
  - intros b Hb. assert (b = k + n) as -> by congruence. rewrite elem_of_seq.
    intros Hout b' Hb'%elem_of_seq. rewrite elem_of_seq. lia.
  - congruence.
Qed.



(** Two calls, both run to the end: the second one's gate covers the first. *)
Definition two_calls : MutexState := register (register initial).
Definition both_settled : MutexState :=
  settle 1 (start_batch 1 (settle 0 (start_batch 0 two_calls))).

Lemma two_calls_reachable : reachable two_calls.
Proof. eapply rtc_l; [constructor|]. eapply rtc_once. constructor. Qed.
Lemma both_settled_later : rtc step two_calls both_settled.
Proof.
  eapply rtc_l; [by eapply (step_start _ 0)|]. eapply rtc_l; [by apply (step_settle _ 0)|].
  eapply rtc_l; [by eapply (step_start _ 1)|]. by apply rtc_once, step_settle.
Qed.

Lemma drain_covers_pending_witness :
  activeBatch two_calls = Some 1 /\ 0 ∈ chain two_calls /\ 0 ∉ chain both_settled.
Proof.
  assert (H1 : 1 ∉ chain both_settled) by (apply not_elem_of_nil).
  assert (H0 : 0 ∈ chain two_calls) by (apply elem_of_cons; by left).
  split; [reflexivity|]. split; [exact H0|].
  exact (proj1 (drain_covers_pending two_calls both_settled two_calls_reachable both_settled_later)
    1 eq_refl H1 0 H0).
Defined.

