(* ===== verification/MemoryCache.v ===== *)
(** * The in-process cache: class MemoryCache of backend/src/lib/redis.ts

    A [Map] is its list of entries in insertion order.  [now] is the reading of
    [Date.now()], and a time to live is given in milliseconds. *)
From S2P Require Import Prelude.
From stdpp Require Import sorting.
Local Open Scope Z_scope.

Record CacheItem (V : Type) := { item_value : V; createdAt : Z; expiresAt : Z }.
Arguments item_value {V}.
Arguments createdAt {V}.
Arguments expiresAt {V}.
Arguments Build_CacheItem {V}.

Section Cache.
Context {V : Type}.

Record MemoryCache := {
  entries : list (string * CacheItem V); (* least recently used first *)
  hits : nat;
  misses : nat;
  maxItems : nat
}.

Definition map_get (key : string) (m : list (string * CacheItem V)) : option (CacheItem V) :=
  snd <$> List.find (fun kv => bool_decide (kv.1 = key)) m.
Definition map_delete (key : string) (m : list (string * CacheItem V)) :=
  List.filter (fun kv => negb (bool_decide (kv.1 = key))) m.
(** [set] of a key that is absent appends; the code always deletes it first. *)
Definition map_append (key : string) (i : CacheItem V) (m : list (string * CacheItem V)) :=
  m ++ [(key, i)].

Definition with_entries (m : list (string * CacheItem V)) (c : MemoryCache) : MemoryCache :=
  {| entries := m; hits := hits c; misses := misses c; maxItems := maxItems c |}.
Definition miss (c : MemoryCache) : MemoryCache :=
  {| entries := entries c; hits := hits c; misses := S (misses c); maxItems := maxItems c |}.
Definition hit (c : MemoryCache) : MemoryCache :=
  {| entries := entries c; hits := S (hits c); misses := misses c; maxItems := maxItems c |}.

Definition get (now : Z) (key : string) (c : MemoryCache) : option V * MemoryCache :=
  match map_get key (entries c) with
  | None => (None, miss c)
  | Some item =>
      if expiresAt item <=? now then (None, miss (with_entries (map_delete key (entries c)) c))
      else (Some (item_value item),
            hit (with_entries (map_append key item (map_delete key (entries c))) c))
  end.

(** [while (size > maxItems) delete the first key]; one step per entry is enough *)
Fixpoint evict (fuel : nat) (max : nat) (m : list (string * CacheItem V)) :=
  match fuel with
  | O => m
  | S fuel' =>
      if (max <? length m)%nat then
        match m with [] => [] | (k, _) :: _ => evict fuel' max (map_delete k m) end
      else m
  end.

Definition evictIfOverCapacity (c : MemoryCache) : MemoryCache :=
  with_entries (evict (length (entries c)) (maxItems c) (entries c)) c.

Definition set (now : Z) (key : string) (value : V) (ttlMs : Z) (c : MemoryCache) : MemoryCache :=
  evictIfOverCapacity
    (with_entries
      (map_append key {| item_value := value; createdAt := now; expiresAt := now + ttlMs |}
        (map_delete key (entries c))) c).

Definition del (key : string) (c : MemoryCache) : MemoryCache :=
  with_entries (map_delete key (entries c)) c.

(** The creation and expiry times, as numbers. *)
Definition getMetadata (now : Z) (key : string) (c : MemoryCache) : option (Z * Z) * MemoryCache :=
  match map_get key (entries c) with
  | None => (None, c)
  | Some item =>
      if expiresAt item <=? now then (None, with_entries (map_delete key (entries c)) c)
      else (Some (createdAt item, expiresAt item),
            with_entries (map_append key item (map_delete key (entries c))) c)
  end.

Definition cleanup (now : Z) (c : MemoryCache) : MemoryCache :=
  evictIfOverCapacity
    (with_entries (List.filter (fun kv => now <? expiresAt kv.2) (entries c)) c).

(** [(hits, misses, itemCount, maxItems)] *)
Definition getStats (c : MemoryCache) : nat * nat * nat * nat :=
  (hits c, misses c, length (entries c), maxItems c).

Definition fresh_cache (max : nat) : MemoryCache :=
  {| entries := []; hits := 0; misses := 0; maxItems := max |}.

(** ** Maps without repeated keys *)

Implicit Types (m : list (string * CacheItem V)) (c : MemoryCache).

Lemma map_delete_keys key m : (map_delete key m).*1 = List.filter (fun k => negb (bool_decide (k = key))) m.*1.
Proof.
  induction m as [|[k i] m IH]; [done|]. simpl. case_bool_decide; simpl; [done|]. by f_equal.
Qed.

Lemma map_delete_absent key m : key ∉ m.*1 -> map_delete key m = m.
Proof.
  induction m as [|[k i] m IH]; [done|]. simpl. intros H. rewrite bool_decide_eq_false_2 by set_solver.
  simpl. by rewrite IH by set_solver.
Qed.

Lemma elem_map_delete kv key m : kv ∈ map_delete key m <-> kv ∈ m /\ kv.1 <> key.
Proof.
  unfold map_delete. rewrite list_elem_of_In, filter_In, <- list_elem_of_In.
  by rewrite negb_true_iff, bool_decide_eq_false.
Qed.

Lemma NoDup_map_delete key m : NoDup m.*1 -> NoDup (map_delete key m).*1.
Proof.
  induction m as [|[k i] m IH]; [done|]. simpl. intros [Hk Hm]%NoDup_cons.
  case_bool_decide; simpl; [by apply IH|]. apply NoDup_cons. split; [|by apply IH].
  rewrite map_delete_keys. rewrite list_elem_of_In, filter_In, <- list_elem_of_In. naive_solver.
Qed.

Lemma NoDup_map_append key i m : NoDup m.*1 -> NoDup (map_append key i (map_delete key m)).*1.
Proof.
  intros H. unfold map_append. rewrite fmap_app. apply NoDup_app. split_and!.
  - by apply NoDup_map_delete.
  - intros k Hk. rewrite map_delete_keys, list_elem_of_In, filter_In in Hk.
    destruct Hk as [_ Hk%negb_true_iff%bool_decide_eq_false]. set_solver.
  - simpl. apply NoDup_singleton.
Qed.

Lemma map_get_elem key i m : map_get key m = Some i -> (key, i) ∈ m.
Proof.
  unfold map_get. destruct (List.find _ m) as [[k i']|] eqn:E; [|done]. simpl. intros [= <-].
  apply find_some in E as [Hin Hk%bool_decide_eq_true]. simpl in Hk. subst. by apply list_elem_of_In.
Qed.

Lemma map_get_spec key i m : NoDup m.*1 -> map_get key m = Some i <-> (key, i) ∈ m.
Proof.
  intros Hnd. split; [apply map_get_elem|]. intros Hin. unfold map_get.
  induction m as [|[k j] m IH]; [set_solver|]. simpl in *. apply NoDup_cons in Hnd as [Hk Hnd].
  apply elem_of_cons in Hin as [[= <- <-]|Hin]; [by rewrite bool_decide_eq_true_2|].
  rewrite bool_decide_eq_false_2; [by apply IH|]. intros ->. apply Hk.
  apply list_elem_of_fmap. by exists (key, i).
Qed.

Lemma evict_drop fuel max m :
  NoDup m.*1 -> (length m <= fuel)%nat -> evict fuel max m = drop (length m - max) m.
Proof.
  revert m. induction fuel as [|fuel IH]; intros m Hnd Hl; simpl.
  { destruct m; [done|simpl in Hl; lia]. }
  case (Nat.ltb_spec max (length m)); intros Hlt.
  - destruct m as [|[k i] m]; [done|]. simpl in *. apply NoDup_cons in Hnd as [Hk Hnd].
    rewrite bool_decide_eq_true_2 by done. simpl. rewrite map_delete_absent by done.
    rewrite IH by (done || lia). by replace (S (length m) - max)%nat with (S (length m - max)) by lia.
  - by replace (length m - max)%nat with 0%nat by lia.
Qed.

(** ** The cache's invariant *)

Record cache_inv (c : MemoryCache) : Prop := {
  ci_keys : NoDup (entries c).*1;
  ci_size : (length (entries c) <= maxItems c)%nat
}.

Lemma length_map_delete key m : (length (map_delete key m) <= length m)%nat.
Proof. apply filter_length_le. Qed.

Lemma length_delete_append key i j m :
  NoDup m.*1 -> map_get key m = Some j ->
  length (map_append key i (map_delete key m)) = length m.
Proof.
  intros Hnd Hg. unfold map_append. rewrite length_app, Nat.add_1_r. apply map_get_elem in Hg.
  induction m as [|[k j'] m IH]; [set_solver|]. simpl in *. apply NoDup_cons in Hnd as [Hk Hnd].
  case_bool_decide as Hkk; simpl.
  - subst. by rewrite map_delete_absent.
  - f_equal. apply IH; [done|]. apply elem_of_cons in Hg as [[= ? ?]|?]; [by subst|done].
Qed.

Lemma NoDup_filter_keys (f : string * CacheItem V -> bool) m :
  NoDup m.*1 -> NoDup (List.filter f m).*1.
Proof.
  induction m as [|[k i] m IH]; [done|]. simpl. intros [Hk Hm]%NoDup_cons.
  destruct (f (k, i)); [|by apply IH]. simpl. apply NoDup_cons. split; [|by apply IH].
  intros ([k' i'] & -> & Hin)%list_elem_of_fmap. apply Hk, list_elem_of_fmap.
  exists (k', i'). split; [done|]. apply list_elem_of_In, filter_In in Hin as [? _].
  by apply list_elem_of_In.
Qed.

Lemma evict_inv c :
  NoDup (entries c).*1 -> cache_inv (evictIfOverCapacity c) /\
  entries (evictIfOverCapacity c) = drop (length (entries c) - maxItems c) (entries c).
Proof.
  intros H. unfold evictIfOverCapacity. simpl. rewrite evict_drop by done. split; [|done].
  split; simpl.
  - rewrite fmap_drop. by eapply sublist_NoDup; [|apply sublist_drop].
  - rewrite length_drop. lia.
Qed.

Lemma get_inv now key c : cache_inv c -> cache_inv (get now key c).2.
Proof.
  intros [Hk Hs]. unfold get. destruct (map_get key (entries c)) as [i|] eqn:E; [|by split].
  case_match; split; simpl.
  - by apply NoDup_map_delete.
  - pose proof (length_map_delete key (entries c)). lia.
  - by apply NoDup_map_append.
  - by rewrite (length_delete_append _ _ i).
Qed.
Lemma getMetadata_inv now key c : cache_inv c -> cache_inv (getMetadata now key c).2.
Proof.
  intros [Hk Hs]. unfold getMetadata. destruct (map_get key (entries c)) as [i|] eqn:E; [|by split].
  case_match; split; simpl.
  - by apply NoDup_map_delete.
  - pose proof (length_map_delete key (entries c)). lia.
  - by apply NoDup_map_append.
  - by rewrite (length_delete_append _ _ i).
Qed.
Lemma set_inv now key v ttl c : cache_inv c -> cache_inv (set now key v ttl c).
Proof. intros [Hk Hs]. apply evict_inv. simpl. by apply NoDup_map_append. Qed.
Lemma del_inv key c : cache_inv c -> cache_inv (del key c).
Proof.
  intros [Hk Hs]. split; simpl; [by apply NoDup_map_delete|].
  pose proof (length_map_delete key (entries c)). lia.
Qed.
Lemma cleanup_inv now c : cache_inv c -> cache_inv (cleanup now c).
Proof. intros [Hk Hs]. apply evict_inv. simpl. by apply NoDup_filter_keys. Qed.

Inductive CacheOp :=
| OpGet (now : Z) (key : string)
| OpSet (now : Z) (key : string) (v : V) (ttlMs : Z)
| OpDel (key : string)
| OpMetadata (now : Z) (key : string)
| OpCleanup (now : Z).

Definition run_op c (op : CacheOp) : MemoryCache :=
  match op with
  | OpGet now key => (get now key c).2
  | OpSet now key v ttlMs => set now key v ttlMs c
  | OpDel key => del key c
  | OpMetadata now key => (getMetadata now key c).2
  | OpCleanup now => cleanup now c
  end.

Definition is_get (op : CacheOp) : bool := match op with OpGet _ _ => true | _ => false end.

Lemma run_op_spec c op :
  cache_inv c ->
  cache_inv (run_op c op) /\ maxItems (run_op c op) = maxItems c /\
  (hits (run_op c op) + misses (run_op c op) =
   hits c + misses c + length (List.filter is_get [op]))%nat.
Proof.
  intros H. split.
  { destruct op; simpl; auto using get_inv, set_inv, del_inv, getMetadata_inv, cleanup_inv. }
  destruct op; simpl; unfold get, getMetadata; repeat case_match; simpl; split; done || lia.
Qed.

(** The cache stays bounded and consistent under any sequence of operations,
    whatever the clock does: it never holds more than [maxItems] entries, never
    two for one key, and every lookup counts as one hit or one miss. *)
Theorem cache_bounded max ops :
  let c := fold_left run_op ops (fresh_cache max) in
  (length (entries c) <= max)%nat /\ NoDup (entries c).*1 /\
  (hits c + misses c)%nat = length (List.filter is_get ops).
Proof.
  assert (H : forall c, cache_inv c ->
    let c' := fold_left run_op ops c in
    cache_inv c' /\ maxItems c' = maxItems c /\
    (hits c' + misses c' = hits c + misses c + length (List.filter is_get ops))%nat).
  { induction ops as [|op ops IH]; intros c Hc; simpl; [split_and!; done || lia|].
    destruct (run_op_spec c op Hc) as (Hc' & Hm & Hn).
    destruct (IH _ Hc') as (H1 & H2 & H3). split_and!; [done|congruence|].
    simpl in Hn. destruct (is_get op); simpl in *; lia. }
  destruct (H (fresh_cache max)) as ([Hk Hs] & Hm & Hn); [split; [apply NoDup_nil_2|simpl; lia]|].
  simpl in *. rewrite Hm in Hs. by split_and!.
Qed.

(** C34. Eviction is least-recently-used: after [set], the entries are the last
    [maxItems] of the other entries in their order of use followed by the new
    one; an unexpired lookup moves its entry to the most recent end and returns
    its value; and with room for one entry the value just set is returned until,
    and only until, its time to live is over. *)
Theorem cache_is_lru now key v ttlMs c :
  cache_inv c ->
  let others := map_delete key (entries c) in
  let item := {| item_value := v; createdAt := now; expiresAt := now + ttlMs |} in
  entries (set now key v ttlMs c) = drop (S (length others) - maxItems c) (others ++ [(key, item)]) /\
  (forall t i, map_get key (entries c) = Some i -> t < expiresAt i ->
     (get t key c).1 = Some (item_value i) /\ entries (get t key c).2 = others ++ [(key, i)]) /\
  ((1 <= maxItems c)%nat -> forall t,
     (get t key (set now key v ttlMs c)).1 = if t <? now + ttlMs then Some v else None).
Proof.
  intros [Hk Hs] others item.
  assert (Hset : entries (set now key v ttlMs c) =
    drop (S (length others) - maxItems c) (others ++ [(key, item)])).
  { destruct (evict_inv (with_entries (map_append key item others) c)) as [_ E].
    { by apply NoDup_map_append. }
    etrans; [exact E|]. simpl. unfold map_append. rewrite length_app.
    by rewrite Nat.add_1_r. }
  split; [done|]. split.
  - intros t i Hi Ht. unfold get. rewrite Hi.
    case (Z.leb_spec (expiresAt i) t); [lia|]. by intros.
  - intros Hmax t. assert (Hg : map_get key (entries (set now key v ttlMs c)) = Some item).
    { apply map_get_spec.
      - by apply set_inv.
      - rewrite Hset, drop_app_le by lia. set_solver. }
    unfold get. rewrite Hg. simpl. rewrite Z.ltb_antisym. by destruct (now + ttlMs <=? t).
Qed.
End Cache.
Arguments MemoryCache V : clear implicits.

(** ** What operations leave in the cache *)

Lemma append_entry {V} key (i : CacheItem V) m kv :
  map_get key m = Some i -> kv ∈ map_append key i (map_delete key m) -> kv ∈ m.
Proof.
  intros Hi. unfold map_append. rewrite elem_of_app, elem_map_delete, list_elem_of_singleton.
  intros [[H _]| ->]; [done|by apply map_get_elem].
Qed.

Lemma map_get_append {V} key (i : CacheItem V) m : map_get key (map_append key i (map_delete key m)) = Some i.
Proof.
  unfold map_get, map_append. induction m as [|[k j] m IH]; cbn [map_delete List.filter app List.find fst].
  - by rewrite bool_decide_eq_true_2.
  - case_bool_decide as Hk; cbn [negb]; [exact IH|]. cbn [app List.find fst]. by rewrite bool_decide_eq_false_2.
Qed.

(** A lookup that finds something, and the metadata read right after it. *)
Lemma get_then_metadata {V} now key (c c' : MemoryCache V) v :
  get now key c = (Some v, c') ->
  exists i, (key, i) ∈ entries c /\ item_value i = v /\ now < expiresAt i /\
    (getMetadata now key c').1 = Some (createdAt i, expiresAt i).
Proof.
  unfold get. destruct (map_get key (entries c)) as [i|] eqn:E; [|done].
  destruct (Z.leb_spec (expiresAt i) now) as [?|Hlt]; [done|]. intros [= <- <-]. exists i.
  split_and!; [by apply map_get_elem|done|done|]. unfold getMetadata. cbn [entries hit with_entries].
  rewrite map_get_append. by rewrite (proj2 (Z.leb_gt _ _) Hlt).
Qed.

Lemma get_entries {V} now key (c : MemoryCache V) kv : kv ∈ entries (get now key c).2 -> kv ∈ entries c.
Proof.
  unfold get. destruct (map_get key (entries c)) as [i|] eqn:E; [|done]. case_match; cbn.
  - by intros []%elem_map_delete.
  - by apply append_entry.
Qed.

Lemma getMetadata_entries {V} now key (c : MemoryCache V) kv :
  kv ∈ entries (getMetadata now key c).2 -> kv ∈ entries c.
Proof.
  unfold getMetadata. destruct (map_get key (entries c)) as [i|] eqn:E; [|done]. case_match; cbn.
  - by intros []%elem_map_delete.
  - by apply append_entry.
Qed.

Lemma evict_entries {V} fuel max (m : list (string * CacheItem V)) kv : kv ∈ evict fuel max m -> kv ∈ m.
Proof.
  revert m. induction fuel as [|fuel IH]; intros m; [done|]. cbn [evict]. case_match; [|done].
  destruct m as [|[k i] m]; [done|]. by intros [? _]%IH%elem_map_delete.
Qed.

(** What eviction leaves under a key that was written last is what was written. *)
Lemma evict_stored {V} fuel max key (i j : CacheItem V) m :
  map_get key (evict fuel max (map_append key i (map_delete key m))) = Some j -> i = j.
Proof.
  intros H%map_get_elem%evict_entries. unfold map_append in H.
  rewrite elem_of_app, elem_map_delete, list_elem_of_singleton in H.
  destruct H as [[_ H]| [= ->]]; done.
Qed.

Lemma set_entries {V} now key (v : V) ttl (c : MemoryCache V) kv :
  kv ∈ entries (set now key v ttl c) ->
  kv ∈ entries c \/ kv = (key, {| item_value := v; createdAt := now; expiresAt := now + ttl |}).
Proof.
  unfold set, evictIfOverCapacity, map_append. cbn [entries with_entries maxItems]. intros H%evict_entries.
  rewrite elem_of_app, elem_map_delete, list_elem_of_singleton in H. destruct H as [[H _]| ->]; auto.
Qed.

Lemma cache_is_lru_witness :
  let c := set 0 "a" 1 5000 (set 0 "b" 2 5000 (fresh_cache 2)) in
  map fst (entries (set 10 "c" 3 5000 c)) = ["a"; "c"]%string /\
  (get 5009 "c" (set 10 "c" 3 5000 c)).1 = Some 3.
Proof.
  intros c. assert (cache_inv c) as H.
  { apply set_inv, set_inv. split; [apply NoDup_nil_2|simpl; lia]. }
  destruct (cache_is_lru 10 "c" 3 5000 c H) as (H1 & _ & H3).
  split; [exact (f_equal (map fst) H1)|exact (H3 ltac:(simpl; lia) 5009)].
Defined.
