(* ===== verification/Claimable.v ===== *)
(** * Claimable amounts: backend/src/services/claimable.service.ts

    The service mirrors the contract's linear claim function on the indexed row
    and caches its answers in a [MemoryCache]. *)
From S2P Require Import Prelude JsLang StreamId Json Schema Xdr Contract MemoryCache.
From stdpp Require Import sorting.
Local Open Scope Z_scope.

Record ClaimableStreamState := {
  cs_streamId : Z;
  cs_ratePerSecond : string;
  cs_depositedAmount : string;
  cs_withdrawnAmount : string;
  cs_startTime : Z;
  cs_lastUpdateTime : Z;
  cs_isActive : bool;
  cs_isPaused : bool;
  cs_pausedAt : option Z;
  cs_totalPausedDuration : Z;
  cs_updatedAt : option Z
}.

(** [Omit<ClaimableAmountResult, 'cached'>] *)
Record ClaimableValue := {
  cv_streamId : Z;
  claimableAmount : string;
  actionable : bool;
  calculatedAt : Z
}.

Record ClaimableAmountResult := {
  result : ClaimableValue;
  cached : bool;
  cachedAt : option Z
}.

Definition CLAIMABLE_CACHE_BUCKET_SECONDS : Z := 5.

Definition clampI128 (v : Z) : Z :=
  if I128_MAX <? v then I128_MAX else if v <? I128_MIN then I128_MIN else v.
Definition saturatingSubI128 (a b : Z) : Z := clampI128 (a - b).
Definition checkedMulI128 (a b : Z) : option Z :=
  if (I128_MAX <? a * b) || (a * b <? I128_MIN) then None else Some (a * b).
Definition parseI128 (v fieldName : string) : outcome Z :=
  match BigInt_of_string v with
  | Returns z => Returns (clampI128 z)
  | Throws _ => Throws (ErrorMsg ("Invalid i128 value for '" +:+ fieldName +:+ "'"))
  end.

Definition flag (b : bool) : string := if b then "1" else "0".

(** The parts that [join(':')] puts together; an absent or zero-epoch date is falsy. *)
Definition fingerprint_parts (s : ClaimableStreamState) : list string :=
  [cs_ratePerSecond s; cs_depositedAmount s; cs_withdrawnAmount s;
   BigInt_toString (cs_startTime s); BigInt_toString (cs_lastUpdateTime s);
   flag (cs_isActive s); flag (cs_isPaused s);
   match cs_pausedAt s with Some p => BigInt_toString p | None => "null" end;
   BigInt_toString (cs_totalPausedDuration s)].

Definition getStateFingerprint (s : ClaimableStreamState) : string :=
  let base := StreamId.join ":" (fingerprint_parts s) in
  match cs_updatedAt s with
  | Some u => base +:+ ":" +:+ BigInt_toString u
  | None => base
  end.

Definition bucket (calculatedAt : Z) : Z :=
  calculatedAt / CLAIMABLE_CACHE_BUCKET_SECONDS * CLAIMABLE_CACHE_BUCKET_SECONDS.

Definition cache_key (s : ClaimableStreamState) (calculatedAt : Z) : string :=
  "claimable:" +:+ BigInt_toString (cs_streamId s) +:+ ":" +:+ getStateFingerprint s +:+ ":" +:+
  BigInt_toString (bucket calculatedAt).

Definition elapsed_time (s : ClaimableStreamState) (nowTs : Z) : Z :=
  let anchorTime := if 0 <? cs_lastUpdateTime s then cs_lastUpdateTime s else 0 in
  let elapsed := if anchorTime <? nowTs then nowTs - anchorTime else 0 in
  match cs_isPaused s, cs_pausedAt s with
  | true, Some p =>
      let currentPauseStart := if 0 <? p then p else 0 in
      if currentPauseStart <? nowTs then
        let currentPauseDuration := nowTs - currentPauseStart in
        if currentPauseDuration <? elapsed then elapsed - currentPauseDuration else 0
      else elapsed
  | _, _ => elapsed
  end.

(** The computation behind a cache miss. *)
Definition compute_claimable (s : ClaimableStreamState) (calculatedAt : Z) :
    outcome ClaimableValue :=
  let elapsed := elapsed_time s (Z.max 0 calculatedAt) in
  let? ratePerSecond := parseI128 (cs_ratePerSecond s) "ratePerSecond" in
  let? depositedAmount := parseI128 (cs_depositedAmount s) "depositedAmount" in
  let? withdrawnAmount := parseI128 (cs_withdrawnAmount s) "withdrawnAmount" in
  let remainingAmount := saturatingSubI128 depositedAmount withdrawnAmount in
  let rawClaimable :=
    match checkedMulI128 elapsed ratePerSecond with
    | Some streamed => if remainingAmount <? streamed then remainingAmount else streamed
    | None => remainingAmount
    end in
  let actionableAmount := if cs_isActive s && (0 <? rawClaimable) then rawClaimable else 0 in
  Returns {| cv_streamId := cs_streamId s; claimableAmount := BigInt_toString actionableAmount;
             actionable := 0 <? actionableAmount; calculatedAt := calculatedAt |}.

(** [clock] is [nowMs()], [now] is [Date.now()] inside the cache. *)
Definition getClaimableAmount (cacheTtlMs clock now : Z) (s : ClaimableStreamState)
    (requestedAt : option Z) : Js (MemoryCache ClaimableValue) ClaimableAmountResult :=
  let calculatedAt := match requestedAt with Some t => t | None => clock / 1000 end in
  let key := cache_key s calculatedAt in
  fun c =>
    match get now key c with
    | (Some v, c1) =>
        let '(metadata, c2) := getMetadata now key c1 in
        (Returns {| result := v; cached := true; cachedAt := fst <$> metadata |}, c2)
    | (None, c1) =>
        match compute_claimable s calculatedAt with
        | Returns v =>
            (Returns {| result := v; cached := false; cachedAt := None |},
             set now key v (Z.max 0 cacheTtlMs) c1)
        | Throws e => (Throws e, c1)
        end
    end.

(** What the controllers hand to the service: the columns of the row. *)
Definition claimable_state (r : Stream) : ClaimableStreamState := {|
  cs_streamId := streamId r; cs_ratePerSecond := ratePerSecond r;
  cs_depositedAmount := depositedAmount r; cs_withdrawnAmount := withdrawnAmount r;
  cs_startTime := startTime r; cs_lastUpdateTime := lastUpdateTime r;
  cs_isActive := isActive r; cs_isPaused := isPaused r; cs_pausedAt := pausedAt r;
  cs_totalPausedDuration := totalPausedDuration r; cs_updatedAt := Some (updatedAt r) |}.
