(* ===== verification/ClaimableFacts.v ===== *)
(** * Properties of the claimable-amount service

    Agreement with the contract's linear claim function, bounds and
    monotonicity, and what a cached answer can differ by. *)
From S2P Require Import Prelude JsLang StreamId Json Schema Xdr Contract WorkerFacts MemoryCache Claimable.
From stdpp Require Import sorting.
Local Open Scope Z_scope.

Definition in_i128 (z : Z) : bool := (I128_MIN <=? z) && (z <=? I128_MAX).

Lemma clampI128_sat z : clampI128 z = sat_i128 z.
Proof.
  unfold clampI128, sat_i128, I128_MAX, I128_MIN.
  case (Z.ltb_spec (2 ^ 127 - 1) z); [lia|]. case (Z.ltb_spec z (- 2 ^ 127)); lia.
Qed.

Lemma clampI128_id z : in_i128 z = true -> clampI128 z = z.
Proof. rewrite clampI128_sat. unfold in_i128, sat_i128. lia. Qed.

Lemma checkedMul_agrees a b : checkedMulI128 a b = checked_mul a b.
Proof.
  unfold checkedMulI128, checked_mul.
  case (Z.ltb_spec I128_MAX (a * b)), (Z.ltb_spec (a * b) I128_MIN),
    (Z.leb_spec I128_MIN (a * b)), (Z.leb_spec (a * b) I128_MAX); simpl; done || lia.
Qed.

Lemma parseI128_toString z f : in_i128 z = true -> parseI128 (BigInt_toString z) f = Returns z.
Proof. intros H. unfold parseI128. by rewrite BigInt_roundtrip, clampI128_id. Qed.

(** The amounts of the state, as integers. *)
Record amounts_of (s : ClaimableStreamState) (rate dep wd : Z) : Prop := {
  ao_rate : cs_ratePerSecond s = BigInt_toString rate;
  ao_dep : cs_depositedAmount s = BigInt_toString dep;
  ao_wd : cs_withdrawnAmount s = BigInt_toString wd;
  ao_rate_fits : in_i128 rate = true;
  ao_dep_fits : in_i128 dep = true;
  ao_wd_fits : in_i128 wd = true;
  ao_rate_pos : 0 <= rate
}.

(** The on-chain stream that the row mirrors. *)
Definition chain_of (s : ClaimableStreamState) (rate dep wd : Z) : ChainStream := {|
  rate_per_second := rate; deposited_amount := dep; withdrawn_amount := wd;
  last_update_time := cs_lastUpdateTime s; is_active := cs_isActive s; paused := cs_isPaused s;
  paused_at := cs_pausedAt s; schedule := Linear |}.

(** The amount after the cases are unfolded. *)
Definition claim (active : bool) (elapsed rate dep wd : Z) : Z :=
  let remaining := sat_i128 (dep - wd) in
  let raw := match checked_mul elapsed rate with
             | Some streamed => Z.min streamed remaining
             | None => remaining
             end in
  if active then Z.max 0 raw else 0.

Lemma compute_claim s rate dep wd now :
  amounts_of s rate dep wd ->
  compute_claimable s now =
  let a := claim (cs_isActive s) (elapsed_time s (Z.max 0 now)) rate dep wd in
  Returns {| cv_streamId := cs_streamId s; claimableAmount := BigInt_toString a;
             actionable := 0 <? a; calculatedAt := now |}.
Proof.
  intros [E1 E2 E3 Hr Hd Hw Hp]. unfold compute_claimable. rewrite E1, E2, E3.
  rewrite !parseI128_toString by done. simpl.
  unfold claim, saturatingSubI128. rewrite checkedMul_agrees, clampI128_sat.
  match goal with |- Returns {| claimableAmount := BigInt_toString ?x |} =
    Returns {| claimableAmount := BigInt_toString ?y |} => assert (x = y) as -> end; [|done].
  destruct (cs_isActive s); [|done]. simpl.
  destruct (checked_mul _ rate) as [m|]; simpl.
  - case (Z.ltb_spec (sat_i128 (dep - wd)) m); intros.
    + case (Z.ltb_spec 0 (sat_i128 (dep - wd))); lia.
    + case (Z.ltb_spec 0 m); lia.
  - case (Z.ltb_spec 0 (sat_i128 (dep - wd))); lia.
Qed.

Lemma elapsed_agrees s now :
  0 <= cs_lastUpdateTime s -> 0 <= now ->
  (cs_isPaused s = true -> exists p, cs_pausedAt s = Some p /\ 0 <= p <= now) ->
  elapsed_time s now =
  saturating_sub_u64 (if cs_isPaused s then default (cs_lastUpdateTime s) (cs_pausedAt s) else now)
    (cs_lastUpdateTime s).
Proof.
  intros Hl Hn Hp. unfold elapsed_time, saturating_sub_u64.
  replace (if 0 <? cs_lastUpdateTime s then cs_lastUpdateTime s else 0) with (cs_lastUpdateTime s)
    by (case (Z.ltb_spec 0 (cs_lastUpdateTime s)); lia).
  destruct (cs_isPaused s).
  - destruct Hp as (p & -> & Hp); [done|]. simpl.
    case (Z.ltb_spec 0 p); intros; repeat (case_match; simplify_eq); lia.
  - destruct (cs_lastUpdateTime s <? now) eqn:E; lia.
Qed.

(** C9. The service computes what the contract's [get_claimable_amount] returns
    for a linear stream in the same state, to the unit and for the full i128
    range: overflow of rate times time, over-withdrawn streams, inactive and
    paused streams included. *)
Theorem claimable_mirrors_contract s rate dep wd now :
  amounts_of s rate dep wd -> 0 <= cs_lastUpdateTime s -> 0 <= now ->
  (cs_isPaused s = true -> exists p, cs_pausedAt s = Some p /\ 0 <= p <= now) ->
  let a := get_claimable_amount (chain_of s rate dep wd) now in
  compute_claimable s now =
  Returns {| cv_streamId := cs_streamId s; claimableAmount := BigInt_toString a;
             actionable := 0 <? a; calculatedAt := now |}.
Proof.
  intros Ha Hl Hn Hp. rewrite (compute_claim s rate dep wd) by done.
  replace (get_claimable_amount (chain_of s rate dep wd) now)
    with (claim (cs_isActive s) (elapsed_time s (Z.max 0 now)) rate dep wd); [done|].
  rewrite Z.max_r by done. rewrite elapsed_agrees by done.
  unfold claim, get_claimable_amount, calculate_claimable. simpl.
  destruct (cs_isActive s); [|done]. unfold saturating_sub.
  set (e := saturating_sub_u64 _ _).
  assert (0 <= e) by (unfold e, saturating_sub_u64; lia).
  destruct (checked_mul e rate) as [m|] eqn:E; [|done].
  assert (0 <= m); [|lia]. unfold checked_mul in E. case_match; simplify_eq.
  pose proof (ao_rate_pos _ _ _ _ Ha). nia.
Qed.

Lemma claim_bounds active e rate dep wd :
  0 <= claim active e rate dep wd <= Z.max 0 (sat_i128 (dep - wd)).
Proof. unfold claim. destruct active; [|lia]. case_match; lia. Qed.

Lemma claim_mono active e e' rate dep wd :
  0 <= e <= e' -> 0 <= rate ->
  claim active e rate dep wd <= claim active e' rate dep wd.
Proof.
  intros He Hr. unfold claim. destruct active; [|lia]. unfold checked_mul.
  assert (0 <= e * rate <= e' * rate) by nia. repeat case_match; simplify_eq; try lia.
  rewrite !andb_true_iff, !andb_false_iff in *. unfold I128_MIN in *. lia.
Qed.

Lemma elapsed_mono s now now' :
  0 <= now <= now' -> 0 <= elapsed_time s now <= elapsed_time s now'.
Proof.
  intros H. unfold elapsed_time.
  set (anchor := if 0 <? cs_lastUpdateTime s then cs_lastUpdateTime s else 0).
  destruct (cs_isPaused s), (cs_pausedAt s) as [p|]; split; repeat case_match; lia.
Qed.

(** C10. A claimable amount is never negative, never exceeds what is left of the
    deposit, and never decreases while the row is unchanged, paused or not;
    [actionable] says exactly that it is positive. *)
Theorem claimable_bounded_monotone s rate dep wd now now' :
  amounts_of s rate dep wd -> now <= now' ->
  exists v v' a a', compute_claimable s now = Returns v /\ compute_claimable s now' = Returns v' /\
    claimableAmount v = BigInt_toString a /\ claimableAmount v' = BigInt_toString a' /\
    0 <= a <= a' /\ a' <= Z.max 0 (dep - wd) /\
    (actionable v = true <-> 0 < a) /\ (cs_isActive s = false -> a' = 0).
Proof.
  intros Ha Hn. rewrite !(compute_claim s rate dep wd) by done. do 4 eexists.
  split; [reflexivity|]. split; [reflexivity|]. cbn [claimableAmount actionable].
  split; [reflexivity|]. split; [reflexivity|].
  pose proof (elapsed_mono s (Z.max 0 now) (Z.max 0 now') ltac:(lia)) as He.
  pose proof (claim_mono (cs_isActive s) _ _ rate dep wd He (ao_rate_pos _ _ _ _ Ha)).
  pose proof (claim_bounds (cs_isActive s) (elapsed_time s (Z.max 0 now)) rate dep wd).
  pose proof (claim_bounds (cs_isActive s) (elapsed_time s (Z.max 0 now')) rate dep wd).
  split; [lia|]. split; [|split; [by rewrite Z.ltb_lt|]].
  - unfold sat_i128, I128_MAX, I128_MIN in *. lia.
  - by intros ->.
Qed.

(** ** Cache keys *)

Fixpoint no_colon (s : string) : bool :=
  match s with
  | EmptyString => true
  | String c s' => negb (Ascii.eqb c ":"%char) && no_colon s'
  end.

Lemma colon_split a a' b b' :
  no_colon a = true -> no_colon a' = true ->
  (a +:+ ":" +:+ b = a' +:+ ":" +:+ b')%string -> a = a' /\ b = b'.
Proof.
  revert a'. induction a as [|c a IH]; intros [|c' a'] Ha Ha' E; simpl in *.
  - by injection E.
  - injection E as <- _. done.
  - injection E as -> _. done.
  - apply andb_prop in Ha as [_ Ha], Ha' as [_ Ha'].
    assert (c = c' /\ (a +:+ ":" +:+ b = a' +:+ ":" +:+ b')%string) as [-> E'] by (by injection E).
    by destruct (IH a' Ha Ha' E') as [-> ->].
Qed.

Lemma no_colon_app a b : no_colon (a +:+ ":" +:+ b) = false.
Proof. induction a as [|c a IH]; [done|].
  change (negb (Ascii.eqb c ":"%char) && no_colon (a +:+ ":" +:+ b) = false).
  by rewrite IH, andb_false_r.
Qed.

Lemma all_digits_no_colon s : all_digits s = true -> no_colon s = true.
Proof.
  induction s as [|c s IH]; [done|]. simpl. intros [Hc Hs]%andb_prop. rewrite IH by done.
  rewrite andb_true_r. destruct (Ascii.eqb_spec c ":"%char) as [->|]; [done|done].
Qed.

Lemma toString_no_colon z : no_colon (BigInt_toString z) = true.
Proof.
  unfold BigInt_toString. assert (H : forall n, 0 <= n -> all_digits (nat_digits n) = true).
  { intros n Hn. pose proof (nat_digits_only n Hn) as Hd. by destruct (nat_digits n). }
  case (Z.ltb_spec z 0); intros Hz; [|by apply all_digits_no_colon, H].
  simpl. apply all_digits_no_colon, H. lia.
Qed.

Lemma toString_inj z z' : BigInt_toString z = BigInt_toString z' -> z = z'.
Proof.
  intros E. pose proof (toString_parses z) as H. rewrite E, toString_parses in H. congruence.
Qed.

Definition opt_time (o : option Z) : string :=
  match o with Some p => BigInt_toString p | None => "null" end.

Lemma opt_time_no_colon o : no_colon (opt_time o) = true.
Proof. destruct o; [apply toString_no_colon|done]. Qed.
Lemma opt_time_inj o o' : opt_time o = opt_time o' -> o = o'.
Proof.
  assert (H : forall z, BigInt_toString z <> "null"%string).
  { intros z E. pose proof (toString_parses z) as Hz. by rewrite E in Hz. }
  destruct o, o'; simpl; intros E; try done; [f_equal; by apply toString_inj|..];
    exfalso; by eapply H.
Qed.

(** Amount columns that print no colon, such as every decimal integer. *)
Definition plain (s : ClaimableStreamState) : bool :=
  no_colon (cs_ratePerSecond s) && no_colon (cs_depositedAmount s) &&
  no_colon (cs_withdrawnAmount s).

(** The end of a key: the optional date and the bucket. *)
Definition key_tail (u : option Z) (b : Z) : string :=
  match u with
  | Some u => BigInt_toString u +:+ ":" +:+ BigInt_toString b
  | None => BigInt_toString b
  end.

Lemma key_tail_inj u b u' b' : key_tail u b = key_tail u' b' -> u = u' /\ b = b'.
Proof.
  assert (Hnc := toString_no_colon). destruct u as [u|], u' as [u'|]; simpl; intros E.
  - apply colon_split in E as [E1 E2]; [|done..]. by apply toString_inj in E1 as ->, E2 as ->.
  - pose proof (Hnc b') as H. by rewrite <- E, no_colon_app in H.
  - pose proof (Hnc b) as H. by rewrite E, no_colon_app in H.
  - by apply toString_inj in E as ->.
Qed.

Lemma cache_key_shape s t :
  cache_key s t =
  ("claimable" +:+ ":" +:+ BigInt_toString (cs_streamId s) +:+ ":" +:+ cs_ratePerSecond s +:+ ":" +:+
   cs_depositedAmount s +:+ ":" +:+ cs_withdrawnAmount s +:+ ":" +:+
   BigInt_toString (cs_startTime s) +:+ ":" +:+ BigInt_toString (cs_lastUpdateTime s) +:+ ":" +:+
   flag (cs_isActive s) +:+ ":" +:+ flag (cs_isPaused s) +:+ ":" +:+ opt_time (cs_pausedAt s) +:+
   ":" +:+ BigInt_toString (cs_totalPausedDuration s) +:+ ":" +:+
   key_tail (cs_updatedAt s) (bucket t))%string.
Proof.
  unfold cache_key, getStateFingerprint, fingerprint_parts. simpl StreamId.join.
  destruct (cs_updatedAt s); rewrite !app_string_assoc; reflexivity.
Qed.

Lemma flag_inj b b' : flag b = flag b' -> b = b'.
Proof. by destruct b, b'. Qed.

Lemma cache_key_inj s s' t t' :
  plain s = true -> plain s' = true -> cache_key s t = cache_key s' t' ->
  s = s' /\ bucket t = bucket t'.
Proof.
  unfold plain. intros Hs Hs' E.
  apply andb_prop in Hs as [[H1 H2]%andb_prop H3], Hs' as [[H1' H2']%andb_prop H3'].
  rewrite !cache_key_shape in E. assert (Hnc := toString_no_colon). assert (Hoc := opt_time_no_colon).
  assert (Hf : forall b, no_colon (flag b) = true) by (by intros []).
  apply colon_split in E as [_ E]; [|done..].
  apply colon_split in E as [E1 E]; [|done..]. apply colon_split in E as [E2 E]; [|done..].
  apply colon_split in E as [E3 E]; [|done..]. apply colon_split in E as [E4 E]; [|done..].
  apply colon_split in E as [E5 E]; [|done..]. apply colon_split in E as [E6 E]; [|done..].
  apply colon_split in E as [E7 E]; [|done..]. apply colon_split in E as [E8 E]; [|done..].
  apply colon_split in E as [E9 E]; [|done..]. apply colon_split in E as [E10 E]; [|done..].
  apply key_tail_inj in E as [E11 E12]. split; [|done].
  apply toString_inj in E1, E5, E6, E10. apply flag_inj in E7, E8. apply opt_time_inj in E9.
  destruct s, s'; simpl in *. congruence.
Qed.

(** ** Cached answers *)

Implicit Types (c : MemoryCache ClaimableValue).

(** Every entry is the answer to some request with that key. *)
Record cache_sound c : Prop := {
  so_inv : cache_inv c;
  so_entries : forall k i, (k, i) ∈ entries c -> exists s t,
    plain s = true /\ k = cache_key s t /\ compute_claimable s t = Returns (item_value i)
}.

Lemma get_value now k c v :
  (get now k c).1 = Some v -> exists i, (k, i) ∈ entries c /\ item_value i = v.
Proof.
  unfold get. destruct (map_get k (entries c)) as [i|] eqn:E; [|done].
  case_match; simpl; intros [= <-]. exists i. split; [by apply map_get_elem|done].
Qed.

Definition request_time (clock : Z) (requestedAt : option Z) : Z :=
  match requestedAt with Some t => t | None => clock / 1000 end.

Lemma bucket_close t t' : bucket t = bucket t' -> Z.abs (t - t') < 5.
Proof.
  unfold bucket, CLAIMABLE_CACHE_BUCKET_SECONDS. intros H.
  pose proof (Z.div_mod t 5 ltac:(lia)). pose proof (Z.div_mod t' 5 ltac:(lia)).
  pose proof (Z.mod_pos_bound t 5 eq_refl). pose proof (Z.mod_pos_bound t' 5 eq_refl). lia.
Qed.

Lemma compute_calculatedAt s t v : compute_claimable s t = Returns v -> calculatedAt v = t.
Proof.
  unfold compute_claimable, obind. repeat (case_match; try discriminate); by intros [= <-].
Qed.

Lemma request_sound ttl clock now s req c :
  plain s = true -> cache_sound c ->
  let t := request_time clock req in
  let '(r, c') := getClaimableAmount ttl clock now s req c in
  cache_sound c' /\
  match r with
  | Returns r => exists t', Z.abs (t - t') < 5 /\ calculatedAt (result r) = t' /\
                            compute_claimable s t' = Returns (result r)
  | Throws e => compute_claimable s t = Throws e
  end.
Proof.
  intros Hs [Hinv Hent] t. unfold getClaimableAmount. fold (request_time clock req). fold t.
  set (k := cache_key s t). pose proof (get_inv now k c Hinv) as Hg.
  pose proof (get_entries now k c) as Hge. pose proof (get_value now k c) as Hv.
  destruct (get now k c) as [[v|] c1]; simpl in *.
  - pose proof (getMetadata_inv now k c1 Hg) as Hm. pose proof (getMetadata_entries now k c1) as Hme.
    destruct (getMetadata now k c1) as [meta c2]; simpl in *. split; [split; [done|]; eauto|].
    destruct (Hv v eq_refl) as (i & Hi & <-). destruct (Hent _ _ Hi) as (s' & t' & Hs' & Hk & Hc).
    unfold k in Hk. apply cache_key_inj in Hk as [-> Hb]; [|done..]. exists t'.
    split; [by apply bucket_close|]. split; [by eapply compute_calculatedAt|done].
  - assert (cache_sound c1) as [_ H1] by (split; [done|]; eauto).
    destruct (compute_claimable s t) as [v|e] eqn:E; [|split; [split|]; done]. split.
    + split; [by apply set_inv|]. intros k' i [Hin|Heq]%set_entries; [by apply H1|].
      injection Heq as -> ->. exists s, t. by split_and!.
    + exists t. split; [lia|]. split; [by eapply compute_calculatedAt|done].
Qed.

(** A request to the service, with the clock readings it meets. *)
Record Request := { rq_clock : Z; rq_now : Z; rq_state : ClaimableStreamState; rq_at : option Z }.

Definition serve (ttl : Z) (q : Request) :=
  getClaimableAmount ttl (rq_clock q) (rq_now q) (rq_state q) (rq_at q).

(** Caching changes an answer by at most the width of its time bucket: after
    any history of requests, of any streams and with any clock, the answer to a
    request is the amount computed for that very state at a time less than five
    seconds from the one asked for, the time it reports; and a request fails
    only when the uncached computation fails. *)
Theorem cached_answer_close ttl max history q :
  forallb (fun q => plain (rq_state q)) (history ++ [q]) = true ->
  let c := fold_left (fun c q => (serve ttl q c).2) history (fresh_cache max) in
  let t := request_time (rq_clock q) (rq_at q) in
  match (serve ttl q c).1 with
  | Returns r => exists t', Z.abs (t - t') < 5 /\ calculatedAt (result r) = t' /\
                            compute_claimable (rq_state q) t' = Returns (result r)
  | Throws e => compute_claimable (rq_state q) t = Throws e
  end.
Proof.
  rewrite forallb_app. intros [Hh Hq]%andb_prop. simpl in Hq. rewrite andb_true_r in Hq.
  assert (H : forall c, cache_sound c -> cache_sound (fold_left (fun c q => (serve ttl q c).2) history c)).
  { induction history as [|h history IH]; intros c Hc; [done|]. simpl in *.
    apply andb_prop in Hh as [Hp Hh]. apply IH; [done|].
    pose proof (request_sound ttl (rq_clock h) (rq_now h) (rq_state h) (rq_at h) c Hp Hc) as Hr.
    unfold serve. destruct (getClaimableAmount _ _ _ _ _ c) as [? ?]. apply Hr. }
  intros c t. specialize (H (fresh_cache max)).
  pose proof (request_sound ttl (rq_clock q) (rq_now q) (rq_state q) (rq_at q) c Hq) as Hr.
  unfold serve. fold t in Hr. destruct (getClaimableAmount _ _ _ _ _ c) as [r c']. apply Hr, H.
  split; [split; simpl; [constructor|lia]|]. intros k i Hin. by apply elem_of_nil in Hin.
Qed.

(** ** Examples *)

(** 10 per second since second 100, 1000 deposited, 50 withdrawn. *)
Definition sample_state : ClaimableStreamState := {|
  cs_streamId := 1; cs_ratePerSecond := "10"; cs_depositedAmount := "1000";
  cs_withdrawnAmount := "50"; cs_startTime := 100; cs_lastUpdateTime := 100; cs_isActive := true;
  cs_isPaused := true; cs_pausedAt := Some 130; cs_totalPausedDuration := 0;
  cs_updatedAt := Some 100000 |}.

Lemma sample_amounts : amounts_of sample_state 10 1000 50.
Proof. by split. Qed.

Lemma claimable_mirrors_contract_witness :
  get_claimable_amount (chain_of sample_state 10 1000 50) 150 = 300 /\
  compute_claimable sample_state 150 =
  Returns {| cv_streamId := 1; claimableAmount := "300"; actionable := true; calculatedAt := 150 |}.
Proof.
  split; [done|].
  assert (Hp : cs_isPaused sample_state = true ->
    exists p, cs_pausedAt sample_state = Some p /\ 0 <= p <= 150) by (exists 130; split; [done|lia]).
  exact (claimable_mirrors_contract sample_state 10 1000 50 150 sample_amounts
    ltac:(simpl; lia) ltac:(lia) Hp).
Defined.

Lemma claimable_bounded_monotone_witness :
  exists v v' a a', compute_claimable sample_state 120 = Returns v /\
    compute_claimable sample_state 150 = Returns v' /\ claimableAmount v = BigInt_toString a /\
    claimableAmount v' = BigInt_toString a' /\ 0 <= a <= a'.
Proof.
  destruct (claimable_bounded_monotone sample_state 10 1000 50 120 150 sample_amounts ltac:(lia))
    as (v & v' & a & a' & H1 & H2 & H3 & H4 & H5 & _).
  exists v, v', a, a'. exact (conj H1 (conj H2 (conj H3 (conj H4 H5)))).
Defined.

Definition first_request : Request :=
  {| rq_clock := 120000; rq_now := 120000; rq_state := sample_state; rq_at := None |}.
Definition second_request : Request :=
  {| rq_clock := 123000; rq_now := 123000; rq_state := sample_state; rq_at := None |}.

Lemma cached_answer_close_witness :
  match (serve 5000 second_request (serve 5000 first_request (fresh_cache 10)).2).1 with
  | Returns r => exists t', Z.abs (123 - t') < 5 /\ calculatedAt (result r) = t' /\
                            compute_claimable sample_state t' = Returns (result r)
  | Throws e => compute_claimable sample_state 123 = Throws e
  end.
Proof. exact (cached_answer_close 5000 10 [first_request] second_request eq_refl). Defined.
