(* ===== verification/TopUp.v ===== *)
(** * Top-ups and the claimable amount

    The top-up handler sets the accrual anchor [lastUpdateTime] to the worker's
    clock, while the contract leaves [last_update_time] alone: what the stream
    had accrued disappears from the service's answers. *)
From S2P Require Import Prelude JsLang StreamId Json Schema Xdr Worker Contract Samples WorkerFacts Replay Effects MemoryCache Claimable ClaimableFacts.
Local Open Scope Z_scope.

Section TopUp.
Context `{P : PrismaEngine} `{K : StrKey}.
Implicit Types (w : World P).

Lemma claim_no_time active rate dep wd :
  wd <= dep -> in_i128 dep = true -> in_i128 wd = true -> 0 <= rate -> claim active 0 rate dep wd = 0.
Proof.
  intros Hw Hd Hwd Hr. unfold claim, checked_mul. simpl.
  destruct active; [|done]. unfold in_i128, sat_i128, I128_MAX, I128_MIN in *. lia.
Qed.

(** A top-up wipes out what the stream had accrued, as far as the service can
    tell.  Just after the worker has indexed the top-up of an active linear
    stream whose row agrees with the chain, the service answers zero, while the
    contract, whose accrual anchor did not move, lets the recipient withdraw
    everything accrued since it. *)
Theorem top_up_discards_accrual now m sid a x dep' en r rate dep wd w :
  - 2 ^ 127 <= x < 2 ^ 127 -> - 2 ^ 127 <= dep' < 2 ^ 127 -> wd <= dep' ->
  t_find sid (streams (db w)) = Some r -> streamId r = sid -> stream_fits r = true ->
  amounts_of (claimable_state r) rate dep wd -> isPaused r = false ->
  t_find (m_txHash m, "TOPPED_UP") (events (db w)) = None ->
  0 <= now -> fits_int8 (seconds now) = true -> fits_int4 (m_ledger m) = true ->
  fits_int8_opt (end_time (startTime r) dep' rate (totalPausedDuration r)) = true ->
  exists w' r',
    processEvent now (StreamToppedUpEvent m sid a x dep' en) w = (Returns tt, w') /\
    t_find sid (streams (db w')) = Some r' /\ depositedAmount r' = BigInt_toString dep' /\
    compute_claimable (claimable_state r') (seconds now) =
      Returns {| cv_streamId := sid; claimableAmount := "0"; actionable := false;
                 calculatedAt := seconds now |} /\
    get_claimable_amount (chain_of (claimable_state r) rate dep' wd) (seconds now) =
      claim (isActive r) (Z.max 0 (seconds now - lastUpdateTime r)) rate dep' wd.
Proof.
  intros Hx Hd Hwd Hr Hid Hf Ha Hp Hn Hnow Hts Hl Hend.
  destruct (process_topped_up now m sid a x dep' en Hx Hd) as (t & ev & data & ->).
  set (e := StreamToppedUpEvent m sid a x dep' en).
  set (upd := fun r0 => set_lastUpdateTime (seconds now)
    (set_endTime (end_time (startTime r) dep' rate (totalPausedDuration r))
       (set_depositedAmount (BigInt_toString dep') r0))).
  destruct (update_then_record now sid r upd (m_txHash m) "TOPPED_UP"
    (new_event sid "TOPPED_UP" (Some (BigInt_toString x)) (m_ledger m) (seconds now)
       [("newDepositedAmount", JString (BigInt_toString dep'))])
    (touch_event (m_ledger m) (seconds now)) w) as (w' & Hrun & H1 & _); try done; [fits|fits|].
  destruct Ha as [Er Ed Ew Fr Fd Fw Fp]. simpl in Er, Ed, Ew.
  assert (Hd' : in_i128 dep' = true) by (unfold in_i128, I128_MIN, I128_MAX; lia).
  eexists _, (set_updatedAt now (upd r)). split; [eapply run_handler|].
  - unfold topped_up_tx. unfold bind at 1. simpl. rewrite Hn.
    unfold bind at 1. erewrite findUniqueOrThrow_found by done.
    unfold bind at 1, lift at 1, BigInt_of_string. rewrite Er, toString_parses. simpl.
    unfold bind at 1, lift at 1, BigInt_of_string. rewrite toString_parses. simpl. exact Hrun.
  - split_and!; [done|done| |].
    + rewrite (compute_claim _ rate dep' wd) by done. cbn zeta.
      replace (elapsed_time _ _) with 0.
      * rewrite claim_no_time by done. simpl. by rewrite Hid.
      * unfold elapsed_time. simpl. rewrite Hp. unfold seconds in *.
        pose proof (Z.div_pos now 1000 Hnow eq_refl).
        rewrite Z.max_r by done. repeat case_match; lia.
    + unfold get_claimable_amount, calculate_claimable, claim. simpl. rewrite Hp.
      unfold saturating_sub_u64, saturating_sub. destruct (isActive r); [|done].
      destruct (checked_mul _ rate) as [p|] eqn:E; [|done].
      assert (0 <= p); [|lia]. unfold checked_mul in E. case_match; simplify_eq. nia.
Qed.
End TopUp.

(** Stream 1 has accrued 500 by second 150; a top-up of 500 then hides it. *)
Lemma top_up_discards_accrual_witness :
  exists w' r', processEvent 150000 toppedUp1 sample_world = (Returns tt, w') /\
    t_find 1 (streams (db w')) = Some r' /\
    compute_claimable (claimable_state r') 150 =
      Returns {| cv_streamId := 1; claimableAmount := "0"; actionable := false; calculatedAt := 150 |} /\
    get_claimable_amount (chain_of (claimable_state sample_stream) 10 1500 0) 150 = 500.
Proof.
  assert (Ha : amounts_of (claimable_state sample_stream) 10 1000 0) by (split; done).
  destruct (top_up_discards_accrual (P:=gmap_engine) 150000 (meta "t" 5) 1 alice 500 1500 250
    sample_stream 10 1000 0 sample_world) as (w' & r' & E & Hr & _ & H1 & H2);
    [lia|lia|lia|exact sample_world_stream|done|done|exact Ha|done|vm_refl|lia|done|done|done|].
  exists w', r'. exact (conj E (conj Hr (conj H1 H2))).
Defined.
