(* ===== verification/ContractCalls.v ===== *)
(** * Calls of the stream contract: contracts/stream_contract/src/lib.rs

    The life of a linear stream as the contract runs it: creation, top-up,
    withdrawal, cancellation, pause and resume, with the events each call
    publishes.  A call that the host aborts (a failed token transfer, an
    arithmetic trap) has no effect and is [HostTrap]; authorisation is the
    host's, so a call carries the account that signed it.  Step and hybrid
    schedules, batch withdrawals, closing and the administration calls are not
    modelled. *)
From S2P Require Import Prelude JsLang Xdr Contract.
Local Open Scope Z_scope.

Inductive StreamError :=
| InvalidAmount | StreamNotFound | Unauthorized | StreamInactive | InvalidDuration
| InvalidTokenAddress | InvalidRate | StreamIsPaused | StreamNotPaused | StreamAlreadyPaused
| StreamNotActive | ArithmeticOverflow | ProtocolPaused | TopUpUnsupported | HostTrap.

Inductive Result (A : Type) := Ok (a : A) | Err (e : StreamError).
Arguments Ok {A}. Arguments Err {A}.

Definition rbind {A B} (m : Result A) (k : A -> Result B) : Result B :=
  match m with Ok a => k a | Err e => Err e end.
Definition ok_or {A} (o : option A) (e : StreamError) : Result A :=
  match o with Some a => Ok a | None => Err e end.
Definition ensure (b : bool) (e : StreamError) : Result unit := if b then Ok tt else Err e.
Notation "'let+' x ':=' m 'in' k" := (rbind m (fun x => k))
  (at level 10, x name, m at level 100, k at level 200) : js_scope.
Notation "'do+' m 'in' k" := (rbind m (fun _ => k))
  (at level 10, m at level 100, k at level 200) : js_scope.

#[export] Instance ScAddress_eq_dec : EqDecision ScAddress.
Proof. solve_decision. Defined.

Inductive StreamStatus := Active | Paused | Cancelled | Completed.

(** A [Stream]: who and what, and the part the claimable amount depends on. *)
Record StreamEntry := {
  en_sender : ScAddress;
  en_recipient : ScAddress;
  en_token : ScAddress;
  en_start_time : Z;
  en_status : StreamStatus;
  en_core : ChainStream
}.

Record ProtocolConfig := { treasury : ScAddress; fee_rate_bps : Z }.

Record ContractState := {
  stream_counter : Z;
  entries : gmap Z StreamEntry;
  config : option ProtocolConfig;
  protocol_paused : bool
}.

Definition U64_MAX : Z := 2 ^ 64 - 1.
Definition checked_add (a b : Z) : option Z :=
  if (I128_MIN <=? a + b) && (a + b <=? I128_MAX) then Some (a + b) else None.
Definition checked_add_u64 (a b : Z) : option Z := if a + b <=? U64_MAX then Some (a + b) else None.
Definition saturating_add_u64 (a b : Z) : Z := Z.min U64_MAX (a + b).

Definition StreamCompletedEvent m stream_id recipient total_withdrawn :=
  publish m "stream_completed" stream_id
    [("recipient", ScvAddress recipient); ("total_withdrawn", i128_parts total_withdrawn)].
Definition FeeCollectedEvent m stream_id treasury fee_amount token :=
  publish m "fee_collected" stream_id
    [("treasury", ScvAddress treasury); ("fee_amount", i128_parts fee_amount);
     ("token", ScvAddress token)].

Section Calls.
(** Whether an address answers as a token contract, and the transaction at hand. *)
Context (is_token : ScAddress -> bool) (m : EventMeta) (now : Z).

Implicit Types (c : ContractState) (e : StreamEntry) (s : ChainStream).

Definition save_stream (id : Z) e c : ContractState :=
  {| stream_counter := stream_counter c; entries := <[id := e]> (entries c); config := config c;
     protocol_paused := protocol_paused c |}.
Definition load_stream (id : Z) c : Result StreamEntry := ok_or (entries c !! id) StreamNotFound.

Definition with_core (status : StreamStatus) s e : StreamEntry :=
  {| en_sender := en_sender e; en_recipient := en_recipient e; en_token := en_token e;
     en_start_time := en_start_time e; en_status := status; en_core := s |}.

(** The net amount, and the event of the fee if there is one. *)
Definition collect_fee c (token : ScAddress) (amount id : Z) : Result (Z * list EventResponse) :=
  match config c with
  | Some cfg =>
      if 0 <? fee_rate_bps cfg then
        let+ product := ok_or (checked_mul amount (fee_rate_bps cfg)) ArithmeticOverflow in
        let fee := Z.quot product 10000 in
        Ok (amount - fee, if 0 <? fee then [FeeCollectedEvent m id (treasury cfg) fee token] else [])
      else Ok (amount, [])
  | None => Ok (amount, [])
  end.

Definition create_stream (sender recipient token : ScAddress) (amount duration : Z) c :
    Result (ContractState * list EventResponse) :=
  do+ ensure (negb (protocol_paused c)) ProtocolPaused in
  do+ ensure (0 <? amount) InvalidAmount in
  do+ ensure (negb (duration =? 0)) InvalidDuration in
  do+ ensure (is_token token) InvalidTokenAddress in
  let id := stream_counter c + 1 in
  let+ collected := collect_fee c token amount id in
  let net_amount := collected.1 in
  let rate := Z.quot net_amount duration in
  do+ ensure (negb (rate =? 0)) InvalidRate in
  let e := {| en_sender := sender; en_recipient := recipient; en_token := token;
              en_start_time := now; en_status := Active;
              en_core := {| rate_per_second := rate; deposited_amount := net_amount;
                            withdrawn_amount := 0; last_update_time := now; is_active := true;
                            paused := false; paused_at := None; schedule := Linear |} |} in
  let c' := {| stream_counter := id; entries := <[id := e]> (entries c); config := config c;
               protocol_paused := protocol_paused c |} in
  Ok (c', collected.2 ++ [StreamCreatedEvent m id sender recipient rate token net_amount now]).

(** [u64::try_from] and the checked addition *)
Definition project_end_time (remaining rate : Z) : Result Z :=
  let q := Z.quot remaining rate in
  do+ ensure ((0 <=? q) && (q <=? U64_MAX)) ArithmeticOverflow in
  ok_or (checked_add_u64 now q) ArithmeticOverflow.

Definition is_steps s : bool := match schedule s with StepTranches _ => true | _ => false end.

Definition top_up_stream (sender : ScAddress) (id amount : Z) c :
    Result (ContractState * list EventResponse) :=
  do+ ensure (negb (protocol_paused c)) ProtocolPaused in
  do+ ensure (0 <? amount) InvalidAmount in
  let+ e := load_stream id c in
  do+ ensure (bool_decide (en_sender e = sender)) Unauthorized in
  do+ ensure (is_active (en_core e)) StreamInactive in
  do+ ensure (negb (is_steps (en_core e))) TopUpUnsupported in
  let+ collected := collect_fee c (en_token e) amount id in
  let+ deposited := ok_or (checked_add (deposited_amount (en_core e)) collected.1) ArithmeticOverflow in
  let s := en_core e in
  let s' := {| rate_per_second := rate_per_second s; deposited_amount := deposited;
               withdrawn_amount := withdrawn_amount s; last_update_time := last_update_time s;
               is_active := is_active s; paused := paused s; paused_at := paused_at s;
               schedule := schedule s |} in
  let remaining := saturating_sub (saturating_sub deposited (withdrawn_amount s))
                     (calculate_claimable s' now) in
  let+ new_end_time := project_end_time remaining (rate_per_second s) in
  Ok (save_stream id (with_core (en_status e) s' e) c,
      collected.2 ++ [StreamToppedUpEvent m id sender collected.1 deposited new_end_time]).

Definition withdraw (recipient : ScAddress) (id : Z) c : Result (ContractState * list EventResponse) :=
  let+ e := load_stream id c in
  do+ ensure (bool_decide (en_recipient e = recipient)) Unauthorized in
  let s := en_core e in
  do+ ensure (is_active s) StreamInactive in
  do+ ensure (negb (paused s)) StreamIsPaused in
  let claimable := calculate_claimable s now in
  do+ ensure (0 <? claimable) InvalidAmount in
  let+ withdrawn := ok_or (checked_add (withdrawn_amount s) claimable) ArithmeticOverflow in
  let drained := deposited_amount s <=? withdrawn in
  let s' := {| rate_per_second := rate_per_second s; deposited_amount := deposited_amount s;
               withdrawn_amount := withdrawn; last_update_time := now; is_active := negb drained;
               paused := paused s; paused_at := paused_at s; schedule := schedule s |} in
  Ok (save_stream id (with_core (if drained then Completed else en_status e) s' e) c,
      TokensWithdrawnEvent m id recipient claimable now ::
      (if drained then [StreamCompletedEvent m id recipient withdrawn] else [])).

Definition cancel_stream (sender : ScAddress) (id : Z) c : Result (ContractState * list EventResponse) :=
  let+ e := load_stream id c in
  do+ ensure (bool_decide (en_sender e = sender)) Unauthorized in
  let s := en_core e in
  do+ ensure (is_active s) StreamInactive in
  let accrued := calculate_claimable s now in
  let withdrawn := if 0 <? accrued then saturating_add (withdrawn_amount s) accrued
                   else withdrawn_amount s in
  let refunded := saturating_sub (deposited_amount s) withdrawn in
  let s' := {| rate_per_second := rate_per_second s; deposited_amount := deposited_amount s;
               withdrawn_amount := withdrawn; last_update_time := now; is_active := false;
               paused := false; paused_at := None; schedule := schedule s |} in
  Ok (save_stream id (with_core Cancelled s' e) c,
      [StreamCancelledEvent m id sender (en_recipient e) withdrawn refunded]).

Definition pause_stream (sender : ScAddress) (id : Z) c : Result (ContractState * list EventResponse) :=
  let+ e := load_stream id c in
  do+ ensure (bool_decide (en_sender e = sender)) Unauthorized in
  let s := en_core e in
  do+ ensure (is_active s) StreamInactive in
  do+ ensure (negb (paused s)) StreamAlreadyPaused in
  let s' := {| rate_per_second := rate_per_second s; deposited_amount := deposited_amount s;
               withdrawn_amount := withdrawn_amount s; last_update_time := last_update_time s;
               is_active := is_active s; paused := true; paused_at := Some now;
               schedule := schedule s |} in
  Ok (save_stream id (with_core Paused s' e) c, [StreamPausedEvent m id sender now]).

(** The end of a linear stream; the other schedules do not occur ([create_stream]). *)
Definition resume_stream (sender : ScAddress) (id : Z) c : Result (ContractState * list EventResponse) :=
  let+ e := load_stream id c in
  do+ ensure (bool_decide (en_sender e = sender)) Unauthorized in
  let s := en_core e in
  do+ ensure (is_active s) StreamNotActive in
  do+ ensure (paused s) StreamNotPaused in
  let pause_duration := saturating_sub_u64 now (default now (paused_at s)) in
  let remaining := saturating_sub (saturating_sub (deposited_amount s) (withdrawn_amount s))
                     (calculate_claimable s now) in
  let+ new_end_time := ok_or (checked_add_u64 now (Z.quot remaining (rate_per_second s) mod 2 ^ 64))
                         HostTrap in
  let s' := {| rate_per_second := rate_per_second s; deposited_amount := deposited_amount s;
               withdrawn_amount := withdrawn_amount s;
               last_update_time := saturating_add_u64 (last_update_time s) pause_duration;
               is_active := is_active s; paused := false; paused_at := None;
               schedule := schedule s |} in
  Ok (save_stream id (with_core Active s' e) c, [StreamResumedEvent m id sender new_end_time]).

Inductive Call :=
| Create (sender recipient token : ScAddress) (amount duration : Z)
| TopUp (sender : ScAddress) (id amount : Z)
| Withdraw (recipient : ScAddress) (id : Z)
| Cancel_ (sender : ScAddress) (id : Z)
| Pause (sender : ScAddress) (id : Z)
| Resume (sender : ScAddress) (id : Z).

Definition run_call (call : Call) : ContractState -> Result (ContractState * list EventResponse) :=
  match call with
  | Create sender recipient token amount duration => create_stream sender recipient token amount duration
  | TopUp sender id amount => top_up_stream sender id amount
  | Withdraw recipient id => withdraw recipient id
  | Cancel_ sender id => cancel_stream sender id
  | Pause sender id => pause_stream sender id
  | Resume sender id => resume_stream sender id
  end.
End Calls.

(** ** The contract's own invariant *)

(** What a linear stream's entry always satisfies. *)
Record entry_ok (e : StreamEntry) : Prop := {
  eo_withdrawn : 0 <= withdrawn_amount (en_core e);
  eo_solvent : withdrawn_amount (en_core e) <= deposited_amount (en_core e);
  eo_deposited : deposited_amount (en_core e) <= I128_MAX;
  eo_rate : 0 < rate_per_second (en_core e) <= I128_MAX;
  eo_linear : schedule (en_core e) = Linear;
  eo_paused : paused (en_core e) = true -> is_Some (paused_at (en_core e)) /\ is_active (en_core e) = true;
  eo_unpaused : paused (en_core e) = false -> paused_at (en_core e) = None
}.

Definition contract_ok (c : ContractState) : Prop :=
  (forall id e, entries c !! id = Some e -> entry_ok e /\ 0 < id <= stream_counter c) /\
  match config c with Some cfg => 0 <= fee_rate_bps cfg <= 1000 | None => True end /\ 0 <= stream_counter c.

Lemma claimable_bounds s now :
  0 <= withdrawn_amount s -> withdrawn_amount s <= deposited_amount s -> deposited_amount s <= I128_MAX ->
  0 < rate_per_second s -> schedule s = Linear ->
  0 <= calculate_claimable s now <= deposited_amount s - withdrawn_amount s.
Proof.
  intros Hw Hs Hd Hr Hl. unfold calculate_claimable. rewrite Hl.
  unfold saturating_sub, sat_i128, I128_MIN, I128_MAX in *.
  set (el := saturating_sub_u64 _ _). assert (0 <= el) by (unfold el, saturating_sub_u64; lia).
  destruct (checked_mul el (rate_per_second s)) as [p|] eqn:E; [|lia].
  unfold checked_mul in E. case_match; simplify_eq. assert (0 <= el * rate_per_second s) by nia. lia.
Qed.

(** ** Calls keep the invariant *)

Lemma ensure_Ok b e u : ensure b e = Ok u -> b = true.
Proof. by destruct b. Qed.
Lemma ok_or_Ok {A} (o : option A) e a : ok_or o e = Ok a -> o = Some a.
Proof. destruct o; [intros [= ->]|]; done. Qed.

(** Take a call that succeeded apart into its checks. *)
Ltac call_inv :=
  repeat match goal with
  | H : rbind ?m _ = Ok _ |- _ =>
      let E := fresh "E" in destruct m eqn:E; simpl in H; [|discriminate H]
  | H : ensure _ _ = Ok _ |- _ => apply ensure_Ok in H
  | H : ok_or _ _ = Ok _ |- _ => apply ok_or_Ok in H
  | H : load_stream _ _ = Ok _ |- _ => unfold load_stream in H
  | H : Ok _ = Ok _ |- _ => injection H as H; subst
  | H : bool_decide _ = true |- _ => apply bool_decide_eq_true in H
  end.

(** The arguments of a call have their types. *)
Definition call_typed (call : Call) : Prop :=
  match call with
  | Create _ _ _ amount duration => amount <= I128_MAX /\ 0 <= duration
  | TopUp _ _ amount => amount <= I128_MAX
  | _ => True
  end.

Section Invariant.
Context (is_token : ScAddress -> bool) (m : EventMeta) (now : Z).

(** The fee event of a collection, if any. *)
Definition fee_events (c : ContractState) (id : Z) (token : ScAddress) (evs : list EventResponse) : Prop :=
  evs = [] \/ exists cfg fee, config c = Some cfg /\ 0 <= fee <= I128_MAX /\
    evs = [FeeCollectedEvent m id (treasury cfg) fee token].

Lemma collect_fee_net c token amount id r :
  collect_fee m c token amount id = Ok r -> contract_ok c -> 0 < amount <= I128_MAX ->
  0 < r.1 <= amount /\ fee_events c id token r.2.
Proof.
  destruct r as [net evs]. simpl. intros H (_ & Hc & _) Ha. unfold collect_fee in H.
  destruct (config c) as [cfg|] eqn:Ec; [|simplify_eq; split; [lia|by left]].
  destruct (0 <? fee_rate_bps cfg) eqn:Eb; [|simplify_eq; split; [lia|by left]].
  call_inv. unfold checked_mul in E. case_match; simplify_eq.
  set (fee := Z.quot (amount * fee_rate_bps cfg) 10000) in *.
  assert (0 <= fee /\ 10 * fee <= amount) as [Hf0 Hf1].
  { unfold fee. rewrite Z.quot_div_nonneg by nia.
    pose proof (Z.mul_div_le (amount * fee_rate_bps cfg) 10000).
    split; [apply Z.div_pos; nia|nia]. }
  split; [lia|]. destruct (0 <? fee) eqn:Ef; [right|by left].
  exists cfg, fee. split_and!; [done|lia|lia|done].
Qed.

Lemma save_ok c id e :
  contract_ok c -> entry_ok e -> 0 < id <= stream_counter c -> contract_ok (save_stream id e c).
Proof.
  intros (Hs & Hc & Hn) He Hid. split; [|done]. intros id' e'. simpl.
  rewrite lookup_insert. case_decide; [intros [= <-]; by subst|apply Hs].
Qed.

Lemma checked_add_Some a b x : checked_add a b = Some x -> x = a + b /\ x <= I128_MAX.
Proof. unfold checked_add. case_match; intros [= <-]. lia. Qed.

(** What the invariant says of the stream a call has loaded. *)
Ltac known :=
  match goal with Hs : forall id e, entries _ !! id = Some e -> _, H : entries _ !! _ = Some _ |- _ =>
    destruct (Hs _ _ H) as [[] ?] end.

(** Goals about the new entry of a call. *)
Ltac entry := split; simpl; try done; try lia.

Lemma run_call_ok call c c' evs :
  call_typed call -> contract_ok c -> run_call is_token m now call c = Ok (c', evs) -> contract_ok c'.
Proof.
  intros Ht Hok H. pose proof Hok as (Hs & Hcfg & Hn).
  destruct call as [snd rcp tok amount dur|snd id amount|rcp id|snd id|snd id|snd id]; simpl in H.
  - unfold create_stream in H. call_inv. simpl in Ht.
    match goal with H : collect_fee _ _ _ _ _ = Ok ?r |- _ =>
      destruct r as [net evs0]; destruct (collect_fee_net _ _ _ _ _ H Hok) as [Hnet _]; [lia|] end.
    simpl in *. assert (0 < dur) as Hd by lia.
    assert (0 <= Z.quot net dur <= net) as Hq.
    { rewrite Z.quot_div_nonneg by lia. split; [apply Z.div_pos; lia|]. apply Z.div_le_upper_bound; nia. }
    split; [|split; [done|simpl; lia]]. intros id e. simpl. rewrite lookup_insert. case_decide.
    + intros [= <-]. split; [|subst; simpl; lia]. entry.
    + intros He. destruct (Hs _ _ He). split; [done|simpl; lia].
  - unfold top_up_stream in H. call_inv. simpl in Ht. known.
    match goal with H : collect_fee _ _ _ _ _ = Ok ?r |- _ =>
      destruct r as [net evs0]; destruct (collect_fee_net _ _ _ _ _ H Hok) as [Hnet _]; [lia|] end.
    match goal with H : checked_add _ _ = Some _ |- _ => apply checked_add_Some in H as [-> Hle] end.
    apply save_ok; [done| |done]. simpl in *. entry.
  - unfold withdraw in H. call_inv. known.
    match goal with H : context [calculate_claimable ?s ?t] |- _ => pose proof (claimable_bounds s t ltac:(lia) ltac:(lia) ltac:(lia) ltac:(lia) ltac:(done)) as Hb end.
    match goal with H : checked_add _ _ = Some _ |- _ => apply checked_add_Some in H as [-> Hle] end.
    apply save_ok; [done| |done]. entry.
    intros Hp. rewrite Hp in E2. discriminate E2.
  - unfold cancel_stream in H. call_inv. known.
    match goal with e : StreamEntry |- _ => 
      pose proof (claimable_bounds (en_core e) now ltac:(lia) ltac:(lia) ltac:(lia) ltac:(lia) ltac:(done)) as Hb end.
    set (wd := if 0 <? calculate_claimable (en_core a) now
               then saturating_add (withdrawn_amount (en_core a)) (calculate_claimable (en_core a) now)
               else withdrawn_amount (en_core a)).
    assert (withdrawn_amount (en_core a) <= wd <= deposited_amount (en_core a)) as Hwd.
    { subst wd. unfold saturating_add, sat_i128, I128_MIN, I128_MAX in *. destruct (0 <? _); lia. }
    apply save_ok; [done| |done]. entry.
  - unfold pause_stream in H. call_inv. known. apply save_ok; [done| |done]. entry.
  - unfold resume_stream in H. call_inv. known. apply save_ok; [done| |done]. entry.
Qed.
End Invariant.
