(* ===== verification/HandlerRuns.v ===== *)
(** * What each handler does when its event is new

    On an event the contract published, whose stream is stored and whose key is
    not, every handler returns, writes one stream row and one event row and
    leaves the others alone. *)
From S2P Require Import Prelude JsLang StreamId Schema Xdr Worker Contract ContractCalls Samples WorkerFacts Replay Effects.
Local Open Scope Z_scope.

Section Runs.
Context `{P : PrismaEngine} `{K : StrKey}.
Implicit Types (w : World P).

(** The stream's row is [r], an event is stored under [k], the rest is as before. *)
Definition wrote (sid : Z) (r : Stream) (k : string * string) w w' : Prop :=
  t_find sid (streams (db w')) = Some r /\ is_Some (t_find k (events (db w'))) /\ frame sid k w w'.

(** A transaction followed by a broadcast writes what the transaction writes. *)
Lemma wrote_handler (tx : Js (World P) unit) t ev data sid r k w w' :
  tx w = (Returns tt, w') -> wrote sid r k w w' ->
  exists w'', (do! transaction tx in broadcast t ev data) w = (Returns tt, w'') /\ wrote sid r k w w''.
Proof. intros H Hw. eexists. split; [by eapply run_handler|done]. Qed.

Lemma run_written (tx : Js (World P) unit) t ev data sid r k w :
  (exists w', tx w = (Returns tt, w') /\ wrote sid r k w w') ->
  exists w', (do! transaction tx in broadcast t ev data) w = (Returns tt, w') /\ wrote sid r k w w'.
Proof. intros (w' & H & Hw). by eapply wrote_handler. Qed.

(** An update, and then the event, looked for and not found. *)
Lemma update_then_absent now sid r upd h t create touch w :
  t_find sid (streams (db w)) = Some r -> streamId (upd r) = sid ->
  stream_fits (upd r) = true ->
  t_find (h, t) (events (db w)) = None ->
  ev_transactionHash (create h) = h -> ev_eventType (create h) = t ->
  ev_streamId (create h) = sid -> event_fits (create h) = true ->
  exists w',
    (do! stream_update now sid upd in
     let! existing := streamEvent_findUnique (Some h) t in
     match existing with Some _ => ret tt | None => streamEvent_upsert (Some h) t create touch end) w =
      (Returns tt, w') /\
    wrote sid (set_updatedAt now (upd r)) (h, t) w w'.
Proof.
  intros Hr Hid Hf Hn Hh Ht Hs He.
  destruct (update_then_record now sid r upd h t create touch w) as (w' & Hrun & H1 & H2 & H3 & _); try done.
  exists w'. split; [|by split_and!; eauto].
  revert Hrun. unfold bind at 1 2. erewrite stream_update_found, put_stream_fits by done. cbv iota.
  intros Hrun. unfold bind, streamEvent_findUnique, gets. simpl. by rewrite Hn.
Qed.

Lemma run_withdrawn now m sid a x ts rcp r wd w :
  - 2 ^ 127 <= x < 2 ^ 127 -> decodeAddress (ScvAddress a) = Returns rcp ->
  t_find sid (streams (db w)) = Some r -> streamId r = sid -> stream_fits r = true ->
  string_to_bigint (withdrawnAmount r) = Some wd ->
  t_find (m_txHash m, "WITHDRAWN"%string) (events (db w)) = None ->
  fits_int8 (Number_int ts) = true -> fits_int4 (m_ledger m) = true ->
  exists w', processEvent now (TokensWithdrawnEvent m sid a x ts) w = (Returns tt, w') /\
    wrote sid (set_updatedAt now (set_lastUpdateTime (Number_int ts)
             (set_withdrawnAmount (BigInt_toString (wd + x)) r))) (m_txHash m, "WITHDRAWN"%string) w w'.
Proof.
  intros. edestruct (withdrawal_run now m sid a x ts rcp r wd w) as (w' & Hrun & Hs & He & Hf & _); [done..|].
  exists w'. split; [done|]. split_and!; eauto.
Qed.

Lemma run_topped_up now m sid a x dep en r rate w :
  - 2 ^ 127 <= x < 2 ^ 127 -> - 2 ^ 127 <= dep < 2 ^ 127 ->
  t_find sid (streams (db w)) = Some r -> streamId r = sid -> stream_fits r = true ->
  string_to_bigint (ratePerSecond r) = Some rate ->
  t_find (m_txHash m, "TOPPED_UP"%string) (events (db w)) = None ->
  fits_int8 (seconds now) = true -> fits_int4 (m_ledger m) = true ->
  fits_int8_opt (end_time (startTime r) dep rate (totalPausedDuration r)) = true ->
  exists w', processEvent now (StreamToppedUpEvent m sid a x dep en) w = (Returns tt, w') /\
    wrote sid (set_updatedAt now (set_lastUpdateTime (seconds now)
      (set_endTime (end_time (startTime r) dep rate (totalPausedDuration r))
         (set_depositedAmount (BigInt_toString dep) r)))) (m_txHash m, "TOPPED_UP"%string) w w'.
Proof.
  intros Hx Hd Hr Hid Hf Hrate Hn Hts Hl Hend.
  destruct (process_topped_up now m sid a x dep en Hx Hd) as (t & ev & data & ->).
  destruct (update_then_record now sid r (fun r0 => set_lastUpdateTime (seconds now)
      (set_endTime (end_time (startTime r) dep rate (totalPausedDuration r))
         (set_depositedAmount (BigInt_toString dep) r0))) (m_txHash m) "TOPPED_UP"
    (new_event sid "TOPPED_UP" (Some (BigInt_toString x)) (m_ledger m) (seconds now)
       [("newDepositedAmount"%string, JString (BigInt_toString dep))])
    (touch_event (m_ledger m) (seconds now)) w) as (w' & Hrun & H1 & H2 & H3 & _); try done; [fits|fits|].
  apply (wrote_handler _ _ _ _ _ _ _ _ w'); [|by split_and!; eauto].
  unfold topped_up_tx. unfold bind at 1. simpl. rewrite Hn.
  unfold bind at 1. erewrite findUniqueOrThrow_found by done.
  unfold bind at 1, lift at 1, BigInt_of_string. rewrite Hrate. simpl.
  unfold bind at 1, lift at 1, BigInt_of_string. rewrite toString_parses. simpl. exact Hrun.
Qed.

Lemma run_paused now m sid a at_ snd r w :
  decodeAddress (ScvAddress a) = Returns snd ->
  t_find sid (streams (db w)) = Some r -> streamId r = sid -> stream_fits r = true ->
  t_find (m_txHash m, "PAUSED"%string) (events (db w)) = None ->
  fits_int8 (Number_int at_) = true -> fits_int8 (seconds now) = true -> fits_int4 (m_ledger m) = true ->
  exists w', processEvent now (StreamPausedEvent m sid a at_) w = (Returns tt, w') /\
    wrote sid (set_updatedAt now (set_lastUpdateTime (seconds now)
      (set_pausedAt (Some (Number_int at_)) (set_isPaused true r)))) (m_txHash m, "PAUSED"%string) w w'.
Proof.
  intros Ha Hr Hid Hf Hn Hat Hts Hl. destruct (process_paused now m sid a at_ snd Ha) as (t & ev & data & ->).
  apply run_written. eapply (update_then_absent now sid r); try done; fits.
Qed.

Lemma process_resumed now m sid a en snd :
  decodeAddress (ScvAddress a) = Returns snd ->
  exists t ev data,
    processEvent (P:=P) now (StreamResumedEvent m sid a en) =
    (do! transaction (resumed_tx now (StreamResumedEvent m sid a en) sid snd en) in
     broadcast t ev data).
Proof.
  intros Ha. do 3 eexists.
  change (processEvent now (StreamResumedEvent m sid a en)) with
    (handleStreamResumed (P:=P) now (StreamResumedEvent m sid a en) (ScvU64 sid)).
  unfold handleStreamResumed. dec_step.
  got_body (<["new_end_time":=ScvU64 en]> (<["sender":=ScvAddress a]>
      (<["stream_id":=ScvU64 sid]> (∅ : gmap string ScVal)))).
  got_address "sender"%string a Ha. reflexivity.
Qed.

Lemma run_resumed now m sid a en snd r w :
  decodeAddress (ScvAddress a) = Returns snd ->
  t_find sid (streams (db w)) = Some r -> streamId r = sid -> stream_fits r = true ->
  t_find (m_txHash m, "RESUMED"%string) (events (db w)) = None ->
  fits_int8 en = true -> fits_int8 (seconds now) = true -> fits_int4 (m_ledger m) = true ->
  fits_int4 (totalPausedDuration r + paused_duration (seconds now) (pausedAt r)) = true ->
  exists w', processEvent now (StreamResumedEvent m sid a en) w = (Returns tt, w') /\
    wrote sid (set_updatedAt now (set_lastUpdateTime (seconds now)
      (set_totalPausedDuration (totalPausedDuration r + paused_duration (seconds now) (pausedAt r))
        (set_endTime (Some en) (set_pausedAt None (set_isPaused false r))))))
      (m_txHash m, "RESUMED"%string) w w'.
Proof.
  intros Ha Hr Hid Hf Hn Hen Hts Hl Htot.
  destruct (process_resumed now m sid a en snd Ha) as (t & ev & data & ->).
  apply run_written. unfold resumed_tx. unfold bind at 1. erewrite findUniqueOrThrow_found by done.
  eapply (update_then_absent now sid r); try done; fits.
Qed.

Lemma process_cancelled now m sid a b wd refunded :
  - 2 ^ 127 <= wd < 2 ^ 127 -> - 2 ^ 127 <= refunded < 2 ^ 127 ->
  exists t ev data,
    processEvent (P:=P) now (StreamCancelledEvent m sid a b wd refunded) =
    (do! transaction (cancelled_tx now (StreamCancelledEvent m sid a b wd refunded) sid
           (BigInt_toString wd) (BigInt_toString refunded)) in broadcast t ev data).
Proof.
  intros Hw Hrf. do 3 eexists.
  change (processEvent now (StreamCancelledEvent m sid a b wd refunded)) with
    (handleStreamCancelled (P:=P) now (StreamCancelledEvent m sid a b wd refunded) (ScvU64 sid)).
  unfold handleStreamCancelled. dec_step.
  got_body (<["refunded_amount":=i128_parts refunded]> (<["amount_withdrawn":=i128_parts wd]>
      (<["recipient":=ScvAddress b]> (<["sender":=ScvAddress a]>
        (<["stream_id":=ScvU64 sid]> (∅ : gmap string ScVal)))))).
  got_i128 "amount_withdrawn"%string wd. got_i128 "refunded_amount"%string refunded. reflexivity.
Qed.

Lemma run_cancelled now m sid a b wd refunded r w :
  - 2 ^ 127 <= wd < 2 ^ 127 -> - 2 ^ 127 <= refunded < 2 ^ 127 ->
  t_find sid (streams (db w)) = Some r -> streamId r = sid -> stream_fits r = true ->
  t_find (m_txHash m, "CANCELLED"%string) (events (db w)) = None ->
  fits_int8 (seconds now) = true -> fits_int4 (m_ledger m) = true ->
  exists w', processEvent now (StreamCancelledEvent m sid a b wd refunded) w = (Returns tt, w') /\
    wrote sid (set_updatedAt now (set_lastUpdateTime (seconds now)
      (set_withdrawnAmount (BigInt_toString wd) (set_isActive false r))))
      (m_txHash m, "CANCELLED"%string) w w'.
Proof.
  intros Hw Hrf Hr Hid Hf Hn Hts Hl.
  destruct (process_cancelled now m sid a b wd refunded Hw Hrf) as (t & ev & data & ->).
  apply run_written. eapply (update_then_absent now sid r); try done; fits.
Qed.

Lemma process_completed now m sid b wd rcp :
  - 2 ^ 127 <= wd < 2 ^ 127 -> decodeAddress (ScvAddress b) = Returns rcp ->
  exists t ev data,
    processEvent (P:=P) now (StreamCompletedEvent m sid b wd) =
    (do! transaction (completed_tx now (StreamCompletedEvent m sid b wd) sid rcp (BigInt_toString wd)) in
     broadcast t ev data).
Proof.
  intros Hw Hb. do 3 eexists.
  change (processEvent now (StreamCompletedEvent m sid b wd)) with
    (handleStreamCompleted (P:=P) now (StreamCompletedEvent m sid b wd) (ScvU64 sid)).
  unfold handleStreamCompleted. dec_step.
  got_body (<["total_withdrawn":=i128_parts wd]> (<["recipient":=ScvAddress b]>
      (<["stream_id":=ScvU64 sid]> (∅ : gmap string ScVal)))).
  got_address "recipient"%string b Hb. got_i128 "total_withdrawn"%string wd. reflexivity.
Qed.

Lemma run_completed now m sid b wd rcp r w :
  - 2 ^ 127 <= wd < 2 ^ 127 -> decodeAddress (ScvAddress b) = Returns rcp ->
  t_find sid (streams (db w)) = Some r -> streamId r = sid -> stream_fits r = true ->
  t_find (m_txHash m, "COMPLETED"%string) (events (db w)) = None ->
  fits_int8 (seconds now) = true -> fits_int4 (m_ledger m) = true ->
  exists w', processEvent now (StreamCompletedEvent m sid b wd) w = (Returns tt, w') /\
    wrote sid (set_updatedAt now (set_lastUpdateTime (seconds now)
      (set_withdrawnAmount (BigInt_toString wd) (set_isActive false r))))
      (m_txHash m, "COMPLETED"%string) w w'.
Proof.
  intros Hw Hb Hr Hid Hf Hn Hts Hl.
  destruct (process_completed now m sid b wd rcp Hw Hb) as (t & ev & data & ->).
  apply run_written. eapply (update_then_absent now sid r); try done; fits.
Qed.

Lemma process_fee now m sid a fee c tre tok :
  - 2 ^ 127 <= fee < 2 ^ 127 -> decodeAddress (ScvAddress a) = Returns tre ->
  decodeAddress (ScvAddress c) = Returns tok ->
  exists t ev data,
    processEvent (P:=P) now (FeeCollectedEvent m sid a fee c) =
    (do! transaction (fee_collected_tx now (FeeCollectedEvent m sid a fee c) sid tre (BigInt_toString fee) tok) in
     broadcast t ev data).
Proof.
  intros Hf Ha Hc. do 3 eexists.
  change (processEvent now (FeeCollectedEvent m sid a fee c)) with
    (handleFeeCollected (P:=P) now (FeeCollectedEvent m sid a fee c) (ScvU64 sid)).
  unfold handleFeeCollected. dec_step.
  got_body (<["token":=ScvAddress c]> (<["fee_amount":=i128_parts fee]>
      (<["treasury":=ScvAddress a]> (<["stream_id":=ScvU64 sid]> (∅ : gmap string ScVal))))).
  got_address "treasury"%string a Ha. got_i128 "fee_amount"%string fee. got_address "token"%string c Hc.
  reflexivity.
Qed.

Lemma run_fee now m sid a fee c tre tok r w :
  - 2 ^ 127 <= fee < 2 ^ 127 -> decodeAddress (ScvAddress a) = Returns tre ->
  decodeAddress (ScvAddress c) = Returns tok ->
  t_find sid (streams (db w)) = Some r -> fits_int8 sid = true ->
  t_find (m_txHash m, "FEE_COLLECTED"%string) (events (db w)) = None ->
  fits_int8 (seconds now) = true -> fits_int4 (m_ledger m) = true ->
  exists w', processEvent now (FeeCollectedEvent m sid a fee c) w = (Returns tt, w') /\
    wrote sid r (m_txHash m, "FEE_COLLECTED"%string) w w'.
Proof.
  intros Hf Ha Hc Hr Hid Hn Hts Hl.
  destruct (process_fee now m sid a fee c tre tok Hf Ha Hc) as (t & ev & data & ->).
  eapply wrote_handler.
  - unfold fee_collected_tx. unfold bind at 1. simpl. rewrite Hn.
    unfold bind, gets, streamEvent_create, find_stream. simpl. rewrite Hn.
    unfold bind, gets. simpl. rewrite Hr. apply put_event_fits. fits.
  - split_and!; simpl; [done| |].
    + rewrite t_find_put, decide_True by done. eauto.
    + split; [done|]. intros k' Hk. simpl. by rewrite t_find_put, decide_False by congruence.
Qed.

(** After an upsert the user is there, and no user is lost. *)
Lemma user_upsert_found pk w :
  exists w', user_upsert pk w = (Returns tt, w') /\
    streams (db w') = streams (db w) /\ events (db w') = events (db w) /\
    is_Some (t_find pk (users (db w'))) /\
    (forall q, is_Some (t_find q (users (db w))) -> is_Some (t_find q (users (db w')))).
Proof.
  unfold user_upsert, bind, find_user, gets, put_user, modify.
  destruct (t_find pk (users (db w))) as [u|] eqn:E; [eauto 10|].
  eexists. split_and!; [done|done|done| |]; simpl.
  - rewrite t_find_put, decide_True by done. eauto.
  - intros q Hq. by apply find_put_mono.
Qed.

Lemma run_created now m sid a b c rate dep start snd rcp tok w :
  - 2 ^ 127 <= rate < 2 ^ 127 -> - 2 ^ 127 <= dep < 2 ^ 127 ->
  decodeAddress (ScvAddress a) = Returns snd -> decodeAddress (ScvAddress b) = Returns rcp ->
  decodeAddress (ScvAddress c) = Returns tok ->
  t_find sid (streams (db w)) = None -> t_find (m_txHash m, "CREATED"%string) (events (db w)) = None ->
  fits_int8 sid = true -> fits_int8 start = true -> fits_int8_opt (end_time start dep rate 0) = true ->
  fits_int4 (m_ledger m) = true ->
  exists w', processEvent now (StreamCreatedEvent m sid a b rate c dep start) w = (Returns tt, w') /\
    wrote sid {| streamId := sid; sender := snd; recipient := rcp; tokenAddress := tok;
       ratePerSecond := BigInt_toString rate; depositedAmount := BigInt_toString dep;
       withdrawnAmount := "0"; startTime := start; lastUpdateTime := start;
       endTime := end_time start dep rate 0; isActive := true; isPaused := false; pausedAt := None;
       totalPausedDuration := 0; updatedAt := now |} (m_txHash m, "CREATED"%string) w w'.
Proof.
  intros Hrate Hdep Ha Hb Hc Hn He Hid Hst Hen Hl.
  destruct (process_created now m sid a b c rate dep start snd rcp tok) as (t & ev & data & ->); try done.
  destruct (user_upsert_found snd w) as (w1 & E1 & S1 & V1 & U1 & _).
  destruct (user_upsert_found rcp w1) as (w2 & E2 & S2 & V2 & U2 & M2).
  apply M2 in U1. destruct U1 as [u1 Hu1], U2 as [u2 Hu2].
  eapply wrote_handler.
  - unfold created_tx. unfold bind at 1. rewrite E1. unfold bind at 1. rewrite E2. unfold bind at 1.
    unfold stream_upsert, stream_create, bind at 1, find_stream, gets. simpl. rewrite S2, S1, Hn.
    unfold bind, find_user, gets. simpl. rewrite Hu1, Hu2.
    rewrite put_stream_fits by fits. cbv iota beta.
    match goal with |- context [set_db ?d w2] => remember (set_db d w2) as w3 eqn:E3 end.
    assert (t_find (m_txHash m, "CREATED"%string) (events (db w3)) = None) as He3 by (subst w3; simpl; by rewrite V2, V1).
    assert (is_Some (t_find sid (streams (db w3)))) as [r3 Hr3].
    { subst w3. simpl. rewrite t_find_put, decide_True by done. eauto. }
    unfold bind, streamEvent_findUnique, gets. simpl. rewrite He3. unfold bind, gets. simpl. rewrite He3.
    unfold streamEvent_create, bind, find_stream, gets. simpl. rewrite Hr3. subst w3. apply put_event_fits. fits.
  - split_and!; simpl; [| |split; intros k' Hk; simpl].
    + by rewrite S2, S1, t_find_put, decide_True.
    + rewrite t_find_put, decide_True by done. eauto.
    + by rewrite S2, S1, t_find_put, decide_False by congruence.
    + by rewrite V2, V1, t_find_put, decide_False by congruence.
Qed.
End Runs.
