(* ===== verification/Projection.v ===== *)
(** * The database as a projection of the contract

    The specification of the indexer is the contract itself: a stream's row
    should say what the contract's entry says.  [projected] is that relation;
    the theorem is a simulation: every call the contract accepts is matched by
    processing its events in the order of a poll, none of which fails.  The
    accrual anchor is left out of the relation — a top-up and a resume move it
    in the row only — and so is the pause of a stream that has ended. *)
From S2P Require Import Prelude JsLang StreamId Schema Xdr Worker Contract ContractCalls Samples WorkerFacts Replay Effects HandlerRuns Poll.
Local Open Scope Z_scope.

(** The contract's addresses are accounts and contracts. *)
Definition is_address (a : ScAddress) : bool := match a with OtherAddress => false | _ => true end.

Definition call_addressed (call : Call) : bool :=
  match call with
  | Create sender recipient token _ _ => is_address sender && is_address recipient && is_address token
  | _ => true
  end.

Section Projection.
Context `{P : PrismaEngine} `{K : StrKey}.
Implicit Types (w : World P) (c : ContractState) (r : Stream).

Definition reads (a : ScAddress) (text : string) : Prop := decodeAddress (ScvAddress a) = Returns text.

Record shows (id : Z) (e : StreamEntry) (r : Stream) : Prop := {
  sh_id : streamId r = id;
  sh_sender : reads (en_sender e) (sender r);
  sh_recipient : reads (en_recipient e) (recipient r);
  sh_token : reads (en_token e) (tokenAddress r);
  sh_token_address : is_address (en_token e) = true;
  sh_rate : ratePerSecond r = BigInt_toString (rate_per_second (en_core e));
  sh_deposited : depositedAmount r = BigInt_toString (deposited_amount (en_core e));
  sh_withdrawn : withdrawnAmount r = BigInt_toString (withdrawn_amount (en_core e));
  sh_start : startTime r = en_start_time e;
  sh_active : isActive r = is_active (en_core e);
  sh_paused : is_active (en_core e) = true ->
    isPaused r = paused (en_core e) /\ pausedAt r = paused_at (en_core e);
  sh_fits : stream_fits r = true
}.

Record projected c w : Prop := {
  pj_rows : forall id e, entries c !! id = Some e ->
    exists r, t_find id (streams (db w)) = Some r /\ shows id e r;
  pj_absent : forall id, stream_counter c < id -> t_find id (streams (db w)) = None;
  pj_treasury : match config c with Some cfg => is_address (treasury cfg) = true | None => True end
}.

(** No event of the transaction is stored. *)
Definition fresh (h : string) w : Prop := forall t, t_find (h, t) (events (db w)) = None.

(** The columns can hold what the call makes of them. *)
Definition columns_hold (m : EventMeta) (wnow now : Z) (call : Call) c' (evs : list EventResponse) w : Prop :=
  match call with
  | Create _ _ _ _ _ => forall e, entries c' !! stream_counter c' = Some e ->
      fits_int8_opt (end_time now (deposited_amount (en_core e)) (rate_per_second (en_core e)) 0) = true
  | TopUp _ id _ => forall e r, entries c' !! id = Some e -> t_find id (streams (db w)) = Some r ->
      fits_int8_opt (end_time (startTime r) (deposited_amount (en_core e)) (rate_per_second (en_core e))
                       (totalPausedDuration r)) = true
  | Resume _ id =>
      (forall r, t_find id (streams (db w)) = Some r ->
        fits_int4 (totalPausedDuration r + paused_duration (seconds wnow) (pausedAt r)) = true) /\
      (forall a en, StreamResumedEvent m id a en ∈ evs -> fits_int8 en = true)
  | _ => True
  end.

(** ** One stream's writes *)

(** The row of [sid] is [r], and only events of transaction [h] were stored. *)
Definition moved (sid : Z) r (h : string) w w' : Prop :=
  t_find sid (streams (db w')) = Some r /\
  (forall sid', sid' <> sid -> t_find sid' (streams (db w')) = t_find sid' (streams (db w))) /\
  (forall k, k.1 <> h -> t_find k (events (db w')) = t_find k (events (db w))).

Lemma wrote_moved sid r h t w w' : wrote sid r (h, t) w w' -> moved sid r h w w'.
Proof.
  intros (Hr & _ & Hs & He). split_and!; [done|done|]. intros [h' t'] Hk. apply He. simpl in Hk. congruence.
Qed.
Lemma moved_trans sid r1 r2 h w w1 w2 : moved sid r1 h w w1 -> moved sid r2 h w1 w2 -> moved sid r2 h w w2.
Proof.
  intros (_ & Hs1 & He1) (H2 & Hs2 & He2). split_and!; [done| |].
  - intros. by rewrite Hs2, Hs1.
  - intros. by rewrite He2, He1.
Qed.
Lemma wrote_absent sid r h t t' w w' :
  wrote sid r (h, t) w w' -> t' <> t -> t_find (h, t') (events (db w)) = None ->
  t_find (h, t') (events (db w')) = None.
Proof. intros (_ & _ & _ & He) Ht Hn. rewrite He; [done|congruence]. Qed.

Lemma projected_moved c c' w w' id e r h :
  projected c w -> moved id r h w w' -> shows id e r ->
  entries c' = <[id := e]> (entries c) -> stream_counter c <= stream_counter c' -> id <= stream_counter c' ->
  config c' = config c -> projected c' w'.
Proof.
  intros [Hrows Habs Htr] (Hr & Hs & _) Hsh He Hle Hid Hcfg. split.
  - intros id' e'. rewrite He, lookup_insert. case_decide as Hd.
    + intros [= <-]. subst. eauto.
    + intros H. rewrite Hs by congruence. by apply Hrows.
  - intros id' Hlt. rewrite Hs by lia. apply Habs. lia.
  - by rewrite Hcfg.
Qed.

(** Two events of a call, in the order given. *)
Lemma process_two wnow e1 e2 w w1 w2 :
  processEvent wnow e1 w = (Returns tt, w1) -> processEvent wnow e2 w1 = (Returns tt, w2) ->
  for_each [e1; e2] (processEvent (P:=P) wnow) w = (Returns tt, w2).
Proof. intros H1 H2. simpl. unfold bind. rewrite H1. unfold bind. by rewrite H2. Qed.
Lemma process_one wnow e1 w w1 :
  processEvent wnow e1 w = (Returns tt, w1) ->
  for_each [e1] (processEvent (P:=P) wnow) w = (Returns tt, w1).
Proof. intros H1. simpl. unfold bind. by rewrite H1. Qed.

Lemma address_reads a : is_address a = true -> exists text, reads a text.
Proof. unfold reads. destruct a; simpl; eauto; done. Qed.

Lemma Number_int_small z : 0 <= z < 2 ^ 53 -> Number_int z = z.
Proof. intros H. unfold Number_int. rewrite Number_safe; [done|]. unfold MAX_SAFE_INTEGER. lia. Qed.
Lemma fits_small z : 0 <= z < 2 ^ 53 -> fits_int8 z = true.
Proof. unfold fits_int8. lia. Qed.

(** ** The simulation, call by call *)

Section Step.
Context (is_token : ScAddress -> bool) (m : EventMeta) (now wnow : Z).
Context (Hnow : 0 <= now < 2 ^ 53).
Context (Hwnow : fits_int8 (seconds wnow) = true).
Context (Hledger : fits_int4 (m_ledger m) = true).

(** What processing the events of a call comes to. *)
Definition indexes c' (evs : list EventResponse) w : Prop :=
  exists sorted w', array_sort compare_events evs = Returns sorted /\
    for_each sorted (processEvent wnow) w = (Returns tt, w') /\ projected c' w' /\
    (forall k, k.1 <> m_txHash m -> t_find k (events (db w')) = t_find k (events (db w))).

Lemma indexes_moved c c' evs sorted w w' id e r :
  array_sort compare_events evs = Returns sorted ->
  for_each sorted (processEvent wnow) w = (Returns tt, w') ->
  projected c w -> moved id r (m_txHash m) w w' -> shows id e r ->
  entries c' = <[id := e]> (entries c) -> stream_counter c <= stream_counter c' -> id <= stream_counter c' ->
  config c' = config c -> indexes c' evs w.
Proof.
  intros Hs Hf Hp Hm Hsh He Hle Hid Hcfg. exists sorted, w'.
  split_and!; [done|done|by eapply projected_moved|by destruct Hm as (_ & _ & ?)].
Qed.

(** The row and the invariant of the stream a call has loaded. *)
Ltac loaded Hs Hp :=
  match goal with H : entries _ !! _ = Some _ |- _ =>
    destruct (Hs _ _ H) as [[] Hid]; destruct (pj_rows _ _ Hp _ _ H) as (r & Hr & []) end.

Lemma pause_indexed c c' evs snd id w :
  contract_ok c -> projected c w -> fresh (m_txHash m) w ->
  pause_stream m now snd id c = Ok (c', evs) -> indexes c' evs w.
Proof.
  intros (Hs & _) Hp Hf H. unfold pause_stream in H. call_inv. subst snd. loaded Hs Hp.
  destruct (run_paused wnow m id (en_sender a) now (sender r) r w) as (w' & Hrun & Hw); try done.
  { rewrite Number_int_small by done. by apply fits_small. }
  eapply (indexes_moved c _ _ [_] w w' id); [done|by apply process_one|done|by eapply wrote_moved| |done|simpl; lia..|done].
  rewrite Number_int_small in * by done. split; try done. simpl. fits. by apply fits_small.
Qed.

Lemma resume_indexed c c' evs snd id w :
  contract_ok c -> projected c w -> fresh (m_txHash m) w ->
  resume_stream m now snd id c = Ok (c', evs) -> columns_hold m wnow now (Resume snd id) c' evs w ->
  indexes c' evs w.
Proof.
  intros (Hs & _) Hp Hf H [Hroom Hend]. unfold resume_stream in H. call_inv. subst snd. loaded Hs Hp.
  specialize (Hroom _ Hr). specialize (Hend _ _ (list_elem_of_here _ _)).
  edestruct (run_resumed wnow m id (en_sender a)) as (w' & Hrun & Hw); try done.
  eapply (indexes_moved c _ _ [_] w w' id); [done|by apply process_one|done|by eapply wrote_moved| |done|simpl; lia..|done].
  split; try done. simpl. fits.
Qed.

Lemma cancel_indexed c c' evs snd id w :
  contract_ok c -> projected c w -> fresh (m_txHash m) w ->
  cancel_stream m now snd id c = Ok (c', evs) -> indexes c' evs w.
Proof.
  intros (Hs & _) Hp Hf H. unfold cancel_stream in H. call_inv. subst snd. loaded Hs Hp.
  pose proof (claimable_bounds (en_core a) now ltac:(lia) ltac:(lia) ltac:(lia) ltac:(lia) ltac:(done)) as Hb.
  set (wd := if 0 <? calculate_claimable (en_core a) now
             then saturating_add (withdrawn_amount (en_core a)) (calculate_claimable (en_core a) now)
             else withdrawn_amount (en_core a)) in *.
  assert (0 <= wd <= deposited_amount (en_core a)) as Hwd.
  { subst wd. unfold saturating_add, sat_i128, I128_MIN, I128_MAX in *. destruct (0 <? _); lia. }
  unfold I128_MAX in *. edestruct (run_cancelled wnow m id (en_sender a) (en_recipient a) wd
    (saturating_sub (deposited_amount (en_core a)) wd) r w) as (w' & Hrun & Hw); try done;
    [lia|unfold saturating_sub, sat_i128, I128_MIN, I128_MAX; lia|].
  eapply (indexes_moved c _ _ [_] w w' id); [done|by apply process_one|done|by eapply wrote_moved| |done|simpl; lia..|done].
  split; try done. simpl. fits.
Qed.

Lemma withdraw_indexed c c' evs rcp id w :
  contract_ok c -> projected c w -> fresh (m_txHash m) w ->
  withdraw m now rcp id c = Ok (c', evs) -> indexes c' evs w.
Proof.
  intros (Hs & _) Hp Hf H. unfold withdraw in H. call_inv. subst rcp. loaded Hs Hp.
  pose proof (claimable_bounds (en_core a) now ltac:(lia) ltac:(lia) ltac:(lia) ltac:(lia) ltac:(done)) as Hb.
  match goal with H : checked_add _ _ = Some _ |- _ => apply checked_add_Some in H as [-> Hle] end.
  set (wd := withdrawn_amount (en_core a) + calculate_claimable (en_core a) now) in *.
  unfold I128_MAX in *.
  edestruct (run_withdrawn wnow m id (en_recipient a) (calculate_claimable (en_core a) now) now (recipient r) r
    (withdrawn_amount (en_core a)) w) as (w1 & Hrun1 & Hw1); try done; [lia| | |].
  { rewrite sh_withdrawn0. apply toString_parses. }
  { rewrite Number_int_small by done. by apply fits_small. }
  fold wd in Hw1. rewrite Number_int_small in Hw1 by done.
  set (r1 := set_updatedAt wnow (set_lastUpdateTime now (set_withdrawnAmount (BigInt_toString wd) r))) in *.
  assert (stream_fits r1 = true) as Hf1 by (unfold r1; fits; by apply fits_small).
  destruct (deposited_amount (en_core a) <=? wd) eqn:Ed.
  - destruct (run_completed wnow m id (en_recipient a) wd (recipient r) r1 w1) as (w2 & Hrun2 & Hw2); try done.
    { lia. }
    { by apply Hw1. }
    { by eapply wrote_absent. }
    eapply (indexes_moved c _ _ [_; _] w w2 id); [done|by eapply process_two|done| | |done|simpl; lia..|done].
    + eapply moved_trans; by eapply wrote_moved.
    + split; try done. simpl. unfold r1 in Hf1. fits.
  - eapply (indexes_moved c _ _ [_] w w1 id); [done|by apply process_one|done|by eapply wrote_moved| |done|simpl; lia..|done].
    split; try done; simpl; [by rewrite sh_active0|intros _; by apply sh_paused0].
Qed.

(** The fee event of a collection, processed: the stream's row is as it was. *)
Lemma fee_indexed c id token evs r w :
  projected c w -> fee_events m c id token evs -> is_address token = true ->
  t_find id (streams (db w)) = Some r -> fits_int8 id = true ->
  t_find (m_txHash m, "FEE_COLLECTED"%string) (events (db w)) = None ->
  exists w', for_each evs (processEvent wnow) w = (Returns tt, w') /\ moved id r (m_txHash m) w w' /\
    (forall t, t <> "FEE_COLLECTED"%string ->
       t_find (m_txHash m, t) (events (db w')) = t_find (m_txHash m, t) (events (db w))).
Proof.
  intros Hp [->|(cfg & fee & Hcfg & Hfee & ->)] Htok Hr Hid Hn.
  { exists w. split_and!; done. }
  pose proof (pj_treasury _ _ Hp) as Ht. rewrite Hcfg in Ht.
  destruct (address_reads _ Ht) as [tre Htre], (address_reads _ Htok) as [tok Hrd].
  unfold I128_MAX in *.
  destruct (run_fee wnow m id (treasury cfg) fee token tre tok r w) as (w' & Hrun & Hw); try done; [lia|].
  exists w'. split_and!; [by apply process_one|by eapply wrote_moved|].
  intros t Hne. destruct Hw as (_ & _ & _ & He). apply He. congruence.
Qed.

Lemma for_each_app es es' w w1 res :
  for_each es (processEvent wnow) w = (Returns tt, w1) ->
  for_each es' (processEvent wnow) w1 = res ->
  for_each (es ++ es') (processEvent (P:=P) wnow) w = res.
Proof.
  revert w. induction es as [|e es IH]; intros w H1 H2; simpl in *; [by injection H1 as <-|].
  unfold bind in *. destruct (processEvent wnow e w) as [[[]|] w2]; [by apply IH|done].
Qed.

Lemma row_id_fits id r : streamId r = id -> stream_fits r = true -> fits_int8 id = true.
Proof. intros <- H. unfold stream_fits in H. rewrite !andb_true_iff in H. tauto. Qed.

Lemma top_up_indexed c c' evs snd id amount w :
  contract_ok c -> projected c w -> fresh (m_txHash m) w -> amount <= I128_MAX ->
  top_up_stream m now snd id amount c = Ok (c', evs) ->
  columns_hold m wnow now (TopUp snd id amount) c' evs w -> indexes c' evs w.
Proof.
  intros Hok Hp Hf Ham H Hroom. pose proof Hok as (Hs & _). unfold top_up_stream in H. call_inv. subst snd.
  loaded Hs Hp. simpl in Hroom. specialize (Hroom _ r (lookup_insert_eq _ _ _) Hr). simpl in Hroom.
  match goal with H : collect_fee _ _ _ _ _ = Ok ?x |- _ =>
    destruct (collect_fee_net _ _ _ _ _ _ H Hok) as [Hnet Hfee]; [lia|]; destruct x as [net fees] end.
  simpl in Hnet, Hfee, Hroom |- *.
  match goal with H : checked_add _ _ = Some ?d |- _ =>
    pose proof H as Hadd; apply checked_add_Some in H as [_ Hle]; simpl in Hadd;
    assert (d = deposited_amount (en_core a1) + net) as Hdep by (by apply checked_add_Some in Hadd as [-> _]) end.
  destruct (fee_indexed c id (en_token a1) fees r w) as (w1 & Hrun1 & Hm1 & Hkeep); try done.
  { by eapply row_id_fits. }
  unfold I128_MAX in *.
  edestruct (run_topped_up wnow m id (en_sender a1) net a6) as (w2 & Hrun2 & Hw2);
    [lia|lia|apply Hm1|done|done|rewrite sh_rate0; apply toString_parses|by rewrite Hkeep|done|done|exact Hroom|].
  eapply (indexes_moved c _ _ (fees ++ [_]) w w2 id); [|eapply for_each_app; [done|by apply process_one]|done
    |eapply moved_trans; [done|by eapply wrote_moved]| |done|simpl; lia..|done].
  - by destruct Hfee as [->|(cfg & fee & _ & _ & ->)].
  - split; try done. simpl. fits.
Qed.

Lemma create_indexed c c' evs snd rcp tok amount duration w :
  contract_ok c -> projected c w -> fresh (m_txHash m) w ->
  call_typed (Create snd rcp tok amount duration) -> call_addressed (Create snd rcp tok amount duration) = true ->
  stream_counter c < 2 ^ 63 - 1 ->
  create_stream is_token m now snd rcp tok amount duration c = Ok (c', evs) ->
  columns_hold m wnow now (Create snd rcp tok amount duration) c' evs w -> indexes c' evs w.
Proof.
  intros Hok Hp Hf [Ham Hdur] [[Hsa Hra]%andb_prop Hta]%andb_prop Hcount H Hroom.
  pose proof Hok as (_ & _ & Hn). unfold create_stream in H. call_inv. simpl in Hroom.
  match goal with H : collect_fee _ _ _ _ _ = Ok ?x |- _ =>
    destruct (collect_fee_net _ _ _ _ _ _ H Hok) as [Hnet Hfee]; [lia|]; destruct x as [net fees] end.
  simpl in Hnet, Hfee, Hroom |- *. specialize (Hroom _ (lookup_insert_eq _ _ _)). simpl in Hroom.
  set (id := stream_counter c + 1) in *.
  destruct (address_reads _ Hsa) as [snd' Hsnd], (address_reads _ Hra) as [rcp' Hrcp],
    (address_reads _ Hta) as [tok' Htok].
  assert (0 <= Z.quot net duration <= net) as Hq.
  { rewrite Z.quot_div_nonneg by lia. split; [apply Z.div_pos; lia|]. apply Z.div_le_upper_bound; nia. }
  unfold I128_MAX in *.
  assert (fits_int8 id = true) as Hid by (unfold fits_int8, id; lia).
  edestruct (run_created wnow m id snd rcp tok (Z.quot net duration) net now snd' rcp' tok' w)
    as (w1 & Hrun1 & Hw1); try done; [lia|lia|apply (pj_absent _ _ Hp); unfold id; lia|by apply fits_small|].
  pose proof (wrote_moved _ _ _ _ _ _ Hw1) as Hm1.
  match type of Hw1 with wrote _ ?row _ _ _ => set (r := row) in * end.
  assert (shows id {| en_sender := snd; en_recipient := rcp; en_token := tok; en_start_time := now;
    en_status := Active; en_core := {| rate_per_second := Z.quot net duration; deposited_amount := net;
      withdrawn_amount := 0; last_update_time := now; is_active := true; paused := false;
      paused_at := None; schedule := Linear |} |} r) as Hsh.
  { split; try done. unfold r. fits; by apply fits_small. }
  assert (exists w2, for_each fees (processEvent wnow) w1 = (Returns tt, w2) /\ moved id r (m_txHash m) w1 w2)
    as (w2 & Hrun2 & Hm2).
  { destruct Hfee as [->|(cfg & fee & Hcfg & Hfee & ->)]; [exists w1; split; [done|split; [apply Hm1|done]]|].
    pose proof (pj_treasury _ _ Hp) as Ht. rewrite Hcfg in Ht. destruct (address_reads _ Ht) as [tre Htre].
    destruct (run_fee wnow m id (treasury cfg) fee tok tre tok' r w1) as (w2 & Hrun2 & Hw2); try done.
    { unfold I128_MAX in *. lia. } { apply Hm1. } { by eapply wrote_absent. }
    exists w2. split; [by apply process_one|by eapply wrote_moved]. }
  eapply (indexes_moved c _ _ (_ :: fees) w w2 id); [| |done|by eapply moved_trans|exact Hsh|done|simpl; lia..|done].
  - by destruct Hfee as [->|(cfg & fee & _ & _ & ->)].
  - eapply (for_each_app [_]); [by apply process_one|done].
Qed.

Lemma call_indexed call c c' evs w :
  contract_ok c -> projected c w -> fresh (m_txHash m) w -> call_typed call -> call_addressed call = true ->
  stream_counter c < 2 ^ 63 - 1 ->
  run_call is_token m now call c = Ok (c', evs) -> columns_hold m wnow now call c' evs w ->
  indexes c' evs w.
Proof.
  intros Hok Hp Hf Ht Ha Hn H Hroom. destruct call; simpl in H.
  - by eapply create_indexed.
  - by eapply top_up_indexed.
  - by eapply withdraw_indexed.
  - by eapply cancel_indexed.
  - by eapply pause_indexed.
  - by eapply resume_indexed.
Qed.
End Step.

(** ** Runs *)

(** A transaction: what the ledger says of it, its time, the worker's time when
    its events are indexed, and the call it makes. *)
Record Transaction := { t_meta : EventMeta; t_now : Z; t_worker : Z; t_call : Call }.

(** The arguments have their types, the integers fit the columns, and no event
    of the transaction was indexed before. *)
Record admissible (t : Transaction) c c' (evs : list EventResponse) w : Prop := {
  ad_typed : call_typed (t_call t);
  ad_addressed : call_addressed (t_call t) = true;
  ad_now : 0 <= t_now t < 2 ^ 53;
  ad_worker : fits_int8 (seconds (t_worker t)) = true;
  ad_ledger : fits_int4 (m_ledger (t_meta t)) = true;
  ad_counter : stream_counter c < 2 ^ 63 - 1;
  ad_fresh : fresh (m_txHash (t_meta t)) w;
  ad_columns : columns_hold (t_meta t) (t_worker t) (t_now t) (t_call t) c' evs w
}.

Definition deployed (cfg : option ProtocolConfig) : ContractState :=
  {| stream_counter := 0; entries := ∅; config := cfg; protocol_paused := false |}.

Context (is_token : ScAddress -> bool).

(** The contract after some accepted calls, and the database once the events of
    each were processed in the order of a poll. *)
Inductive indexed : ContractState -> World P -> Prop :=
| indexed_start cfg w :
    match cfg with Some cfg => 0 <= fee_rate_bps cfg <= 1000 /\ is_address (treasury cfg) = true | None => True end ->
    (forall id, 0 < id -> t_find id (streams (db w)) = None) ->
    indexed (deployed cfg) w
| indexed_call t c c' evs sorted w :
    indexed c w -> run_call is_token (t_meta t) (t_now t) (t_call t) c = Ok (c', evs) ->
    admissible t c c' evs w -> array_sort compare_events evs = Returns sorted ->
    indexed c' (for_each sorted (processEvent (t_worker t)) w).2.

Lemma admissible_indexes t c c' evs w :
  contract_ok c -> projected c w -> run_call is_token (t_meta t) (t_now t) (t_call t) c = Ok (c', evs) ->
  admissible t c c' evs w -> indexes (t_meta t) (t_worker t) c' evs w.
Proof. intros Hok Hp H []. by eapply call_indexed. Qed.

Lemma indexed_invariant c w : indexed c w -> contract_ok c /\ projected c w.
Proof.
  induction 1 as [cfg w Hcfg Hw|t c c' evs sorted w _ [Hok Hp] H Had Hs].
  - assert (forall id e, entries (deployed cfg) !! id = Some e -> False) as Hno.
    { intros id e H. unfold deployed in H. simpl in H. by rewrite lookup_empty in H. }
    split.
    + split; [intros id e H; by destruct (Hno _ _ H)|]. split; [|done]. simpl. destruct cfg; [apply Hcfg|done].
    + split; [intros id e H; by destruct (Hno _ _ H)|done|]. simpl. destruct cfg; [apply Hcfg|done].
  - split; [eapply run_call_ok; [|done|done]; by destruct Had|].
    destruct (admissible_indexes _ _ _ _ _ Hok Hp H Had) as (sorted' & w' & Hs' & Hrun & Hp' & _).
    rewrite Hs in Hs'. injection Hs' as <-. by rewrite Hrun.
Qed.

(** C1. The indexer refines the contract.  After any run of accepted calls —
    creations, top-ups, withdrawals, cancellations, pauses and resumes of linear
    streams, fees included — every stream of the contract has a row with its
    parties, token, rate, deposit, withdrawn total, start, activity and, while
    it is active, its pause.  And the next accepted call is matched: its events,
    in the order of a poll, are all processed without an error, into a database
    that again agrees with the contract. *)
Theorem indexer_refines_contract c w :
  indexed c w ->
  projected c w /\
  (forall t c' evs, run_call is_token (t_meta t) (t_now t) (t_call t) c = Ok (c', evs) ->
    admissible t c c' evs w ->
    exists sorted w', array_sort compare_events evs = Returns sorted /\
      for_each sorted (processEvent (t_worker t)) w = (Returns tt, w') /\ projected c' w').
Proof.
  intros [Hok Hp]%indexed_invariant. split; [done|]. intros t c' evs H Had.
  destruct (admissible_indexes _ _ _ _ _ Hok Hp H Had) as (sorted & w' & ? & ? & ? & _). eauto.
Qed.
End Projection.

(** ** A run *)

Definition any_token (a : ScAddress) : bool := true.
Definition one_percent : ContractState :=
  deployed (Some {| treasury := ContractAddress [9]; fee_rate_bps := 100 |}).

Definition run1 : list Transaction :=
  [{| t_meta := meta "c" 1; t_now := 100; t_worker := 100000; t_call := Create alice bob token 1010 100 |};
   {| t_meta := meta "t" 2; t_now := 110; t_worker := 110000; t_call := TopUp alice 1 500 |};
   {| t_meta := meta "w" 3; t_now := 120; t_worker := 120000; t_call := Withdraw bob 1 |};
   {| t_meta := meta "p" 4; t_now := 130; t_worker := 130000; t_call := Pause alice 1 |}].

Definition cancel1 : Transaction :=
  {| t_meta := meta "x" 5; t_now := 140; t_worker := 140000; t_call := Cancel_ alice 1 |}.

(** Run a transaction on both sides. *)
Definition both (s : ContractState * World gmap_engine) (t : Transaction) :
    ContractState * World gmap_engine :=
  match run_call any_token (t_meta t) (t_now t) (t_call t) s.1 with
  | Ok (c', evs) =>
      match array_sort compare_events evs with
      | Returns sorted => (c', (for_each sorted (processEvent (t_worker t)) s.2).2)
      | Throws _ => s
      end
  | Err _ => s
  end.
Definition after_run : ContractState * World gmap_engine := foldl both (one_percent, empty_world) run1.

Lemma fresh_check `{P : PrismaEngine} h (w : World P) :
  forallb (fun kv => negb (bool_decide (kv.1.1 = h))) (t_rows (events (db w))) = true -> fresh h w.
Proof.
  intros H t. destruct (t_find (h, t) _) as [r|] eqn:E; [|done].
  apply t_rows_spec, list_elem_of_In in E. rewrite forallb_forall in H. specialize (H _ E). simpl in H.
  by rewrite bool_decide_eq_true_2 in H.
Qed.

(** The state after the first [n] transactions of the run. *)
Definition reached (n : nat) : ContractState * World gmap_engine :=
  foldl both (one_percent, empty_world) (take n run1).

Lemma reached_next n t c' evs sorted :
  run1 !! n = Some t -> indexed any_token (reached n).1 (reached n).2 ->
  run_call any_token (t_meta t) (t_now t) (t_call t) (reached n).1 = Ok (c', evs) ->
  admissible t (reached n).1 c' evs (reached n).2 -> array_sort compare_events evs = Returns sorted ->
  indexed any_token (reached (S n)).1 (reached (S n)).2.
Proof.
  intros Ht Hi Hr Had Hs. unfold reached. rewrite (take_S_r _ _ _ Ht), foldl_app. fold (reached n).
  simpl. unfold both at 1 2. rewrite Hr, Hs. simpl. by eapply indexed_call.
Qed.

(** The side conditions of a transaction of the run, by evaluation. *)
Ltac admit_next :=
  split; [by vm_compute|vm_refl|by vm_compute|vm_refl|vm_refl|by vm_compute|apply fresh_check; vm_refl|
    try exact I; try (intros e He; vm_compute in He; injection He as <-; vm_refl);
    try (intros e r He Hr; vm_compute in He, Hr; injection He as <-; injection Hr as <-; vm_refl)].

Lemma run_indexed : indexed any_token after_run.1 after_run.2.
Proof.
  change after_run with (reached 4).
  assert (indexed any_token (reached 0).1 (reached 0).2) as H0 by (by apply indexed_start).
  repeat match goal with H : indexed _ (reached ?n).1 _ |- _ =>
    eapply reached_next in H; [|reflexivity|vm_compute; reflexivity|admit_next|vm_compute; reflexivity] end.
  done.
Qed.

Lemma cancel1_admissible c' evs :
  run_call any_token (t_meta cancel1) (t_now cancel1) (t_call cancel1) after_run.1 = Ok (c', evs) ->
  admissible cancel1 after_run.1 c' evs after_run.2.
Proof. intros _. admit_next. Qed.

Lemma indexer_refines_contract_witness :
  projected after_run.1 after_run.2 /\
  exists sorted w' c' evs,
    run_call any_token (t_meta cancel1) (t_now cancel1) (t_call cancel1) after_run.1 = Ok (c', evs) /\
    array_sort compare_events evs = Returns sorted /\
    for_each sorted (processEvent (t_worker cancel1)) after_run.2 = (Returns tt, w') /\ projected c' w'.
Proof.
  destruct (indexer_refines_contract any_token after_run.1 after_run.2 run_indexed) as [Hp Hnext].
  split; [exact Hp|].
  destruct (run_call any_token (t_meta cancel1) (t_now cancel1) (t_call cancel1) after_run.1)
    as [[c' evs]|e] eqn:E; [|vm_compute in E; discriminate E].
  destruct (Hnext cancel1 c' evs E (cancel1_admissible c' evs E)) as (sorted & w' & H1 & H2 & H3).
  exists sorted, w', c', evs. split; [reflexivity|]. split; [exact H1|]. split; [exact H2|exact H3].
Defined.

(** A stream that is cancelled while it is paused is not paused any more; its row
    says it is. *)
Example cancelled_row_stays_paused :
  let s := both after_run cancel1 in
  (fun e => (is_active (en_core e), paused (en_core e))) <$> entries s.1 !! 1 = Some (false, false) /\
  (fun r => (isActive r, isPaused r)) <$> t_find 1 (streams (db s.2)) = Some (false, true).
Proof. split; vm_refl. Qed.
