(* ===== verification/Sse.v ===== *)
(** * Server-sent events: backend/src/services/sse.service.ts

    The connected clients, the per-address and per-user counts, and the
    broadcasts.  What an Express response does with a write is the argument
    [Wire]; Redis, when available, is the list of published messages.  Metrics,
    timers and log lines are left out. *)
From S2P Require Import Prelude JsLang StreamId Json Schema DeadLetter.
From stdpp Require Import sorting.
Local Open Scope Z_scope.

Definition MAX_WRITABLE_BUFFER : Z := 64 * 1024.
Definition MAX_CONNECTIONS_PER_IP : Z := 5.
Definition MAX_CONNECTIONS_PER_USER : Z := 10.
Definition RETRY_AFTER_SECONDS : Z := 60.

Record SSEClient := {
  c_id : string;
  subscriptions : list string;
  paused : bool;
  ip : string;
  userId : option string
}.

Record SSECapacityCheckResult := {
  allowed : bool;
  status : option Z;
  retryAfterSeconds : option Z;
  message : option string
}.

(** The response object of a client. *)
Record Wire := {
  write : SSEClient -> string -> option bool; (* [None]: the call throws *)
  writableLength : SSEClient -> Z
}.

Record SSEService := {
  clients : list SSEClient; (* the values of the Map, oldest first *)
  ipConnectionCounts : gmap string Z;
  userConnectionCounts : gmap string Z;
  slowClientsDropped : Z;
  shuttingDown : bool;
  perIpPeakConnections : Z;
  perUserPeakConnections : Z;
  heartbeat : bool; (* the timer is set *)
  written : list (string * string); (* client and message of each [res.write], oldest first *)
  published : list (string * string) (* channel and message *)
}.

Definition fresh_service : SSEService := {|
  clients := []; ipConnectionCounts := ∅; userConnectionCounts := ∅; slowClientsDropped := 0;
  shuttingDown := false; perIpPeakConnections := 0; perUserPeakConnections := 0;
  heartbeat := false; written := []; published := [] |}.

Definition count_of (key : string) (m : gmap string Z) : Z := default 0 (m !! key).

Definition with_clients (cs : list SSEClient) (ips users : gmap string Z) (s : SSEService) := {|
  clients := cs; ipConnectionCounts := ips; userConnectionCounts := users;
  slowClientsDropped := slowClientsDropped s; shuttingDown := shuttingDown s;
  perIpPeakConnections := perIpPeakConnections s;
  perUserPeakConnections := perUserPeakConnections s; heartbeat := heartbeat s;
  written := written s; published := published s |}.
Definition with_written (ws : list (string * string)) (s : SSEService) := {|
  clients := clients s; ipConnectionCounts := ipConnectionCounts s;
  userConnectionCounts := userConnectionCounts s; slowClientsDropped := slowClientsDropped s;
  shuttingDown := shuttingDown s; perIpPeakConnections := perIpPeakConnections s;
  perUserPeakConnections := perUserPeakConnections s; heartbeat := heartbeat s;
  written := ws; published := published s |}.

(** The limit read from [MAX_SSE_CONNECTIONS]. *)
Definition maxConnections (env : option string) : Z :=
  match parseInt10 (default "10000"%string env) with
  | Fin parsed => if parsed <=? 0 then 10000 else parsed
  | _ => 10000
  end.

(** ** Admission *)

Definition Allowed : SSECapacityCheckResult :=
  {| allowed := true; status := None; retryAfterSeconds := None; message := None |}.
Definition Refused (code : Z) (retry : option Z) (text : string) : SSECapacityCheckResult :=
  {| allowed := false; status := Some code; retryAfterSeconds := retry; message := Some text |}.

Definition checkCapacity (maxConnections : Z) (addr : string) (user : option string)
    (s : SSEService) : SSECapacityCheckResult :=
  if maxConnections <=? Z.of_nat (length (clients s)) then
    Refused 503 None "SSE capacity reached. Please try again shortly."
  else if MAX_CONNECTIONS_PER_IP <=? count_of addr (ipConnectionCounts s) then
    Refused 429 (Some RETRY_AFTER_SECONDS)
      ("Too many SSE connections from this IP. Max " +:+ BigInt_toString MAX_CONNECTIONS_PER_IP +:+ ".")
  else if truthy user && (MAX_CONNECTIONS_PER_USER <=?
                          count_of (default ""%string user) (userConnectionCounts s)) then
    Refused 429 (Some RETRY_AFTER_SECONDS)
      ("Too many concurrent SSE connections for this user. Max " +:+
       BigInt_toString MAX_CONNECTIONS_PER_USER +:+ ".")
  else Allowed.

(** [new Set(subscriptions)] *)
Definition to_set (xs : list string) : list string :=
  fold_left (fun acc x => if bool_decide (x ∈ acc) then acc else acc ++ [x]) xs [].

(** [clients.set(id, client)]: a key already there keeps its place. *)
Definition set_client (c : SSEClient) (cs : list SSEClient) : list SSEClient :=
  if existsb (fun d => bool_decide (c_id d = c_id c)) cs
  then map (fun d => if bool_decide (c_id d = c_id c) then c else d) cs
  else cs ++ [c].

Definition addClient (clientId : string) (subs : list string) (addr : string)
    (user : option string) (s : SSEService) : SSEService :=
  let nextIpCount := count_of addr (ipConnectionCounts s) + 1 in
  let nextUserCount := count_of (default ""%string user) (userConnectionCounts s) + 1 in
  {| clients := set_client {| c_id := clientId; subscriptions := to_set subs; paused := false;
                              ip := addr; userId := user |} (clients s);
     ipConnectionCounts := <[addr := nextIpCount]> (ipConnectionCounts s);
     userConnectionCounts :=
       if truthy user then <[default ""%string user := nextUserCount]> (userConnectionCounts s)
       else userConnectionCounts s;
     slowClientsDropped := slowClientsDropped s; shuttingDown := shuttingDown s;
     perIpPeakConnections := Z.max (perIpPeakConnections s) nextIpCount;
     perUserPeakConnections :=
       if truthy user then Z.max (perUserPeakConnections s) nextUserCount
       else perUserPeakConnections s;
     heartbeat := true; written := written s; published := published s |}.

(** One connection less under a key; the last one removes the key. *)
Definition release (key : string) (m : gmap string Z) : gmap string Z :=
  let current := count_of key m in
  if current <=? 1 then delete key m else <[key := current - 1]> m.

Definition find_client (clientId : string) (s : SSEService) : option SSEClient :=
  List.find (fun c => bool_decide (c_id c = clientId)) (clients s).

Definition removeClient (clientId : string) (s : SSEService) : SSEService :=
  match find_client clientId s with
  | None => s
  | Some client =>
      with_clients (List.filter (fun c => negb (bool_decide (c_id c = clientId))) (clients s))
        (release (ip client) (ipConnectionCounts s))
        (if truthy (userId client)
         then release (default ""%string (userId client)) (userConnectionCounts s)
         else userConnectionCounts s) s
  end.

(** ** Writing *)

Definition set_paused (b : bool) (c : SSEClient) : SSEClient := {|
  c_id := c_id c; subscriptions := subscriptions c; paused := b; ip := ip c; userId := userId c |}.

(** Assign [client.paused] on the object stored under the identifier. *)
Definition mark_paused (clientId : string) (b : bool) (s : SSEService) : SSEService :=
  with_clients (map (fun c => if bool_decide (c_id c = clientId) then set_paused b c else c)
                  (clients s)) (ipConnectionCounts s) (userConnectionCounts s) s.

Definition dropSlowClient (client : SSEClient) (s : SSEService) : SSEService :=
  let s := {| clients := clients s; ipConnectionCounts := ipConnectionCounts s;
              userConnectionCounts := userConnectionCounts s;
              slowClientsDropped := slowClientsDropped s + 1; shuttingDown := shuttingDown s;
              perIpPeakConnections := perIpPeakConnections s;
              perUserPeakConnections := perUserPeakConnections s; heartbeat := heartbeat s;
              written := written s; published := published s |} in
  removeClient (c_id client) s.

Definition log_write (clientId text : string) (s : SSEService) : SSEService :=
  with_written (written s ++ [(clientId, text)]) s.

Definition writeToClient (wire : Wire) (client : SSEClient) (text : string) (s : SSEService) :
    bool * SSEService :=
  if paused client then
    (false, if MAX_WRITABLE_BUFFER <=? writableLength wire client
            then dropSlowClient client s else s)
  else
    let s := log_write (c_id client) text s in
    match write wire client text with
    | None => (false, removeClient (c_id client) s)
    | Some true => (true, s)
    | Some false =>
        let s := mark_paused (c_id client) true s in
        (false, if MAX_WRITABLE_BUFFER <=? writableLength wire client
                then dropSlowClient client s else s)
    end.

(** Iteration over the Map while the current client may be removed from it. *)
Definition write_each (wire : Wire) (text : string) (filter : SSEClient -> bool)
    (s : SSEService) : SSEService :=
  fold_left (fun s c => if filter c then (writeToClient wire c text s).2 else s) (clients s) s.

Definition nl : string := String (Ascii.ascii_of_nat 10) EmptyString.

Definition sendHeartbeat (wire : Wire) (s : SSEService) : SSEService :=
  write_each wire (": heartbeat" +:+ nl +:+ nl) (fun _ => true) s.

Definition sendReconnectToAll (s : SSEService) : SSEService := {|
  clients := clients s; ipConnectionCounts := ipConnectionCounts s;
  userConnectionCounts := userConnectionCounts s; slowClientsDropped := slowClientsDropped s;
  shuttingDown := true; perIpPeakConnections := perIpPeakConnections s;
  perUserPeakConnections := perUserPeakConnections s; heartbeat := heartbeat s;
  written := written s ++
    map (fun c => (c_id c, "event: reconnect" +:+ nl +:+ "data: {}" +:+ nl +:+ nl)) (clients s);
  published := published s |}.

Definition stopHeartbeat (s : SSEService) : SSEService := {|
  clients := clients s; ipConnectionCounts := ipConnectionCounts s;
  userConnectionCounts := userConnectionCounts s; slowClientsDropped := slowClientsDropped s;
  shuttingDown := shuttingDown s; perIpPeakConnections := perIpPeakConnections s;
  perUserPeakConnections := perUserPeakConnections s; heartbeat := false;
  written := written s; published := published s |}.

Definition sse_text (event : string) (data : Json) : string :=
  "event: " +:+ event +:+ nl +:+ "data: " +:+ JSON_stringify data +:+ nl +:+ nl.

Definition broadcast (wire : Wire) (event : string) (data : Json) (filter : SSEClient -> bool)
    (s : SSEService) : SSEService :=
  write_each wire (sse_text event data) filter s.

Definition has (c : SSEClient) (topic : string) : bool := bool_decide (topic ∈ subscriptions c).

Definition localBroadcastToStream (wire : Wire) (streamId event : string) (data : Json) :=
  broadcast wire event data (fun c => has c streamId || has c "*").
Definition localBroadcastToUser (wire : Wire) (publicKey event : string) (data : Json) :=
  broadcast wire event data (fun c => has c ("user:" +:+ publicKey) || has c "*").

Definition publish (channel : string) (event : string) (data : Json) (s : SSEService) : SSEService := {|
  clients := clients s; ipConnectionCounts := ipConnectionCounts s;
  userConnectionCounts := userConnectionCounts s; slowClientsDropped := slowClientsDropped s;
  shuttingDown := shuttingDown s; perIpPeakConnections := perIpPeakConnections s;
  perUserPeakConnections := perUserPeakConnections s; heartbeat := heartbeat s;
  written := written s;
  published := published s ++
    [(channel, JSON_stringify (JObject [("event", JString event); ("data", data)]))] |}.

(** [redis] says whether Redis is available. *)
Definition broadcastToStream (redis : bool) (wire : Wire) (streamId event : string) (data : Json) :
    SSEService -> SSEService :=
  if redis then publish ("sse:stream:" +:+ streamId) event data
  else localBroadcastToStream wire streamId event data.
Definition broadcastToUser (redis : bool) (wire : Wire) (publicKey event : string) (data : Json) :
    SSEService -> SSEService :=
  if redis then publish ("sse:user:" +:+ publicKey) event data
  else localBroadcastToUser wire publicKey event data.
Definition broadcastToAdmin (adminKey : option string) (redis : bool) (wire : Wire)
    (event : string) (data : Json) (s : SSEService) : SSEService :=
  if truthy adminKey then broadcastToUser redis wire (default ""%string adminKey) event data s else s.

(** The subscriber's handler of a published message. *)
Definition on_pmessage (wire : Wire) (channel text : string) (s : SSEService) : SSEService :=
  match JSON_parse text with
  | Returns j =>
      let event := as_string (member "event" j) in
      let data := member "data" j in
      match strip "sse:stream:" channel, strip "sse:user:" channel with
      | Some id, _ => localBroadcastToStream wire id event data s
      | None, Some pk => localBroadcastToUser wire pk event data s
      | None, None => s
      end
  | Throws _ => s
  end.

Definition getClientCount (s : SSEService) : Z := Z.of_nat (length (clients s)).
Definition getUserConnectionCount (user : string) (s : SSEService) : Z :=
  count_of user (userConnectionCounts s).
