(* ===== verification/SseFacts.v ===== *)
(** * Properties of the SSE service

    The connection counts agree with the connected clients and the caps hold;
    a broadcast writes to the subscribers and to no one else; the path over
    Redis delivers what the local path does. *)
From S2P Require Import Prelude JsLang StreamId Json Schema DeadLetter Sse.
From stdpp Require Import sorting.
Local Open Scope Z_scope.

(** ** Counts *)

Definition from_ip (addr : string) (c : SSEClient) : bool := bool_decide (ip c = addr).
Definition of_user (user : string) (c : SSEClient) : bool :=
  truthy (userId c) && bool_decide (userId c = Some user).
Definition tally (f : SSEClient -> bool) (cs : list SSEClient) : Z :=
  Z.of_nat (length (List.filter f cs)).

Record counts_ok (s : SSEService) : Prop := {
  co_ids : NoDup (map c_id (clients s));
  co_ip : forall addr, count_of addr (ipConnectionCounts s) = tally (from_ip addr) (clients s);
  co_user : forall user, count_of user (userConnectionCounts s) = tally (of_user user) (clients s);
  (** no key is kept for a count of zero *)
  co_ip_pos : forall addr n, ipConnectionCounts s !! addr = Some n -> 0 < n;
  co_user_pos : forall user n, userConnectionCounts s !! user = Some n -> 0 < n
}.

Lemma tally_app f cs cs' : tally f (cs ++ cs') = tally f cs + tally f cs'.
Proof. unfold tally. rewrite List.filter_app, length_app. lia. Qed.

Lemma tally_cons f c cs : tally f (c :: cs) = (if f c then 1 else 0) + tally f cs.
Proof. unfold tally. simpl. destruct (f c); simpl; lia. Qed.

Lemma tally_pos f cs : 0 <= tally f cs.
Proof. unfold tally. lia. Qed.

Lemma tally_map f g cs : (forall c, f (g c) = f c) -> tally f (map g cs) = tally f cs.
Proof.
  intros H. induction cs as [|c cs IH]; [done|]. simpl. rewrite !tally_cons, H. by rewrite IH.
Qed.

(** Removing the client with an identifier that occurs once. *)
Lemma tally_remove f c cs :
  NoDup (map c_id cs) -> c ∈ cs ->
  tally f (List.filter (fun d => negb (bool_decide (c_id d = c_id c))) cs) =
  tally f cs - (if f c then 1 else 0).
Proof.
  induction cs as [|d cs IH]; [set_solver|]. simpl. intros [Hd Hnd]%NoDup_cons Hin.
  rewrite tally_cons. apply elem_of_cons in Hin as [->|Hin].
  - rewrite bool_decide_eq_true_2 by done. simpl.
    replace (List.filter _ cs) with cs; [lia|].
    clear IH Hnd. induction cs as [|e cs IH]; [done|]. simpl in *.
    rewrite bool_decide_eq_false_2 by set_solver. simpl. f_equal. apply IH. set_solver.
  - assert (c_id d <> c_id c).
    { intros E. apply Hd. rewrite E. apply list_elem_of_fmap. eauto. }
    rewrite bool_decide_eq_false_2 by done. simpl. rewrite tally_cons, IH by done. lia.
Qed.

Lemma count_insert k k' n (m : gmap string Z) :
  count_of k' (<[k := n]> m) = if decide (k = k') then n else count_of k' m.
Proof. unfold count_of. rewrite lookup_insert. by case_decide. Qed.

Lemma count_release k k' (m : gmap string Z) :
  (forall n, m !! k = Some n -> 0 < n) ->
  count_of k' (release k m) =
  count_of k' m - (if decide (k = k') then (if 0 <? count_of k m then 1 else 0) else 0).
Proof.
  intros Hpos. unfold release. case (Z.leb_spec (count_of k m) 1); intros H.
  - unfold count_of in *. rewrite lookup_delete. case_decide; [|lia]. subst. simpl.
    destruct (m !! k') as [n|]; simpl in *; [specialize (Hpos n eq_refl)|]; repeat case_match; lia.
  - rewrite count_insert. case_decide; [subst; case_match; lia|lia].
Qed.

Lemma release_pos k k' n (m : gmap string Z) :
  (forall k n, m !! k = Some n -> 0 < n) -> release k m !! k' = Some n -> 0 < n.
Proof.
  intros Hpos. unfold release. case (Z.leb_spec (count_of k m) 1); intros H.
  - rewrite lookup_delete. case_decide; [done|]. apply Hpos.
  - rewrite lookup_insert. case_decide; [intros [= <-]; lia|]. apply Hpos.
Qed.

Lemma find_client_some id s c : find_client id s = Some c -> c ∈ clients s /\ c_id c = id.
Proof.
  intros [Hin Hid%bool_decide_eq_true]%find_some. split; [by apply list_elem_of_In|done].
Qed.

Lemma ids_filter (f : SSEClient -> bool) cs : NoDup (map c_id cs) -> NoDup (map c_id (List.filter f cs)).
Proof.
  induction cs as [|c cs IH]; [done|]. simpl. intros [Hc Hnd]%NoDup_cons.
  destruct (f c); [|by apply IH]. simpl. apply NoDup_cons. split; [|by apply IH].
  intros (d & E & Hd)%list_elem_of_fmap. apply Hc, list_elem_of_fmap. exists d. split; [done|].
  apply list_elem_of_In, filter_In in Hd as [Hd _]. by apply list_elem_of_In.
Qed.

Lemma of_user_truthy user c :
  of_user user c = true -> truthy (userId c) = true /\ default ""%string (userId c) = user.
Proof. unfold of_user. intros [H1 E%bool_decide_eq_true]%andb_prop. by rewrite E in *. Qed.

Lemma removeClient_ok id s : counts_ok s -> counts_ok (removeClient id s).
Proof.
  intros [H1 H2 H3 H4 H5]. unfold removeClient.
  destruct (find_client id s) as [c|] eqn:E; [|by split].
  apply find_client_some in E as [Hc <-]. split; simpl.
  - by apply ids_filter.
  - intros addr. rewrite tally_remove, count_release, !H2 by eauto.
    change (from_ip addr c) with (bool_decide (ip c = addr)). case_decide as Ha; [|by rewrite bool_decide_eq_false_2].
    rewrite bool_decide_eq_true_2 by done. subst.
    case (Z.ltb_spec 0 (tally (from_ip (ip c)) (clients s))); [lia|]. intros Hz. exfalso.
    pose proof (tally_remove (from_ip (ip c)) c (clients s) H1 Hc) as Ht.
    change (from_ip (ip c) c) with (bool_decide (ip c = ip c)) in Ht.
    rewrite bool_decide_eq_true_2 in Ht by done.
    pose proof (tally_pos (from_ip (ip c))
      (List.filter (fun d => negb (bool_decide (c_id d = c_id c))) (clients s))). lia.
  - intros user. rewrite tally_remove by done. destruct (truthy (userId c)) eqn:Ht.
    + rewrite count_release, !H3 by eauto. destruct (of_user user c) eqn:Hu.
      * apply of_user_truthy in Hu as Hu'. destruct Hu' as [_ ->].
        rewrite decide_True by done.
        case (Z.ltb_spec 0 (tally (of_user user) (clients s))); [lia|]. intros Hz. exfalso.
        pose proof (tally_remove (of_user user) c (clients s) H1 Hc) as Hr. rewrite Hu in Hr.
        pose proof (tally_pos (of_user user)
          (List.filter (fun d => negb (bool_decide (c_id d = c_id c))) (clients s))). lia.
      * rewrite decide_False; [lia|]. intros <-. unfold of_user in Hu. rewrite Ht in Hu.
        destruct (userId c); [by rewrite bool_decide_eq_true_2 in Hu|done].
    + replace (of_user user c) with false by (unfold of_user; by rewrite Ht). rewrite H3. lia.
  - intros addr n. apply release_pos. done.
  - intros user n. case_match; [by apply release_pos|apply H5].
Qed.

Lemma set_client_fresh c cs :
  c_id c ∉ map c_id cs -> set_client c cs = cs ++ [c].
Proof.
  intros H. unfold set_client. replace (existsb _ cs) with false; [done|].
  symmetry. apply not_true_is_false. intros (d & Hd & Hid%bool_decide_eq_true)%existsb_exists.
  apply H. rewrite <- Hid. apply list_elem_of_fmap. exists d. split; [done|]. by apply list_elem_of_In.
Qed.

Lemma addClient_ok id subs addr user s :
  counts_ok s -> id ∉ map c_id (clients s) -> counts_ok (addClient id subs addr user s).
Proof.
  intros [H1 H2 H3 H4 H5] Hid. unfold addClient. rewrite set_client_fresh by done.
  assert (Hpos : forall k (m : gmap string Z) f, (forall k, count_of k m = tally (f k) (clients s)) ->
    0 < count_of k m + 1).
  { intros k m f ->. pose proof (tally_pos (f k) (clients s)). lia. }
  split; simpl.
  - rewrite map_app. apply NoDup_app. split_and!; [done|set_solver|apply NoDup_singleton].
  - intros a. rewrite count_insert, tally_app, tally_cons, !H2.
    match goal with |- context [from_ip a ?c] => change (from_ip a c) with (bool_decide (addr = a)) end.
    case_decide; [rewrite bool_decide_eq_true_2 by done|rewrite bool_decide_eq_false_2 by done];
      subst; unfold tally; simpl; lia.
  - intros u. rewrite tally_app, tally_cons.
    match goal with |- context [of_user u ?c] =>
      change (of_user u c) with (truthy user && bool_decide (user = Some u)) end.
    destruct (truthy user) eqn:Hu; simpl; [|rewrite H3; unfold tally; simpl; lia].
    rewrite count_insert, !H3. destruct user as [v|]; [|done]. simpl.
    case_decide; [rewrite bool_decide_eq_true_2 by congruence|
      rewrite bool_decide_eq_false_2 by congruence]; subst; unfold tally; simpl; lia.
  - intros a n. rewrite lookup_insert. case_decide; [intros [= <-]; by eapply Hpos|apply H4].
  - intros u n. case_match; [|apply H5].
    rewrite lookup_insert. case_decide; [intros [= <-]; by eapply Hpos|apply H5].
Qed.

Lemma mark_paused_ok id b s : counts_ok s -> counts_ok (mark_paused id b s).
Proof.
  intros [H1 H2 H3 H4 H5].
  assert (forall c, c_id (if bool_decide (c_id c = id) then set_paused b c else c) = c_id c) as Hid
    by (intros; by case_match).
  split; simpl; try done.
  - rewrite map_map. by erewrite map_ext by done.
  - intros a. rewrite H2. symmetry. apply tally_map. intros c. by case_match.
  - intros u. rewrite H3. symmetry. apply tally_map. intros c. by case_match.
Qed.

Lemma counts_ok_same s s' :
  clients s' = clients s -> ipConnectionCounts s' = ipConnectionCounts s ->
  userConnectionCounts s' = userConnectionCounts s -> counts_ok s -> counts_ok s'.
Proof. intros E1 E2 E3 [H1 H2 H3 H4 H5]. split; rewrite ?E1, ?E2, ?E3; done. Qed.

Lemma dropSlowClient_ok c s : counts_ok s -> counts_ok (dropSlowClient c s).
Proof. intros H. apply removeClient_ok. by eapply counts_ok_same, H. Qed.

Lemma writeToClient_ok wire c text s : counts_ok s -> counts_ok (writeToClient wire c text s).2.
Proof.
  intros H. unfold writeToClient. destruct (paused c); [simpl; case_match; auto using dropSlowClient_ok|].
  assert (counts_ok (log_write (c_id c) text s)) as Hl by (by eapply counts_ok_same, H).
  destruct (write wire c text) as [[]|]; simpl; [done| |by apply removeClient_ok].
  case_match; [apply dropSlowClient_ok|]; by apply mark_paused_ok.
Qed.

Lemma write_each_ok wire text f s : counts_ok s -> counts_ok (write_each wire text f s).
Proof.
  unfold write_each. generalize (clients s) as cs. intros cs. revert s.
  induction cs as [|c cs IH]; intros s Hs; [done|]. simpl. apply IH.
  case_match; [by apply writeToClient_ok|done].
Qed.

(** ** Caps *)

(** Properties of a client that pausing does not change. *)
Definition steady (f : SSEClient -> bool) : Prop := forall c b, f (set_paused b c) = f c.
Definition shrinks (s s' : SSEService) : Prop :=
  forall f, steady f -> tally f (clients s') <= tally f (clients s).

Lemma shrinks_refl s s' : clients s' = clients s -> shrinks s s'.
Proof. intros E f _. by rewrite E. Qed.
Lemma shrinks_trans s1 s2 s3 : shrinks s1 s2 -> shrinks s2 s3 -> shrinks s1 s3.
Proof. intros H1 H2 f Hf. specialize (H1 f Hf). specialize (H2 f Hf). lia. Qed.

Lemma tally_filter f g cs : tally f (List.filter g cs) <= tally f cs.
Proof.
  induction cs as [|c cs IH]; [done|]. simpl. destruct (g c); rewrite ?tally_cons; case_match; lia.
Qed.

Lemma shrinks_remove id s : shrinks s (removeClient id s).
Proof. intros f _. unfold removeClient. case_match; [apply tally_filter|lia]. Qed.
Lemma shrinks_drop c s : shrinks s (dropSlowClient c s).
Proof. eapply shrinks_trans; [|apply shrinks_remove]. by apply shrinks_refl. Qed.
Lemma shrinks_mark id b s : shrinks s (mark_paused id b s).
Proof. intros f Hf. simpl. rewrite tally_map; [lia|]. intros c. case_match; [apply Hf|done]. Qed.

Lemma shrinks_write wire c text s : shrinks s (writeToClient wire c text s).2.
Proof.
  unfold writeToClient. destruct (paused c); [simpl; case_match; [apply shrinks_drop|by apply shrinks_refl]|].
  apply (shrinks_trans s (log_write (c_id c) text s)); [by apply shrinks_refl|].
  destruct (write wire c text) as [[]|]; cbn [snd]; [by apply shrinks_refl| |apply shrinks_remove].
  eapply shrinks_trans; [apply (shrinks_mark (c_id c) true)|].
  case_match; [apply shrinks_drop|by apply shrinks_refl].
Qed.

Lemma shrinks_each wire text f s : shrinks s (write_each wire text f s).
Proof.
  unfold write_each. generalize (clients s) as cs. intros cs. revert s.
  induction cs as [|c cs IH]; intros s; [by apply shrinks_refl|]. simpl.
  eapply shrinks_trans; [|apply IH]. case_match; [apply shrinks_write|by apply shrinks_refl].
Qed.

(** What happens to the service: a request admitted or refused on the spot, a
    closed or drained connection, a message for the clients of a filter, a
    heartbeat, the goodbye of a shutdown. *)
Inductive SseOp :=
| OpSubscribe (id : string) (subs : list string) (addr : string) (user : option string)
| OpClose (id : string)
| OpDrain (id : string)
| OpBroadcast (wire : Wire) (event : string) (data : Json) (filter : SSEClient -> bool)
| OpHeartbeat (wire : Wire)
| OpReconnect.

Definition run_sse (maxConnections : Z) (s : SSEService) (op : SseOp) : SSEService :=
  match op with
  | OpSubscribe id subs addr user =>
      if allowed (checkCapacity maxConnections addr user s) then addClient id subs addr user s else s
  | OpClose id => removeClient id s
  | OpDrain id => mark_paused id false s
  | OpBroadcast wire event data f => broadcast wire event data f s
  | OpHeartbeat wire => sendHeartbeat wire s
  | OpReconnect => sendReconnectToAll s
  end.

(** Connection identifiers are never used twice. *)
Fixpoint fresh_ids (seen : list string) (ops : list SseOp) : bool :=
  match ops with
  | [] => true
  | OpSubscribe id _ _ _ :: ops => negb (bool_decide (id ∈ seen)) && fresh_ids (id :: seen) ops
  | _ :: ops => fresh_ids seen ops
  end.

Record caps_ok (maxConnections : Z) (s : SSEService) : Prop := {
  cap_total : getClientCount s <= maxConnections;
  cap_ip : forall addr, tally (from_ip addr) (clients s) <= MAX_CONNECTIONS_PER_IP;
  cap_user : forall user, tally (of_user user) (clients s) <= MAX_CONNECTIONS_PER_USER
}.

Lemma caps_shrink max s s' : shrinks s s' -> caps_ok max s -> caps_ok max s'.
Proof.
  intros H [H1 H2 H3]. split.
  - specialize (H (fun _ => true) ltac:(done)). unfold tally, getClientCount in *.
    assert (forall cs : list SSEClient, List.filter (fun _ => true) cs = cs) as E
      by (intros cs; induction cs as [|c cs IH]; simpl; congruence).
    rewrite !E in H. lia.
  - intros a. specialize (H2 a). specialize (H (from_ip a) ltac:(done)). lia.
  - intros u. specialize (H3 u). specialize (H (of_user u) ltac:(done)). lia.
Qed.

Lemma caps_subscribe max id subs addr user s :
  counts_ok s -> id ∉ map c_id (clients s) -> caps_ok max s ->
  allowed (checkCapacity max addr user s) = true -> caps_ok max (addClient id subs addr user s).
Proof.
  intros [H1 H2 H3 _ _] Hid [C1 C2 C3]. unfold checkCapacity.
  case (Z.leb_spec max (Z.of_nat (length (clients s)))); [done|]. intros Hm.
  case (Z.leb_spec MAX_CONNECTIONS_PER_IP (count_of addr (ipConnectionCounts s))); [done|]. intros Hi.
  destruct (truthy user && _) eqn:Hu; [done|]. intros _. rewrite H2 in Hi.
  split; unfold getClientCount; simpl; rewrite set_client_fresh by done.
  - rewrite length_app. simpl. lia.
  - intros a. rewrite tally_app, tally_cons. specialize (C2 a).
    match goal with |- context [from_ip a ?c] => change (from_ip a c) with (bool_decide (addr = a)) end.
    case_bool_decide; subst; unfold tally in *; simpl; lia.
  - intros u. rewrite tally_app, tally_cons. specialize (C3 u).
    match goal with |- context [of_user u ?c] =>
      change (of_user u c) with (truthy user && bool_decide (user = Some u)) end.
    destruct (truthy user) eqn:Ht; simpl in *; [|unfold tally in *; simpl; lia].
    apply Z.leb_gt in Hu. case_bool_decide; subst; simpl in *; [rewrite H3 in Hu|];
      unfold tally in *; simpl; lia.
Qed.

(** The identifiers left are among those that were there. *)
Definition ids_shrink (s s' : SSEService) : Prop :=
  forall id, id ∈ map c_id (clients s') -> id ∈ map c_id (clients s).

Lemma ids_refl s s' : map c_id (clients s') = map c_id (clients s) -> ids_shrink s s'.
Proof. intros E id. by rewrite E. Qed.
Lemma ids_trans s1 s2 s3 : ids_shrink s1 s2 -> ids_shrink s2 s3 -> ids_shrink s1 s3.
Proof. unfold ids_shrink. eauto. Qed.
Lemma ids_remove id s : ids_shrink s (removeClient id s).
Proof.
  intros id'. unfold removeClient. case_match; [|done]. simpl.
  intros (d & E & Hd)%list_elem_of_fmap. apply list_elem_of_fmap. exists d. split; [done|].
  apply list_elem_of_In, filter_In in Hd as [Hd _]. by apply list_elem_of_In.
Qed.
Lemma ids_mark id b s : map c_id (clients (mark_paused id b s)) = map c_id (clients s).
Proof. simpl. rewrite map_map. apply map_ext. intros; by case_match. Qed.
Lemma ids_drop c s : ids_shrink s (dropSlowClient c s).
Proof. eapply ids_trans; [|apply ids_remove]. by apply ids_refl. Qed.

Lemma ids_write wire c text s : ids_shrink s (writeToClient wire c text s).2.
Proof.
  unfold writeToClient. destruct (paused c); [simpl; case_match; [apply ids_drop|by apply ids_refl]|].
  apply (ids_trans s (log_write (c_id c) text s)); [by apply ids_refl|].
  destruct (write wire c text) as [[]|]; cbn [snd]; [by apply ids_refl| |apply ids_remove].
  eapply ids_trans; [apply ids_refl, (ids_mark (c_id c) true)|].
  case_match; [apply ids_drop|by apply ids_refl].
Qed.

Lemma ids_each wire text f s : ids_shrink s (write_each wire text f s).
Proof.
  unfold write_each. generalize (clients s) as cs. intros cs. revert s.
  induction cs as [|c cs IH]; intros s; [by apply ids_refl|]. simpl.
  eapply ids_trans; [|apply IH]. case_match; [apply ids_write|by apply ids_refl].
Qed.

(** ** Any run *)

Definition sse_ok (maxConnections : Z) (seen : list string) (s : SSEService) : Prop :=
  counts_ok s /\ caps_ok maxConnections s /\ forall id, id ∈ map c_id (clients s) -> id ∈ seen.

(** The identifiers seen once an operation has run. *)
Definition seen_after (seen : list string) (op : SseOp) : list string :=
  match op with OpSubscribe id _ _ _ => id :: seen | _ => seen end.

Lemma fresh_ids_cons seen op ops :
  fresh_ids seen (op :: ops) = true ->
  fresh_ids (seen_after seen op) ops = true /\
  (forall id subs addr user, op = OpSubscribe id subs addr user -> id ∉ seen).
Proof.
  destruct op; simpl; try done.
  intros [Hid%negb_true_iff%bool_decide_eq_false Hops]%andb_prop. split; [done|].
  by intros ? ? ? ? [= <- _ _ _].
Qed.

Lemma run_sse_ok max seen s op :
  (forall id subs addr user, op = OpSubscribe id subs addr user -> id ∉ seen) ->
  sse_ok max seen s -> sse_ok max (seen_after seen op) (run_sse max s op).
Proof.
  intros Hfresh (Hc & Hcap & Hseen).
  assert (Hquiet : forall s', counts_ok s' -> shrinks s s' -> ids_shrink s s' -> sse_ok max seen s').
  { intros s' H1 H2 H3. split; [done|]. split; [by eapply caps_shrink|]. intros id ?%H3. by apply Hseen. }
  destruct op as [id subs addr user|id|id|wire event data f|wire|]; simpl.
  - specialize (Hfresh id subs addr user eq_refl).
    assert (id ∉ map c_id (clients s)) as Hid by (intros ?%Hseen; done).
    destruct (allowed _) eqn:Ha; [|split; [done|]; split; [done|set_solver]].
    split; [|split].
    + by apply addClient_ok.
    + by apply caps_subscribe.
    + intros id'. simpl. rewrite set_client_fresh by done. rewrite map_app. simpl. set_solver.
  - apply Hquiet; [by apply removeClient_ok|apply shrinks_remove|apply ids_remove].
  - apply Hquiet; [by apply mark_paused_ok|apply shrinks_mark|apply ids_refl, ids_mark].
  - apply Hquiet; [by apply write_each_ok|apply shrinks_each|apply ids_each].
  - apply Hquiet; [by apply write_each_ok|apply shrinks_each|apply ids_each].
  - apply Hquiet; [by eapply counts_ok_same, Hc|by apply shrinks_refl|by apply ids_refl].
Qed.

Lemma fresh_service_ok max : 0 <= max -> sse_ok max [] fresh_service.
Proof.
  intros H. split; [split; try done; constructor|]. split; [|set_solver].
  by split; unfold getClientCount, tally; simpl.
Qed.

Lemma run_all_ok max ops : forall seen s,
  fresh_ids seen ops = true -> sse_ok max seen s ->
  counts_ok (fold_left (run_sse max) ops s) /\ caps_ok max (fold_left (run_sse max) ops s).
Proof.
  induction ops as [|op ops IH]; intros seen s Hf Hs; [by destruct Hs as (? & ? & _)|].
  apply fresh_ids_cons in Hf as [Hf Hid]. simpl. eapply IH; [done|]. by apply run_sse_ok.
Qed.

(** C35. However clients come, go, stall and are written to — a response that
    throws, a full buffer and a drained one included — the counts kept per
    address and per user are those of the connected clients, no zero count is
    kept, and the three caps hold, as long as a request is admitted in the step
    that checked it. *)
Theorem connection_caps (max : Z) (ops : list SseOp) :
  0 <= max -> fresh_ids [] ops = true ->
  let s := fold_left (run_sse max) ops fresh_service in
  counts_ok s /\ caps_ok max s.
Proof. intros Hm Hf. by apply (run_all_ok max ops []), fresh_service_ok. Qed.

(** A response that accepts everything. *)
Definition open_wire : Wire := {| write := fun _ _ => Some true; writableLength := fun _ => 0 |}.
(** One that throws. *)
Definition broken_wire : Wire := {| write := fun _ _ => None; writableLength := fun _ => 0 |}.
(** One whose buffer is over the limit. *)
Definition stalled_wire : Wire :=
  {| write := fun _ _ => Some false; writableLength := fun _ => MAX_WRITABLE_BUFFER |}.

Lemma connection_caps_witness :
  let ops := [OpSubscribe "a" ["1"] "1.2.3.4" (Some "GA"); OpSubscribe "b" ["2"] "1.2.3.4" None;
              OpBroadcast stalled_wire "e" JNull (fun c => bool_decide (c_id c = "a"));
              OpSubscribe "c" [] "5.6.7.8" (Some "GA"); OpHeartbeat open_wire] in
  let s := fold_left (run_sse 10) ops fresh_service in
  map c_id (clients s) = ["b"; "c"] /\ slowClientsDropped s = 1 /\ counts_ok s /\ caps_ok 10 s.
Proof. split; [reflexivity|]. split; [reflexivity|]. by apply connection_caps. Defined.

(** * What a broadcast delivers

    [write_each_spec] gives the state after a message exactly: who is written
    to, who stays, who is dropped; the path over Redis delivers the same. *)

Local Open Scope Z_scope.

Section Delivery.

Context (wire : Wire).

Definition full (c : SSEClient) : bool := MAX_WRITABLE_BUFFER <=? writableLength wire c.

(** What a message makes of one client: gone, unchanged or paused. *)
Definition outcome (text : string) (f : SSEClient -> bool) (c : SSEClient) : list SSEClient :=
  if negb (f c) then [c]
  else if paused c then (if full c then [] else [c])
  else match write wire c text with
       | None => []
       | Some true => [c]
       | Some false => if full c then [] else [set_paused true c]
       end.

(** The clients dropped for being slow. *)
Definition slow (text : string) (f : SSEClient -> bool) (c : SSEClient) : bool :=
  f c && full c && (paused c || bool_decide (write wire c text = Some false)).

Definition reached (f : SSEClient -> bool) (c : SSEClient) : bool := f c && negb (paused c).

Lemma filter_others c pre post :
  NoDup (map c_id (pre ++ c :: post)) ->
  List.filter (fun d => negb (bool_decide (c_id d = c_id c))) (pre ++ c :: post) = pre ++ post.
Proof.
  intros Hnd.
  assert (Hkeep : forall ds, (forall d, d ∈ ds -> c_id d <> c_id c) ->
    List.filter (fun d => negb (bool_decide (c_id d = c_id c))) ds = ds).
  { induction ds as [|d ds IH]; intros H; [done|]. simpl.
    rewrite bool_decide_eq_false_2 by (apply H; left). simpl. f_equal. apply IH. set_solver. }
  rewrite map_app in Hnd. simpl in Hnd. apply NoDup_app in Hnd as (_ & Hd & [Hc _]%NoDup_cons).
  rewrite List.filter_app. simpl. rewrite bool_decide_eq_true_2 by done. simpl. rewrite !Hkeep; [done|..].
  - intros d Hin E. apply Hc. rewrite <- E. apply list_elem_of_fmap. eauto.
  - intros d Hin E. apply (Hd (c_id d)); [apply list_elem_of_fmap; eauto|]. rewrite E. left.
Qed.

Lemma mark_one c b pre post :
  NoDup (map c_id (pre ++ c :: post)) ->
  map (fun d => if bool_decide (c_id d = c_id c) then set_paused b d else d) (pre ++ c :: post) =
  pre ++ set_paused b c :: post.
Proof.
  intros Hnd.
  assert (Hkeep : forall ds, (forall d, d ∈ ds -> c_id d <> c_id c) ->
    map (fun d => if bool_decide (c_id d = c_id c) then set_paused b d else d) ds = ds).
  { induction ds as [|d ds IH]; intros H; [done|]. simpl.
    rewrite bool_decide_eq_false_2 by (apply H; left). f_equal. apply IH. set_solver. }
  rewrite map_app in Hnd. simpl in Hnd. apply NoDup_app in Hnd as (_ & Hd & [Hc _]%NoDup_cons).
  rewrite map_app. simpl. rewrite bool_decide_eq_true_2 by done. rewrite !Hkeep; [done|..].
  - intros d Hin E. apply Hc. rewrite <- E. apply list_elem_of_fmap. eauto.
  - intros d Hin E. apply (Hd (c_id d)); [apply list_elem_of_fmap; eauto|]. rewrite E. left.
Qed.

(** One client's write, the client at its place in the list. *)
Lemma find_at c pre post s :
  NoDup (map c_id (pre ++ c :: post)) -> clients s = pre ++ c :: post ->
  find_client (c_id c) s = Some c.
Proof.
  intros Hnd Hs. unfold find_client. rewrite Hs. clear s Hs. induction pre as [|d pre IH]; simpl in *.
  - by rewrite bool_decide_eq_true_2.
  - apply NoDup_cons in Hnd as [Hd Hnd]. rewrite bool_decide_eq_false_2; [by apply IH|].
    intros E. apply Hd. rewrite E, map_app. set_solver.
Qed.

Definition tail_of (s : SSEService) := (slowClientsDropped s, written s, published s).

Lemma removeClient_at c pre post s :
  NoDup (map c_id (pre ++ c :: post)) -> clients s = pre ++ c :: post ->
  clients (removeClient (c_id c) s) = pre ++ post /\ tail_of (removeClient (c_id c) s) = tail_of s.
Proof.
  intros Hnd Hs. unfold removeClient. rewrite (find_at c pre post) by done. simpl.
  rewrite Hs, filter_others by done. done.
Qed.

Lemma writeToClient_at text c pre post s :
  NoDup (map c_id (pre ++ c :: post)) -> clients s = pre ++ c :: post ->
  let s' := (writeToClient wire c text s).2 in
  clients s' = pre ++ outcome text (fun _ => true) c ++ post /\
  slowClientsDropped s' = slowClientsDropped s + (if slow text (fun _ => true) c then 1 else 0) /\
  written s' = written s ++ (if paused c then [] else [(c_id c, text)]) /\
  published s' = published s.
Proof.
  intros Hnd Hs. unfold writeToClient, outcome, slow. fold (full c).
  pose proof (mark_one c true pre post Hnd) as Hmark.
  assert (Hdrop : forall d s1, c_id d = c_id c -> clients s1 = pre ++ d :: post ->
    clients (dropSlowClient c s1) = pre ++ post /\
    tail_of (dropSlowClient c s1) = (slowClientsDropped s1 + 1, written s1, published s1)).
  { intros d s1 Hd H1. unfold dropSlowClient. rewrite <- Hd. apply removeClient_at; [|done].
    rewrite map_app in *. simpl in *. by rewrite Hd. }
  simpl. destruct (paused c).
  - simpl. destruct (full c).
    + destruct (Hdrop c s eq_refl Hs) as [-> [= -> -> ->]]. by rewrite app_nil_r.
    + simpl. by rewrite Hs, Z.add_0_r, app_nil_r.
  - destruct (write wire c text) as [[]|] eqn:Hw; simpl.
    + by rewrite Hs, andb_false_r, Z.add_0_r.
    + rewrite andb_true_r. destruct (full c).
      * edestruct (Hdrop (set_paused true c)) as [-> [= -> -> ->]]; [done|simpl; by rewrite Hs|done].
      * simpl. rewrite Hs, Hmark, Z.add_0_r. done.
    + destruct (removeClient_at c pre post (log_write (c_id c) text s)) as [-> [= -> -> ->]]; [done..|].
      by rewrite andb_false_r, Z.add_0_r.
Qed.

Lemma outcome_ids text f c d : d ∈ outcome text f c -> c_id d = c_id c.
Proof.
  unfold outcome. intros Hd. repeat case_match; apply list_elem_of_In in Hd; simpl in Hd; naive_solver.
Qed.

Lemma outcomes_nodup text f cs post :
  NoDup (map c_id (cs ++ post)) -> NoDup (map c_id (flat_map (outcome text f) cs ++ post)).
Proof.
  assert (Hin : forall id cs, id ∈ map c_id (flat_map (outcome text f) cs ++ post) ->
    id ∈ map c_id (cs ++ post)).
  { intros id ds (d & -> & Hd)%list_elem_of_fmap. rewrite map_app. apply elem_of_app.
    apply elem_of_app in Hd as [Hd|Hd]; [left|right; apply list_elem_of_fmap; eauto].
    apply list_elem_of_In, in_flat_map in Hd as (e & He & Hd). apply list_elem_of_In in He.
    apply list_elem_of_In, outcome_ids in Hd. rewrite Hd. apply list_elem_of_fmap. eauto. }
  induction cs as [|c cs IH]; [done|]. simpl. intros [Hc Hnd]%NoDup_cons.
  specialize (IH Hnd). rewrite <- app_assoc.
  assert (outcome text f c = [] \/ exists d, outcome text f c = [d]) as [->|[d Hd]]; [|done|].
  { unfold outcome. repeat case_match; eauto. }
  assert (c_id d = c_id c) as Hid by (apply (outcome_ids text f); rewrite Hd; left).
  rewrite Hd. simpl. apply NoDup_cons. rewrite Hid. split; [|done]. by intros ?%Hin.
Qed.

Lemma write_each_spec text f s :
  NoDup (map c_id (clients s)) ->
  let s' := write_each wire text f s in
  clients s' = flat_map (outcome text f) (clients s) /\
  written s' = written s ++ map (fun c => (c_id c, text)) (List.filter (reached f) (clients s)) /\
  slowClientsDropped s' = slowClientsDropped s + tally (slow text f) (clients s) /\
  published s' = published s.
Proof.
  unfold write_each. intros Hnd.
  cut (forall cs pre s, NoDup (map c_id (pre ++ cs)) -> clients s = pre ++ cs ->
    let s' := fold_left (fun s c => if f c then (writeToClient wire c text s).2 else s) cs s in
    clients s' = pre ++ flat_map (outcome text f) cs /\
    written s' = written s ++ map (fun c => (c_id c, text)) (List.filter (reached f) cs) /\
    slowClientsDropped s' = slowClientsDropped s + tally (slow text f) cs /\
    published s' = published s).
  { intros H. by apply (H (clients s) [] s). }
  clear s Hnd. induction cs as [|c cs IH]; intros pre s Hnd Hs; simpl.
  { rewrite Hs, !app_nil_r. by unfold tally; simpl; rewrite Z.add_0_r. }
  rewrite tally_cons. destruct (f c) eqn:Hf.
  - destruct (writeToClient_at text c pre cs s Hnd Hs) as (Hc & Hsl & Hw & Hp).
    assert (Ho : outcome text (fun _ => true) c = outcome text f c) by (unfold outcome; by rewrite Hf).
    rewrite Ho in Hc.
    destruct (IH (pre ++ outcome text f c) (writeToClient wire c text s).2) as (-> & -> & -> & ->).
    { pose proof (outcomes_nodup text f [c] (pre ++ cs)) as H. simpl in H. rewrite app_nil_r in H.
      rewrite <- app_assoc. assert (Hperm : forall a b e : list SSEClient,
        Permutation (map c_id (a ++ b ++ e)) (map c_id (b ++ a ++ e))).
      { intros. apply Permutation_map. rewrite !app_assoc. apply Permutation_app_tail.
        apply Permutation_app_comm. }
      rewrite Hperm. apply H. rewrite (Hperm pre [c] cs) in Hnd. done. }
    { by rewrite Hc, <- app_assoc. }
    rewrite Hsl, Hw, Hp. unfold reached at 2, slow at 2, slow. rewrite Hf. simpl.
    rewrite <- !app_assoc. split_and!; [done| |lia|done].
    f_equal. by destruct (paused c).
  - destruct (IH (pre ++ [c]) s) as (-> & -> & -> & ->); [by rewrite <- app_assoc..|].
    unfold outcome at 2, reached at 2, slow at 2. rewrite Hf. simpl.
    rewrite <- app_assoc. split_and!; [done..|lia|done].
Qed.

End Delivery.

(** ** Broadcasts *)

(** C36. A broadcast to a stream writes the event exactly once to each connected
    client subscribed to the stream or to everything that is not paused, in the
    order they connected, and to no one else; a client survives it unchanged
    unless its response throws, its buffer is over the limit (then it is dropped
    and counted) or the response asks to pause (then it is marked paused). *)
Theorem broadcast_reaches_subscribers (wire : Wire) (streamId event : string) (data : Json)
    (s : SSEService) :
  counts_ok s ->
  let subscribed := fun c => has c streamId || has c "*" in
  let text := sse_text event data in
  let s' := broadcastToStream false wire streamId event data s in
  written s' =
    written s ++
    map (fun c => (c_id c, text))
      (List.filter (fun c => subscribed c && negb (paused c)) (clients s)) /\
  clients s' = flat_map (outcome wire text subscribed) (clients s) /\
  slowClientsDropped s' = slowClientsDropped s + tally (slow wire text subscribed) (clients s) /\
  published s' = published s /\ counts_ok s'.
Proof.
  intros Hs subscribed text s'.
  destruct (write_each_spec wire text subscribed s (co_ids s Hs)) as (? & ? & ? & ?).
  split_and!; try done. by apply write_each_ok.
Qed.

(** The service a list of connections leads to. *)
Definition connected (ops : list SseOp) : SSEService := fold_left (run_sse 10) ops fresh_service.

Lemma connected_ok ops : fresh_ids [] ops = true -> counts_ok (connected ops).
Proof. intros H. eapply (run_all_ok 10 ops []); [done|]. by apply fresh_service_ok. Qed.

Definition three_clients : list SseOp :=
  [OpSubscribe "a" ["1"; "user:GA"] "10.0.0.1" (Some "GA"); OpSubscribe "b" ["2"] "10.0.0.1" None;
   OpSubscribe "c" ["1"] "10.0.0.2" None].

Lemma broadcast_reaches_subscribers_witness :
  let s := connected three_clients in
  let s' := broadcastToStream false broken_wire "1" "e" JNull s in
  map fst (written s') = ["a"; "c"] /\ map c_id (clients s') = ["b"] /\
  slowClientsDropped s' = slowClientsDropped s + 0.
Proof.
  intros s s'. unfold s'.
  destruct (broadcast_reaches_subscribers broken_wire "1" "e" JNull s) as (-> & -> & -> & _);
    [by apply connected_ok|].
  split_and!; reflexivity.
Defined.

Lemma strip_app p s : strip p (p +:+ s) = Some s.
Proof.
  induction p as [|a p IH]; [done|].
  change (String a p +:+ s) with (String a (p +:+ s)). simpl. by rewrite Ascii.eqb_refl.
Qed.

Lemma pmessage_text event data :
  data <> JUndefined ->
  JSON_parse (JSON_stringify (JObject [("event", JString event); ("data", data)])) =
  Returns (JObject [("event", JString event); ("data", normalize data)]).
Proof. intros H. rewrite JSON_parse_normalize. by destruct data. Qed.

Lemma sse_text_normalize event data : sse_text event (normalize data) = sse_text event data.
Proof. unfold sse_text. by rewrite stringify_normalize. Qed.

(** With Redis available a broadcast only publishes one message, and what
    every subscribed server does with that message is what the broadcast does
    on a server without Redis: the same bytes to the same clients, whatever the
    data holds, numbers too large for JSON included. *)
Theorem redis_delivers_as_local (wire : Wire) (key event : string) (data : Json)
    (s t : SSEService) :
  data <> JUndefined ->
  Forall (fun send : bool -> Wire -> string -> string -> Json -> SSEService -> SSEService =>
    exists channel text,
      send true wire key event data s =
        {| clients := clients s; ipConnectionCounts := ipConnectionCounts s;
           userConnectionCounts := userConnectionCounts s;
           slowClientsDropped := slowClientsDropped s; shuttingDown := shuttingDown s;
           perIpPeakConnections := perIpPeakConnections s;
           perUserPeakConnections := perUserPeakConnections s; heartbeat := heartbeat s;
           written := written s; published := published s ++ [(channel, text)] |} /\
      on_pmessage wire channel text t = send false wire key event data t)
    [broadcastToStream; broadcastToUser].
Proof.
  intros Hd. repeat constructor; (eexists _, _; split; [reflexivity|]);
    unfold on_pmessage; rewrite pmessage_text by done;
    change (member "event" _) with (JString event);
    change (member "data" _) with (normalize data); cbn [as_string].
  - rewrite strip_app. unfold broadcastToStream, localBroadcastToStream, broadcast.
    by rewrite sse_text_normalize.
  - assert (strip "sse:stream:" ("sse:user:" +:+ key) = None) as -> by reflexivity.
    rewrite strip_app. unfold broadcastToUser, localBroadcastToUser, broadcast.
    by rewrite sse_text_normalize.
Qed.

Lemma redis_delivers_as_local_witness :
  let data := JObject [("streamId", JBigint (2 ^ 60)); ("txHash", JUndefined)] in
  Forall (fun send : bool -> Wire -> string -> string -> Json -> SSEService -> SSEService =>
    exists channel text,
      on_pmessage open_wire channel text (connected three_clients) =
      send false open_wire "1" "e" data (connected three_clients))
    [broadcastToStream; broadcastToUser].
Proof.
  intros data.
  eapply Forall_impl;
    [apply (redis_delivers_as_local open_wire "1" "e" data fresh_service (connected three_clients)); discriminate|].
  intros send (channel & text & _ & H). eauto.
Defined.
