(* ===== verification/SseController.v ===== *)
(** * Opening an event stream: backend/src/controllers/sse.controller.ts

    [subscribe] runs in two turns of the event loop: [subscribe_begin] up to the
    query, [subscribe_finish] once it has answered; [Gate] is the service with
    the requests between the two.  The parsed query (zod) and the identifier
    drawn for the client are arguments. *)
From S2P Require Import Prelude JsLang StreamId Json Schema DeadLetter Sse SseFacts.
From stdpp Require Import sorting.
Local Open Scope Z_scope.

Definition MAX_SSE_STREAMS : nat := 500.

Record SubscribeQuery := { q_streams : list string; q_users : list string; q_all : bool }.

Inductive Forwarded :=
| NoForwarded
| ForwardedText (s : string)
| ForwardedList (xs : list string).

Record SseRequest := {
  forwarded_for : Forwarded; (* the X-Forwarded-For header *)
  req_ip : option string;
  remoteAddress : option string;
  user : option string; (* the authenticated public key *)
  query : option SubscribeQuery (* [None]: the schema rejects it *)
}.

(** [s.split(',')[0]] *)
Fixpoint before_comma (s : string) : string :=
  match s with
  | EmptyString => EmptyString
  | String c s' => if code c =? 44 then EmptyString else String c (before_comma s')
  end.

(** [x || d] for a string *)
Definition or_text (x : option string) (d : string) : string :=
  if truthy x then default ""%string x else d.

Definition getClientIp (req : SseRequest) : string :=
  let fallback := or_text (req_ip req) (or_text (remoteAddress req) "unknown") in
  match forwarded_for req with
  | ForwardedText s =>
      match trim s with
      | EmptyString => fallback
      | _ => or_text (Some (trim (before_comma s))) "unknown"
      end
  | ForwardedList (x :: _) => x
  | ForwardedList [] | NoForwarded => fallback
  end.

(** The first turn: a response, or the query for the caller's streams. *)
Inductive Begun :=
| Respond (status : Z) (retryAfter : option Z) (text : string)
| Await (sourceIp : string) (publicKey : string) (q : SubscribeQuery).

Definition subscribe_begin (maxConnections : Z) (req : SseRequest) (s : SSEService) : Begun :=
  if shuttingDown s then Respond 503 None "Server is shutting down, please reconnect shortly."
  else
    let sourceIp := getClientIp req in
    let capacity := checkCapacity maxConnections sourceIp (user req) s in
    if negb (allowed capacity) then
      Respond (default 503 (status capacity)) (retryAfterSeconds capacity)
        (default "SSE connection rejected"%string (message capacity))
    else
      match user req with
      | None => Respond 500 None "Internal server error"
      | Some publicKey =>
          match query req with
          | None => Respond 400 None "Invalid subscription parameters"
          | Some q => Await sourceIp publicKey q
          end
      end.

Definition party (publicKey : string) (r : Stream) : bool :=
  bool_decide (sender r = publicKey) || bool_decide (recipient r = publicKey).

(** [orderBy: { startTime: 'desc' }] *)
Definition later (r r' : Stream) : Prop := startTime r >= startTime r'.
#[export] Instance later_dec : RelDecision later.
Proof. unfold later. solve_decision. Defined.

Definition ownedStreams (publicKey : string) (rows : list Stream) : list Stream :=
  take MAX_SSE_STREAMS (merge_sort later (List.filter (party publicKey) rows)).

Definition subscriptions_of (publicKey : string) (q : SubscribeQuery) (owned : list Stream) :
    list string :=
  let ownedIds := to_set (map (fun r => BigInt_toString (streamId r)) owned) in
  let allowedUserKeys :=
    to_set (publicKey :: flat_map (fun r => [sender r; recipient r]) owned) in
  (if q_all q then ownedIds
   else match q_streams q with
        | [] => ownedIds
        | ids => List.filter (fun id => bool_decide (id ∈ ownedIds)) ids
        end) ++
  to_set (("user:" +:+ publicKey) ::
    map (fun k => "user:" +:+ k)
      (List.filter (fun k => bool_decide (k ∈ allowedUserKeys)) (q_users q))).

(** The second turn; [None] stands for a query that failed. *)
Definition subscribe_finish (sourceIp publicKey : string) (q : SubscribeQuery)
    (rows : option (list Stream)) (clientId : string) (requestId : option string)
    (s : SSEService) : SSEService :=
  match rows with
  | None => s
  | Some rows =>
      let subscriptions := subscriptions_of publicKey q (ownedStreams publicKey rows) in
      let hello := "data: " +:+ JSON_stringify (JObject
        [("type", JString "connected"); ("clientId", JString clientId);
         ("requestId", from_option JString JUndefined requestId)]) +:+ nl +:+ nl in
      addClient clientId subscriptions sourceIp (Some publicKey) (log_write clientId hello s)
  end.

(** ** Requests in flight *)

Record Gate := {
  service : SSEService;
  waiting : list (string * string * SubscribeQuery) (* oldest first *)
}.

Inductive GateOp :=
| Arrive (req : SseRequest)
| Answer (rows : option (list Stream)) (clientId : string) (requestId : option string).

(** Queries are answered in the order they were sent. *)
Definition gate_step (maxConnections : Z) (g : Gate) (op : GateOp) : Gate :=
  match op with
  | Arrive req =>
      match subscribe_begin maxConnections req (service g) with
      | Respond _ _ _ => g
      | Await addr pk q => {| service := service g; waiting := waiting g ++ [(addr, pk, q)] |}
      end
  | Answer rows clientId requestId =>
      match waiting g with
      | [] => g
      | (addr, pk, q) :: rest =>
          {| service := subscribe_finish addr pk q rows clientId requestId (service g);
             waiting := rest |}
      end
  end.

(** ** Lemmas *)

Lemma to_set_elem x xs : x ∈ to_set xs <-> x ∈ xs.
Proof.
  unfold to_set.
  cut (forall acc, x ∈ fold_left (fun acc x => if bool_decide (x ∈ acc) then acc else acc ++ [x]) xs acc
    <-> x ∈ acc \/ x ∈ xs).
  { intros H. rewrite H. set_solver. }
  induction xs as [|y xs IH]; intros acc; simpl; [set_solver|]. rewrite IH.
  case_bool_decide; set_solver.
Qed.

Lemma ownedStreams_elem pk rows r :
  r ∈ ownedStreams pk rows -> r ∈ rows /\ party pk r = true.
Proof.
  unfold ownedStreams. intros Hr.
  assert (r ∈ merge_sort later (List.filter (party pk) rows)) as Hm.
  { rewrite <- (take_drop MAX_SSE_STREAMS (merge_sort _ _)). apply elem_of_app. by left. }
  rewrite merge_sort_Permutation in Hm. apply list_elem_of_In, filter_In in Hm as [Hr' Hp].
  split; [by apply list_elem_of_In|done].
Qed.

(** Below the cap nothing is cut off. *)
Lemma ownedStreams_all pk rows r :
  (length (List.filter (party pk) rows) <= MAX_SSE_STREAMS)%nat ->
  r ∈ rows -> party pk r = true -> r ∈ ownedStreams pk rows.
Proof.
  intros Hlen Hr Hp. unfold ownedStreams. rewrite take_ge.
  - rewrite merge_sort_Permutation. apply list_elem_of_In, filter_In.
    split; [by apply list_elem_of_In|done].
  - by rewrite merge_sort_Permutation.
Qed.

(** A request admitted and answered in one go is the admission of [run_sse]. *)
Lemma subscribe_at_once max req rows id rid s :
  shuttingDown s = false ->
  match subscribe_begin max req s with
  | Await addr pk q =>
      user req = Some pk /\
      clients (subscribe_finish addr pk q (Some rows) id rid s) =
      clients (run_sse max s
        (OpSubscribe id (subscriptions_of pk q (ownedStreams pk rows)) (getClientIp req) (user req)))
  | Respond _ _ _ => True
  end.
Proof.
  intros Hs. unfold subscribe_begin, run_sse. rewrite Hs. destruct (allowed _); [|done].
  simpl negb. cbn iota. destruct (user req) as [pk|]; [|done]. by destruct (query req).
Qed.

(** ** Properties *)

(** A sample row: [from] pays [to] in stream [id]. *)
Definition pays (id : Z) (from to : string) : Stream := {|
  streamId := id; sender := from; recipient := to; tokenAddress := "T"; ratePerSecond := "1";
  depositedAmount := "10"; withdrawnAmount := "0"; startTime := id; lastUpdateTime := id;
  endTime := None; isActive := true; isPaused := false; pausedAt := None;
  totalPausedDuration := 0; updatedAt := 0 |}.
Definition ask (streams users : list string) : SubscribeQuery :=
  {| q_streams := streams; q_users := users; q_all := false |}.

Lemma user_topic_inj k k' : "user:" +:+ k = "user:" +:+ k' -> k = k'.
Proof. by intros [= ?]. Qed.

Lemma digits_not_user z k : BigInt_toString z <> "user:" +:+ k.
Proof.
  unfold BigInt_toString. case (Z.ltb_spec z 0); [done|]. intros Hz.
  destruct (nat_digits_head z Hz) as (c & s & -> & Hd). intros [= -> _]. by vm_compute in Hd.
Qed.


(** Yet the other party's user topic carries that party's events about
    anyone: whoever shares a single stream with an account can subscribe to its
    topic and is then written every event the service sends to that account,
    streams with third parties included. *)
Theorem counterparty_events_delivered (wire : Wire) (pk key addr id event : string)
    (q : SubscribeQuery) (rows : list Stream) (r : Stream) (data : Json) (s : SSEService) :
  counts_ok s -> id ∉ map c_id (clients s) ->
  (length (List.filter (party pk) rows) <= MAX_SSE_STREAMS)%nat ->
  r ∈ rows -> party pk r = true -> key = sender r \/ key = recipient r -> key ∈ q_users q ->
  let s1 := subscribe_finish addr pk q (Some rows) id None s in
  (id, sse_text event data) ∈ written (broadcastToUser false wire key event data s1).
Proof.
  intros Hs Hid Hlen Hr Hp Hkey Hq s1.
  assert (counts_ok s1) as H1.
  { apply addClient_ok; [|done]. by eapply counts_ok_same, Hs. }
  destruct (write_each_spec wire (sse_text event data)
    (fun c => has c ("user:" +:+ key) || has c "*") s1 (co_ids _ H1)) as (_ & Hw & _).
  cbn zeta in Hw. unfold broadcastToUser, localBroadcastToUser, broadcast. rewrite Hw.
  apply elem_of_app. right. apply list_elem_of_fmap.
  set (topics := subscriptions_of pk q (ownedStreams pk rows)).
  exists {| c_id := id; subscriptions := to_set topics; paused := false; ip := addr;
            userId := Some pk |}. split; [done|].
  apply list_elem_of_In, filter_In. split.
  - apply list_elem_of_In. unfold s1. simpl. rewrite set_client_fresh by done.
    apply elem_of_app. right. left.
  - unfold reached, has. simpl.
    rewrite bool_decide_eq_true_2; [done|]. apply to_set_elem, elem_of_app. right.
    apply to_set_elem. right. apply list_elem_of_fmap. exists key. split; [done|].
    apply list_elem_of_In, filter_In. split; [by apply list_elem_of_In|].
    apply bool_decide_eq_true, to_set_elem. right. apply list_elem_of_In, in_flat_map.
    exists r. split; [by apply list_elem_of_In, ownedStreams_all|]. simpl. naive_solver.
Qed.

Lemma counterparty_events_delivered_witness :
  let rows := [pays 1 "GA" "GB"; pays 2 "GA" "GC"] in
  let s1 := subscribe_finish "10.0.0.9" "GB" (ask [] ["GA"]) (Some rows) "x" None
              (connected three_clients) in
  let about_2 := JObject [("streamId", JBigint 2); ("recipient", JString "GC")] in
  ("2" ∉ subscriptions_of "GB" (ask [] ["GA"]) (ownedStreams "GB" rows)) /\
  ("x", sse_text "stream.created" about_2) ∈
    written (broadcastToUser false open_wire "GA" "stream.created" about_2 s1).
Proof.
  intros rows s1 about_2. split; [by apply (bool_decide_eq_true_1 _); vm_compute|].
  apply (counterparty_events_delivered open_wire "GB" "GA" "10.0.0.9" "x" "stream.created"
    (ask [] ["GA"]) rows (pays 1 "GA" "GB") about_2 (connected three_clients)).
  - by apply connected_ok.
  - by apply (bool_decide_eq_true_1 _); vm_compute.
  - by apply Nat.leb_le; vm_compute.
  - left.
  - reflexivity.
  - by left.
  - left.
Defined.

(** A run of the gate. *)
Definition run_gate (max : Z) (g : Gate) (ops : list GateOp) : Gate := fold_left (gate_step max) ops g.

Lemma run_gate_app max g ops ops' :
  run_gate max g (ops ++ ops') = run_gate max (run_gate max g ops) ops'.
Proof. apply fold_left_app. Qed.

Lemma arrivals max req addr pk q (n : nat) : forall g,
  subscribe_begin max req (service g) = Await addr pk q ->
  run_gate max g (repeat (Arrive req) n) =
  {| service := service g; waiting := waiting g ++ repeat (addr, pk, q) n |}.
Proof.
  induction n as [|n IH]; intros g Hb.
  - simpl. rewrite app_nil_r. by destruct g.
  - cbn [repeat]. change (run_gate max g (Arrive req :: ?l)) with (run_gate max (gate_step max g (Arrive req)) l).
    cbn [gate_step]. rewrite Hb, IH by done. cbn [service waiting].
    by rewrite <- app_assoc.
Qed.

Lemma answers max rows addr pk q ids : forall g,
  NoDup (map c_id (clients (service g)) ++ ids) ->
  waiting g = repeat (addr, pk, q) (length ids) ->
  let g' := run_gate max g (map (fun id => Answer (Some rows) id None) ids) in
  map c_id (clients (service g')) = map c_id (clients (service g)) ++ ids /\
  tally (from_ip addr) (clients (service g')) =
    tally (from_ip addr) (clients (service g)) + Z.of_nat (length ids).
Proof.
  induction ids as [|id ids IH]; intros g Hnd Hw.
  - simpl. rewrite app_nil_r. split; [done|lia].
  - cbn [map]. change (run_gate max g (?o :: ?l)) with (run_gate max (gate_step max g o) l).
    cbn [gate_step]. simpl in Hw. rewrite Hw.
    assert (id ∉ map c_id (clients (service g))) as Hid.
    { apply NoDup_app in Hnd as (_ & Hd & _). intros Hin. apply (Hd id Hin). left. }
    match goal with |- context [run_gate max ?g1 _] => destruct (IH g1) as [-> ->] end; simpl;
      rewrite ?set_client_fresh, ?map_app by done; simpl; rewrite <- ?app_assoc; [done..|].
    split; [done|]. rewrite tally_app, tally_cons.
    match goal with |- context [from_ip addr ?c] =>
      change (from_ip addr c) with (bool_decide (addr = addr)) end.
    rewrite bool_decide_eq_true_2 by done. unfold tally. simpl. lia.
Qed.

(** The caps only hold when no request waits: the capacity is checked
    before the query and the client is counted after it, so any number of
    simultaneous requests of one user from one address are all admitted, past
    the cap per address, per user and in total. *)
Theorem caps_raced (max : Z) (req : SseRequest) (addr pk : string) (q : SubscribeQuery)
    (rows : list Stream) (ids : list string) :
  NoDup ids -> subscribe_begin max req fresh_service = Await addr pk q ->
  let g := run_gate max {| service := fresh_service; waiting := [] |}
    (repeat (Arrive req) (length ids) ++ map (fun id => Answer (Some rows) id None) ids) in
  map c_id (clients (service g)) = ids /\
  tally (from_ip addr) (clients (service g)) = Z.of_nat (length ids).
Proof.
  intros Hnd Hb g. unfold g. rewrite run_gate_app, (arrivals _ _ addr pk q) by done.
  destruct (answers max rows addr pk q ids
    {| service := fresh_service; waiting := repeat (addr, pk, q) (length ids) |}) as [H1 H2];
    [done|done|]. by split.
Qed.

Lemma caps_raced_witness :
  let req := {| forwarded_for := ForwardedText "203.0.113.7, 10.0.0.1"; req_ip := None;
                remoteAddress := None; user := Some "GB"; query := Some (ask [] []) |} in
  let ids := ["1"; "2"; "3"; "4"; "5"; "6"; "7"] in
  let g := run_gate 4 {| service := fresh_service; waiting := [] |}
    (repeat (Arrive req) (length ids) ++
     map (fun id => Answer (Some [pays 1 "GA" "GB"]) id None) ids) in
  tally (from_ip "203.0.113.7") (clients (service g)) = 7.
Proof.
  intros req ids.
  apply (caps_raced 4 req "203.0.113.7" "GB" (ask [] []) [pays 1 "GA" "GB"] ids).
  - by apply (bool_decide_eq_true_1 _); vm_compute.
  - reflexivity.
Defined.
