(* ===== verification/RpcPool.v ===== *)
(** * The RPC endpoint pool: backend/src/lib/rpc-pool.ts

    A circuit breaker per endpoint, the order in which endpoints are tried and
    the failover of [execute].  An endpoint is named by its URL, which also
    stands for its server object; how a call to a server settles is an argument.
    [PoolOp] lists the updates of the shared endpoints, each made in one turn of
    the event loop; [execute] and [probeAll] interleave through them. *)
From S2P Require Import Prelude JsLang.
From stdpp Require Import sorting.
Local Open Scope Z_scope.

Inductive CircuitState := CLOSED | OPEN | HALF_OPEN.
#[export] Instance CircuitState_eq_dec : EqDecision CircuitState.
Proof. solve_decision. Defined.

Record RpcEndpointHealth := {
  url : string;
  failures : Z;
  latencyMs : option Z;
  state : CircuitState;
  openedAt : option Z
}.

Record RpcPool := {
  endpoints : list RpcEndpointHealth;
  failureThreshold : Z;
  cooldownMs : Z;
  timeoutMs : Z
}.

Record RpcPoolOptions := {
  o_failureThreshold : option Z;
  o_cooldownMs : option Z;
  o_timeoutMs : option Z
}.

Definition DEFAULT_URL : string := "https://soroban-testnet.stellar.org".

Definition nonempty (s : string) : bool := match s with EmptyString => false | _ => true end.

(** [.map((url) => url.trim()).filter(Boolean)] *)
Definition trimmed (urls : list string) : list string := List.filter nonempty (map trim urls).

Definition getRpcUrls (value : option string) : list string :=
  trimmed (split_on 44 (default DEFAULT_URL value)).

(** [[...new Set(xs)]] *)
Definition unique (xs : list string) : list string :=
  fold_left (fun acc x => if bool_decide (x ∈ acc) then acc else acc ++ [x]) xs [].

(** [timeoutEnv] is [Number(process.env.SOROBAN_RPC_TIMEOUT_MS ?? 10_000)]. *)
Definition constructor (timeoutEnv : Z) (urls : list string) (options : RpcPoolOptions) :
    outcome RpcPool :=
  match unique (trimmed urls) with
  | [] => Throws (ErrorMsg "At least one Soroban RPC URL is required")
  | uniqueUrls =>
      Returns {|
        failureThreshold := default 5 (o_failureThreshold options);
        cooldownMs := default 60000 (o_cooldownMs options);
        timeoutMs := default timeoutEnv (o_timeoutMs options);
        endpoints := map (fun u => {| url := u; failures := 0; latencyMs := None;
                                      state := CLOSED; openedAt := None |}) uniqueUrls |}
  end.

Definition with_endpoints (es : list RpcEndpointHealth) (p : RpcPool) : RpcPool := {|
  endpoints := es; failureThreshold := failureThreshold p; cooldownMs := cooldownMs p;
  timeoutMs := timeoutMs p |}.

(** Assign to the fields of one endpoint object. *)
Definition on_endpoint (u : string) (f : RpcEndpointHealth -> RpcEndpointHealth) (p : RpcPool) :
    RpcPool :=
  with_endpoints (map (fun e => if bool_decide (url e = u) then f e else e) (endpoints p)) p.

(** ** The circuit breaker *)

Definition succeeded (latency : Z) (e : RpcEndpointHealth) : RpcEndpointHealth := {|
  url := url e; failures := 0; latencyMs := Some latency; state := CLOSED; openedAt := None |}.
Definition recordSuccess (u : string) (latency : Z) : RpcPool -> RpcPool :=
  on_endpoint u (succeeded latency).

Definition failed (threshold now latency : Z) (e : RpcEndpointHealth) : RpcEndpointHealth :=
  if threshold <=? failures e + 1
  then {| url := url e; failures := failures e + 1; latencyMs := Some latency;
          state := OPEN; openedAt := Some now |}
  else {| url := url e; failures := failures e + 1; latencyMs := Some latency;
          state := state e; openedAt := openedAt e |}.
Definition recordFailure (u : string) (now latency : Z) (p : RpcPool) : RpcPool :=
  on_endpoint u (failed (failureThreshold p) now latency) p.

(** Does the filter let the endpoint through? *)
Definition admits (now cooldown : Z) (e : RpcEndpointHealth) : bool :=
  match state e, openedAt e with
  | OPEN, Some at_ => cooldown <=? now - at_
  | OPEN, None => false
  | _, _ => true
  end.
Definition half_open (now cooldown : Z) (e : RpcEndpointHealth) : RpcEndpointHealth :=
  match state e with
  | OPEN =>
      if admits now cooldown e
      then {| url := url e; failures := failures e; latencyMs := latencyMs e;
              state := HALF_OPEN; openedAt := openedAt e |}
      else e
  | _ => e
  end.

(** The comparator: fewer failures first, then the lower latency; an endpoint
    never measured counts as infinitely slow. *)
Definition before (a b : RpcEndpointHealth) : bool :=
  if failures a =? failures b then
    match latencyMs a, latencyMs b with
    | Some x, Some y => x <=? y
    | None, Some _ => false
    | _, None => true
    end
  else failures a <? failures b.

(** A stable sort, as [Array.prototype.sort] is. *)
Fixpoint insert_endpoint (e : RpcEndpointHealth) (es : list RpcEndpointHealth) :
    list RpcEndpointHealth :=
  match es with
  | [] => [e]
  | d :: es' => if before e d then e :: es else d :: insert_endpoint e es'
  end.
Definition sort_endpoints (es : list RpcEndpointHealth) : list RpcEndpointHealth :=
  fold_right insert_endpoint [] es.

Definition availableEndpoints (now : Z) (p : RpcPool) : list RpcEndpointHealth * RpcPool :=
  (sort_endpoints (map (half_open now (cooldownMs p))
     (List.filter (admits now (cooldownMs p)) (endpoints p))),
   with_endpoints (map (half_open now (cooldownMs p)) (endpoints p)) p).

(** ** Calls *)

(** How a call settles by itself: its result and after how long; [None]: never. *)
Definition Settles (T : Type) : Type := option (outcome T * Z).

(** [Promise.race] against the timeout; a tie goes to the timer. *)
Definition race {T} (label : string) (timeout : Z) (call : Settles T) : outcome T * Z :=
  let timed_out :=
    (Throws (ErrorMsg (label +:+ " timed out after " +:+ BigInt_toString timeout +:+ "ms")), timeout) in
  match call with
  | Some (r, after) => if after <? timeout then (r, after) else timed_out
  | None => timed_out
  end.

(** The loop over the available endpoints; the result comes with the time. *)
Fixpoint try_endpoints {T} (label : string) (operation : string -> Settles T)
    (us : list string) (lastError : option JsError) (now : Z) (p : RpcPool) :
    outcome T * Z * RpcPool :=
  match us with
  | [] =>
      (Throws (default (ErrorMsg (label +:+ " failed on all RPC endpoints")) lastError), now, p)
  | u :: us' =>
      match race label (timeoutMs p) (operation u) with
      | (Returns v, elapsed) => (Returns v, now + elapsed, recordSuccess u elapsed p)
      | (Throws e, elapsed) =>
          try_endpoints label operation us' (Some e) (now + elapsed)
            (recordFailure u (now + elapsed) elapsed p)
      end
  end.

Definition execute {T} (label : string) (operation : string -> Settles T) (now : Z)
    (p : RpcPool) : outcome T * Z * RpcPool :=
  let '(available, p') := availableEndpoints now p in
  try_endpoints label operation (map url available) None now p'.

(** ** Interleaved updates *)

Inductive PoolOp :=
| Listed (now : Z)
| Success (u : string) (latency : Z)
| Failure (u : string) (now latency : Z).

Definition pool_step (p : RpcPool) (op : PoolOp) : RpcPool :=
  match op with
  | Listed now => (availableEndpoints now p).2
  | Success u latency => recordSuccess u latency p
  | Failure u now latency => recordFailure u now latency p
  end.

(** What one endpoint's health probe, started at [started], does. *)
Definition probe (timeout started : Z) (u : string) (call : Settles unit) : PoolOp :=
  match race "" timeout call with
  | (Returns _, elapsed) => Success u elapsed
  | (Throws _, elapsed) => Failure u (started + elapsed) timeout
  end.
Definition probeAll (started : Z) (calls : string -> Settles unit) (p : RpcPool) : list PoolOp :=
  map (fun e => probe (timeoutMs p) started (url e) (calls (url e))) (endpoints p).

Definition getHealth (p : RpcPool) : list RpcEndpointHealth := endpoints p.

(** * Properties of the RPC endpoint pool

    The circuit of an endpoint is a function of its trailing failures, whatever
    calls and probes interleave; [execute] tries the admitted endpoints, the
    healthiest first, until one answers. *)

Local Open Scope Z_scope.

(** Failures of an endpoint since its last success. *)
Definition trailing (u : string) (ops : list PoolOp) : Z :=
  fold_left (fun n op =>
    match op with
    | Listed _ => n
    | Success v _ => if bool_decide (v = u) then 0 else n
    | Failure v _ _ => if bool_decide (v = u) then n + 1 else n
    end) ops 0.

Record endpoint_ok (threshold : Z) (e : RpcEndpointHealth) : Prop := {
  eo_failures : 0 <= failures e;
  eo_closed : state e = CLOSED <-> failures e < threshold;
  eo_opened : openedAt e = None <-> state e = CLOSED
}.

Lemma succeeded_ok threshold latency e : 0 < threshold -> endpoint_ok threshold (succeeded latency e).
Proof. by split. Qed.

Lemma failed_ok threshold now latency e :
  endpoint_ok threshold e -> endpoint_ok threshold (failed threshold now latency e).
Proof.
  intros [H1 H2 H3]. unfold failed. case (Z.leb_spec threshold (failures e + 1)); intros H; split; simpl;
    try (split; [done|lia]); try lia; try done.
  rewrite H2. lia.
Qed.

Lemma half_open_ok threshold now cooldown e :
  endpoint_ok threshold e -> endpoint_ok threshold (half_open now cooldown e).
Proof.
  intros [H1 H2 H3]. unfold half_open. destruct (state e) eqn:Hs; [by split; rewrite ?Hs| |by split; rewrite ?Hs].
  case_match; [|by split; rewrite ?Hs]. split; simpl; [done|..].
  - split; [done|]. intros ?%H2. done.
  - rewrite H3. done.
Qed.

Lemma half_open_url now cooldown e : url (half_open now cooldown e) = url e.
Proof. unfold half_open. by repeat case_match. Qed.
Lemma half_open_failures now cooldown e : failures (half_open now cooldown e) = failures e.
Proof. unfold half_open. by repeat case_match. Qed.
Lemma failed_url threshold now latency e : url (failed threshold now latency e) = url e.
Proof. unfold failed. by case_match. Qed.
Lemma failed_failures threshold now latency e :
  failures (failed threshold now latency e) = failures e + 1.
Proof. unfold failed. by case_match. Qed.

(** The endpoints keep their names and their order. *)
Lemma pool_step_urls p op : map url (endpoints (pool_step p op)) = map url (endpoints p).
Proof.
  destruct op; simpl; rewrite map_map; apply map_ext; intros e; rewrite ?half_open_url; try done;
    case_match; by rewrite ?failed_url.
Qed.

(** What is true of an endpoint after the operations [ops]. *)
Definition tracked (threshold : Z) (ops : list PoolOp) (e : RpcEndpointHealth) : Prop :=
  endpoint_ok threshold e /\ failures e = trailing (url e) ops.

Lemma trailing_app u ops op :
  trailing u (ops ++ [op]) =
  match op with
  | Listed _ => trailing u ops
  | Success v _ => if bool_decide (v = u) then 0 else trailing u ops
  | Failure v _ _ => if bool_decide (v = u) then trailing u ops + 1 else trailing u ops
  end.
Proof. unfold trailing. by rewrite fold_left_app. Qed.

Lemma pool_step_params p op :
  failureThreshold (pool_step p op) = failureThreshold p /\ cooldownMs (pool_step p op) = cooldownMs p.
Proof. by destruct op. Qed.

Lemma pool_step_tracked p ops op :
  0 < failureThreshold p ->
  Forall (tracked (failureThreshold p) ops) (endpoints p) ->
  Forall (tracked (failureThreshold p) (ops ++ [op])) (endpoints (pool_step p op)).
Proof.
  intros Ht H. destruct op as [now|u latency|u now latency]; simpl; apply Forall_map;
    (eapply Forall_impl; [exact H|]); intros e [Hok Hf]; split; rewrite ?trailing_app.
  - by apply half_open_ok.
  - by rewrite half_open_failures, half_open_url.
  - cbn beta. case_match; [by apply succeeded_ok|done].
  - cbn beta. case_bool_decide as E; simpl; [by rewrite bool_decide_eq_true_2|].
    by rewrite bool_decide_eq_false_2.
  - cbn beta. case_match; [by apply failed_ok|done].
  - cbn beta. case_bool_decide as E.
    + rewrite failed_failures, failed_url, bool_decide_eq_true_2 by done. by rewrite Hf.
    + by rewrite bool_decide_eq_false_2.
Qed.

Lemma run_tracked ops : forall p done_,
  0 < failureThreshold p ->
  Forall (tracked (failureThreshold p) done_) (endpoints p) ->
  let p' := fold_left pool_step ops p in
  failureThreshold p' = failureThreshold p /\ cooldownMs p' = cooldownMs p /\
  Forall (tracked (failureThreshold p) (done_ ++ ops)) (endpoints p').
Proof.
  induction ops as [|op ops IH]; intros p d Ht H; cbn zeta; simpl.
  - by rewrite app_nil_r.
  - pose proof (pool_step_params p op) as [E1 E2].
    destruct (IH (pool_step p op) (d ++ [op])) as (-> & -> & H').
    { by rewrite E1. } { rewrite E1. by apply pool_step_tracked. }
    rewrite E1, <- app_assoc in H'. by rewrite E1.
Qed.

Lemma unique_nodup xs : NoDup (unique xs).
Proof.
  unfold unique. cut (forall acc, NoDup acc -> NoDup (fold_left (fun acc x =>
    if bool_decide (x ∈ acc) then acc else acc ++ [x]) xs acc)); [intros H; apply H; constructor|].
  induction xs as [|x xs IH]; intros acc Hacc; [done|]. simpl. apply IH.
  case_bool_decide; [done|]. apply NoDup_app. split_and!; [done|set_solver|apply NoDup_singleton].
Qed.

(** A pool just built. *)
Lemma constructor_ok env urls options p :
  constructor env urls options = Returns p ->
  failureThreshold p = default 5 (o_failureThreshold options) /\
  NoDup (map url (endpoints p)) /\
  forall t, 0 < t -> Forall (tracked t []) (endpoints p).
Proof.
  unfold constructor. pose proof (unique_nodup (trimmed urls)) as Hnd. revert Hnd.
  destruct (unique _) as [|u us]; [done|]. generalize (u :: us) as vs. intros vs Hnd [= <-].
  cbn [endpoints failureThreshold]. split; [done|]. split; [by rewrite map_map, map_id|].
  intros t Ht. apply Forall_map, Forall_true. intros v. split; [by split|done].
Qed.

(** Whatever calls and probes interleave on the endpoints, and however
    their clocks run, an endpoint's circuit is closed exactly while it has
    failed fewer times in a row than the threshold; a call is refused exactly
    while the circuit is open and the cooldown since it opened has not passed;
    names and order of the endpoints never change. *)
Theorem circuit_tracks_failures (env now : Z) (urls : list string) (options : RpcPoolOptions)
    (ops : list PoolOp) (p : RpcPool) :
  constructor env urls options = Returns p -> 0 < failureThreshold p ->
  let p' := fold_left pool_step ops p in
  map url (endpoints p') = map url (endpoints p) /\
  Forall (fun e =>
    failures e = trailing (url e) ops /\
    (state e = CLOSED <-> trailing (url e) ops < failureThreshold p) /\
    (admits now (cooldownMs p) e = false <->
     state e = OPEN /\ exists at_, openedAt e = Some at_ /\ now < at_ + cooldownMs p))
    (endpoints p').
Proof.
  intros Hp Ht p'. apply constructor_ok in Hp as (_ & _ & Hok).
  destruct (run_tracked ops p [] Ht (Hok _ Ht)) as (_ & _ & H). simpl in H. split.
  - unfold p'. clear H Hok p' Ht. revert p. induction ops as [|op ops IH]; intros p; [done|].
    simpl. by rewrite IH, pool_step_urls.
  - eapply Forall_impl; [exact H|]. intros e [[H1 H2 H3] Hf]. split; [done|]. rewrite <- Hf.
    split; [done|]. unfold admits. destruct (state e) eqn:Hs; try naive_solver.
    destruct (openedAt e) as [t|] eqn:Ho.
    + rewrite Z.leb_gt. split; [intros; split; [done|]; exists t; split; [done|lia]|].
      intros [_ (? & [= <-] & ?)]. lia.
    + exfalso. assert (OPEN = CLOSED) by (by apply H3). done.
Qed.

Lemma circuit_tracks_failures_witness :
  let options := {| o_failureThreshold := Some 2; o_cooldownMs := None; o_timeoutMs := None |} in
  exists p, constructor 10000 ["https://a"; " https://b "] options = Returns p /\
  Forall (fun e => failures e = trailing (url e)
      [Failure "https://a" 10 5; Success "https://b" 7; Failure "https://a" 20 5])
    (endpoints (fold_left pool_step
      [Failure "https://a" 10 5; Success "https://b" 7; Failure "https://a" 20 5] p)).
Proof.
  intros options. eexists. split; [reflexivity|].
  eapply Forall_impl; [eapply (circuit_tracks_failures 10000 30 ["https://a"; " https://b "] options
    [Failure "https://a" 10 5; Success "https://b" 7; Failure "https://a" 20 5]);
    [reflexivity|reflexivity]|].
  by intros e [H _].
Defined.

(** ** The order of the endpoints *)

Lemma before_total a b : before a b = true \/ before b a = true.
Proof. unfold before. repeat case_match; lia. Qed.

Lemma before_trans a b c : before a b = true -> before b c = true -> before a c = true.
Proof. unfold before. repeat case_match; simplify_eq; lia. Qed.

Lemma insert_endpoint_perm e es : insert_endpoint e es ≡ₚ e :: es.
Proof.
  induction es as [|d es IH]; [done|]. simpl. case_match; [done|]. rewrite IH. apply Permutation_swap.
Qed.

Lemma sort_endpoints_perm es : sort_endpoints es ≡ₚ es.
Proof. induction es as [|e es IH]; [done|]. simpl. by rewrite insert_endpoint_perm, IH. Qed.

Lemma insert_endpoint_sorted e es :
  StronglySorted (fun a b => before a b = true) es ->
  StronglySorted (fun a b => before a b = true) (insert_endpoint e es).
Proof.
  induction es as [|d es IH]; intros Hs; [by repeat constructor|]. simpl.
  apply StronglySorted_inv in Hs as [Hs Hd]. destruct (before e d) eqn:He.
  - constructor; [by constructor|]. constructor; [done|].
    eapply Forall_impl; [exact Hd|]. intros x. by apply before_trans.
  - constructor; [by apply IH|]. rewrite insert_endpoint_perm. constructor; [|done].
    destruct (before_total e d); congruence.
Qed.

Lemma sort_endpoints_sorted es :
  StronglySorted (fun a b => before a b = true) (sort_endpoints es).
Proof. induction es as [|e es IH]; [constructor|]. by apply insert_endpoint_sorted. Qed.

Lemma available_urls now p :
  map url (availableEndpoints now p).1 ≡ₚ
  map url (List.filter (admits now (cooldownMs p)) (endpoints p)).
Proof.
  simpl. rewrite sort_endpoints_perm, map_map.
  erewrite map_ext by (intros; apply half_open_url). done.
Qed.

Lemma map_url_filter_nodup f es :
  NoDup (map url es) -> NoDup (map url (List.filter f es)).
Proof.
  induction es as [|e es IH]; [done|]. simpl. intros [He Hnd]%NoDup_cons.
  case_match; [|by apply IH]. simpl. apply NoDup_cons. split; [|by apply IH].
  intros (d & E & Hd)%list_elem_of_fmap. apply He, list_elem_of_fmap. exists d. split; [done|].
  apply list_elem_of_In, filter_In in Hd as [Hd _]. by apply list_elem_of_In.
Qed.

(** ** Failing over *)

Section Execute.
Context {T : Type} (label : string) (operation : string -> Settles T).

(** The call to an endpoint throws or is not done in time. *)
Definition call_fails (timeout : Z) (u : string) : Prop :=
  is_returns (race label timeout (operation u)).1 = false.

(** The failure count after the endpoints [tried] failed and [answered] answered. *)
Definition recount (tried : list string) (answered : option string) (e : RpcEndpointHealth) : Z :=
  if bool_decide (url e ∈ tried) then failures e + 1
  else if bool_decide (answered = Some (url e)) then 0 else failures e.

Definition answers_or_fails (timeout : Z) (rest : list string) (r : outcome T) : Prop :=
  match rest with
  | u :: _ => exists v d, operation u = Some (Returns v, d) /\ d < timeout /\ r = Returns v
  | [] => exists e, r = Throws e
  end.

Lemma race_in_time timeout call : (race (T:=T) label timeout call).2 <= timeout.
Proof. unfold race. destruct call as [[r d]|]; [|done]. case (Z.ltb_spec d timeout); simpl; lia. Qed.

Lemma race_returns timeout call v d :
  race (T:=T) label timeout call = (Returns v, d) -> call = Some (Returns v, d) /\ d < timeout.
Proof.
  unfold race. destruct call as [[r t]|]; [|done]. case (Z.ltb_spec t timeout); [|done].
  intros Ht [= -> ->]. done.
Qed.

Lemma try_endpoints_spec us : forall last now p,
  NoDup us ->
  let '(r, now', p') := try_endpoints label operation us last now p in
  exists tried rest g,
    us = tried ++ rest /\ Forall (call_fails (timeoutMs p)) tried /\
    answers_or_fails (timeoutMs p) rest r /\
    now' <= now + timeoutMs p * Z.of_nat (length tried) + (if rest then 0 else timeoutMs p) /\
    endpoints p' = map g (endpoints p) /\
    forall e, url (g e) = url e /\ failures (g e) = recount tried (head rest) e.
Proof.
  induction us as [|u us IH]; intros last now p Hnd; simpl.
  - exists [], [], (fun e => e). simpl. split_and!; [done|constructor|eauto|lia|by rewrite map_id|done].
  - apply NoDup_cons in Hnd as [Hu Hnd].
    pose proof (race_in_time (timeoutMs p) (operation u)) as Htime.
    destruct (race label (timeoutMs p) (operation u)) as [[v|e] d] eqn:Hr; simpl in Htime.
    + apply race_returns in Hr as [Ho Hd].
      exists [], (u :: us), (fun e => if bool_decide (url e = u) then succeeded d e else e).
      simpl. split_and!; [done|constructor|eauto|lia|done|]. intros e. unfold recount.
      split; [by case_match|]. rewrite (bool_decide_eq_false_2 (_ ∈ [])) by set_solver. cbn [head].
      case_bool_decide; [rewrite bool_decide_eq_true_2 by congruence|
        rewrite bool_decide_eq_false_2 by congruence]; done.
    + specialize (IH (Some e) (now + d) (recordFailure u (now + d) d p) Hnd).
      destruct (try_endpoints _ _ _ _ _ _) as [[r now'] p'].
      destruct IH as (tried & rest & g & -> & Ht & Ha & Hn & He & Hg).
      exists (u :: tried), rest, (fun e => g (if bool_decide (url e = u)
        then failed (failureThreshold p) (now + d) d e else e)).
      split_and!; [done| |done|simpl length in *; simpl timeoutMs in *; lia|
        by rewrite He; simpl; rewrite map_map|].
      * constructor; [|done]. unfold call_fails. by rewrite Hr.
      * intros e'. destruct (Hg (if bool_decide (url e' = u)
          then failed (failureThreshold p) (now + d) d e' else e')) as [-> ->].
        unfold recount. case_bool_decide as E; rewrite ?failed_url, ?failed_failures.
        -- split; [done|]. rewrite bool_decide_eq_false_2 by set_solver.
           rewrite (bool_decide_eq_true_2 (_ ∈ _ :: _)) by set_solver.
           rewrite bool_decide_eq_false_2; [done|]. intros Hh. apply Hu.
           destruct rest as [|v rest]; [done|]. injection Hh as ->. set_solver.
        -- split; [done|]. assert (url e' ∈ u :: tried <-> url e' ∈ tried) as Hiff by set_solver.
           by rewrite (bool_decide_ext _ _ Hiff).
Qed.
End Execute.

(** C39. A call is tried on the admitted endpoints, those with fewer failures and
    then the faster ones first, until one answers in time; it fails only when
    every admitted endpoint failed; it ends within one timeout per admitted
    endpoint even when servers hang; and exactly the endpoints that failed it
    are charged one failure while the one that answered is cleared. *)
Theorem execute_fails_over {T} (label : string) (operation : string -> Settles T) (now : Z)
    (p : RpcPool) :
  NoDup (map url (endpoints p)) -> 0 <= timeoutMs p ->
  let available := (availableEndpoints now p).1 in
  let '(r, now', p') := execute label operation now p in
  map url available ≡ₚ map url (List.filter (admits now (cooldownMs p)) (endpoints p)) /\
  StronglySorted (fun a b => before a b = true) available /\
  now' <= now + timeoutMs p * Z.of_nat (length available) /\
  exists tried rest,
    map url available = tried ++ rest /\ Forall (call_fails label operation (timeoutMs p)) tried /\
    answers_or_fails operation (timeoutMs p) rest r /\
    Forall2 (fun e e' => url e' = url e /\ failures e' = recount tried (head rest) e)
      (endpoints p) (endpoints p').
Proof.
  intros Hnd Ht available. unfold execute.
  assert (NoDup (map url available)) as Hnd'.
  { unfold available. rewrite available_urls. by apply map_url_filter_nodup. }
  pose proof (try_endpoints_spec label operation (map url available) None now
    (availableEndpoints now p).2 Hnd') as H.
  rewrite (surjective_pairing (availableEndpoints now p)). fold available.
  destruct (try_endpoints _ _ _ _ _ _) as [[r now'] p'].
  destruct H as (tried & rest & g & Hus & Hf & Ha & Hn & He & Hg).
  split_and!; [apply available_urls|apply sort_endpoints_sorted| |].
  - apply (f_equal length) in Hus. rewrite length_map, length_app in Hus.
    simpl timeoutMs in Hn. destruct rest; simpl in Hus; nia.
  - exists tried, rest. split_and!; [done..|]. rewrite He. simpl. rewrite map_map.
    clear -Hg. induction (endpoints p) as [|e es IH]; constructor; [|done].
    destruct (Hg (half_open now (cooldownMs p) e)) as [-> ->].
    rewrite half_open_url. split; [done|]. unfold recount. by rewrite half_open_url, half_open_failures.
Qed.

Lemma execute_fails_over_witness :
  let health u f := {| url := u; failures := f; latencyMs := Some 10; state := CLOSED; openedAt := None |} in
  let p := {| endpoints := [health "https://a" 1; health "https://b" 0; health "https://c" 2];
              failureThreshold := 5; cooldownMs := 60000; timeoutMs := 100 |} in
  let operation u := if bool_decide (u = "https://b") then None else Some (Returns 7, 30) in
  map failures (endpoints (execute "getEvents" operation 0 p).2) = [0; 1; 2] /\
  (execute "getEvents" operation 0 p).1.2 <= 0 + 100 * 3.
Proof.
  intros health p operation. split; [reflexivity|].
  assert (NoDup (map url (endpoints p))) as Hnd by by apply (bool_decide_eq_true_1 _); vm_compute.
  destruct (execute_fails_over "getEvents" operation 0 p Hnd ltac:(done)) as (_ & _ & H & _).
  exact H.
Defined.
