(* ===== verification/Webhook.v ===== *)
(** * Outgoing webhooks: backend/src/services/webhook.service.ts

    Subscriptions, signatures, deliveries with their retries, the disabling of
    dead subscriptions and the choice of subscribers.  The HMAC, the identifiers
    and secrets drawn, the ISO form of a date and the answers of the receiving
    server are arguments.  Time is the clock of the world, in milliseconds. *)
From S2P Require Import Prelude JsLang StreamId Json.
Local Open Scope Z_scope.

Record WebhookSubscription := {
  ws_id : string;
  userAddress : string;
  targetUrl : string;
  secretKey : string;
  eventTypes : list string;
  ws_isActive : bool
}.

Record WebhookPayload := { p_eventType : string; p_data : Json; p_timestamp : string }.

Record WebhookDelivery := {
  wd_id : string;
  subscriptionId : string;
  wd_eventType : string;
  wd_payload : string;
  responseStatus : option Z;
  wd_attempts : Z;
  deliveredAt : option Z;
  wd_error : option string
}.

(** A request as the receiver gets it. *)
Record Post := {
  post_url : string;
  post_t : Z; (* t= of X-FlowFi-Signature *)
  post_v1 : string; (* v1= of X-FlowFi-Signature *)
  post_event : string;
  post_deliveryId : string;
  post_body : string;
  post_at : Z (* when it was sent *)
}.

(** Rows are kept newest first, the order [createdAt: "desc"] asks for. *)
Record WebhookWorld := {
  subscriptions : list WebhookSubscription;
  deliveries : list WebhookDelivery;
  posts : list Post; (* oldest first *)
  clock : Z;
  drawn : nat
}.

Definition set_subscriptions v w := {| subscriptions := v; deliveries := deliveries w;
  posts := posts w; clock := clock w; drawn := drawn w |}.
Definition set_deliveries v w := {| subscriptions := subscriptions w; deliveries := v;
  posts := posts w; clock := clock w; drawn := drawn w |}.
Definition add_post p w := {| subscriptions := subscriptions w; deliveries := deliveries w;
  posts := posts w ++ [p]; clock := clock w; drawn := drawn w |}.
Definition wait (ms : Z) : Js WebhookWorld unit :=
  modify (fun w => {| subscriptions := subscriptions w; deliveries := deliveries w;
    posts := posts w; clock := clock w + ms; drawn := drawn w |}).
(** The next identifier or secret. *)
Definition draw (text : nat -> string) : Js WebhookWorld string := fun w =>
  (Returns (text (drawn w)),
   {| subscriptions := subscriptions w; deliveries := deliveries w; posts := posts w;
      clock := clock w; drawn := S (drawn w) |}).

Definition MAX_RETRY_ATTEMPTS : nat := 5.
Definition RETRY_DELAYS_MS : list Z := [0; 60000; 300000; 900000; 3600000].

(** How one request to the receiver ends, and after how many milliseconds. *)
Inductive FetchResult :=
| Response (status : Z) (elapsed : Z)
| FetchFails (message : string) (elapsed : Z).

Class WebhookEnv := {
  hmac_sha256_hex : string -> string -> string; (* key, message *)
  randomText : nat -> string; (* crypto.randomBytes(32), crypto.randomUUID(), uuid() *)
  toISOString : Z -> string;
  prisma_error_text : PrismaCode -> string
}.

Section Webhooks.
Context {Env : WebhookEnv}.

(** ** Signatures *)

Definition generateWebhookSignature (payload secret : string) (timestamp : Z) : string :=
  hmac_sha256_hex secret (BigInt_toString timestamp +:+ "." +:+ payload).

(** [crypto.timingSafeEqual] throws when the lengths differ. *)
Definition timingSafeEqual (a b : string) : outcome bool :=
  if Nat.eqb (String.length a) (String.length b) then Returns (bool_decide (a = b))
  else Throws RangeErr.

Definition DEFAULT_TOLERANCE : Z := 300.

(** [now] is [Date.now()]. *)
Definition verifyWebhookSignature (now : Z) (payload signature secret : string)
    (timestamp toleranceSeconds : Z) : outcome bool :=
  if toleranceSeconds <? Z.abs (now / 1000 - timestamp) then Returns false
  else timingSafeEqual signature (generateWebhookSignature payload secret timestamp).

(** ** Subscriptions *)

Definition startsWith (p s : string) : bool :=
  match strip p s with Some _ => true | None => false end.

Definition mine (id user : string) (s : WebhookSubscription) : bool :=
  bool_decide (ws_id s = id) && bool_decide (userAddress s = user).

Definition createWebhookSubscription (user url : string) (types : list string) :
    Js WebhookWorld WebhookSubscription :=
  if negb (startsWith "https://" url) then throw (ErrorMsg "Webhook URL must use HTTPS")
  else
    let! secret := draw randomText in
    let! id := draw randomText in
    let row := {| ws_id := id; userAddress := user; targetUrl := url; secretKey := secret;
                  eventTypes := types; ws_isActive := true |} in
    do! modify (fun w => set_subscriptions (row :: subscriptions w) w) in
    ret row.

Definition listWebhookSubscriptions (user : string) : Js WebhookWorld (list WebhookSubscription) :=
  gets (fun w => List.filter (fun s => bool_decide (userAddress s = user)) (subscriptions w)).

(** [webhookSubscription.updateMany]: every matching row, with their number. *)
Definition subscription_updateMany (f : WebhookSubscription -> bool)
    (upd : WebhookSubscription -> WebhookSubscription) : Js WebhookWorld Z := fun w =>
  (Returns (Z.of_nat (length (List.filter f (subscriptions w)))),
   set_subscriptions (map (fun s => if f s then upd s else s) (subscriptions w)) w).

Definition set_active (b : bool) (s : WebhookSubscription) := {|
  ws_id := ws_id s; userAddress := userAddress s; targetUrl := targetUrl s;
  secretKey := secretKey s; eventTypes := eventTypes s; ws_isActive := b |}.

Definition deleteWebhookSubscription (id user : string) : Js WebhookWorld unit :=
  do! subscription_updateMany (mine id user) (set_active false) in ret tt.

(** The [data] of an update.  The declared type has the first three columns; the
    object is the request body, which can hold any column. *)
Record UpdateInput := {
  in_targetUrl : option string;
  in_eventTypes : option (list string);
  in_isActive : option bool;
  in_secretKey : option string;
  in_userAddress : option string
}.

Definition apply_input (i : UpdateInput) (s : WebhookSubscription) := {|
  ws_id := ws_id s;
  userAddress := default (userAddress s) (in_userAddress i);
  targetUrl := default (targetUrl s) (in_targetUrl i);
  secretKey := default (secretKey s) (in_secretKey i);
  eventTypes := default (eventTypes s) (in_eventTypes i);
  ws_isActive := default (ws_isActive s) (in_isActive i) |}.

Definition find_subscription (f : WebhookSubscription -> bool) :
    Js WebhookWorld (option WebhookSubscription) :=
  gets (fun w => List.find f (subscriptions w)).

Definition NotFound : JsError := ErrorMsg "Webhook subscription not found".

(** A subscription without its secret. *)
Record SafeSubscription := {
  safe_id : string;
  safe_userAddress : string;
  safe_targetUrl : string;
  safe_eventTypes : list string;
  safe_isActive : bool
}.
Definition without_secret (s : WebhookSubscription) : SafeSubscription := {|
  safe_id := ws_id s; safe_userAddress := userAddress s; safe_targetUrl := targetUrl s;
  safe_eventTypes := eventTypes s; safe_isActive := ws_isActive s |}.

Definition updateWebhookSubscription (id user : string) (input : UpdateInput) :
    Js WebhookWorld SafeSubscription :=
  if match in_targetUrl input with Some u => negb (startsWith "https://" u) | None => false end
  then throw (ErrorMsg "Webhook URL must use HTTPS")
  else
    let! count := subscription_updateMany (mine id user) (apply_input input) in
    if count =? 0 then throw NotFound
    else
      let! updated := find_subscription (fun s => bool_decide (ws_id s = id)) in
      match updated with
      | None => throw (PrismaErr P2025)
      | Some updated => ret (without_secret updated)
      end.

Record DeliveryPage := {
  pg_deliveries : list WebhookDelivery;
  pg_total : Z;
  pg_page : Z;
  pg_limit : Z
}.

(** [Math.max(1, x || d)] *)
Definition at_least_1 (x : num) (d : Z) : num :=
  match num_or x d with Fin z => Fin (Z.max 1 z) | NegInf => Fin 1 | y => y end.

(** [page] and [limit] are the floors of the numbers read. *)
Definition listWebhookDeliveries (id user : string) (page limit : num) :
    Js WebhookWorld DeliveryPage :=
  let safePage := at_least_1 page 1 in
  let safeLimit := num_min (at_least_1 limit 20) 100 in
  let! subscription := find_subscription (mine id user) in
  match subscription with
  | None => throw NotFound
  | Some _ =>
      match safePage, safeLimit with
      | Fin p, Fin l =>
          gets (fun w =>
            let rows := List.filter (fun d => bool_decide (subscriptionId d = id)) (deliveries w) in
            {| pg_deliveries := take (Z.to_nat l) (drop (Z.to_nat ((p - 1) * l)) rows);
               pg_total := Z.of_nat (length rows); pg_page := p; pg_limit := l |})
      | _, _ => throw (PrismaErr PValidation)
      end
  end.

Definition set_secret (v : string) (s : WebhookSubscription) := {|
  ws_id := ws_id s; userAddress := userAddress s; targetUrl := targetUrl s;
  secretKey := v; eventTypes := eventTypes s; ws_isActive := ws_isActive s |}.

(** [webhookSubscription.update]: the row with the key, which must exist. *)
Definition subscription_update (id : string) (upd : WebhookSubscription -> WebhookSubscription) :
    Js WebhookWorld unit :=
  let! row := find_subscription (fun s => bool_decide (ws_id s = id)) in
  match row with
  | None => throw (PrismaErr P2025)
  | Some _ =>
      do! subscription_updateMany (fun s => bool_decide (ws_id s = id)) upd in ret tt
  end.

Definition regenerateWebhookSecret (id user : string) : Js WebhookWorld string :=
  let! owned := find_subscription (mine id user) in
  match owned with
  | None => throw NotFound
  | Some _ =>
      let! secret := draw randomText in
      do! subscription_update id (set_secret secret) in
      ret secret
  end.

(** ** Deliveries *)

Record DeliveryResult := { success : bool; status : option Z; res_error : option string }.

Definition ok_status (status : Z) : bool := (200 <=? status) && (status <? 300).

Definition payload_json (p : WebhookPayload) : string :=
  JSON_stringify (JObject [("eventType", JString (p_eventType p)); ("data", p_data p);
                           ("timestamp", JString (p_timestamp p))]).

(** [webhookDelivery.update], of a row that must exist *)
Definition delivery_update (id : string) (upd : Z -> WebhookDelivery -> WebhookDelivery) :
    Js WebhookWorld unit := fun w =>
  if existsb (fun d => bool_decide (wd_id d = id)) (deliveries w) then
    (Returns tt, set_deliveries
      (map (fun d => if bool_decide (wd_id d = id) then upd (clock w) d else d) (deliveries w)) w)
  else (Throws (PrismaErr P2025), w).

Definition responded (n : Z) (status : Z) (now : Z) (d : WebhookDelivery) : WebhookDelivery := {|
  wd_id := wd_id d; subscriptionId := subscriptionId d; wd_eventType := wd_eventType d;
  wd_payload := wd_payload d; responseStatus := Some status; wd_attempts := n;
  deliveredAt := if ok_status status then Some now else None;
  wd_error := if ok_status status then None else Some ("HTTP " +:+ BigInt_toString status) |}.
Definition errored (n : Z) (message : string) (_ : Z) (d : WebhookDelivery) : WebhookDelivery := {|
  wd_id := wd_id d; subscriptionId := subscriptionId d; wd_eventType := wd_eventType d;
  wd_payload := wd_payload d; responseStatus := responseStatus d; wd_attempts := n;
  deliveredAt := deliveredAt d; wd_error := Some message |}.

(** [error.message || "Network error"] *)
Definition network_error (m : string) : string :=
  match m with EmptyString => "Network error" | _ => m end.
Definition caught_text (e : JsError) : string :=
  network_error match e with ErrorMsg m => m | PrismaErr c => prisma_error_text c | _ => "" end.

(** The outcome of a step as a value. *)
Definition reify {A} (m : Js WebhookWorld A) : Js WebhookWorld (outcome A) :=
  fun w => let '(r, w') := m w in (Returns r, w').

Definition failing_streak (rows : list WebhookDelivery) : nat :=
  (fix go (rows : list WebhookDelivery) : nat :=
     match rows with
     | d :: rows' => match deliveredAt d with None => S (go rows') | Some _ => O end
     | [] => O
     end) rows.

Definition checkConsecutiveFailures (subscription : string) : Js WebhookWorld unit :=
  let! recentDeliveries := gets (fun w =>
    take 50 (List.filter (fun d => bool_decide (subscriptionId d = subscription)) (deliveries w))) in
  if Nat.leb 50 (failing_streak recentDeliveries)
  then subscription_update subscription (set_active false)
  else ret tt.

(** What stays the same over the attempts of one delivery. *)
Record Sending := {
  sd_subscription : WebhookSubscription;
  sd_event : string;
  sd_body : string;
  sd_timestamp : Z;
  sd_signature : string;
  sd_deliveryId : string;
  sd_record : string
}.

(** [fetch(...)]: the request leaves, its answer comes later. *)
Definition send (sd : Sending) (r : FetchResult) : Js WebhookWorld FetchResult :=
  do! modify (fun w => add_post
    {| post_url := targetUrl (sd_subscription sd); post_t := sd_timestamp sd;
       post_v1 := sd_signature sd; post_event := sd_event sd;
       post_deliveryId := sd_deliveryId sd; post_body := sd_body sd; post_at := clock w |} w) in
  do! wait (match r with Response _ ms | FetchFails _ ms => ms end) in
  ret r.

(** The catch block: the delivery row gets the error. *)
Definition attempt_failed (sd : Sending) (attempt : nat) (message : string) :
    Js WebhookWorld string :=
  do! delivery_update (sd_record sd) (errored (Z.of_nat attempt + 1) message) in
  ret message.

(** The attempts left, with [lastError] and [lastStatus]. *)
Fixpoint attempts_loop (sd : Sending) (fetch : nat -> FetchResult) (attempts : list nat)
    (lastError : option string) (lastStatus : option Z) : Js WebhookWorld DeliveryResult :=
  match attempts with
  | [] =>
      do! checkConsecutiveFailures (ws_id (sd_subscription sd)) in
      ret {| success := false; status := Some (default 0 lastStatus);
             res_error := Some (default "Unknown error"%string lastError) |}
  | attempt :: rest =>
      do! (if Nat.eqb attempt 0 then ret tt else wait (nth attempt RETRY_DELAYS_MS 0)) in
      let! response := send sd (fetch attempt) in
      match response with
      | FetchFails message _ =>
          let! message := attempt_failed sd attempt (network_error message) in
          attempts_loop sd fetch rest (Some message) lastStatus
      | Response code _ =>
          let! updated := reify (delivery_update (sd_record sd)
                                   (responded (Z.of_nat attempt + 1) code)) in
          match updated with
          | Throws e =>
              let! message := attempt_failed sd attempt (caught_text e) in
              attempts_loop sd fetch rest (Some message) (Some code)
          | Returns _ =>
              if ok_status code
              then ret {| success := true; status := Some code; res_error := None |}
              else attempts_loop sd fetch rest (Some ("HTTP " +:+ BigInt_toString code)) (Some code)
          end
      end
  end.

Definition deliverWebhook (fetch : nat -> FetchResult) (subscription : WebhookSubscription)
    (payload : WebhookPayload) : Js WebhookWorld DeliveryResult :=
  let payloadJson := payload_json payload in
  let! timestamp := gets (fun w => clock w / 1000) in
  let signature := generateWebhookSignature payloadJson (secretKey subscription) timestamp in
  let! deliveryId := draw randomText in
  let! record := draw randomText in
  do! modify (fun w => set_deliveries
    ({| wd_id := record; subscriptionId := ws_id subscription; wd_eventType := p_eventType payload;
        wd_payload := payloadJson; responseStatus := None; wd_attempts := 0; deliveredAt := None;
        wd_error := None |} :: deliveries w) w) in
  attempts_loop
    {| sd_subscription := subscription; sd_event := p_eventType payload; sd_body := payloadJson;
       sd_timestamp := timestamp; sd_signature := signature; sd_deliveryId := deliveryId;
       sd_record := record |} fetch (seq 0 MAX_RETRY_ATTEMPTS) None None.

Definition sendTestWebhook (fetch : nat -> FetchResult) (id user : string) :
    Js WebhookWorld DeliveryResult :=
  let! subscription := find_subscription (fun s => mine id user s && ws_isActive s) in
  match subscription with
  | None => throw NotFound
  | Some s =>
      let! now := gets clock in
      deliverWebhook fetch s
        {| p_eventType := "TEST_PING";
           p_data := JObject [("message", JString "This is a test webhook delivery from FlowFi")];
           p_timestamp := toISOString now |}
  end.

(** The deliveries an event starts, in parallel: each subscription, one payload. *)
Definition dispatchWebhookEvent (eventType : string) (data : Json) (userAddresses : list string) :
    Js WebhookWorld (list (WebhookSubscription * WebhookPayload)) :=
  let! chosen := gets (fun w => List.filter (fun s =>
    bool_decide (userAddress s ∈ userAddresses) && ws_isActive s &&
    bool_decide (eventType ∈ eventTypes s)) (subscriptions w)) in
  let! now := gets clock in
  ret (map (fun s => (s, {| p_eventType := eventType; p_data := data;
                            p_timestamp := toISOString now |})) chosen).
End Webhooks.

(** * Properties of the outgoing webhooks

    The requests of a delivery and the record they leave; what the signature of
    a late attempt is worth; who can change a subscription. *)

From stdpp Require Import sorting.
Local Open Scope Z_scope.

Section WebhookFacts.
Context {Env : WebhookEnv}.

Definition elapsed (r : FetchResult) : Z := match r with Response _ ms | FetchFails _ ms => ms end.
Definition ok_at (fetch : nat -> FetchResult) (k : nat) : bool :=
  match fetch k with Response code _ => ok_status code | FetchFails _ _ => false end.

(** When attempt [k] is sent, from the start of the delivery. *)
Fixpoint offset (fetch : nat -> FetchResult) (k : nat) : Z :=
  match k with
  | O => 0
  | S k' => offset fetch k' + elapsed (fetch k') + nth k RETRY_DELAYS_MS 0
  end.

(** The number of attempts out of [m], from attempt [k]. *)
Fixpoint tries (fetch : nat -> FetchResult) (k m : nat) : nat :=
  match m with
  | O => O
  | S m' => if ok_at fetch k then 1 else S (tries fetch (S k) m')
  end.

Definition post_of (sd : Sending) (fetch : nat -> FetchResult) (t0 : Z) (k : nat) : Post := {|
  post_url := targetUrl (sd_subscription sd); post_t := sd_timestamp sd;
  post_v1 := sd_signature sd; post_event := sd_event sd; post_deliveryId := sd_deliveryId sd;
  post_body := sd_body sd; post_at := t0 + offset fetch k |}.

Definition record_row (id : string) (w : WebhookWorld) : option WebhookDelivery :=
  List.find (fun d => bool_decide (wd_id d = id)) (deliveries w).

Lemma find_existsb {A} (f : A -> bool) xs : existsb f xs = is_some (List.find f xs).
Proof. induction xs as [|x xs IH]; [done|]. simpl. by destruct (f x). Qed.

Lemma find_map_update id (upd : WebhookDelivery -> WebhookDelivery) ds :
  (forall d, wd_id (upd d) = wd_id d) ->
  List.find (fun d => bool_decide (wd_id d = id))
    (map (fun d => if bool_decide (wd_id d = id) then upd d else d) ds) =
  upd <$> List.find (fun d => bool_decide (wd_id d = id)) ds.
Proof.
  intros H. induction ds as [|d ds IH]; [done|]. simpl. destruct (decide (wd_id d = id)) as [E|E].
  - rewrite (bool_decide_eq_true_2 (wd_id d = id)) by done. by rewrite H, bool_decide_eq_true_2.
  - by rewrite !(bool_decide_eq_false_2 (wd_id d = id)) by done.
Qed.

Lemma delivery_update_spec id upd w row :
  (forall t d, wd_id (upd t d) = wd_id d) -> record_row id w = Some row ->
  exists w', delivery_update id upd w = (Returns tt, w') /\
    record_row id w' = Some (upd (clock w) row) /\ posts w' = posts w /\ clock w' = clock w /\
    subscriptions w' = subscriptions w.
Proof.
  intros H Hrow. unfold delivery_update. rewrite find_existsb. unfold record_row in *. rewrite Hrow.
  simpl. eexists. split; [done|]. simpl. rewrite find_map_update by done. by rewrite Hrow.
Qed.

(** The subscription exists, so disabling it does not throw. *)
Definition has_subscription (id : string) (w : WebhookWorld) : bool :=
  existsb (fun s => bool_decide (ws_id s = id)) (subscriptions w).

Lemma check_failures_returns id w :
  has_subscription id w = true ->
  exists w', checkConsecutiveFailures id w = (Returns tt, w') /\
    deliveries w' = deliveries w /\ posts w' = posts w.
Proof.
  unfold has_subscription. rewrite find_existsb. intros H. unfold checkConsecutiveFailures, bind. simpl.
  case_match; [|by eexists].
  unfold subscription_update, bind. simpl. destruct (List.find _ _); [|done]. by eexists.
Qed.

(** One attempt's wait and request. *)
Lemma send_spec sd fetch t0 k w :
  clock w + nth k RETRY_DELAYS_MS 0 = t0 + offset fetch k ->
  exists w',
    (do! (if Nat.eqb k 0 then ret tt else wait (nth k RETRY_DELAYS_MS 0)) in send sd (fetch k)) w =
      (Returns (fetch k), w') /\
    posts w' = posts w ++ [post_of sd fetch t0 k] /\ deliveries w' = deliveries w /\
    subscriptions w' = subscriptions w /\ clock w' = t0 + offset fetch k + elapsed (fetch k).
Proof.
  intros Hc. unfold bind, send, post_of. destruct k as [|k]; simpl Nat.eqb; cbn iota.
  - change (nth 0 RETRY_DELAYS_MS 0) with 0 in Hc.
    eexists. split; [reflexivity|]. cbn -[offset nth] in *. replace (clock w) with (t0 + offset fetch 0) by lia.
    by destruct (fetch 0%nat).
  - eexists. split; [reflexivity|]. cbn -[offset nth] in *. rewrite Hc. by destruct (fetch (S k)).
Qed.

Lemma bind_Returns_l {A B} (m : Js WebhookWorld A) (f : A -> Js WebhookWorld B) w a w' :
  m w = (Returns a, w') -> bind m f w = f a w'.
Proof. unfold bind. by intros ->. Qed.

Lemma bind_assoc {A B C} (m : Js WebhookWorld A) (f : A -> Js WebhookWorld B)
    (g : B -> Js WebhookWorld C) w :
  bind m (fun a => bind (f a) g) w = bind (bind m f) g w.
Proof. unfold bind. by destruct (m w) as [[a|e] w']. Qed.

(** The row a delivery leaves: [n] attempts, delivered or not. *)
Definition record_after (ok : bool) (n : nat) (at_ : Z) (before after : WebhookDelivery) : Prop :=
  wd_payload after = wd_payload before /\ subscriptionId after = subscriptionId before /\
  wd_attempts after = Z.of_nat n /\
  deliveredAt after = (if ok then Some at_ else None) /\ is_some (wd_error after) = negb ok.

Lemma attempts_loop_spec sd fetch t0 m : forall k w row lastError lastStatus,
  record_row (sd_record sd) w = Some row -> deliveredAt row = None ->
  has_subscription (ws_id (sd_subscription sd)) w = true ->
  clock w + nth k RETRY_DELAYS_MS 0 = t0 + offset fetch k ->
  (m = 0%nat -> wd_attempts row = Z.of_nat k /\ is_some (wd_error row) = true) ->
  let n := tries fetch k m in
  let ok := existsb (ok_at fetch) (seq k m) in
  exists r w' row',
    attempts_loop sd fetch (seq k m) lastError lastStatus w = (Returns r, w') /\
    success r = ok /\ posts w' = posts w ++ map (post_of sd fetch t0) (seq k n) /\
    record_row (sd_record sd) w' = Some row' /\
    record_after ok (k + n) (t0 + offset fetch (k + n - 1) + elapsed (fetch (k + n - 1)%nat)) row row'.
Proof.
  induction m as [|m IH]; intros k w row lastError lastStatus Hrow Hd Hsub Hc Hm; simpl.
  - destruct (check_failures_returns _ w Hsub) as (w' & Hw' & Hdel & Hp).
    destruct (Hm eq_refl) as [Ha He].
    eexists _, w', row. rewrite (bind_Returns_l _ _ _ _ _ Hw'). split; [done|].
    unfold record_row. rewrite Hdel, Hp, app_nil_r. split_and!; try done.
    by rewrite Nat.add_0_r.
  - destruct (send_spec sd fetch t0 k w Hc) as (w1 & H1 & Hp1 & Hd1 & Hs1 & Hc1).
    rewrite bind_assoc, (bind_Returns_l _ _ _ _ _ H1).
    assert (Hrow1 : record_row (sd_record sd) w1 = Some row) by (unfold record_row; by rewrite Hd1).
    assert (Hretry : forall w2 row2 lE lS, record_row (sd_record sd) w2 = Some row2 ->
      deliveredAt row2 = None -> subscriptions w2 = subscriptions w1 -> clock w2 = clock w1 ->
      posts w2 = posts w1 -> wd_payload row2 = wd_payload row ->
      subscriptionId row2 = subscriptionId row -> wd_attempts row2 = Z.of_nat k + 1 ->
      is_some (wd_error row2) = true -> ok_at fetch k = false ->
      exists r w' row',
        attempts_loop sd fetch (seq (S k) m) lE lS w2 = (Returns r, w') /\
        success r = existsb (ok_at fetch) (seq (S k) m) /\
        posts w' = posts w ++ map (post_of sd fetch t0) (seq k (S (tries fetch (S k) m))) /\
        record_row (sd_record sd) w' = Some row' /\
        record_after (existsb (ok_at fetch) (seq (S k) m)) (k + S (tries fetch (S k) m))
          (t0 + offset fetch (k + S (tries fetch (S k) m) - 1) +
           elapsed (fetch (k + S (tries fetch (S k) m) - 1)%nat)) row row').
    { intros w2 row2 lE lS Hrow2 Hdel2 Hsub2 Hc2 Hp2 Hpay2 Hsid2 Hatt2 Herr2 Hok.
      destruct (IH (S k) w2 row2 lE lS) as (r & w' & row' & E & Hr & Hps & Hrow' & Ha); try done.
      - unfold has_subscription. by rewrite Hsub2, Hs1.
      - rewrite Hc2, Hc1. cbn [offset]. lia.
      - intros ->. split; [lia|done].
      - exists r, w', row'. split_and!; try done.
        + rewrite Hps, Hp2, Hp1, <- app_assoc. done.
        + destruct Ha as (A1 & A2 & A3 & A4 & A5).
          replace (k + S (tries fetch (S k) m))%nat with (S k + tries fetch (S k) m)%nat by lia.
          split_and!; [congruence..|done|done|done]. }
    unfold ok_at in *. destruct (fetch k) as [code ms|message ms] eqn:Hf; simpl.
    + destruct (delivery_update_spec (sd_record sd) (responded (Z.of_nat k + 1) code) w1 row)
        as (w2 & Hu & Hrow2 & Hp2 & Hc2 & Hs2); [done|done|].
      erewrite bind_Returns_l by (unfold reify; by rewrite Hu). cbn iota.
      destruct (ok_status code) eqn:Hok; simpl.
      * eexists _, w2, _. split; [done|]. rewrite Hrow2, Hp2, Hp1. split_and!; try done.
        unfold record_after, responded. simpl. rewrite Hok.
        replace (k + 1 - 1)%nat with k by lia. rewrite Hf, Hc1. simpl. split_and!; try done.
        lia.
      * apply (Hretry w2 (responded (Z.of_nat k + 1) code (clock w1) row)); try done;
          unfold responded; simpl; by rewrite Hok.
    + unfold attempt_failed.
      destruct (delivery_update_spec (sd_record sd) (errored (Z.of_nat k + 1) (network_error message))
        w1 row) as (w2 & Hu & Hrow2 & Hp2 & Hc2 & Hs2); [done|done|].
      erewrite bind_Returns_l by (erewrite bind_Returns_l by exact Hu; reflexivity).
      by apply (Hretry w2 (errored (Z.of_nat k + 1) (network_error message) (clock w1) row)).
Qed.

Lemma tries_bounds fetch k m : (0 < m -> 1 <= tries fetch k m)%nat /\ (tries fetch k m <= m)%nat.
Proof. revert k. induction m as [|m IH]; intros k; simpl; [lia|]. specialize (IH (S k)). case_match; lia. Qed.

(** What a delivery of [payload] to [s] keeps over its attempts. *)
Definition sending_of (s : WebhookSubscription) (payload : WebhookPayload) (w : WebhookWorld) :
    Sending :=
  let body := payload_json payload in
  let t := clock w / 1000 in
  {| sd_subscription := s; sd_event := p_eventType payload; sd_body := body; sd_timestamp := t;
     sd_signature := generateWebhookSignature body (secretKey s) t;
     sd_deliveryId := randomText (drawn w); sd_record := randomText (S (drawn w)) |}.

Lemma deliverWebhook_spec fetch s payload w :
  has_subscription (ws_id s) w = true ->
  let sd := sending_of s payload w in
  let n := tries fetch 0 MAX_RETRY_ATTEMPTS in
  let ok := existsb (ok_at fetch) (seq 0 MAX_RETRY_ATTEMPTS) in
  exists r w' row',
    deliverWebhook fetch s payload w = (Returns r, w') /\ success r = ok /\
    posts w' = posts w ++ map (post_of sd fetch (clock w)) (seq 0 n) /\
    record_row (sd_record sd) w' = Some row' /\
    subscriptionId row' = ws_id s /\ wd_payload row' = sd_body sd /\ wd_attempts row' = Z.of_nat n /\
    deliveredAt row' = (if ok then Some (clock w + offset fetch (n - 1) + elapsed (fetch (n - 1)%nat))
                        else None) /\
    is_some (wd_error row') = negb ok.
Proof.
  intros Hsub sd n ok.
  pose (row := {| wd_id := sd_record sd; subscriptionId := ws_id s; wd_eventType := p_eventType payload;
    wd_payload := sd_body sd; responseStatus := None; wd_attempts := 0; deliveredAt := None;
    wd_error := None |}).
  pose (w1 := {| subscriptions := subscriptions w; deliveries := row :: deliveries w;
    posts := posts w; clock := clock w; drawn := S (S (drawn w)) |}).
  destruct (attempts_loop_spec sd fetch (clock w) MAX_RETRY_ATTEMPTS 0 w1 row None None)
    as (r & w' & row' & E & Hr & Hp & Hrow & H1 & H2 & H3 & H4 & H5); try done.
  - unfold record_row. simpl. by rewrite bool_decide_eq_true_2.
  - by exists r, w', row'.
Qed.

(** C38. A delivery sends the event at once and then one, five, fifteen and sixty
    minutes after each answer, until an answer is 2xx and never more than five
    times; every request carries the same body, signature and delivery
    identifier; the call reports success exactly when some attempt succeeded;
    and the record ends with the number of requests made, the time of the
    success, or an error. *)
Theorem webhook_attempts (fetch : nat -> FetchResult) (s : WebhookSubscription)
    (payload : WebhookPayload) (w : WebhookWorld) :
  has_subscription (ws_id s) w = true ->
  exists r w' row' n,
    deliverWebhook fetch s payload w = (Returns r, w') /\ (1 <= n <= 5)%nat /\
    posts w' = posts w ++ map (post_of (sending_of s payload w) fetch (clock w)) (seq 0 n) /\
    (forall k, (k < n - 1)%nat -> ok_at fetch k = false) /\
    success r = ok_at fetch (n - 1) /\ (success r = false -> n = 5%nat) /\
    record_row (sd_record (sending_of s payload w)) w' = Some row' /\
    wd_payload row' = payload_json payload /\ wd_attempts row' = Z.of_nat n /\
    deliveredAt row' =
      (if success r then Some (clock w + offset fetch (n - 1) + elapsed (fetch (n - 1)%nat)) else None) /\
    is_some (wd_error row') = negb (success r).
Proof.
  intros Hsub.
  destruct (deliverWebhook_spec fetch s payload w Hsub)
    as (r & w' & row' & E & Hr & Hp & Hrow & H1 & H2 & H3 & H4 & H5).
  exists r, w', row', (tries fetch 0 MAX_RETRY_ATTEMPTS).
  pose proof (tries_bounds fetch 0 MAX_RETRY_ATTEMPTS) as [Hlo Hhi].
  assert (Hcases : forall m k, (0 < m)%nat ->
    (forall j, (j < tries fetch k m - 1)%nat -> ok_at fetch (k + j) = false) /\
    existsb (ok_at fetch) (seq k m) = ok_at fetch (k + tries fetch k m - 1) /\
    (existsb (ok_at fetch) (seq k m) = false -> tries fetch k m = m)).
  { clear. induction m as [|m IH]; intros k Hm; [lia|]. simpl. destruct (ok_at fetch k) eqn:Hok.
    - split_and!; [intros; lia| |done]. by replace (k + 1 - 1)%nat with k by lia.
    - destruct m as [|m].
      + simpl. replace (k + 1 - 1)%nat with k by lia. split_and!; [intros; lia|done|done].
      + destruct (IH (S k) ltac:(lia)) as (I1 & I2 & I3).
        pose proof (tries_bounds fetch (S k) (S m)) as [? _]. split_and!.
        * intros [|j] Hj; [by rewrite Nat.add_0_r|]. rewrite <- Nat.add_succ_comm. apply I1. lia.
        * change (existsb (ok_at fetch) (seq (S k) (S m)) =
            ok_at fetch (k + S (tries fetch (S k) (S m)) - 1)). rewrite I2. f_equal. lia.
        * intros H'. by rewrite I3. }
  destruct (Hcases MAX_RETRY_ATTEMPTS 0%nat ltac:(unfold MAX_RETRY_ATTEMPTS; lia)) as (C1 & C2 & C3).
  rewrite C2 in *. rewrite Hr. split_and!; try done; unfold MAX_RETRY_ATTEMPTS in *; lia.
Qed.

(** ** Signatures *)

Lemma verify_own now payload secret t tolerance :
  Z.abs (now / 1000 - t) <= tolerance ->
  verifyWebhookSignature now payload (generateWebhookSignature payload secret t) secret t tolerance =
  Returns true.
Proof.
  intros H. unfold verifyWebhookSignature, timingSafeEqual.
  case (Z.ltb_spec tolerance (Z.abs (now / 1000 - t))); [lia|].
  by rewrite Nat.eqb_refl, bool_decide_eq_true_2.
Qed.

Lemma delays_nonneg k : 0 <= nth k RETRY_DELAYS_MS 0.
Proof. do 5 (destruct k as [|k]; [by simpl; lia|]). by destruct k. Qed.

Lemma offset_nonneg fetch k : (forall j, 0 <= elapsed (fetch j)) -> 0 <= offset fetch k.
Proof.
  intros H. induction k as [|k IH]; cbn [offset]; [done|]. pose proof (H k).
  pose proof (delays_nonneg (S k)). lia.
Qed.

(** The signature is made once, before the first attempt, so the verifier the
    service publishes accepts it only on the attempts of the first five
    minutes: every request from the third attempt on, whenever it arrives, is
    rejected as too old, although it is genuine. *)
Theorem late_attempts_rejected (fetch : nat -> FetchResult) (s : WebhookSubscription)
    (payload : WebhookPayload) (w : WebhookWorld) (k : nat) (now : Z) :
  (forall j, 0 <= elapsed (fetch j)) ->
  let p := post_of (sending_of s payload w) fetch (clock w) k in
  post_at p <= now ->
  let verdict :=
    verifyWebhookSignature now (post_body p) (post_v1 p) (secretKey s) (post_t p) DEFAULT_TOLERANCE in
  ((2 <= k)%nat -> verdict = Returns false) /\
  (now <= clock w + 300000 -> verdict = Returns true).
Proof.
  intros He p Hp verdict. unfold verdict, p in *. clear verdict p. cbn [post_at post_t post_v1 post_body post_of
    sending_of sd_timestamp sd_signature sd_body] in *. unfold DEFAULT_TOLERANCE. split.
  - intros Hk. unfold verifyWebhookSignature.
    case (Z.ltb_spec 300 (Z.abs (now / 1000 - clock w / 1000))); [done|]. intros Hc. exfalso.
    assert (360000 <= offset fetch k) as Ho.
    { clear -He Hk. induction k as [|k IH]; [lia|]. destruct (decide (k = 1%nat)) as [->|Hn].
      - simpl. pose proof (He 0%nat). pose proof (He 1%nat). lia.
      - pose proof (He k). specialize (IH ltac:(lia)). cbn [offset].
        pose proof (delays_nonneg (S k)). lia. }
    pose proof (Z.div_mod now 1000 ltac:(lia)). pose proof (Z.mod_pos_bound now 1000 ltac:(lia)).
    pose proof (Z.div_mod (clock w) 1000 ltac:(lia)). pose proof (Z.mod_pos_bound (clock w) 1000 ltac:(lia)).
    lia.
  - intros Hn. apply verify_own. pose proof (offset_nonneg fetch k He).
    assert (clock w / 1000 <= now / 1000) by (apply Z.div_le_mono; lia).
    assert (now / 1000 <= (clock w + 300 * 1000) / 1000) by (apply Z.div_le_mono; lia).
    rewrite Z.div_add in * by lia. lia.
Qed.

(** ** Disabling *)

Definition undelivered (d : WebhookDelivery) : bool := negb (is_some (deliveredAt d)).

Lemma failing_streak_all n rows :
  (n <= failing_streak (take n rows))%nat <->
  ((n <= length rows)%nat /\ forallb undelivered (take n rows) = true).
Proof.
  revert rows. induction n as [|n IH]; intros rows; [split; [split; [lia|done]|simpl; lia]|].
  destruct rows as [|d rows]; simpl; [split; [lia|intros [? _]; lia]|].
  unfold undelivered at 1. destruct (deliveredAt d); simpl.
  - split; [lia|by intros [_ ?]].
  - rewrite <- Nat.succ_le_mono, IH. split; intros [? ?]; (split; [lia|done]).
Qed.

(** A delivery that gave up disables its subscription exactly when the fifty
    latest delivery records of the subscription, and no fewer, all lack a
    delivery time; nothing else changes. A record whose delivery is still
    being retried lacks one too. *)
Theorem disabled_after_fifty (id : string) (w : WebhookWorld) :
  has_subscription id w = true ->
  let rows := List.filter (fun d => bool_decide (subscriptionId d = id)) (deliveries w) in
  let dead := Nat.leb 50 (length rows) && forallb undelivered (take 50 rows) in
  exists w', checkConsecutiveFailures id w = (Returns tt, w') /\
    subscriptions w' = map (fun s =>
      if bool_decide (ws_id s = id) && dead then set_active false s else s) (subscriptions w) /\
    deliveries w' = deliveries w /\ posts w' = posts w.
Proof.
  intros Hsub rows dead. unfold checkConsecutiveFailures, bind, gets. cbn beta iota.
  fold rows.
  assert (Nat.leb 50 (failing_streak (take 50 rows)) = dead) as ->.
  { unfold dead. apply eq_true_iff_eq. rewrite andb_true_iff, !Nat.leb_le. apply failing_streak_all. }
  unfold has_subscription in Hsub. rewrite find_existsb in Hsub. cbn beta iota. destruct dead.
  - unfold subscription_update, bind. simpl. destruct (List.find _ _); [|done].
    eexists. split; [done|]. simpl. split_and!; try done.
    apply map_ext. intros a. by rewrite andb_true_r.
  - eexists. split; [done|]. split_and!; try done.
    rewrite <- (map_id (subscriptions w)) at 1. apply map_ext. intros a. by rewrite andb_false_r.
Qed.

(** ** Ownership *)

Lemma updateMany_keeps f upd s w :
  s ∈ subscriptions w -> f s = false ->
  s ∈ subscriptions (subscription_updateMany f upd w).2.
Proof.
  intros Hs Hf. simpl. apply list_elem_of_fmap. exists s. by rewrite Hf.
Qed.

(** Deleting, updating and rotating the secret under one address leave every
    subscription of another address as it was, whatever identifier is given;
    an update or a rotation of a subscription the address does not own fails.
    The address is all the service asks for. *)
Theorem webhook_ownership (id user : string) (input : UpdateInput) (s : WebhookSubscription)
    (w : WebhookWorld) :
  NoDup (map ws_id (subscriptions w)) -> s ∈ subscriptions w -> userAddress s <> user ->
  s ∈ subscriptions (deleteWebhookSubscription id user w).2 /\
  s ∈ subscriptions (updateWebhookSubscription id user input w).2 /\
  s ∈ subscriptions (regenerateWebhookSecret id user w).2 /\
  (ws_id s = id ->
   is_returns (updateWebhookSubscription id user input w).1 = false /\
   regenerateWebhookSecret id user w = (Throws NotFound, w)).
Proof.
  intros Hnd Hs Hu.
  assert (Hmine : mine id user s = false).
  { unfold mine. rewrite (bool_decide_eq_false_2 (userAddress s = user)) by done. apply andb_false_r. }
  assert (Hone : forall t, t ∈ subscriptions w -> mine id user t = true -> ws_id s = id -> False).
  { intros t Ht [E1%bool_decide_eq_true E2%bool_decide_eq_true]%andb_prop Es.
    apply Hu. rewrite <- E2. f_equal. clear -Hnd Hs Ht E1 Es.
    induction (subscriptions w) as [|a l IH]; [set_solver|]. simpl in Hnd.
    apply NoDup_cons in Hnd as [Ha Hnd].
    apply elem_of_cons in Hs as [->|Hs], Ht as [->|Ht]; [done| | |by apply IH].
    - exfalso. apply Ha. rewrite Es, <- E1. apply list_elem_of_fmap. eauto.
    - exfalso. apply Ha. rewrite E1, <- Es. apply list_elem_of_fmap. eauto. }
  assert (Hnone : ws_id s = id -> List.filter (mine id user) (subscriptions w) = []).
  { intros E. destruct (List.filter _ _) as [|t ts] eqn:Hf; [done|]. exfalso.
    assert (In t (List.filter (mine id user) (subscriptions w))) as Hin by (rewrite Hf; by left).
    apply filter_In in Hin as [Hin Ht]. eapply Hone; [by apply list_elem_of_In|done|done]. }
  split_and!.
  - by apply (updateMany_keeps _ (set_active false)).
  - unfold updateWebhookSubscription, bind, throw. case_match; [done|].
    pose proof (updateMany_keeps (mine id user) (apply_input input) s w Hs Hmine) as Hk.
    destruct (subscription_updateMany _ _ w) as [[c|e] w'] eqn:E; [|done]. simpl in Hk.
    destruct (c =? 0); [done|]. simpl. by destruct (List.find _ _).
  - unfold regenerateWebhookSecret, bind, find_subscription, gets.
    destruct (List.find (mine id user) (subscriptions w)) as [t|] eqn:Hf; [|done].
    apply find_some in Hf as [Ht Hm]. apply list_elem_of_In in Ht.
    unfold draw, subscription_update, bind, find_subscription, gets. simpl.
    destruct (List.find (fun s0 => bool_decide (ws_id s0 = id)) (subscriptions w)); [|done]. simpl.
    apply list_elem_of_fmap. exists s. split; [|done]. case_bool_decide; [|done].
    exfalso. by eapply Hone.
  - intros E. specialize (Hnone E). split.
    + unfold updateWebhookSubscription, bind, throw. case_match; [done|]. simpl. by rewrite Hnone.
    + unfold regenerateWebhookSecret, bind, find_subscription, gets.
      destruct (List.find (mine id user) (subscriptions w)) as [t|] eqn:Hf; [|done]. exfalso.
      apply find_some in Hf as [Ht Hm]. eapply Hone; [by apply list_elem_of_In|done|done].
Qed.
End WebhookFacts.

(** ** Witnesses *)

#[local] Instance sample_env : WebhookEnv := {|
  hmac_sha256_hex := fun key text => key +:+ text;
  randomText := fun n => BigInt_toString (Z.of_nat n);
  toISOString := BigInt_toString;
  prisma_error_text := fun _ => "error" |}.

Definition sample_subscription (id user : string) : WebhookSubscription := {|
  ws_id := id; userAddress := user; targetUrl := "https://example.org"; secretKey := "s";
  eventTypes := ["STREAM_CREATED"]; ws_isActive := true |}.
Definition sample_world : WebhookWorld := {|
  subscriptions := [sample_subscription "a" "GA"; sample_subscription "b" "GB"];
  deliveries := []; posts := []; clock := 1700000000000; drawn := 7 |}.
Definition sample_payload : WebhookPayload :=
  {| p_eventType := "STREAM_CREATED"; p_data := JNull; p_timestamp := "now" |}.
(** Two failures, then an answer. *)
Definition recovering (k : nat) : FetchResult :=
  match k with 0%nat => Response 503 120 | 1%nat => FetchFails "" 10000 | _ => Response 204 80 end.

Lemma webhook_attempts_witness :
  exists n, (1 <= n <= 5)%nat /\
    map post_at (posts (deliverWebhook recovering (sample_subscription "a" "GA") sample_payload
                          sample_world).2) =
      map (fun k => clock sample_world + offset recovering k) (seq 0 n) /\
    map (offset recovering) (seq 0 3) = [0; 60120; 370120].
Proof.
  destruct (webhook_attempts recovering (sample_subscription "a" "GA") sample_payload sample_world
    ltac:(reflexivity)) as (r & w' & row' & n & E & Hn & Hp & _).
  exists n. split; [exact Hn|]. rewrite E. cbn [snd]. rewrite Hp.
  change (posts sample_world) with ([] : list Post). rewrite app_nil_l, map_map.
  split; reflexivity.
Defined.

Lemma late_attempts_rejected_witness :
  let p := post_of (sending_of (sample_subscription "a" "GA") sample_payload sample_world)
             recovering (clock sample_world) 2 in
  verifyWebhookSignature (post_at p + 35) (post_body p) (post_v1 p) "s" (post_t p) DEFAULT_TOLERANCE =
  Returns false.
Proof.
  intros p.
  apply (late_attempts_rejected recovering (sample_subscription "a" "GA") sample_payload sample_world
    2 (post_at p + 35)); [|unfold p; lia|lia].
  intros [|[|j]]; simpl; lia.
Defined.

Lemma disabled_after_fifty_witness :
  exists w', checkConsecutiveFailures "a" sample_world = (Returns tt, w') /\
    subscriptions w' = subscriptions sample_world.
Proof.
  destruct (disabled_after_fifty "a" sample_world ltac:(reflexivity)) as (w' & E & Hs & _).
  exists w'. split; [exact E|]. rewrite Hs. reflexivity.
Defined.

Lemma webhook_ownership_witness :
  regenerateWebhookSecret "b" "GA" sample_world = (Throws NotFound, sample_world).
Proof.
  apply (webhook_ownership "b" "GA" {| in_targetUrl := None; in_eventTypes := None;
    in_isActive := None; in_secretKey := None; in_userAddress := None |}
    (sample_subscription "b" "GB") sample_world).
  - by apply (bool_decide_eq_true_1 _); vm_compute.
  - right. left.
  - discriminate.
  - reflexivity.
Defined.
