(* ===== verification/Runway.v ===== *)
(** * Low-balance alerts: backend/src/workers/stream-runway-worker.ts

    One run of the hourly check over the stream rows, with the claimable service
    and its cache, the alert history and the messages sent.  The clock stands
    still during a run; how the hours are printed (a floating-point division)
    and the ISO form of a date are arguments. *)
From S2P Require Import Prelude JsLang StreamId Json Schema Xdr Contract MemoryCache Claimable ClaimableFacts.
From stdpp Require Import sorting.
Local Open Scope Z_scope.

Definition WARNING_THRESHOLD_HOURS : Z := 48.
Definition CRITICAL_THRESHOLD_HOURS : Z := 24.
Definition DEDUPLICATION_WINDOW_HOURS : Z := 24.

Record RunwayCalculation := {
  rc_streamId : Z;
  remainingRunwaySeconds : num;
  unclaimedBalance : Z;
  claimableNow : Z;
  rc_sender : string;
  rc_recipient : string
}.

Record AlertHistory := { al_streamId : Z; alertType : string; sentAt : Z }.

Record RunwayWorld := {
  alertHistory : list AlertHistory; (* oldest first *)
  sent : list SseMessage; (* oldest first *)
  cache : MemoryCache ClaimableValue
}.

Definition on_cache {A} (m : Js (MemoryCache ClaimableValue) A) : Js RunwayWorld A := fun w =>
  let '(r, c) := m (cache w) in
  (r, {| alertHistory := alertHistory w; sent := sent w; cache := c |}).

Class RunwayEnv := {
  cacheTtlMs : Z;
  hours_json : num -> Json; (* Math.floor(seconds / 3600 * 10) / 10 *)
  runway_toISOString : Z -> string
}.

Section Runway.
Context {Env : RunwayEnv}.

(** The object literal handed to the service: no [updatedAt]. *)
Definition runway_state (r : Stream) : ClaimableStreamState := {|
  cs_streamId := streamId r; cs_ratePerSecond := ratePerSecond r;
  cs_depositedAmount := depositedAmount r; cs_withdrawnAmount := withdrawnAmount r;
  cs_startTime := startTime r; cs_lastUpdateTime := lastUpdateTime r;
  cs_isActive := isActive r; cs_isPaused := isPaused r; cs_pausedAt := pausedAt r;
  cs_totalPausedDuration := totalPausedDuration r; cs_updatedAt := None |}.

(** [t] is [Date.now()], [now] the second it falls in. *)
Definition calculateStreamRunway (t now : Z) (stream : Stream) : Js RunwayWorld RunwayCalculation :=
  let! result := on_cache (getClaimableAmount cacheTtlMs t t (runway_state stream) (Some now)) in
  let! claimable := lift (BigInt_of_string (claimableAmount (Claimable.result result))) in
  let! deposited := lift (BigInt_of_string (depositedAmount stream)) in
  let! withdrawn := lift (BigInt_of_string (withdrawnAmount stream)) in
  let unclaimed := deposited - withdrawn in
  let remainingBalance := unclaimed - claimable in
  let! rate := lift (BigInt_of_string (ratePerSecond stream)) in
  ret {| rc_streamId := streamId stream;
         remainingRunwaySeconds :=
           if (0 <? rate) && (0 <? remainingBalance)
           then Number_of_bigint (remainingBalance ÷ rate) else Fin 0;
         unclaimedBalance := unclaimed; claimableNow := claimable;
         rc_sender := sender stream; rc_recipient := recipient stream |}.

Definition wasAlertRecentlySent (t stream : Z) (kind : string) : Js RunwayWorld bool :=
  let cutoff := t - DEDUPLICATION_WINDOW_HOURS * 60 * 60 * 1000 in
  gets (fun w => existsb (fun a =>
    (al_streamId a =? stream) && bool_decide (alertType a = kind) && (cutoff <=? sentAt a))
    (alertHistory w)).

Definition recordAlert (t stream : Z) (kind : string) : Js RunwayWorld unit :=
  modify (fun w => {|
    alertHistory := alertHistory w ++ [{| al_streamId := stream; alertType := kind; sentAt := t |}];
    sent := sent w; cache := cache w |}).

Definition num_json (x : num) : Json := match x with Fin z => JNumber z | _ => JNull end.

Definition alertData (t : Z) (runway : RunwayCalculation) (kind : string) : Json :=
  JObject [("streamId", JString (BigInt_toString (rc_streamId runway)));
           ("alertType", JString kind);
           ("remainingRunwaySeconds", num_json (remainingRunwaySeconds runway));
           ("hoursRemaining", hours_json (remainingRunwaySeconds runway));
           ("unclaimedBalance", JString (BigInt_toString (unclaimedBalance runway)));
           ("sender", JString (rc_sender runway));
           ("recipient", JString (rc_recipient runway));
           ("timestamp", JString (runway_toISOString t))].

Definition sendLowBalanceAlert (t : Z) (runway : RunwayCalculation) (kind : string) :
    Js RunwayWorld unit :=
  let message to := {| target := to; sse_event := "STREAM_LOW_BALANCE";
                       sse_data := alertData t runway kind |} in
  modify (fun w => {| alertHistory := alertHistory w;
    sent := sent w ++ [message (ToUser (rc_sender runway)); message (ToUser (rc_recipient runway));
                       message (ToStream (BigInt_toString (rc_streamId runway)))];
    cache := cache w |}).

(** [x <= bound] *)
Definition num_at_most (x : num) (bound : Z) : bool :=
  match x with Fin z => z <=? bound | NegInf => true | PosInf | NaN => false end.

(** The threshold the runway falls under. *)
Definition alert_level (seconds : num) : option string :=
  if num_at_most seconds (CRITICAL_THRESHOLD_HOURS * 3600) then Some "CRITICAL_24H"
  else if num_at_most seconds (WARNING_THRESHOLD_HOURS * 3600) then Some "WARNING_48H"
  else None.

Definition check_stream (t : Z) (stream : Stream) : Js RunwayWorld unit :=
  let! runway := calculateStreamRunway t (t / 1000) stream in
  match alert_level (remainingRunwaySeconds runway) with
  | None => ret tt
  | Some kind =>
      let! alreadySent := wasAlertRecentlySent t (streamId stream) kind in
      if alreadySent then ret tt
      else
        do! sendLowBalanceAlert t runway kind in
        recordAlert t (streamId stream) kind
  end.

(** [rows] are the stream rows of the database. *)
Definition runStreamRunwayCheck (t : Z) (rows : list Stream) : Js RunwayWorld unit :=
  for_each (List.filter (fun r => isActive r && negb (isPaused r)) rows)
    (fun r => try_catch (check_stream t r) (fun _ => ret tt)).
End Runway.

(** * Properties of the low-balance alerts

    Alerts of one kind about one stream are more than a day apart over any
    number of runs; a run alerts every stream that is due; the runway is the
    time until the balance is used up. *)

Local Open Scope Z_scope.

Section RunwayFacts.
Context {Env : RunwayEnv}.

Definition DAY_MS : Z := 86400000.

(** Two alerts of one kind about one stream are more than a day apart. *)
Definition spaced (l : list AlertHistory) : Prop :=
  forall i j a b, (i < j)%nat -> l !! i = Some a -> l !! j = Some b ->
    al_streamId a = al_streamId b -> alertType a = alertType b -> sentAt a + DAY_MS < sentAt b.

Definition history_ok (t : Z) (w : RunwayWorld) : Prop :=
  spaced (alertHistory w) /\ Forall (fun a => sentAt a <= t) (alertHistory w).

Lemma spaced_snoc l a :
  spaced l -> Forall (fun b => al_streamId b = al_streamId a -> alertType b = alertType a ->
    sentAt b + DAY_MS < sentAt a) l -> spaced (l ++ [a]).
Proof.
  intros Hl Ha i j b c Hij Hi Hj Hs Hk.
  apply lookup_snoc_Some in Hj as [[_ Hj]|[Hj <-]].
  - apply lookup_snoc_Some in Hi as [[_ Hi]|[Hi _]]; [by eapply (Hl i j)|].
    apply lookup_lt_Some in Hj. lia.
  - apply lookup_snoc_Some in Hi as [[_ Hi]|[Hi _]]; [|lia].
    eapply Forall_lookup_1 in Ha; [|exact Hi]. by apply Ha.
Qed.

Lemma on_cache_history {A} (m : Js (MemoryCache ClaimableValue) A) w :
  alertHistory (on_cache m w).2 = alertHistory w /\ sent (on_cache m w).2 = sent w.
Proof. unfold on_cache. by destruct (m (cache w)). Qed.

Lemma runway_history t now r w :
  alertHistory (calculateStreamRunway t now r w).2 = alertHistory w /\
  sent (calculateStreamRunway t now r w).2 = sent w.
Proof.
  unfold calculateStreamRunway, bind, lift.
  pose proof (on_cache_history (getClaimableAmount cacheTtlMs t t (runway_state r) (Some now)) w) as [H1 H2].
  destruct (on_cache _ w) as [[v|e] w']; simpl in *; [|done].
  by repeat (case_match; simpl; try done).
Qed.

Lemma check_stream_history t r w :
  history_ok t w -> history_ok t (check_stream t r w).2.
Proof.
  intros [Hs Hle]. unfold check_stream, bind. pose proof (runway_history t (t / 1000) r w) as [H _].
  destruct (calculateStreamRunway _ _ _ w) as [[v|e] w1]; simpl in H; [|by unfold history_ok; simpl; rewrite H].
  destruct (alert_level _) as [kind|]; [|by unfold history_ok; simpl; rewrite H].
  simpl. destruct (existsb _ _) eqn:He; [by unfold history_ok; simpl; rewrite H|].
  unfold history_ok. simpl. rewrite H in *. split.
  - apply spaced_snoc; [done|]. apply Forall_forall. simpl. intros b Hb E1 E2.
    apply Z.lt_nge. intros Hc. apply not_true_iff_false in He. apply He, existsb_exists.
    exists b. split; [by apply list_elem_of_In|].
    rewrite E1, Z.eqb_refl, bool_decide_eq_true_2 by done. simpl. unfold DAY_MS in Hc. apply Z.leb_le.
    unfold DEDUPLICATION_WINDOW_HOURS. lia.
  - apply Forall_app. split; [done|]. by repeat constructor.
Qed.

Lemma run_history t rows w :
  history_ok t w -> history_ok t (runStreamRunwayCheck t rows w).2.
Proof.
  unfold runStreamRunwayCheck. generalize (List.filter (fun r => isActive r && negb (isPaused r)) rows).
  intros rs. revert w. induction rs as [|r rs IH]; intros w Hw; [done|]. simpl. unfold bind, try_catch.
  pose proof (check_stream_history t r w Hw) as H.
  destruct (check_stream t r w) as [[v|e] w1]; by apply IH.
Qed.

(** Runs at the given times, each over the rows of its time. *)
Definition runs (w : RunwayWorld) (rs : list (Z * list Stream)) : RunwayWorld :=
  fold_left (fun w tr => (runStreamRunwayCheck tr.1 tr.2 w).2) rs w.

Definition no_history : RunwayWorld := {|
  alertHistory := []; sent := [];
  cache := {| entries := []; hits := 0; misses := 0; maxItems := 10000 |} |}.


(** ** One stream *)

Lemma round53_big n : 2 ^ 53 <= n -> 2 ^ 53 <= round53 n.
Proof.
  intros Hn. unfold round53. case (Z.ltb_spec n (2 ^ 53)); [lia|intros _].
  assert (53 <= Z.log2 n) as Hl by (apply Z.log2_le_pow2; lia).
  pose proof (Z.log2_spec n ltac:(lia)) as [Hlo Hhi].
  set (p := 2 ^ (Z.log2 n - 52)). assert (0 < p) by (apply Z.pow_pos_nonneg; lia).
  assert (2 ^ Z.log2 n = 2 ^ 52 * p) as Hp by (unfold p; rewrite <- Z.pow_add_r by lia; f_equal; lia).
  assert (2 <= p) by (unfold p; change 2 with (2 ^ 1) at 1; apply Z.pow_le_mono_r; lia).
  assert (2 ^ 52 <= n / p) by (apply Z.div_le_lower_bound; lia).
  case_match; nia.
Qed.

Lemma at_most_exact z bound :
  0 <= z -> 0 <= bound < 2 ^ 53 -> num_at_most (Number_of_bigint z) bound = (z <=? bound).
Proof.
  intros Hz Hb. unfold Number_of_bigint. rewrite Z.abs_eq by done.
  case (Z.ltb_spec z 0); [lia|intros _]. case (Z.leb_spec (2 ^ 1024) (round53 z)); intros Hr; simpl.
  - symmetry. apply Z.leb_gt. apply Z.nle_gt. intros Hle. revert Hr. unfold round53.
    case (Z.ltb_spec z (2 ^ 53)); [|lia]. intros _ ?.
    assert (2 ^ 53 < 2 ^ 1024) by (apply Z.pow_lt_mono_r; lia). lia.
  - destruct (decide (z < 2 ^ 53)) as [Hs|Hs].
    + unfold round53. case (Z.ltb_spec z (2 ^ 53)); [done|lia].
    + pose proof (round53_big z ltac:(lia)).
      destruct (Z.leb_spec (round53 z) bound), (Z.leb_spec z bound); lia.
Qed.

(** The kind of alert a stream with [secs] seconds left is due. *)
Definition due (secs : Z) : option string :=
  if secs <=? 86400 then Some "CRITICAL_24H"%string
  else if secs <=? 172800 then Some "WARNING_48H"%string else None.

Lemma alert_level_due secs : 0 <= secs -> alert_level (Number_of_bigint secs) = due secs.
Proof.
  intros H. unfold alert_level, due. rewrite !at_most_exact; [done|done|..];
    unfold WARNING_THRESHOLD_HOURS, CRITICAL_THRESHOLD_HOURS; lia.
Qed.

(** [secs] is the number of whole seconds until a stream of [left] at [rate],
    [accrued] of it already claimable, is used up. *)
Definition lasts (s : ClaimableStreamState) (now left_ secs : Z) : Prop :=
  forall d a, 0 <= d ->
    (exists v, compute_claimable s (now + d) = Returns v /\ claimableAmount v = BigInt_toString a) ->
    (d < secs -> a < left_) /\ (secs < d -> a = left_).

(** An active, unpaused row whose amounts are those of a live stream. *)
Record live_row (r : Stream) (now rate dep wd : Z) : Prop := {
  lr_amounts : amounts_of (runway_state r) rate dep wd;
  lr_active : isActive r = true;
  lr_unpaused : isPaused r = false;
  lr_rate : 0 < rate;
  lr_left : 0 <= wd <= dep;
  lr_started : 0 <= lastUpdateTime r <= now
}.

(** Whole seconds of balance left. *)
Definition seconds_left (r : Stream) (now rate dep wd : Z) : Z :=
  Z.max 0 (dep - wd - (now - lastUpdateTime r) * rate) / rate.

Lemma live_claim r now rate dep wd d :
  live_row r now rate dep wd -> 0 <= d ->
  claim (isActive r) (elapsed_time (runway_state r) (Z.max 0 (now + d))) rate dep wd =
  Z.min ((now - lastUpdateTime r + d) * rate) (dep - wd).
Proof.
  intros [[_ _ _ Hr Hd Hw _] Ha Hp Hrate Hleft Hst] Hd0.
  assert (elapsed_time (runway_state r) (Z.max 0 (now + d)) = now - lastUpdateTime r + d) as ->.
  { unfold elapsed_time. simpl. rewrite Hp.
    case (Z.ltb_spec 0 (lastUpdateTime r)); intros; repeat case_match; lia. }
  unfold in_i128 in *. unfold claim. simpl. rewrite Ha.
  assert (sat_i128 (dep - wd) = dep - wd) as -> by (unfold sat_i128, I128_MIN, I128_MAX in *; lia).
  unfold checked_mul. assert (0 <= (now - lastUpdateTime r + d) * rate) by nia.
  set (x := (now - lastUpdateTime r + d) * rate) in *.
  destruct ((I128_MIN <=? x) && (x <=? I128_MAX)) eqn:E; cbn iota; [lia|].
  apply andb_false_iff in E. unfold I128_MIN, I128_MAX in *. lia.
Qed.

Lemma seconds_left_lasts r now rate dep wd :
  live_row r now rate dep wd -> lasts (runway_state r) now (dep - wd) (seconds_left r now rate dep wd).
Proof.
  intros Hl d a Hd (v & E & Ea). pose proof Hl as [Hamt _ _ Hrate Hleft Hst].
  rewrite (compute_claim _ rate dep wd) in E by done. injection E as <-. cbn [claimableAmount] in Ea.
  apply toString_inj in Ea. rewrite (live_claim r now rate dep wd d) in Ea by done. subst a.
  unfold seconds_left. set (e := now - lastUpdateTime r). assert (0 <= e) by lia.
  pose proof (Z.div_mod (Z.max 0 (dep - wd - e * rate)) rate ltac:(lia)).
  pose proof (Z.mod_pos_bound (Z.max 0 (dep - wd - e * rate)) rate ltac:(lia)).
  set (q := Z.max 0 (dep - wd - e * rate) / rate) in *. split; intros Hq.
  - assert ((d + 1) * rate <= q * rate) by nia. nia.
  - assert ((q + 1) * rate <= d * rate) by nia. nia.
Qed.

Lemma runway_miss t r w rate dep wd :
  live_row r (t / 1000) rate dep wd ->
  map_get (cache_key (runway_state r) (t / 1000)) (entries (cache w)) = None ->
  exists v w', calculateStreamRunway t (t / 1000) r w = (Returns v, w') /\
    remainingRunwaySeconds v = Number_of_bigint (seconds_left r (t / 1000) rate dep wd) /\
    rc_streamId v = streamId r /\ rc_sender v = sender r /\ rc_recipient v = recipient r.
Proof.
  intros Hl Hmiss. pose proof Hl as [Hamt Ha Hp Hrate Hleft Hst]. pose proof Hamt as [E1 E2 E3 _ _ _ _].
  unfold calculateStreamRunway, bind, on_cache, getClaimableAmount, get. rewrite Hmiss.
  rewrite (compute_claim _ rate dep wd) by done. simpl in E1, E2, E3.
  rewrite E1, E2, E3. unfold lift. cbn [claimableAmount Claimable.result]. rewrite !BigInt_roundtrip.
  pose proof (live_claim r (t / 1000) rate dep wd 0 Hl ltac:(lia)) as Hc. rewrite !Z.add_0_r in Hc.
  change (cs_isActive (runway_state r)) with (isActive r).
  rewrite Hc. eexists _, _. split; [reflexivity|]. split_and!; try done. simpl.
  unfold seconds_left. set (e := t / 1000 - lastUpdateTime r) in *.
  case (Z.ltb_spec 0 rate); [intros _|lia].
  destruct (Z.ltb_spec 0 (dep - wd - Z.min (e * rate) (dep - wd))); simpl.
  - rewrite Z.min_l in * by lia. rewrite Z.max_r by lia. by rewrite Z.quot_div_nonneg by lia.
  - rewrite Z.max_l by lia. by rewrite Z.div_0_l by lia.
Qed.

(** For a running stream the runway is the number of whole seconds until its
    balance is used up, computed exactly for amounts of any size; the check
    alerts both parties and the stream's followers when no more than 24, or
    failing that 48, hours of it are left, and records the alert, unless one of
    that kind went out within the last day; otherwise it does nothing. *)
Theorem low_balance_alert (t : Z) (r : Stream) (w : RunwayWorld) (rate dep wd : Z) :
  live_row r (t / 1000) rate dep wd ->
  map_get (cache_key (runway_state r) (t / 1000)) (entries (cache w)) = None ->
  exists secs, lasts (runway_state r) (t / 1000) (dep - wd) secs /\
    let w' := (check_stream t r w).2 in
    let recent kind := existsb (fun a => (al_streamId a =? streamId r) &&
      bool_decide (alertType a = kind) && (t - DAY_MS <=? sentAt a)) (alertHistory w) in
    match due secs with
    | Some kind =>
        if recent kind then alertHistory w' = alertHistory w /\ sent w' = sent w
        else alertHistory w' =
               alertHistory w ++ [{| al_streamId := streamId r; alertType := kind; sentAt := t |}] /\
             exists data, sent w' = sent w ++
               map (fun to => {| target := to; sse_event := "STREAM_LOW_BALANCE"; sse_data := data |})
                 [ToUser (sender r); ToUser (recipient r); ToStream (BigInt_toString (streamId r))]
    | None => alertHistory w' = alertHistory w /\ sent w' = sent w
    end.
Proof.
  intros Hl Hmiss. exists (seconds_left r (t / 1000) rate dep wd).
  split; [by apply seconds_left_lasts|]. cbn zeta.
  destruct (runway_miss t r w rate dep wd Hl Hmiss) as (v & w1 & E & Hsec & Hid & Hsnd & Hrcp).
  pose proof (runway_history t (t / 1000) r w) as [Hh Hm]. rewrite E in Hh, Hm. simpl in Hh, Hm.
  unfold check_stream, bind. rewrite E, Hsec, alert_level_due.
  2: { unfold seconds_left. pose proof (lr_rate _ _ _ _ _ Hl). apply Z.div_pos; lia. }
  destruct (due _) as [kind|]; [|done].
  unfold wasAlertRecentlySent, gets. change (DEDUPLICATION_WINDOW_HOURS * 60 * 60 * 1000) with DAY_MS.
  rewrite Hh. destruct (existsb _ _); [done|]. simpl. rewrite Hh, Hm, Hsnd, Hrcp, Hid. eauto.
Qed.
End RunwayFacts.

(** ** Witnesses *)

#[local] Instance sample_env : RunwayEnv := {|
  cacheTtlMs := 5000; hours_json := num_json; runway_toISOString := BigInt_toString |}.

(** One token a second, 200000 deposited at time zero. *)
Definition draining : Stream := {|
  streamId := 9; sender := "GA"; recipient := "GB"; tokenAddress := "T"; ratePerSecond := "1";
  depositedAmount := "200000"; withdrawnAmount := "0"; startTime := 0; lastUpdateTime := 0;
  endTime := None; isActive := true; isPaused := false; pausedAt := None;
  totalPausedDuration := 0; updatedAt := 0 |}.


Lemma low_balance_alert_witness :
  let w' := (check_stream 100000000 draining no_history).2 in
  exists secs, lasts (runway_state draining) 100000 200000 secs /\
    alertHistory w' = match due secs with
                      | Some kind => [{| al_streamId := 9; alertType := kind; sentAt := 100000000 |}]
                      | None => []
                      end.
Proof.
  intros w'.
  destruct (low_balance_alert 100000000 draining no_history 1 200000 0) as (secs & Hl & H).
  - split; try done; simpl; lia.
  - reflexivity.
  - exists secs. split; [exact Hl|]. fold w' in H. cbn zeta in H. destruct (due secs) as [kind|].
    + simpl existsb in H. by destruct H as [-> _].
    + by destruct H as [-> _].
Defined.
