(* ===== verification/WebhookController.v ===== *)
(** * Webhook endpoints: backend/src/controllers/webhook.controller.ts

    The handlers of /v1/webhooks over the service.  A request carries what the
    client wrote and nothing else: the router puts no authentication in front of
    them.  Fields are strings where the code takes them as strings; a handler
    answers in every case, and its reply is a value. *)
From S2P Require Import Prelude JsLang StreamId Json DeadLetter Webhook.
From stdpp Require Import sorting.
Local Open Scope Z_scope.

(** The body of a response. *)
Inductive ReplyBody :=
| Problem (error : string)
| Created (subscription : SafeSubscription) (secret : string)
| Subscriptions (subscriptions : list SafeSubscription)
| NoContent
| Updated (subscription : SafeSubscription)
| Deliveries (page : DeliveryPage)
| NewSecret (secret : string)
| TestSent (result : DeliveryResult).

Record Reply := { code_of : Z; body_of : ReplyBody }.
Definition Answer (code : Z) (body : ReplyBody) : Reply := {| code_of := code; body_of := body |}.

Section Controller.
Context {Env : WebhookEnv}.

(** [error.message || fallback] *)
Definition message_or (fallback : string) (e : JsError) : string :=
  let m := match e with ErrorMsg m => m | PrismaErr c => prisma_error_text c | _ => "" end in
  match m with EmptyString => fallback | _ => m end.

(** [try { ... } catch (error) { res.status(code).json(...) }] *)
Definition answering (code : Z) (text : JsError -> string) (m : Js WebhookWorld Reply) :
    Js WebhookWorld Reply :=
  try_catch m (fun e => ret (Answer code (Problem (text e)))).

Definition createWebhook (userAddress targetUrl : option string)
    (eventTypes : option (list string)) : Js WebhookWorld Reply :=
  answering 500 (message_or "Failed to create webhook")
    match truthy userAddress && truthy targetUrl, eventTypes with
    | true, Some types =>
        let! subscription := createWebhookSubscription (default "" userAddress)%string
                               (default "" targetUrl)%string types in
        ret (Answer 201 (Created (without_secret subscription) (secretKey subscription)))
    | _, _ => ret (Answer 400 (Problem "Missing required fields: userAddress, targetUrl, eventTypes"))
    end.

Definition listWebhooks (userAddress : option string) : Js WebhookWorld Reply :=
  answering 500 (fun _ => "Failed to list webhooks"%string)
    (if truthy userAddress then
       let! rows := listWebhookSubscriptions (default "" userAddress)%string in
       ret (Answer 200 (Subscriptions (map without_secret rows)))
     else ret (Answer 400 (Problem "userAddress query parameter required"))).

Definition deleteWebhook (id userAddress : option string) : Js WebhookWorld Reply :=
  answering 500 (fun _ => "Failed to delete webhook"%string)
    (if truthy id && truthy userAddress then
       do! deleteWebhookSubscription (default "" id)%string (default "" userAddress)%string in
       ret (Answer 204 NoContent)
     else ret (Answer 400 (Problem "Invalid id or userAddress required"))).

(** [typeof userAddress !== "string"]: an empty address passes here. *)
Definition updateWebhook (id userAddress : option string) (body : UpdateInput) :
    Js WebhookWorld Reply :=
  answering 400 (message_or "Failed to update webhook")
    match truthy id, userAddress with
    | true, Some user =>
        let! subscription := updateWebhookSubscription (default "" id)%string user body in
        ret (Answer 200 (Updated subscription))
    | _, _ => ret (Answer 400 (Problem "id and userAddress are required"))
    end.

(** [page] and [limit] after their defaults and [Number]. *)
Definition listDeliveries (id userAddress : option string) (page limit : num) :
    Js WebhookWorld Reply :=
  answering 400 (message_or "Failed to list webhook deliveries")
    match truthy id, userAddress with
    | true, Some user =>
        let! found := listWebhookDeliveries (default "" id)%string user page limit in
        ret (Answer 200 (Deliveries found))
    | _, _ => ret (Answer 400 (Problem "id and userAddress are required"))
    end.

Definition regenerateSecret (id userAddress : option string) : Js WebhookWorld Reply :=
  answering 400 (message_or "Failed to regenerate webhook secret")
    (if truthy id && truthy userAddress then
       let! secret := regenerateWebhookSecret (default "" id)%string (default "" userAddress)%string in
       ret (Answer 200 (NewSecret secret))
     else ret (Answer 400 (Problem "id and userAddress are required"))).

Definition testWebhook (fetch : nat -> FetchResult) (id userAddress : option string) :
    Js WebhookWorld Reply :=
  answering 500 (message_or "Failed to send test webhook")
    (if truthy id && truthy userAddress then
       let! result := sendTestWebhook fetch (default "" id)%string (default "" userAddress)%string in
       ret (Answer 200 (TestSent result))
     else ret (Answer 400 (Problem "id and userAddress required"))).

(** ** Properties *)

Lemma find_mine id user s w :
  NoDup (map ws_id (subscriptions w)) -> s ∈ subscriptions w -> ws_id s = id -> userAddress s = user ->
  List.find (mine id user) (subscriptions w) = Some s /\
  List.find (fun s => bool_decide (ws_id s = id)) (subscriptions w) = Some s.
Proof.
  intros Hnd Hs <- <-. induction (subscriptions w) as [|a l IH]; [set_solver|]. simpl in *.
  apply NoDup_cons in Hnd as [Ha Hnd]. apply elem_of_cons in Hs as [->|Hs].
  - unfold mine at 1. by rewrite !bool_decide_eq_true_2.
  - assert (ws_id a <> ws_id s) as Hne.
    { intros E. apply Ha. rewrite E. apply list_elem_of_fmap. eauto. }
    unfold mine at 1. rewrite bool_decide_eq_false_2 by done. by apply IH.
Qed.

(** The owner's address, which is public, is all it takes: whoever sends it gets
    a fresh secret, and that secret signs the deliveries from then on; a request
    body can even set the secret and the owner of the subscription. *)
Theorem address_is_the_credential (s : WebhookSubscription) (k owner : string) (w : WebhookWorld) :
  NoDup (map ws_id (subscriptions w)) -> s ∈ subscriptions w ->
  truthy (Some (ws_id s)) = true -> truthy (Some (userAddress s)) = true ->
  let body := {| in_targetUrl := None; in_eventTypes := None; in_isActive := None;
                 in_secretKey := Some k; in_userAddress := Some owner |} in
  (let '(r, w') := regenerateSecret (Some (ws_id s)) (Some (userAddress s)) w in
   r = Returns (Answer 200 (NewSecret (randomText (drawn w)))) /\
   set_secret (randomText (drawn w)) s ∈ subscriptions w') /\
  (let '(r, w') := updateWebhook (Some (ws_id s)) (Some (userAddress s)) body w in
   is_returns r = true /\ apply_input body s ∈ subscriptions w' /\
   secretKey (apply_input body s) = k /\ userAddress (apply_input body s) = owner).
Proof.
  intros Hnd Hs H1 H2 body.
  destruct (find_mine (ws_id s) (userAddress s) s w Hnd Hs eq_refl eq_refl) as [Hf Hf']. split.
  - unfold regenerateSecret, answering, try_catch. rewrite H1, H2. cbn [andb default from_option id].
    unfold regenerateWebhookSecret, bind, find_subscription, gets. cbn beta iota. rewrite Hf.
    unfold draw, subscription_update, bind, find_subscription, gets. cbn beta iota. cbn [subscriptions].
    rewrite Hf'. simpl. split; [done|]. apply list_elem_of_fmap. exists s.
    by rewrite bool_decide_eq_true_2.
  - unfold updateWebhook, answering, try_catch. rewrite H1. cbn [default from_option id].
    unfold updateWebhookSubscription, bind. simpl.
    assert (Hm : mine (ws_id s) (userAddress s) s = true) by (unfold mine; by rewrite !bool_decide_eq_true_2).
    assert (s ∈ List.filter (mine (ws_id s) (userAddress s)) (subscriptions w)) as Hin
      by (apply list_elem_of_In, filter_In; by rewrite <- list_elem_of_In).
    destruct (List.filter _ _) as [|a l] eqn:E; [set_solver|]. simpl.
    assert (apply_input body s ∈ map (fun t => if mine (ws_id s) (userAddress s) t
      then apply_input body t else t) (subscriptions w)) as Hin'
      by (apply list_elem_of_fmap; exists s; by rewrite Hm).
    destruct (List.find _ (map _ _)); simpl; (split_and!; [done|exact Hin'|done|done]).
Qed.
End Controller.
