(* ===== verification/AdminController.v ===== *)
(** * Dead-letter endpoints: backend/src/controllers/admin.controller.ts

    The handlers that replay, replay-all and discard over the dead-letter
    service.  A handler turns every outcome, errors included, into a response. *)
From S2P Require Import Prelude JsLang StreamId Json Schema Xdr Worker DeadLetter DeadLetterFacts Http.
From stdpp Require Import sorting.
Local Open Scope Z_scope.

Inductive AdminBody :=
| ErrorBody (error : string)
| FailedBody (error code id : string) (attempts : option Z) (errorMessage : option string)
| ReplayBody (id : string) (outcome : ReplayOutcome) (attempts : Z)
| SummaryBody (summary : ReplayAllResult)
| DiscardBody (id eventId txHash : string) (ledgerSequence : Z).

Record Response := { http_status : Z; http_body : AdminBody }.

Section Admin.
Context `{P : PrismaEngine} `{K : StrKey} `{Sdk : StellarSdk}.
Implicit Types (w : World P).

Definition respond (code : Z) (body : AdminBody) : Js (World P) Response :=
  ret {| http_status := code; http_body := body |}.

Definition replayDeadLetterHandler (now : Z) (param : PathParam) : Js (World P) Response :=
  let rawId := first_id param in
  if negb (truthy rawId) then respond 400 (ErrorBody "id is required")
  else
    let id := default ""%string rawId in
    try_catch
      (let! result := replayDeadLetterEvent now id in
       match rr_outcome result with
       | not_found => respond 404 (ErrorBody "Dead-letter event not found")
       | undecodable =>
           respond 422 (FailedBody "Dead-letter payload could not be decoded" "undecodable_payload" id
                          None (rr_errorMessage result))
       | failed =>
           respond 422 (FailedBody "Replay failed; the event remains quarantined" "replay_failed" id
                          (Some (rr_attempts result)) (rr_errorMessage result))
       | replayed => respond 200 (ReplayBody id (rr_outcome result) (rr_attempts result))
       end)
      (fun _ => respond 500 (ErrorBody "Replay failed")).

Definition replayAllDeadLetterHandler (now : Z) : Js (World P) Response :=
  try_catch
    (let! summary := replayAllDeadLetterEvents now in respond 200 (SummaryBody summary))
    (fun _ => respond 500 (ErrorBody "Replay-all failed")).

Definition discardDeadLetterHandler (param : PathParam) : Js (World P) Response :=
  let rawId := first_id param in
  if negb (truthy rawId) then respond 400 (ErrorBody "id is required")
  else
    let id := default ""%string rawId in
    try_catch
      (let! discarded := discardDeadLetterEvent id in
       let '(rid, eventId, txHash, ledgerSequence) := discarded in
       respond 200 (DiscardBody rid eventId txHash ledgerSequence))
      (fun err => (* err instanceof DeadLetterNotFoundError *)
        if bool_decide (err = DeadLetterNotFoundError id)
        then respond 404 (ErrorBody "Dead-letter event not found")
        else respond 500 (ErrorBody "Discard failed")).

(** A replay request answers for exactly what the replay did. *)
Theorem replay_answers_for_outcome now id r w w' :
  truthy (Some id) = true -> replayDeadLetterEvent now id w = (Returns r, w') ->
  exists body, replayDeadLetterHandler now (Segment id) w =
    (Returns {| http_status := match rr_outcome r with
                               | replayed => 200 | not_found => 404 | _ => 422 end;
                http_body := body |}, w').
Proof.
  intros Hid Hr. unfold replayDeadLetterHandler. cbn [first_id]. rewrite Hid.
  unfold try_catch, bind. cbn [negb].
  change (default ""%string (Some id)) with id. rewrite Hr.
  destruct (rr_outcome r); eexists; reflexivity.
Qed.
End Admin.
