(* ===== verification/Soroban.v ===== *)
(** * Calls to the chain: backend/src/services/sorobanService.ts

    Deadlines and retries around RPC calls, simulations and submissions, the
    operations the handlers use, and the simulation of an action for
    client-side signing.  The SDK (encoding arguments, addresses, keys) and the
    answers of an RPC server are arguments; so are the environment variables.

    The module uses three names it neither imports nor defines — [rpcPool],
    [getServer] and [pollTransactionStatus] — and reading one is a
    ReferenceError: that is what the model does there.  Metrics, spans and log
    lines are left out; sequence numbers and the bytes of a transaction are the
    server's business. *)
From S2P Require Import Prelude JsLang Texts StreamId Json Schema Xdr.
Local Open Scope Z_scope.

(** ** What the module is given *)

Class SorobanSdk := {
  new_Address : string -> option ScAddress; (* [None]: the constructor throws *)
  valid_contract : string -> bool; (* whether [new Contract(id)] accepts it *)
  fromSecret : string -> option string; (* the public key of a secret *)
  (* [nativeToScVal] for the three types the code names; [None]: it throws *)
  u64_ScVal : Z -> option ScVal;
  u64_ScVal_val : forall z v, u64_ScVal z = Some v -> v = ScvU64 z;
  i128_ScVal : Z -> option ScVal;
  i128_ScVal_val : forall z v, i128_ScVal z = Some v -> exists hi lo, v = ScvI128 hi lo;
  address_ScVal : string -> option ScVal;
  address_ScVal_val : forall s v, address_ScVal s = Some v ->
    exists a, new_Address s = Some a /\ v = ScvAddress a;
  is_AbortError : JsError -> bool;
  engine_message : JsError -> string (* the engine's own texts *)
}.

Record SorobanConfig := {
  STREAM_CONTRACT_ID : string;
  KEEPER_SECRET_KEY : string;
  STREAM_TOKEN_ADDRESS : option string;
  RPC_TIMEOUT_MS : Z;
  RPC_MAX_RETRIES : num; (* Number(...): NaN when the variable is not a number *)
  RPC_RETRY_BASE_MS : Z;
  SIMULATION_VALIDITY_LEDGERS : Z
}.

Definition STALE_THRESHOLD_MS : Z := 30000.

(** A contract call, as the chain sees it. *)
Record Invocation := { method : string; args : list ScVal }.

Inductive Simulation :=
| SimulationError (error : string)
| SimulationSuccess (retval : option ScVal).

(** How a call settles by itself: its result and after how long; [None]: never. *)
Definition Settling (T : Type) : Type := option (outcome T * Z).

(** An RPC server: the n-th try of a call can answer differently.  A submission
    answers [Some error] for status ERROR. *)
Record Server := {
  sv_simulate : list Invocation -> nat -> Settling Simulation;
  sv_getAccount : string -> nat -> Settling unit;
  sv_send : Invocation -> Settling (string * option string) (* hash, error *)
}.

Section Soroban.
Context {Sdk : SorobanSdk} (cfg : SorobanConfig).

Definition native_u64 (z : Z) : outcome ScVal := of_option TypeErr (u64_ScVal z).
Definition native_i128 (z : Z) : outcome ScVal := of_option TypeErr (i128_ScVal z).
Definition native_address (s : string) : outcome ScVal := of_option TypeErr (address_ScVal s).

(** [err.message] *)
Definition message_of (err : JsError) : string :=
  match err with
  | ErrorMsg m | ApiErr _ m _ _ => m
  | ReferenceErr name => name +:+ " is not defined"
  | _ => engine_message err
  end.

(** ** Deadlines and retries *)

Definition is_word (c : Ascii.ascii) : bool :=
  is_digit c || ((65 <=? code c) && (code c <=? 90)) || ((97 <=? code c) && (code c <=? 122)) ||
  (code c =? 95).
Definition at_word (s : string) : bool := match s with String c _ => is_word c | _ => false end.

(** [/\b50[234]\b/], with whether the previous character is one of a word *)
Fixpoint has_5xx (word_before : bool) (s : string) : bool :=
  match s with
  | EmptyString => false
  | String c s' =>
      (negb word_before && (code c =? 53) &&
       match s' with
       | String c0 (String d s'') =>
           (code c0 =? 48) && (50 <=? code d) && (code d <=? 52) && negb (at_word s'')
       | _ => false
       end) || has_5xx (is_word c) s'
  end.

Definition transient_words : list string :=
  ["timeout"; "timed out"; "ECONNRESET"; "ECONNREFUSED"; "ENOTFOUND"; "EAI_AGAIN"; "network";
   "fetch failed"].

(** An RpcTimeoutError is known by its message, which the words cover. *)
Definition isTransientRpcError (err : JsError) : bool :=
  is_AbortError err || existsb (fun w => contains w (message_of err)) transient_words ||
  has_5xx false (message_of err).

Definition RpcTimeoutError (label : string) (timeoutMs : Z) : JsError :=
  ErrorMsg (label +:+ " timed out after " +:+ BigInt_toString timeoutMs +:+ "ms").

(** [setTimeout] turns a delay it cannot hold into one millisecond. *)
Definition timer_delay (ms : Z) : Z := if (1 <=? ms) && (ms <=? 2 ^ 31 - 1) then ms else 1.

(** [Promise.race] with the timer; a tie goes to the timer. *)
Definition withRpcTimeout {T} (label : string) (call : Settling T) (timeoutMs : Z) : outcome T * Z :=
  match call with
  | Some (r, after) =>
      if after <? timer_delay timeoutMs then (r, after)
      else (Throws (RpcTimeoutError label timeoutMs), timer_delay timeoutMs)
  | None => (Throws (RpcTimeoutError label timeoutMs), timer_delay timeoutMs)
  end.

Definition num_lt (x : num) (z : Z) : bool :=
  match x with Fin y => y <? z | NegInf => true | PosInf | NaN => false end.

Record Retried (T : Type) := { answer : outcome T; calls : nat; took : Z }.
Arguments answer {T}. Arguments calls {T}. Arguments took {T}.

(** [for (;;)]: [None] when [fuel] calls were not enough. [fn n] is the n-th call. *)
Fixpoint retry_loop {T} (fuel : nat) (fn : nat -> outcome T * Z) (maxRetries : num)
    (attempt : nat) (elapsed : Z) : option (Retried T) :=
  match fuel with
  | O => None
  | S fuel' =>
      let '(r, ms) := fn attempt in
      let done := Some {| answer := r; calls := S attempt; took := elapsed + ms |} in
      match r with
      | Returns _ => done
      | Throws err =>
          if num_lt maxRetries (Z.of_nat (S attempt)) then done
          else if negb (isTransientRpcError err) then done
          else retry_loop fuel' fn maxRetries (S attempt)
                 (elapsed + ms + RPC_RETRY_BASE_MS cfg * 2 ^ Z.of_nat attempt)
      end
  end.

(** One more call than the retries allowed. *)
Definition retry_fuel (maxRetries : num) : nat :=
  match maxRetries with Fin z => S (Z.to_nat z) | _ => 1 end.

(** Under a retry bound that is a number the fuel is enough ([retries_end]); under
    NaN, where the code may wait forever, the model gives up. *)
Definition withRpcRetry {T} (fn : nat -> outcome T * Z) : outcome T :=
  match retry_loop (retry_fuel (RPC_MAX_RETRIES cfg)) fn (RPC_MAX_RETRIES cfg) 0 0 with
  | Some r => answer r
  | None => Throws (ErrorMsg "still retrying")
  end.

(** [_server] if a test set it; else the name that is not bound. *)
Definition executeRpc {T} (server : option Server) (operation : Server -> Settling T) : Settling T :=
  match server with
  | Some s => operation s
  | None => Some (Throws (ReferenceErr "rpcPool"), 0)
  end.

(** ** Calls *)

Definition simulateContractCall (server : option Server) (name : string) (xs : list ScVal) :
    outcome ScVal :=
  if negb (valid_contract (STREAM_CONTRACT_ID cfg)) then Throws (ErrorMsg "Invalid contract ID")
  else
    let? result := withRpcRetry (fun n =>
      withRpcTimeout "simulateTransaction"
        (executeRpc server (fun s => sv_simulate s [{| method := name; args := xs |}] n))
        (RPC_TIMEOUT_MS cfg)) in
    match result with
    | SimulationError e => Throws (ErrorMsg ("Simulation error: " +:+ e))
    | SimulationSuccess (Some v) => Returns v
    | SimulationSuccess None => Throws TypeErr
    end.

(** The state: the transactions the network accepted, oldest first. *)
Definition submitContractCall (server : option Server) (name : string) (xs : list ScVal)
    (senderSecret : string) : Js (list Invocation) string :=
  match STREAM_CONTRACT_ID cfg with
  | EmptyString => throw (ErrorMsg "CONTRACT_ID not set")
  | id =>
      match fromSecret senderSecret with
      | None => throw (ErrorMsg "invalid secret")
      | Some publicKey =>
          if negb (valid_contract id) then throw (ErrorMsg "Invalid contract ID")
          else
            let call := {| method := name; args := xs |} in
            do! lift (withRpcTimeout "getAccount"
                  (executeRpc server (fun s => sv_getAccount s publicKey 0)) (RPC_TIMEOUT_MS cfg)).1 in
            let! simulation := lift (withRpcRetry (fun n =>
              withRpcTimeout "simulateTransaction"
                (executeRpc server (fun s => sv_simulate s [call] n)) (RPC_TIMEOUT_MS cfg))) in
            match simulation with
            | SimulationError e => throw (ErrorMsg ("Simulation failed: " +:+ e))
            | SimulationSuccess _ =>
                let! response := lift (withRpcTimeout "sendTransaction"
                  (executeRpc server (fun s => sv_send s call)) (RPC_TIMEOUT_MS cfg)).1 in
                match response with
                | (_, Some e) => throw (ErrorMsg ("Transaction failed: " +:+ e))
                | (hash, None) =>
                    do! modify (fun sent => sent ++ [call]) in
                    (* await pollTransactionStatus(response.hash) *)
                    throw (ReferenceErr "pollTransactionStatus")
                end
            end
      end
  end.

(** [try { ... } catch { return 0 }] around a call of [getServer], which is not bound. *)
Definition getLatestLedger : outcome Z :=
  match withRpcRetry (fun _ =>
          withRpcTimeout "getLatestLedger" (Some (Throws (ReferenceErr "getServer"), 0)) (RPC_TIMEOUT_MS cfg)) with
  | Returns sequence => Returns sequence
  | Throws _ => Returns 0
  end.

Record ChainRecord := {
  ch_streamId : Z;
  ch_sender : string;
  ch_recipient : string;
  ch_tokenAddress : string;
  ch_ratePerSecond : string;
  ch_depositedAmount : string;
  ch_withdrawnAmount : string;
  ch_startTime : Z;
  ch_isActive : bool
}.

Context {Key : StrKey}.

(** [Number(x.u64.toString())] *)
Definition u64_number (v : ScVal) : outcome Z :=
  match v with
  | ScvU64 u => match Number_of_bigint u with Fin z => Returns z | _ => Throws TypeErr end
  | _ => Throws TypeErr
  end.

Definition read_chain_stream (streamId : Z) (retval : ScVal) : outcome ChainRecord :=
  let? fields := decodeMap retval in
  let? isActive := field (fun v => Returns (match v with ScvBool true => true | _ => false end))
                     fields "is_active" in
  let? sender := field decodeAddress fields "sender" in
  let? recipient := field decodeAddress fields "recipient" in
  let? tokenAddress := field decodeAddress fields "token_address" in
  let? ratePerSecond := field decodeI128 fields "rate_per_second" in
  let? depositedAmount := field decodeI128 fields "deposited_amount" in
  let? withdrawnAmount := field decodeI128 fields "withdrawn_amount" in
  let? startTime := field u64_number fields "start_time" in
  Returns {| ch_streamId := streamId; ch_sender := sender; ch_recipient := recipient;
             ch_tokenAddress := tokenAddress; ch_ratePerSecond := ratePerSecond;
             ch_depositedAmount := depositedAmount; ch_withdrawnAmount := withdrawnAmount;
             ch_startTime := startTime; ch_isActive := isActive |}.

Definition getStreamFromChain (server : option Server) (streamId : Z) : option ChainRecord :=
  match STREAM_CONTRACT_ID cfg with
  | EmptyString => None
  | _ =>
      match (let? arg := native_u64 streamId in
             let? retval := simulateContractCall server "get_stream" [arg] in
             read_chain_stream streamId retval) with
      | Returns r => Some r
      | Throws _ => None
      end
  end.

Definition getClaimableFromChain (server : option Server) (streamId : Z) : option string :=
  match STREAM_CONTRACT_ID cfg with
  | EmptyString => None
  | _ =>
      match (let? arg := native_u64 streamId in
             let? retval := simulateContractCall server "get_claimable_amount" [arg] in
             decodeI128 retval) with
      | Returns v => Some v
      | Throws _ => None
      end
  end.

Definition cancelStream (server : option Server) (streamId : Z) (senderSecret : string) :
    Js (list Invocation) string :=
  let! id := lift (native_u64 streamId) in
  submitContractCall server "cancel_stream" [id] senderSecret.

Definition topUpStream (server : option Server) (streamId amount : Z) (callerAddress : string) :
    Js (list Invocation) string :=
  match KEEPER_SECRET_KEY cfg with
  | EmptyString => throw (ErrorMsg "KEEPER_SECRET_KEY not configured")
  | keeperSecret =>
      let! id := lift (native_u64 streamId) in
      let! sum := lift (native_i128 amount) in
      let! caller := lift (native_address callerAddress) in
      submitContractCall server "top_up_stream" [id; sum; caller] keeperSecret
  end.

(** [now] is [Date.now()]. *)
Definition isStale (now updatedAt : Z) : bool := STALE_THRESHOLD_MS <? now - updatedAt.

(** The three simulations that answer with a placeholder hash. *)
Definition simulated (server : option Server) (name placeholder failure address : string)
    (streamId : Z) : outcome string :=
  match STREAM_CONTRACT_ID cfg with
  | EmptyString => Throws (ErrorMsg "Stream contract ID not configured")
  | _ =>
      match (let? addr := of_option (ErrorMsg "invalid address") (new_Address address) in
             let? id := native_u64 streamId in
             simulateContractCall server name [ScvAddress addr; id]) with
      | Returns _ => Returns (placeholder +:+ BigInt_toString streamId)
      | Throws err => Throws (ErrorMsg (failure +:+ message_of err))
      end
  end.

Definition pauseStream (server : option Server) (senderAddress : string) (streamId : Z) :=
  simulated server "pause_stream" "simulated-pause-" "Failed to pause stream: " senderAddress streamId.
Definition resumeStream (server : option Server) (senderAddress : string) (streamId : Z) :=
  simulated server "resume_stream" "simulated-resume-" "Failed to resume stream: " senderAddress streamId.
Definition withdraw (server : option Server) (streamId : Z) (recipientAddress : string) :=
  simulated server "withdraw" "simulated-withdraw-" "Failed to withdraw from stream: "
    recipientAddress streamId.
End Soroban.
Arguments answer {T}. Arguments calls {T}. Arguments took {T}.
