(* ===== verification/Simulate.v ===== *)
(** * Simulated actions: simulateStreamAction and its endpoint

    The second half of backend/src/services/sorobanService.ts, with
    backend/src/controllers/stream/simulate.ts.  An action becomes one or more
    contract invocations; a fresh simulation of them gives the fee and the
    unsigned transaction.  The decoding of the simulated return value into text
    and the transaction's bytes are the SDK's, and so is the schema library: a
    body reaches the handler as the fields zod lets through. *)
From S2P Require Import Prelude JsLang StreamId Json Schema Xdr Soroban.
Local Open Scope Z_scope.

Inductive StreamAction := create | withdraw_ | cancel | top_up | batch_withdraw.
#[export] Instance StreamAction_eq_dec : EqDecision StreamAction.
Proof. solve_decision. Defined.

Definition action_name (a : StreamAction) : string :=
  match a with
  | create => "create" | withdraw_ => "withdraw" | cancel => "cancel"
  | top_up => "top_up" | batch_withdraw => "batch_withdraw"
  end.

(** [duration] is an integer once the schema has accepted it. *)
Record SimulateActionParams := {
  sp_streamId : option string;
  sp_streamIds : option (list string);
  sp_recipient : option string;
  sp_amount : option string;
  sp_duration : option Z;
  sp_tokenAddress : option string
}.

Record StreamSimulationResult := {
  unsignedXdr : string;
  minResourceFee : string;
  recommendedFee : string;
  cpuInstructions : Z;
  memoryBytes : Z;
  expiresAtLedger : Z
}.

(** What the RPC server reports of a simulation that succeeded. *)
Record SimulateSuccess := {
  ss_resources : option (Z * Z); (* instructions, writeBytes; [None]: reading them throws *)
  ss_minResourceFee : string;
  ss_latestLedger : Z
}.

Inductive SimulateAnswer :=
| SimulateError (error : string)
| SimulateOk (success : SimulateSuccess).

(** The server behind [getServer()], for a list of operations of one source account. *)
Record SimulationServer := {
  ss_getAccount : string -> nat -> Settling unit;
  ss_simulate : string -> list Invocation -> nat -> Settling SimulateAnswer
}.

Definition FEE_BUFFER_PERCENT : Z := 15.
Definition MAX_BATCH_WITHDRAW : nat := 10.
Definition SIMULATION_PLACEHOLDER_ACCOUNT : string :=
  "GA5WUJ54Z23KILLCUOUNAKTPBVZWKMQVO4O6EQ5GHLAERIMLLHNCSKYH".

(** ** Contract errors *)

Fixpoint skip_space (s : string) : string :=
  match s with String c s' => if is_ws c then skip_space s' else s | EmptyString => s end.

(** [s] without the prefix [p], upper and lower case alike. *)
Fixpoint after (p s : string) : option string :=
  match p, s with
  | EmptyString, _ => Some s
  | String a p', String b s' => if bool_decide (upper_char a = upper_char b) then after p' s' else None
  | _, _ => None
  end.

Fixpoint skip_digits (s : string) : string :=
  match s with String c s' => if is_digit c then skip_digits s' else s | EmptyString => s end.

(** The digits of [Error(Contract,\s*#(\d+)\)] at the start of [s]. *)
Definition hostError_at (s : string) : option string :=
  match after "Error(Contract," s with
  | Some t =>
      match skip_space t with
      | String "#"%char u =>
          match digit_prefix u, skip_digits u with
          | EmptyString, _ => None
          | ds, String ")"%char _ => Some ds
          | _, _ => None
          end
      | _ => None
      end
  | None => None
  end.

Fixpoint take_string (n : nat) (s : string) : string :=
  match n, s with S n', String c s' => String c (take_string n' s') | _, _ => EmptyString end.

(** The digits of [contract trapped[^\d]{0,40}?#?(\d{1,4})] after its first words,
    with [n] more characters allowed before them and [hash] after a ["#"]. *)
Fixpoint trapped_digits (n : nat) (hash : bool) (s : string) : option string :=
  match s with
  | EmptyString => None
  | String c s' =>
      if is_digit c then Some (take_string 4 (digit_prefix s))
      else match n with
           | S n' => trapped_digits n' hash s'
           | O => if hash && (code c =? 35) then trapped_digits 0 false s' else None
           end
  end.
Definition trapped_at (s : string) : option string :=
  match after "contract trapped" s with Some t => trapped_digits 40 true t | None => None end.

(** [RegExp.prototype.exec]: the first position that matches. *)
Fixpoint exec (at_ : string -> option string) (s : string) : option string :=
  match at_ s with
  | Some m => Some m
  | None => match s with String _ s' => exec at_ s' | EmptyString => None end
  end.

Definition parseContractErrorCode (raw : string) : option num :=
  match exec hostError_at raw with
  | Some ds => Some (digits_num ds)
  | None => digits_num <$> exec trapped_at raw
  end.

(** Message and hint of a [StreamError] code. *)
Definition CONTRACT_ERROR_HINTS (code : num) : option (string * string) :=
  match code with
  | Fin 1 => Some ("Amount must be greater than zero", "Enter an amount above 0 stroops.")
  | Fin 2 => Some ("Stream not found",
      "Refresh the stream list — this stream may have been cancelled or never existed on-chain.")
  | Fin 3 => Some ("Caller is not authorized for this stream",
      "Only the stream sender can cancel or top up; only the recipient can withdraw.")
  | Fin 4 => Some ("Stream is not active",
      "The stream was cancelled or fully withdrawn and cannot be modified.")
  | Fin 5 => Some ("Protocol is already initialized",
      "This is a configuration action that can only be performed once.")
  | Fin 6 => Some ("Caller is not the protocol admin", "Connect the admin wallet to perform this action.")
  | Fin 7 => Some ("Fee rate exceeds the protocol maximum", "The fee rate must be at most 1000 bps (10%).")
  | Fin 8 => Some ("Protocol config is not initialized",
      "The stream contract has not been initialized on this network yet.")
  | Fin 9 => Some ("Duration must be greater than zero", "Set a stream duration of at least 1 second.")
  | Fin 10 => Some ("Invalid token contract address", "Provide a deployed SEP-41 token contract address.")
  | Fin 11 => Some ("Rate rounds to zero",
      "Increase the amount or shorten the duration so amount / duration is at least 1 stroop per second.")
  | Fin 12 => Some ("Stream is paused", "Resume the stream before performing this action.")
  | Fin 13 => Some ("Stream is not paused", "Only a paused stream can be resumed.")
  | Fin 14 => Some ("Stream is already paused", "This stream is already paused.")
  | _ => None
  end%string.

Definition toSimulationApiError (rawError : string) (action : StreamAction) : JsError :=
  let code := parseContractErrorCode rawError in
  let known := match code with Some c => CONTRACT_ERROR_HINTS c | None => None end in
  let message :=
    match known with
    | Some (m, _) => m
    | None => "Simulation of " +:+ dquote +:+ action_name action +:+ dquote +:+ " failed: " +:+ rawError
    end in
  ApiErr 400 message "simulation_failed"
    ([("action", inr (action_name action)); ("reason", inr rawError)] ++
     match code with Some (Fin c) => [("contractErrorCode", inl c)] | _ => [] end ++
     match known with Some (_, hint) => [("hint", inr hint)] | None => [] end).

(** ** Parameters *)

Definition invalid_params (message : string) : JsError := ApiErr 400 message "invalid_params" [].

Definition toStreamId (raw : option string) (field : string) : outcome Z :=
  match raw with
  | None | Some EmptyString => Throws (invalid_params (field +:+ " is required"))
  | Some s =>
      if negb (digits_only s) then
        Throws (invalid_params (field +:+ " must be a non-negative integer string"))
      else BigInt_of_string s
  end.

Definition toPositiveI128 (raw : option string) (field : string) : outcome Z :=
  match raw with
  | None | Some EmptyString => Throws (invalid_params (field +:+ " is required"))
  | Some s =>
      if negb (digits_only s) then
        Throws (invalid_params (field +:+ " must be a positive integer string"))
      else
        let? value := BigInt_of_string s in
        if value <=? 0 then Throws (invalid_params (field +:+ " must be greater than zero"))
        else Returns value
  end.

(** [(base * 115n) / 100n], a bigint division, which truncates. *)
Definition applyFeeBuffer (minResourceFee : string) : outcome string :=
  let? base := BigInt_of_string (match minResourceFee with EmptyString => "0" | s => s end) in
  let padded := Z.quot (base * (100 + FEE_BUFFER_PERCENT)) 100 in
  Returns (BigInt_toString (if base <? padded then padded else base + 1)).

Definition readResourceFootprint (resources : option (Z * Z)) : Z * Z :=
  match resources with Some r => r | None => (0, 0) end.

Section Simulate.
Context {Sdk : SorobanSdk} (cfg : SorobanConfig).
Variable assemble : list Invocation -> SimulateSuccess -> string.

Definition toAddress (raw : option string) (field : string) : outcome ScAddress :=
  match raw with
  | None | Some EmptyString => Throws (invalid_params (field +:+ " is required"))
  | Some s =>
      of_option (invalid_params (field +:+ " is not a valid Stellar address")) (new_Address s)
  end.

(** [ids.map(...)], which stops at the first that throws. *)
Fixpoint withdrawals (sender : ScAddress) (ids : list string) : outcome (list Invocation) :=
  match ids with
  | [] => Returns []
  | i :: ids' =>
      let? n := toStreamId (Some i) "params.streamIds[]" in
      let? v := native_u64 n in
      let? rest := withdrawals sender ids' in
      Returns ({| method := "withdraw"; args := [ScvAddress sender; v] |} :: rest)
  end.

Definition on_stream (sender : ScAddress) (name : string) (raw : option string) :
    outcome (list Invocation) :=
  let? n := toStreamId raw "params.streamId" in
  let? v := native_u64 n in
  Returns [{| method := name; args := [ScvAddress sender; v] |}].

(** [params.streamIds ?? (params.streamId ? [params.streamId] : undefined)] *)
Definition batch_ids (params : SimulateActionParams) : option (list string) :=
  match sp_streamIds params, sp_streamId params with
  | Some ids, _ => Some ids
  | None, Some EmptyString | None, None => None
  | None, Some i => Some [i]
  end.

Definition buildInvocations (action : StreamAction) (sender : ScAddress)
    (params : SimulateActionParams) : outcome (list Invocation) :=
  match action with
  | create =>
      let? recipient := toAddress (sp_recipient params) "params.recipient" in
      let raw := match sp_tokenAddress params with
                 | Some t => t
                 | None => match STREAM_TOKEN_ADDRESS cfg with Some t => t | None => "" end
                 end in
      let? tokenAddress := toAddress (Some raw) "params.tokenAddress" in
      let? amount := toPositiveI128 (sp_amount params) "params.amount" in
      match sp_duration params with
      | Some duration =>
          if duration <=? 0 then
            Throws (invalid_params "params.duration must be a positive integer (seconds)")
          else
            let? a := native_i128 amount in
            let? d := native_u64 duration in
            Returns [{| method := "create_stream";
                        args := [ScvAddress sender; ScvAddress recipient; ScvAddress tokenAddress; a; d] |}]
      | None => Throws (invalid_params "params.duration must be a positive integer (seconds)")
      end
  | withdraw_ => on_stream sender "withdraw" (sp_streamId params)
  | cancel => on_stream sender "cancel_stream" (sp_streamId params)
  | top_up =>
      let? n := toStreamId (sp_streamId params) "params.streamId" in
      let? v := native_u64 n in
      let? amount := toPositiveI128 (sp_amount params) "params.amount" in
      let? a := native_i128 amount in
      Returns [{| method := "top_up_stream"; args := [ScvAddress sender; v; a] |}]
  | batch_withdraw =>
      match batch_ids params with
      | None | Some [] => Throws (invalid_params "params.streamIds is required for batch_withdraw")
      | Some ids =>
          if (MAX_BATCH_WITHDRAW <? length ids)%nat then
            Throws (invalid_params "batch_withdraw accepts at most 10 streams per transaction")
          else withdrawals sender ids
      end
  end.

(** ** Simulation *)

(** The name [getServer], which the module does not define. *)
Definition getServer : outcome SimulationServer := Throws (ReferenceErr "getServer").

(** [withRpcRetry(label, () => withRpcTimeout(label, () => getServer().call(...)))] *)
Definition call_server {T} (server : outcome SimulationServer) (label : string)
    (call : SimulationServer -> nat -> Settling T) : outcome T :=
  withRpcRetry cfg (fun n =>
    withRpcTimeout label
      match server with Returns s => call s n | Throws e => Some (Throws e, 0) end
      (RPC_TIMEOUT_MS cfg)).

(** The body of [simulateStreamAction], for what [getServer()] gives. *)
Definition simulate_on (server : outcome SimulationServer) (action : StreamAction)
    (senderPublicKey : string) (params : SimulateActionParams) : outcome StreamSimulationResult :=
  match STREAM_CONTRACT_ID cfg with
  | EmptyString =>
      Throws (ApiErr 503 "Stream contract is not configured" "contract_not_configured" [])
  | contractId =>
      let? sender := toAddress (Some senderPublicKey) "senderPublicKey" in
      let? invocations := buildInvocations action sender params in
      if negb (valid_contract contractId) then Throws (ErrorMsg "Invalid contract ID")
      else
        let source :=
          match call_server server "getAccount" (fun s => ss_getAccount s senderPublicKey) with
          | Returns _ => senderPublicKey
          | Throws _ => SIMULATION_PLACEHOLDER_ACCOUNT
          end in
        let? simulation := call_server server "simulateTransaction"
                             (fun s => ss_simulate s source invocations) in
        match simulation with
        | SimulateError e => Throws (toSimulationApiError e action)
        | SimulateOk success =>
            let '(cpu, memory) := readResourceFootprint (ss_resources success) in
            let? fee := applyFeeBuffer (ss_minResourceFee success) in
            Returns {| unsignedXdr := assemble invocations success;
                       minResourceFee := ss_minResourceFee success; recommendedFee := fee;
                       cpuInstructions := cpu; memoryBytes := memory;
                       expiresAtLedger := ss_latestLedger success + SIMULATION_VALIDITY_LEDGERS cfg |}
        end
  end.

Definition simulateStreamAction := simulate_on getServer.

(** ** The endpoint *)

(** The body as the schema parsed it; [None]: rejected. *)
Record SimulateBody := {
  sb_action : StreamAction;
  sb_senderPublicKey : string;
  sb_params : SimulateActionParams
}.

Inductive SimulateReply :=
| SimulateData (data : StreamSimulationResult)
| SimulateProblem (status : Z) (error code : string) (details : list (string * (Z + string))).

Definition simulateStreamHandler (body : option SimulateBody) : SimulateReply :=
  match body with
  | None => SimulateProblem 400 "Validation error" "invalid_params" []
  | Some b =>
      match simulateStreamAction (sb_action b) (sb_senderPublicKey b) (sb_params b) with
      | Returns data => SimulateData data
      | Throws (ApiErr status message code details) => SimulateProblem status message code details
      | Throws _ => SimulateProblem 500 "Simulation failed" "simulation_error" []
      end
  end.
End Simulate.

(** ** The contract's entry points: contracts/stream_contract/src/lib.rs *)

Inductive ScType := TAddress | TI128 | TU64 | TVec.

Definition has_type (v : ScVal) (t : ScType) : bool :=
  match v, t with
  | ScvAddress _, TAddress | ScvI128 _ _, TI128 | ScvU64 _, TU64 | ScvOther, TVec => true
  | _, _ => false
  end.

Definition entry_point (name : string) : option (list ScType) :=
  match name with
  | "create_stream" => Some [TAddress; TAddress; TAddress; TI128; TU64]
  | "top_up_stream" => Some [TAddress; TU64; TI128]
  | "withdraw" | "cancel_stream" | "close_stream" | "pause_stream" | "resume_stream" =>
      Some [TAddress; TU64]
  | "batch_withdraw" => Some [TAddress; TVec]
  | "get_stream" | "get_claimable_amount" => Some [TU64]
  | _ => None
  end%string.

Fixpoint have_types (xs : list ScVal) (ts : list ScType) : bool :=
  match xs, ts with
  | [], [] => true
  | v :: xs', t :: ts' => has_type v t && have_types xs' ts'
  | _, _ => false
  end.

(** A call the contract can take: its arguments are the entry point's parameters. *)
Definition well_typed (i : Invocation) : bool :=
  match entry_point (method i) with Some ts => have_types (args i) ts | None => false end.
