(* ===== verification/SorobanFacts.v ===== *)
(** * Calls to the chain: properties

    Retries end; a submission is reported as failed even when the network took
    it; nothing is ever read from the chain without an injected server; the
    invocations built for signing fit the contract, the ones submitted do not. *)
From S2P Require Import Prelude JsLang StreamId Json Schema Xdr Contract Soroban Simulate.
Local Open Scope Z_scope.

Section Facts.
Context {Sdk : SorobanSdk} {Key : StrKey} (cfg : SorobanConfig).

(** ** Arguments *)

Lemma native_u64_val n v : native_u64 n = Returns v -> v = ScvU64 n.
Proof.
  unfold native_u64. destruct (u64_ScVal n) eqn:E; simpl; [|done]. intros [= ->].
  by apply u64_ScVal_val.
Qed.
Lemma native_i128_val n v : native_i128 n = Returns v -> exists hi lo, v = ScvI128 hi lo.
Proof.
  unfold native_i128. destruct (i128_ScVal n) eqn:E; simpl; [|done]. intros [= ->].
  by eapply i128_ScVal_val.
Qed.

(** ** Retries *)

Lemma num_lt_of_nat z n : num_lt (Fin z) (Z.of_nat n) = false -> (n <= Z.to_nat z)%nat.
Proof. simpl. lia. Qed.

(** Enough fuel from attempt [attempt] on, and what the answer is. *)
Lemma retry_loop_ends {T} (fn : nat -> outcome T * Z) z :
  forall fuel attempt elapsed, (S (Z.to_nat z) <= attempt + fuel)%nat -> (0 < fuel)%nat ->
  exists r n, retry_loop cfg fuel fn (Fin z) attempt elapsed = Some r /\
    calls r = S n /\ answer r = (fn n).1 /\ (attempt <= n <= max attempt (Z.to_nat z))%nat /\
    (forall m, (attempt <= m < n)%nat -> exists e, (fn m).1 = Throws e /\ isTransientRpcError e = true) /\
    (forall e, (fn n).1 = Throws e -> isTransientRpcError e = true -> (Z.to_nat z <= n)%nat) /\
    forall fuel', (fuel <= fuel')%nat -> retry_loop cfg fuel' fn (Fin z) attempt elapsed = Some r.
Proof.
  induction fuel as [|fuel IH]; intros attempt elapsed Hf H0; [lia|].
  set (stop := fun r : outcome T => {| answer := r; calls := S attempt; took := elapsed + (fn attempt).2 |}).
  (* the loop stops at this attempt, whatever fuel is left *)
  assert ((forall fuel', retry_loop cfg (S fuel') fn (Fin z) attempt elapsed = Some (stop (fn attempt).1)) ->
    (forall e, (fn attempt).1 = Throws e -> isTransientRpcError e = true -> (Z.to_nat z <= attempt)%nat) ->
    exists r n, retry_loop cfg (S fuel) fn (Fin z) attempt elapsed = Some r /\
    calls r = S n /\ answer r = (fn n).1 /\ (attempt <= n <= max attempt (Z.to_nat z))%nat /\
    (forall m, (attempt <= m < n)%nat -> exists e, (fn m).1 = Throws e /\ isTransientRpcError e = true) /\
    (forall e, (fn n).1 = Throws e -> isTransientRpcError e = true -> (Z.to_nat z <= n)%nat) /\
    forall fuel', (S fuel <= fuel')%nat -> retry_loop cfg fuel' fn (Fin z) attempt elapsed = Some r) as Hstop.
  { intros H Hlast. exists (stop (fn attempt).1), attempt. rewrite H.
    split_and!; try done; try lia; intros [|fuel'] ?; (lia || done). }
  destruct (fn attempt) as [[a|e] ms] eqn:E.
  - apply Hstop; [|done]. intros. simpl. by rewrite E.
  - destruct (z <? Z.of_nat (S attempt)) eqn:Hz.
    { apply Hstop; [|apply Z.ltb_lt in Hz; intros; lia]. intros. cbn [retry_loop num_lt]. by rewrite E, Hz. }
    destruct (isTransientRpcError e) eqn:Ht.
    + apply Z.ltb_ge in Hz.
      assert (forall fuel', retry_loop cfg (S fuel') fn (Fin z) attempt elapsed =
        retry_loop cfg fuel' fn (Fin z) (S attempt)
          (elapsed + ms + RPC_RETRY_BASE_MS cfg * 2 ^ Z.of_nat attempt)) as Hstep.
      { intros. cbn [retry_loop num_lt]. rewrite E, Ht.
        by rewrite (proj2 (Z.ltb_ge _ _) Hz). }
      destruct (IH (S attempt) (elapsed + ms + RPC_RETRY_BASE_MS cfg * 2 ^ Z.of_nat attempt))
        as (r & n & Hr & Hc & Ha & Hn & Hbefore & Hlast & Hm); [lia|lia|].
      exists r, n. rewrite Hstep. split_and!; try done; try lia.
      * intros m Hm'. destruct (decide (m = attempt)) as [->|]; [rewrite E; by eauto|].
        apply Hbefore. lia.
      * intros [|fuel'] Hf'; [lia|]. rewrite Hstep. apply Hm. lia.
    + apply Hstop; [|intros ? [= <-]; by rewrite Ht]. intros. cbn [retry_loop num_lt].
      by rewrite E, Hz, Ht.
Qed.


(** What a retried call answers: one of the answers of its calls. *)
Lemma withRpcRetry_cases {T} (fn : nat -> outcome T * Z) :
  (exists n, withRpcRetry cfg fn = (fn n).1) \/
  withRpcRetry cfg fn = Throws (ErrorMsg "still retrying").
Proof.
  unfold withRpcRetry. generalize (retry_fuel (RPC_MAX_RETRIES cfg)), 0%nat, 0.
  induction n as [|fuel IH]; intros k t; [by right|]. simpl.
  destruct (fn k) as [[a|e] ms] eqn:E; [left; exists k; by rewrite E|].
  destruct (num_lt _ _); [left; exists k; by rewrite E|].
  destruct (negb _); [left; exists k; by rewrite E|]. apply IH.
Qed.

(** The errors the endpoint passes on to the client as they are. *)
Definition is_ApiError (e : JsError) : bool := match e with ApiErr _ _ _ _ => true | _ => false end.
Definition fails_inside {A} (o : outcome A) : Prop := exists e, o = Throws e /\ is_ApiError e = false.

Lemma withRpcRetry_fails {T} (fn : nat -> outcome T * Z) :
  (forall n, fails_inside (fn n).1) -> fails_inside (withRpcRetry cfg fn).
Proof.
  intros H. destruct (withRpcRetry_cases fn) as [[n ->]| ->]; [done|by eexists].
Qed.

(** A call that fails at once fails under a deadline and under retries. *)
Lemma unbound_fails {T} label name :
  fails_inside (withRpcRetry cfg (fun _ =>
    withRpcTimeout (T:=T) label (Some (Throws (ReferenceErr name), 0)) (RPC_TIMEOUT_MS cfg))).
Proof. apply withRpcRetry_fails. intros n. unfold withRpcTimeout. case_match; by eexists. Qed.

(** ** Submissions *)

(** What a submission does to the network, and what it says of it. *)
Lemma submit_outcome server name xs secret sent :
  (exists e, (submitContractCall cfg server name xs secret sent).1 = Throws e) /\
  ((submitContractCall cfg server name xs secret sent).2 = sent \/
   submitContractCall cfg server name xs secret sent =
     (Throws (ReferenceErr "pollTransactionStatus"), sent ++ [{| method := name; args := xs |}])).
Proof.
  unfold submitContractCall, bind, lift, throw, modify.
  repeat (case_match; simplify_eq/=; eauto).
Qed.

(** The outcome of a submission: nothing reached the network, or a call that does
    not fit the contract did and the caller was told it failed. *)
Definition submitted (name : string) (sent : list Invocation)
    (result : outcome string * list Invocation) : Prop :=
  (exists e, result.1 = Throws e) /\
  (result.2 = sent \/
   exists call, result = (Throws (ReferenceErr "pollTransactionStatus"), sent ++ [call]) /\
                method call = name /\ well_typed call = false).

Lemma submitted_call server name xs secret sent :
  well_typed {| method := name; args := xs |} = false ->
  submitted name sent (submitContractCall cfg server name xs secret sent).
Proof.
  intros H. destruct (submit_outcome server name xs secret sent) as [He [H'|H']]; split; eauto.
Qed.

Lemma submitted_throw name sent e : submitted name sent (Throws e, sent).
Proof. split; eauto. Qed.

Lemma cancelStream_submitted server streamId secret sent :
  submitted "cancel_stream" sent (cancelStream cfg server streamId secret sent).
Proof.
  unfold cancelStream, bind, lift. case_match; [|apply submitted_throw]. apply submitted_call. by destruct a.
Qed.

Lemma topUpStream_submitted server streamId amount caller sent :
  submitted "top_up_stream" sent (topUpStream cfg server streamId amount caller sent).
Proof.
  unfold topUpStream, bind, lift.
  case_match; [apply submitted_throw|]. case_match eqn:Hid; [|apply submitted_throw].
  apply native_u64_val in Hid as ->. case_match eqn:Ha; [|apply submitted_throw].
  apply native_i128_val in Ha as (hi & lo & ->). case_match; [|apply submitted_throw].
  by apply submitted_call.
Qed.

(** C13. Cancelling and topping up through the backend never report success: after
    the network has accepted the transaction the code calls a function that does
    not exist, so the caller sees an error whatever happened.  And what was
    accepted does not fit the contract: the arguments are not those of the entry
    point called. *)
Theorem submissions_always_fail (server : option Server) (streamId amount : Z)
    (secret caller : string) (sent : list Invocation) :
  submitted "cancel_stream" sent (cancelStream cfg server streamId secret sent) /\
  submitted "top_up_stream" sent (topUpStream cfg server streamId amount caller sent).
Proof. split; [apply cancelStream_submitted|apply topUpStream_submitted]. Qed.

(** ** Reads *)

Lemma simulateContractCall_unbound name xs : fails_inside (simulateContractCall cfg None name xs).
Proof.
  unfold simulateContractCall, executeRpc. case_match; [by eexists|].
  destruct (unbound_fails (T:=Simulation) "simulateTransaction" "rpcPool") as (e & -> & He).
  by exists e.
Qed.

Lemma simulated_unbound name p f a n : fails_inside (simulated cfg None name p f a n).
Proof.
  unfold simulated. case_match; [by eexists|].
  destruct (new_Address a) as [addr|]; [|by eexists]. simpl.
  destruct (native_u64 n) as [id|]; [|by eexists]. simpl.
  destruct (simulateContractCall_unbound name [ScvAddress addr; id]) as (e & -> & _). by eexists.
Qed.

Lemma getStreamFromChain_unbound streamId : getStreamFromChain cfg None streamId = None.
Proof.
  unfold getStreamFromChain. case_match; [done|]. destruct (native_u64 streamId) as [v|]; [|done].
  simpl. by destruct (simulateContractCall_unbound "get_stream" [v]) as (e & -> & _).
Qed.

Lemma getClaimableFromChain_unbound streamId : getClaimableFromChain cfg None streamId = None.
Proof.
  unfold getClaimableFromChain. case_match; [done|]. destruct (native_u64 streamId) as [v|]; [|done].
  simpl. by destruct (simulateContractCall_unbound "get_claimable_amount" [v]) as (e & -> & _).
Qed.

(** Unless a test has injected a server, no read of the chain ever succeeds:
    the stream and the claimable amount are always absent, the latest ledger is
    always 0, and every pause, resume or withdrawal check fails. *)
Theorem chain_reads_fail (streamId : Z) (address : string) :
  getStreamFromChain cfg None streamId = None /\
  getClaimableFromChain cfg None streamId = None /\
  getLatestLedger cfg = Returns 0 /\
  fails_inside (pauseStream cfg None address streamId) /\
  fails_inside (resumeStream cfg None address streamId) /\
  fails_inside (withdraw cfg None streamId address).
Proof.
  split_and!; [apply getStreamFromChain_unbound|apply getClaimableFromChain_unbound| |apply simulated_unbound..].
  unfold getLatestLedger.
  by destruct (unbound_fails (T:=Z) "getLatestLedger" "getServer") as (e & -> & _).
Qed.

(** ** Invocations built for signing *)

Lemma obind_Returns {A B} (o : outcome A) (k : A -> outcome B) b :
  obind o k = Returns b -> exists a, o = Returns a /\ k a = Returns b.
Proof. destruct o; [eauto|done]. Qed.

(** Peel the binds off an equation between outcomes. *)
Ltac outcome_inv :=
  repeat match goal with
  | H : obind _ _ = Returns _ |- _ =>
      let x := fresh "x" in let E := fresh "E" in apply obind_Returns in H as (x & E & H)
  | H : Returns _ = Returns _ |- _ => injection H as H; subst
  end.

Definition typed (invs : list Invocation) : Prop := Forall (fun i => well_typed i = true) invs.

Lemma withdrawals_typed sender ids invs :
  withdrawals sender ids = Returns invs -> typed invs /\ length invs = length ids.
Proof.
  revert invs. induction ids as [|i ids IH]; intros invs H; simpl in H; outcome_inv; [by repeat constructor|].
  destruct (IH _ E1) as [? Hl]. apply native_u64_val in E0 as ->.
  split; [by constructor|simpl; by rewrite Hl].
Qed.

Lemma on_stream_typed sender name raw invs :
  entry_point name = Some [TAddress; TU64] -> on_stream sender name raw = Returns invs ->
  typed invs /\ length invs = 1%nat.
Proof.
  unfold on_stream. intros Hn H. outcome_inv. apply native_u64_val in E0 as ->.
  split; [|done]. constructor; [|constructor]. unfold well_typed. simpl. by rewrite Hn.
Qed.

(** C11. Whatever action and parameters a client sends, the invocations built for
    its wallet to sign fit the contract: each names an entry point and passes it
    the parameters the contract declares, in their order; there is at least one,
    and at most ten of them in a batch. *)
Theorem invocations_typed (action : StreamAction) (sender : ScAddress)
    (params : SimulateActionParams) (invs : list Invocation) :
  buildInvocations cfg action sender params = Returns invs ->
  Forall (fun i => well_typed i = true) invs /\ (1 <= length invs <= 10)%nat /\
  (action <> batch_withdraw -> length invs = 1%nat).
Proof.
  intros H. destruct action; simpl in H.
  - outcome_inv. destruct (sp_duration params) as [d|]; [|done].
    case_match; [done|]. outcome_inv.
    apply native_i128_val in E2 as (hi & lo & ->). apply native_u64_val in E3 as ->.
    split_and!; simpl; try lia; by repeat constructor.
  - apply on_stream_typed in H as [? ->]; [|done]. split_and!; done || lia.
  - apply on_stream_typed in H as [? ->]; [|done]. split_and!; done || lia.
  - outcome_inv. apply native_u64_val in E0 as ->. apply native_i128_val in E2 as (hi & lo & ->).
    split_and!; simpl; try lia; by repeat constructor.
  - destruct (batch_ids params) as [[|i ids]|] eqn:Hb; [done| |done].
    destruct (_ <? _)%nat eqn:Hlen in H; [done|]. apply Nat.ltb_ge in Hlen.
    apply withdrawals_typed in H as [? ->]. unfold MAX_BATCH_WITHDRAW in Hlen.
    split_and!; try done; simpl in *; lia.
Qed.

(** ** The endpoint *)

(** A computation that fails only by rejecting a parameter, with status 400, or
    on a value the SDK refuses. *)
Definition rejects {A} (o : outcome A) : Prop :=
  forall e, o = Throws e -> (exists m, e = invalid_params m) \/ e = TypeErr.

Lemma rejects_bind {A B} (o : outcome A) (k : A -> outcome B) :
  rejects o -> (forall a, rejects (k a)) -> rejects (obind o k).
Proof. intros Ho Hk. destruct o; [apply Hk|]. intros e' [= <-]. by apply Ho. Qed.
Lemma rejects_ret {A} (a : A) : rejects (Returns a).
Proof. by intros e. Qed.
Lemma rejects_invalid {A} m : rejects (Throws (A:=A) (invalid_params m)).
Proof. intros e [= <-]. eauto. Qed.
Lemma rejects_sdk {A} (o : option A) : rejects (of_option TypeErr o).
Proof. destruct o; [done|]. intros e [= <-]. by right. Qed.
Lemma rejects_toAddress raw field : rejects (toAddress raw field).
Proof.
  unfold toAddress. destruct raw as [[|c s]|]; [apply rejects_invalid| |apply rejects_invalid].
  destruct (new_Address _); [done|apply rejects_invalid].
Qed.
Lemma digits_only_BigInt s : digits_only s = true -> exists n, BigInt_of_string s = Returns n.
Proof.
  intros H. unfold BigInt_of_string. rewrite string_to_bigint_digits by done.
  assert (all_digits s = true) as Ha by (by destruct s).
  destruct (parse_digits_some 0 s Ha) as [n ->]. by exists n.
Qed.
Lemma rejects_toStreamId raw field : rejects (toStreamId raw field).
Proof.
  unfold toStreamId. destruct raw as [[|c s]|]; [apply rejects_invalid| |apply rejects_invalid].
  destruct (digits_only _) eqn:H; [|apply rejects_invalid].
  destruct (digits_only_BigInt _ H) as [n Hn]. simpl negb. cbv iota. by rewrite Hn.
Qed.
Lemma rejects_toPositiveI128 raw field : rejects (toPositiveI128 raw field).
Proof.
  unfold toPositiveI128. destruct raw as [[|c s]|]; [apply rejects_invalid| |apply rejects_invalid].
  destruct (digits_only _) eqn:H; [|apply rejects_invalid].
  destruct (digits_only_BigInt _ H) as [n Hn]. simpl negb. cbv iota. rewrite Hn. simpl.
  case_match; [apply rejects_invalid|done].
Qed.

(** Follow the binds and the cases of a computation that only rejects. *)
Ltac rejects :=
  repeat first
    [ apply rejects_toAddress | apply rejects_toStreamId | apply rejects_toPositiveI128
    | apply rejects_sdk | apply rejects_invalid | apply rejects_ret
    | apply rejects_bind; [|intros] | progress case_match ].

Lemma rejects_withdrawals sender ids : rejects (withdrawals sender ids).
Proof.
  induction ids as [|i ids IH]; cbn [withdrawals]; [apply rejects_ret|].
  unfold native_u64. rejects. exact IH.
Qed.

Lemma rejects_buildInvocations action sender params :
  rejects (buildInvocations cfg action sender params).
Proof.
  unfold buildInvocations, on_stream, native_u64, native_i128.
  rejects; apply rejects_withdrawals.
Qed.

Variable assemble : list Invocation -> SimulateSuccess -> string.

(** The endpoint as written never simulates: the server it asks for is a name
    the module does not define, so a request that passes every check of its
    parameters is answered 500, as is one with a value the SDK refuses; one with
    an invalid parameter is answered 400, and all are answered 503 while no
    contract is configured. *)
Theorem simulation_never_answers (action : StreamAction) (key : string)
    (params : SimulateActionParams) :
  let reply := simulateStreamHandler cfg assemble
    (Some {| sb_action := action; sb_senderPublicKey := key; sb_params := params |}) in
  match STREAM_CONTRACT_ID cfg with
  | EmptyString =>
      reply = SimulateProblem 503 "Stream contract is not configured" "contract_not_configured" []
  | _ =>
      reply = SimulateProblem 500 "Simulation failed" "simulation_error" [] \/
      exists message, reply = SimulateProblem 400 message "invalid_params" [] /\
        (let? sender := toAddress (Some key) "senderPublicKey" in
         buildInvocations cfg action sender params) = Throws (invalid_params message)
  end.
Proof.
  unfold simulateStreamHandler, simulateStreamAction, simulate_on, getServer. simpl sb_action.
  simpl sb_senderPublicKey. simpl sb_params.
  destruct (STREAM_CONTRACT_ID cfg) as [|c id]; [done|].
  destruct (toAddress (Some key) _) as [sender|e] eqn:Ha; simpl.
  - destruct (buildInvocations cfg action sender params) as [invs|e] eqn:Hb; simpl.
    + destruct (negb _); [by left|]. unfold call_server.
      destruct (unbound_fails (T:=SimulateAnswer) "simulateTransaction" "getServer") as (e & -> & He).
      left. simpl. by destruct e.
    + destruct (rejects_buildInvocations _ _ _ _ Hb) as [[m ->]| ->]; [right|by left].
      eauto.
  - destruct (rejects_toAddress _ _ _ Ha) as [[m ->]| ->]; [right|by left]. eauto.
Qed.

(** ** Fees and errors *)

(** The recommended fee is always above the simulated one and never more than
    15% above it, but for the stroop that a fee of less than seven is raised by;
    it rounds down, so it can fall short of the 15% by less than a stroop. *)
Theorem fee_buffer (base : Z) :
  0 <= base ->
  exists fee, applyFeeBuffer (BigInt_toString base) = Returns (BigInt_toString fee) /\
    base < fee /\ 115 * base < 100 * (fee + 1) /\ (100 * fee <= 115 * base \/ fee = base + 1).
Proof.
  intros Hb. unfold applyFeeBuffer, FEE_BUFFER_PERCENT.
  assert (BigInt_toString base <> EmptyString) as Hne.
  { unfold BigInt_toString. case_match; [done|]. pose proof (nat_digits_only base Hb).
    by destruct (nat_digits base). }
  destruct (BigInt_toString base) as [|c s] eqn:E; [done|]. rewrite <- E.
  rewrite BigInt_roundtrip. simpl.
  rewrite Z.quot_div_nonneg by lia.
  pose proof (Z.div_mod (base * 115) 100 ltac:(lia)). pose proof (Z.mod_pos_bound (base * 115) 100 ltac:(lia)).
  change (100 + 15) with 115. set (q := base * 115 / 100) in *.
  exists (if base <? q then q else base + 1). split; [done|]. case Z.ltb_spec; intros; lia.
Qed.

End Facts.
