(* ===== verification/StreamApi.v ===== *)
(** * Requests that change a stream

    The handlers of /v1/streams that write: backend/src/controllers/stream/cancel.ts,
    backend/src/routes/v1/streams/withdraw.ts, the create, top-up, pause and
    resume handlers of backend/src/controllers/stream.controller.ts, and
    [updateStatus] of backend/src/repositories/stream.repository.ts.  They run
    over the database, the claimable-amount cache and the network; a request
    reads the clock once ([now], in milliseconds).  [user] is the public key the
    authentication middleware put on the request. *)
From S2P Require Import Prelude JsLang Texts StreamId Json Schema Xdr Worker DeadLetter MemoryCache Contract Claimable Http Soroban.
Local Open Scope Z_scope.

(** ** Raw SQL *)

(** A text cast to [bigint]: a decimal integer of eight bytes. *)
Definition sql_bigint (s : string) : option Z :=
  let v :=
    match trim s with
    | String "-"%char t => Z.opp <$> nonempty_parse (parse_digits 0) t
    | String "+"%char t => nonempty_parse (parse_digits 0) t
    | t => nonempty_parse (parse_digits 0) t
    end in
  match v with Some z => if fits_int8 z then Some z else None | None => None end.

(** [(col::bigint + $1::bigint)::text]: the sum overflows as a [bigint] too. *)
Definition sql_add (column amount : string) : option string :=
  match sql_bigint column, sql_bigint amount with
  | Some a, Some b => if fits_int8 (a + b) then Some (BigInt_toString (a + b)) else None
  | _, _ => None
  end.

Definition sql_error : JsError := ErrorMsg "Raw query failed".

(** ** The state a request acts on *)

Section Api.
Context {P : PrismaEngine} {Key : StrKey} {Sdk : SorobanSdk}.
Context (cfg : SorobanConfig) (server : option Server) (cacheTtlMs : Z).

Record UserStreamSummary := {
  us_address : string;
  totalStreamsCreated : Z;
  totalStreamedOut : string;
  totalStreamedIn : string;
  currentClaimable : string;
  activeOutgoingCount : Z;
  activeIncomingCount : Z;
  truncated : bool
}.

Record Api := {
  world : World P;
  claims : MemoryCache ClaimableValue; (* of claimableAmountService *)
  sent : list Invocation; (* what the network accepted, oldest first *)
  userSummaryCache : list (string * (UserStreamSummary * Z)) (* value, expiresAtMs *)
}.

Definition set_world w s := {| world := w; claims := claims s; sent := sent s;
  userSummaryCache := userSummaryCache s |}.
Definition set_claims c s := {| world := world s; claims := c; sent := sent s;
  userSummaryCache := userSummaryCache s |}.
Definition set_sent l s := {| world := world s; claims := claims s; sent := l;
  userSummaryCache := userSummaryCache s |}.
Definition set_summaries m s := {| world := world s; claims := claims s; sent := sent s;
  userSummaryCache := m |}.

(** A computation on a part of the state. *)
Definition on {T A} (get : Api -> T) (put : T -> Api -> Api) (m : Js T A) : Js Api A :=
  fun s => let '(r, t) := m (get s) in (r, put t s).
Definition in_world {A} (m : Js (World P) A) : Js Api A := on world set_world m.
Definition in_claims {A} (m : Js (MemoryCache ClaimableValue) A) : Js Api A := on claims set_claims m.
Definition in_network {A} (m : Js (list Invocation) A) : Js Api A := on sent set_sent m.

(** [UPDATE "Stream" SET ... WHERE "streamId" = $3]: [upd] gives the new row, or an
    error of the server; [@updatedAt] is the client's doing and stays. *)
Definition execute_update (id : Z) (upd : Stream -> option Stream) : Js (World P) unit :=
  let! r := find_stream id in
  match r with
  | None => ret tt
  | Some row =>
      match upd row with
      | Some row' =>
          if stream_fits row' then
            modify (fun w => set_db (set_streams (t_put (streamId row') row' (streams (db w))) (db w)) w)
          else throw sql_error
      | None => throw sql_error
      end
  end.

(** ** Withdrawing: routes/v1/streams/withdraw.ts *)

Inductive ApiBody :=
| Withdrawn (streamId : Z) (txHash amount : string) (stream : option Stream)
| Cancelled (txHash : string)
| ToppedUp (streamId : Z) (txHash depositedAmount : string)
| SimulatedChange (streamId : Z) (txHash : string) (stream : Stream)
| Projected (stream : Stream)
| Unconfirmed (error : string).

Definition api := Js Api (Reply ApiBody).
#[local] Arguments sendApiError {S B}.

(** [BigInt(refreshed.withdrawnAmount) >= BigInt(refreshed.depositedAmount)] *)
Definition fully_withdrawn (r : Stream) : outcome bool :=
  let? w := BigInt_of_string (withdrawnAmount r) in
  let? d := BigInt_of_string (depositedAmount r) in
  Returns (d <=? w).

(** The transaction: increment, read back, deactivate when nothing is left. *)
Definition withdraw_tx (now id : Z) (wasActive : bool) (amount : string) :
    Js (World P) (option Stream) :=
  transaction (
    do! execute_update id (fun r =>
      (fun a => set_lastUpdateTime (seconds now) (set_withdrawnAmount a r)) <$>
        sql_add (withdrawnAmount r) amount) in
    let! refreshed := stream_findUnique id in
    match refreshed with
    | Some r =>
        if wasActive then
          let! full := lift (fully_withdrawn r) in
          if full : bool then
            do! stream_update now id (set_isActive false) in
            ret (Some (set_isActive false r))
          else ret refreshed
        else ret refreshed
    | None => ret None
    end).

Definition withdrawHandler (now : Z) (param : PathParam) (user : string) : api :=
  or_500
    match parseStreamId (raw_id param) with
    | None => sendApiError 400 "INVALID_STREAM_ID" "Invalid streamId parameter"
    | Some id =>
        let! stream := in_world (stream_findUnique id) in
        match stream with
        | None => sendApiError 404 "NOT_FOUND" "Stream not found"
        | Some stream =>
            if negb (bool_decide (recipient stream = user)) then
              sendApiError 403 "FORBIDDEN" "Only the stream recipient can withdraw from the stream"
            else
              let! claimable := in_claims
                (getClaimableAmount cacheTtlMs now now (claimable_state stream) None) in
              if negb (actionable (result claimable)) then
                sendApiError 409 "CONFLICT" "No claimable balance is currently available"
              else
                try_catch
                  (let! txHash := lift (withdraw cfg server id user) in
                   let! withdrawAmount := lift (BigInt_of_string (claimableAmount (result claimable))) in
                   let! updatedStream := in_world
                     (withdraw_tx now id (isActive stream) (BigInt_toString withdrawAmount)) in
                   do! in_world (streamEvent_upsert (Some txHash) "WITHDRAWN"
                     (new_event id "WITHDRAWN" (Some (claimableAmount (result claimable))) 0 (seconds now)
                       [("withdrawnBy", JString user)])
                     (fun r => r)) in
                   send 200 (Withdrawn id txHash (claimableAmount (result claimable)) updatedStream))
                  (fun _ => sendApiError 400 "WITHDRAWAL_FAILED" "Failed to withdraw from stream on chain")
        end
    end.

(** ** Cancelling: controllers/stream/cancel.ts *)

Inductive StreamStatus := ACTIVE | CANCELLED | COMPLETED | PAUSED.
#[export] Instance StreamStatus_eq_dec : EqDecision StreamStatus.
Proof. solve_decision. Defined.

Definition updateStatus (now id : Z) (status : StreamStatus) : Js (World P) unit :=
  stream_update now id
    (set_isActive (bool_decide (status = ACTIVE) || bool_decide (status = PAUSED))).

Definition cancelStreamHandler (now : Z) (param : PathParam) (user : string)
    (senderSecret : option string) : api :=
  try_catch
    (if negb (truthy (first_id param)) then
       sendApiError 400 "MISSING_STREAM_ID" "Missing streamId parameter"
     else
       match parseStreamId (raw_id param) with
       | None => sendApiError 400 "INVALID_STREAM_ID" "Invalid streamId parameter"
       | Some id =>
           let! stream := in_world (stream_findUnique id) in
           match stream with
           | None => sendApiError 404 "NOT_FOUND" "Stream not found"
           | Some stream =>
               if negb (bool_decide (sender stream = user)) then
                 sendApiError 403 "FORBIDDEN" "Only the sender can cancel the stream"
               else if negb (isActive stream) then
                 sendApiError 409 "CONFLICT" "Stream is already cancelled or completed"
               else if negb (truthy senderSecret) then
                 sendApiError 400 "INVALID_REQUEST" "senderSecret is required"
               else
                 let! txHash := in_network (cancelStream cfg server id (default "" senderSecret)%string) in
                 do! in_world (updateStatus now id CANCELLED) in
                 send 200 (Cancelled txHash)
           end
       end)
    (fun error =>
       if includes "Simulation failed" (message_of error) then
         sendApiError 400 "TRANSACTION_SIMULATION_FAILED" (message_of error)
       else sendApiError 500 "INTERNAL_SERVER_ERROR" "A technical error occurred. Please try again later.").

(** ** Topping up *)

Definition TOP_UP_AMOUNT_MAX_DIGITS : nat := 30.

(** The amount, if the schema lets it through. *)
Definition topUpBodySchema (amount : option string) : option string :=
  match amount with
  | Some a =>
      if digits_only a && (String.length a <=? TOP_UP_AMOUNT_MAX_DIGITS)%nat then Some a else None
  | None => None
  end.

Definition topUpStreamHandler (now : Z) (param : PathParam) (body user : option string) : api :=
  match parseStreamId (raw_id param) with
  | None => sendApiError 400 "INVALID_STREAM_ID" "Invalid streamId"
  | Some id =>
      match topUpBodySchema body with
      | None => sendApiError 400 "VALIDATION_ERROR" "Request validation failed"
      | Some text =>
          let! amount := lift (BigInt_of_string text) in
          if amount <=? 0 then sendApiError 400 "INVALID_AMOUNT" "amount must be a positive integer"
          else if negb (truthy user) then sendApiError 401 "UNAUTHORIZED" "Authentication required"
          else
            let caller := default ""%string user in
            try_catch
              (let! stream := in_world (stream_findUnique id) in
               match stream with
               | None => sendApiError 404 "NOT_FOUND" "Stream not found"
               | Some stream =>
                   if negb (bool_decide (sender stream = caller)) then
                     sendApiError 403 "FORBIDDEN" "Only the stream sender may top up this stream"
                   else if negb (isActive stream) then
                     sendApiError 409 "CONFLICT" "Cannot top up an inactive stream"
                   else if isPaused stream then
                     sendApiError 409 "CONFLICT" "Cannot top up a paused stream"
                   else
                     let! txHash := in_network (topUpStream cfg server id amount caller) in
                     do! in_world (execute_update id (fun r =>
                       (fun a => set_lastUpdateTime (seconds now) (set_depositedAmount a r)) <$>
                         sql_add (depositedAmount r) (BigInt_toString amount))) in
                     let! updatedStream := in_world (stream_findUnique id) in
                     match updatedStream with
                     | Some r => send 200 (ToppedUp id txHash (depositedAmount r))
                     | None => throw TypeErr
                     end
               end)
              (fun _ => sendApiError 400 "TOP_UP_FAILED" "Failed to top up stream on chain")
      end
  end.

(** ** Pausing and resuming *)

(** The checks the two handlers share, then the simulation. *)
Definition change_handler (user : option string) (param : PathParam) (forbidden : string)
    (refuse : Stream -> option string) (simulate : string -> Z -> outcome string)
    (code message : string) : api :=
  or_500
    match user with
    | None => sendApiError 401 "UNAUTHORIZED" "Authentication required"
    | Some publicKey =>
        match parseStreamId (raw_id param) with
        | None => sendApiError 400 "INVALID_STREAM_ID" "Invalid streamId parameter"
        | Some id =>
            let! stream := in_world (stream_findUnique id) in
            match stream with
            | None => sendApiError 404 "NOT_FOUND" "Stream not found"
            | Some stream =>
                if negb (bool_decide (sender stream = publicKey)) then
                  sendApiError 403 "FORBIDDEN" forbidden
                else
                  match refuse stream with
                  | Some why => sendApiError 409 "CONFLICT" why
                  | None =>
                      try_catch
                        (let! txHash := lift (simulate publicKey id) in
                         send 200 (SimulatedChange id txHash stream))
                        (fun _ => sendApiError 400 code message)
                  end
            end
        end
    end.

Definition pauseStream (user : option string) (param : PathParam) : api :=
  change_handler user param "Only the stream sender can pause the stream"
    (fun stream =>
       if isPaused stream then Some "Stream is already paused"%string
       else if negb (isActive stream) then Some "Cannot pause an inactive stream"%string
       else None)
    (Soroban.pauseStream cfg server) "PAUSE_FAILED" "Failed to pause stream on chain".

Definition resumeStream (user : option string) (param : PathParam) : api :=
  change_handler user param "Only the stream sender can resume the stream"
    (fun stream => if negb (isPaused stream) then Some "Stream is not paused"%string else None)
    (Soroban.resumeStream cfg server) "RESUME_FAILED" "Failed to resume stream on chain".

(** ** Creating: validators/stream.validator.ts and createStream *)

Inductive StartTime := StartNumber (n : Z) | StartText (s : string) | StartOther.

(** A request body; [None]: not a string. *)
Record CreateBody := {
  cb_streamId : RawId;
  cb_sender : option string;
  cb_recipient : option string;
  cb_tokenAddress : option string;
  cb_ratePerSecond : option string;
  cb_depositedAmount : option string;
  cb_startTime : StartTime
}.

Record CreateStreamInput := {
  ci_streamId : Z;
  ci_sender : string;
  ci_recipient : string;
  ci_tokenAddress : string;
  ci_ratePerSecond : string;
  ci_depositedAmount : string;
  ci_startTime : num
}.

(** [z.string().min(1)] and [z.string().regex(/^\d+$/)] *)
Definition nonempty_text (s : option string) : option string :=
  match s with Some (String _ _ as t) => Some t | _ => None end.
Definition digits_text (s : option string) : option string :=
  match s with Some t => if digits_only t then Some t else None | None => None end.

Definition MAX_I128 : Z := 170141183460469231731687303715884105727.
Definition rate_in_range (s : string) : bool :=
  match BigInt_of_string s with Returns v => v <=? MAX_I128 | Throws _ => true end.

(** [z.number().int()] takes safe integers only. *)
Definition start_time (t : StartTime) : option num :=
  match t with
  | StartNumber n => if (0 <=? n) && (n <=? MAX_SAFE_INTEGER) then Some (Fin n) else None
  | StartText s => if digits_only s then Some (parseInt10 s) else None
  | StartOther => None
  end.

Definition createStreamSchema (b : CreateBody) : option CreateStreamInput :=
  id ← parseStreamId (cb_streamId b);
  snd ← nonempty_text (cb_sender b);
  rcp ← nonempty_text (cb_recipient b);
  token ← nonempty_text (cb_tokenAddress b);
  rate ← digits_text (cb_ratePerSecond b);
  dep ← digits_text (cb_depositedAmount b);
  start ← start_time (cb_startTime b);
  if rate_in_range rate then
    Some {| ci_streamId := id; ci_sender := snd; ci_recipient := rcp; ci_tokenAddress := token;
            ci_ratePerSecond := rate; ci_depositedAmount := dep; ci_startTime := start |}
  else None.

(** What the chain says is what the request says. *)
Definition confirms (c : ChainRecord) (i : CreateStreamInput) (rate deposited : Z) : bool :=
  bool_decide (ch_sender c = ci_sender i) && bool_decide (ch_recipient c = ci_recipient i) &&
  bool_decide (ch_tokenAddress c = ci_tokenAddress i) &&
  bool_decide (ch_ratePerSecond c = BigInt_toString rate) &&
  bool_decide (ch_depositedAmount c = BigInt_toString deposited) &&
  bool_decide (Fin (ch_startTime c) = ci_startTime i).

(** The row to create, with the defaults of the schema. *)
Definition projected (now id : Z) (c : ChainRecord) (endTime : Z) : Stream := {|
  streamId := id; sender := ch_sender c; recipient := ch_recipient c;
  tokenAddress := ch_tokenAddress c; ratePerSecond := ch_ratePerSecond c;
  depositedAmount := ch_depositedAmount c; withdrawnAmount := "0";
  startTime := ch_startTime c; lastUpdateTime := ch_startTime c; endTime := Some endTime;
  isActive := true; isPaused := false; pausedAt := None; totalPausedDuration := 0;
  updatedAt := now |}.

Definition createStream (now : Z) (user : option string) (body : CreateBody) : api :=
  try_catch
    (if negb (truthy user) then sendApiError 401 "UNAUTHORIZED" "Authentication required"
     else
       let caller := default ""%string user in
       match createStreamSchema body with
       | None => sendApiError 400 "INVALID_REQUEST" ""
       | Some i =>
           if negb (bool_decide (ci_sender i = caller)) then
             sendApiError 403 "FORBIDDEN" "sender must match the authenticated wallet"
           else
             let! rate := lift (BigInt_of_string (ci_ratePerSecond i)) in
             let! deposited := lift (BigInt_of_string (ci_depositedAmount i)) in
             if rate <=? 0 then
               sendApiError 400 "INVALID_RATE" "Invalid ratePerSecond: must be greater than zero"
             else if deposited <=? 0 then
               sendApiError 400 "INVALID_DEPOSITED_AMOUNT"
                 "Invalid depositedAmount: must be greater than zero"
             else
               let! existing := in_world (stream_findUnique (ci_streamId i)) in
               if match existing with
                  | Some r => negb (bool_decide (sender r = caller))
                  | None => false
                  end
               then sendApiError 403 "FORBIDDEN" "Cannot modify a stream owned by another wallet"
               else
                 match getStreamFromChain cfg server (ci_streamId i) with
                 | None => send 409 (Unconfirmed "Stream has not been confirmed on-chain")
                 | Some chain =>
                     if negb (confirms chain i rate deposited) then
                       send 409 (Unconfirmed "Stream request does not match on-chain state")
                     else
                       match ci_startTime i with
                       | Fin start =>
                           let endTime := start + Z.quot deposited rate in
                           do! in_world (stream_upsert now
                             (projected now (ci_streamId i) chain endTime)
                             (fun r => set_lastUpdateTime (seconds now) (set_isActive true r))) in
                           let! stream := in_world (stream_findUniqueOrThrow (ci_streamId i)) in
                           send 201 (Projected stream)
                       | _ => throw RangeErr (* BigInt of a number that is not an integer *)
                       end
                 end
       end)
    (fun error =>
       match error with
       | RangeErr | SyntaxErr | TypeErr =>
           sendApiError 400 "INVALID_NUMERIC_VALUES" "Invalid numeric values in request body"
       | _ => sendApiError 500 "INTERNAL_SERVER_ERROR" "A technical error occurred. Please try again later."
       end).

(** ** The routes: routes/v1/stream.routes.ts *)

(** The requests behind [requireAuth] that write. *)
Inductive ApiRequest :=
| PostCreate (body : CreateBody)
| PostWithdraw (param : PathParam)
| PostCancel (param : PathParam) (senderSecret : option string)
| PostTopUp (param : PathParam) (amount : option string)
| PostPause (param : PathParam)
| PostResume (param : PathParam).

Definition route (now : Z) (user : string) (req : ApiRequest) : api :=
  match req with
  | PostCreate body => createStream now (Some user) body
  | PostWithdraw p => withdrawHandler now p user
  | PostCancel p secret => cancelStreamHandler now p user secret
  | PostTopUp p amount => topUpStreamHandler now p amount (Some user)
  | PostPause p => pauseStream (Some user) p
  | PostResume p => resumeStream (Some user) p
  end.
End Api.
