(* ===== verification/StreamApiFacts.v ===== *)
(** * Requests that change a stream: properties

    A request writes only rows its caller is a party to, and never changes the
    owners of one; no request ever confirms a cancellation or a top-up; without
    an injected server no request changes anything; a withdrawal made through
    the API is counted a second time when the chain reports it. *)
From S2P Require Import Prelude JsLang StreamId Json Schema Xdr Worker DeadLetter MemoryCache Contract Claimable Http Soroban Simulate SorobanFacts StreamApi Samples WorkerFacts Effects.
From stdpp Require Import sorting.
Local Open Scope Z_scope.

Section Facts.
Context {P : PrismaEngine} {Key : StrKey} {Sdk : SorobanSdk}.
Context (cfg : SorobanConfig) (server : option Server) (cacheTtlMs : Z).
Implicit Types (s : Api (P:=P)) (w : World P) (d : DB P) (r : Stream).

(** ** Walking a handler *)

Lemma find_bind {A} id (k : option Stream -> Js Api A) s :
  bind (in_world (stream_findUnique id)) k s = k (t_find id (streams (db (world s)))) s.
Proof. by destruct s. Qed.

(** A computation that keeps a property of the database. *)
Definition keeps {A} (J : DB P -> Prop) (m : Js Api A) : Prop :=
  preserves (fun s => J (db (world s))) m.

Lemma keeps_readonly {A} J (m : Js Api A) : readonly m -> keeps J m.
Proof. apply preserves_readonly. Qed.
Lemma keeps_bind {A B} J (m : Js Api A) (k : A -> Js Api B) :
  keeps J m -> (forall a, keeps J (k a)) -> keeps J (bind m k).
Proof. apply (preserves_bind (fun s => J (db (world s)))). Qed.
Lemma keeps_try_catch {A} J (m : Js Api A) h :
  keeps J m -> (forall e, keeps J (h e)) -> keeps J (try_catch m h).
Proof. apply preserves_try_catch. Qed.
Lemma keeps_in_claims {A} J (m : Js (MemoryCache ClaimableValue) A) : keeps J (in_claims m).
Proof. intros s Hs. unfold in_claims, on. by destruct (m (claims s)). Qed.
Lemma keeps_in_network {A} J (m : Js (list Invocation) A) : keeps J (in_network m).
Proof. intros s Hs. unfold in_network, on. by destruct (m (sent s)). Qed.
Lemma keeps_in_world {A} J (m : Js (World P) A) :
  preserves (fun w => J (db w)) m -> keeps J (in_world m).
Proof.
  intros H s Hs. unfold in_world, on. specialize (H (world s) Hs).
  by destruct (m (world s)).
Qed.
Lemma readonly_in_world {A} (m : Js (World P) A) : readonly m -> readonly (in_world m).
Proof.
  intros H s. unfold in_world, on. specialize (H (world s)). destruct (m (world s)) as [o w].
  simpl in *. subst. by destruct s.
Qed.
Lemma keeps_sendApiError {B} J c code msg : keeps J (sendApiError (B:=B) c code msg).
Proof. by apply keeps_readonly. Qed.
Lemma keeps_send {B} J c (b : B) : keeps J (send c b).
Proof. by apply keeps_readonly. Qed.
Lemma keeps_lift {A} J (o : outcome A) : keeps J (lift o).
Proof. by apply keeps_readonly. Qed.
Lemma keeps_throw {A} J e : keeps J (throw (A:=A) e).
Proof. by apply keeps_readonly. Qed.

(** ** Writes at one stream *)

(** The property survives a rewrite of stream [id] that keeps its owners, and any
    event of a stored stream. *)
Record closed_at (J : DB P -> Prop) (id : Z) : Prop := {
  closed_row : forall d r r', J d -> t_find id (streams d) = Some r -> same_owner r r' ->
    (amounts_ok r -> amounts_ok r') -> stream_fits r' = true ->
    J (set_streams (t_put (streamId r') r' (streams d)) d);
  closed_event : forall d e, J d -> event_fits e = true ->
    is_Some (t_find (ev_streamId e) (streams d)) \/
      t_find (ev_transactionHash e, ev_eventType e) (events d) = Some e ->
    J (set_events (t_put (ev_transactionHash e, ev_eventType e) e (events d)) d);
  closed_keys : forall d k e, J d -> t_find k (events d) = Some e ->
    k = (ev_transactionHash e, ev_eventType e)
}.

Section Closed.
Context (J : DB P -> Prop) (id : Z) (HJ : closed_at J id).

Lemma keeps_stream_update now upd :
  update_ok upd -> preserves (fun w => J (db w)) (stream_update now id upd).
Proof.
  intros Hu w Hw. unfold stream_update, stream_findUniqueOrThrow, bind, find_stream, gets, lift.
  destruct (t_find id _) as [r|] eqn:E; simpl; [|done]. unfold put_stream.
  destruct (stream_fits (upd r)) eqn:Hf; [|done]. simpl. destruct (Hu r) as [Ho Ha].
  by apply (closed_row _ _ HJ _ r (set_updatedAt now (upd r)) Hw E).
Qed.

Lemma keeps_execute_update upd :
  (forall r r', upd r = Some r' -> same_owner r r' /\ (amounts_ok r -> amounts_ok r')) ->
  preserves (fun w => J (db w)) (execute_update id upd).
Proof.
  intros Hu w Hw. unfold execute_update, bind, find_stream, gets.
  destruct (t_find id _) as [r|] eqn:E; simpl; [|done].
  destruct (upd r) as [r'|] eqn:Er; [|done]. destruct (stream_fits r') eqn:Hf; [|done].
  destruct (Hu r r' Er) as [Ho Ha]. by apply (closed_row _ _ HJ _ r r' Hw E).
Qed.

Lemma keeps_event_upsert h t create :
  preserves (fun w => J (db w)) (streamEvent_upsert (P:=P) h t create (fun ev => ev)).
Proof.
  intros w Hw. destruct h as [h|]; [|done]. simpl. unfold bind, gets.
  destruct (t_find (h, t) _) as [e|] eqn:E; simpl.
  - unfold put_event. destruct (event_fits e) eqn:Hf; [|done]. simpl.
    pose proof (closed_keys _ _ HJ _ _ _ Hw E) as Hk.
    apply (closed_event _ _ HJ); [done..|]. right. by rewrite <- Hk.
  - unfold streamEvent_create, bind, find_stream, gets.
    destruct (t_find _ (streams _)) eqn:E'; simpl; [|done]. unfold put_event.
    destruct (event_fits (create h)) eqn:Hf; [|done]. simpl. apply (closed_event _ _ HJ); eauto.
Qed.

Lemma sql_add_parses a b c : sql_add a b = Some c -> is_Some (string_to_bigint c).
Proof.
  unfold sql_add. repeat (case_match; [|done]). intros [= <-]. rewrite toString_parses. eauto.
Qed.

Lemma keeps_increment now amount :
  preserves (fun w => J (db w)) (execute_update id (fun r =>
    (fun a => set_lastUpdateTime now (set_withdrawnAmount a r)) <$> sql_add (withdrawnAmount r) amount)) /\
  preserves (fun w => J (db w)) (execute_update id (fun r =>
    (fun a => set_lastUpdateTime now (set_depositedAmount a r)) <$> sql_add (depositedAmount r) amount)).
Proof.
  split; apply keeps_execute_update; intros r r' H; apply fmap_Some in H as (a & Ha & ->);
    apply sql_add_parses in Ha; (split; [done|]); intros (?&?&?); by split_and!.
Qed.

Lemma keeps_withdraw_tx now active amount :
  preserves (fun w => J (db w)) (withdraw_tx now id active amount).
Proof.
  apply preserves_transaction, (preserves_bind (fun w => J (db w))); [apply keeps_increment|].
  intros _. apply (preserves_bind (fun w => J (db w))); [by apply preserves_readonly|].
  intros [r|]; [|by apply preserves_readonly]. destruct active; [|by apply preserves_readonly].
  apply (preserves_bind (fun w => J (db w))); [by apply preserves_readonly|].
  intros [|]; [|by apply preserves_readonly].
  apply (preserves_bind (fun w => J (db w))); [by apply keeps_stream_update|].
  intros _. by apply preserves_readonly.
Qed.
End Closed.

(** *** Who may change what *)

Definition party (user : string) r : Prop := sender r = user \/ recipient r = user.

(** [d] is sound; every stream of [d0] is still there with its owners, and the
    streams that are not as in [d0] are [user]'s. *)
Definition changed_by (user : string) (d0 d : DB P) : Prop :=
  db_ok d /\
  (forall k r, t_find k (streams d) = Some r -> t_find k (streams d0) = Some r \/ party user r) /\
  (forall k r0, t_find k (streams d0) = Some r0 ->
    exists r, t_find k (streams d) = Some r /\ same_owner r0 r).

Lemma changed_by_self user d : db_ok d -> changed_by user d d.
Proof. intros H. split_and!; [done|auto|]. intros k r Hr. by exists r. Qed.

Lemma db_ok_put_stream d r :
  db_ok d -> is_Some (t_find (sender r) (users d)) -> is_Some (t_find (recipient r) (users d)) ->
  amounts_ok r -> stream_fits r = true ->
  db_ok (set_streams (t_put (streamId r) r (streams d)) d).
Proof.
  intros [Hs He] H1 H2 H3 Hf. split; simpl.
  - intros id r'. rewrite t_find_put. case_decide; intros Hr; simplify_eq/=.
    + by split.
    + destruct (Hs id r' Hr). by split.
  - intros k r' Hr. destruct (He k r' Hr). split; simpl; auto using find_put_mono.
Qed.

Lemma same_owner_trans r1 r2 r3 : same_owner r1 r2 -> same_owner r2 r3 -> same_owner r1 r3.
Proof. unfold same_owner. intuition congruence. Qed.

Lemma changed_by_put user d0 d r :
  changed_by user d0 d -> db_ok (set_streams (t_put (streamId r) r (streams d)) d) ->
  party user r ->
  (forall r1, t_find (streamId r) (streams d) = Some r1 -> same_owner r1 r) ->
  changed_by user d0 (set_streams (t_put (streamId r) r (streams d)) d).
Proof.
  intros (_ & Hc & Hk) Hd Hp Ho. split_and!; [done|..]; intros k r'; simpl; setoid_rewrite t_find_put.
  - case_decide; intros; simplify_eq; [by right|by apply Hc].
  - intros Hr'. destruct (Hk k r' Hr') as (r1 & Hr1 & Ho1).
    case_decide; [subst; exists r; split; [done|]|by exists r1].
    apply (same_owner_trans _ r1); auto.
Qed.

Lemma changed_by_closed user d0 id :
  (forall r0, t_find id (streams d0) = Some r0 -> party user r0) ->
  closed_at (changed_by user d0) id.
Proof.
  intros Hp. split.
  - intros d r r' Hd Hr Ho Ha Hf. destruct (Hd) as (Hdb & Hc & _).
    destruct (ok_streams _ Hdb id r Hr) as [Hid _ Hs Ht Hr'].
    destruct (Ho) as (Oid & Os & Ot).
    assert (party user r) as Hpr by (destruct (Hc id r Hr) as [H0|]; [by apply Hp|done]).
    apply changed_by_put; [done| | |].
    + apply db_ok_put_stream; rewrite ?Os, ?Ot; auto.
    + unfold party in *. by rewrite Os, Ot.
    + intros r1. rewrite Oid, Hid, Hr. by intros [= <-].
  - intros d e (Hdb & Hc) Hf Hor. split; [|done].
    assert (is_Some (t_find (ev_streamId e) (streams d))) as Hst.
    { destruct Hor as [|H]; [done|]. apply (ok_events _ Hdb) in H. by destruct H. }
    destruct Hdb as [Hs He]. split; simpl.
    + intros k r Hr. destruct (Hs k r Hr). by split.
    + intros k e'. rewrite t_find_put. case_decide; intros; simplify_eq; [by split|].
      by destruct (He k e') as []; [|split].
  - intros d k e [Hdb _] He. by apply (ok_events _ Hdb) in He as [].
Qed.

Create HintDb keeps discriminated.
#[local] Hint Resolve keeps_sendApiError keeps_send keeps_lift keeps_throw keeps_in_claims
  keeps_in_network : keeps.

(** Follow binds, handlers of errors and cases. *)
Ltac keeps_walk :=
  repeat first
    [ match goal with |- forall _, _ => intro end
    | solve [auto with keeps nocore]
    | apply keeps_bind | apply keeps_try_catch | case_match
    | apply keeps_in_world ].

(** *** From a given state *)

Definition ends {A} (J : DB P -> Prop) (m : Js Api A) s : Prop := J (db (world (m s).2)).

Lemma ends_keeps {A} J (m : Js Api A) s : J (db (world s)) -> keeps J m -> ends J m s.
Proof. intros H Hm. by apply Hm. Qed.
Lemma ends_try_catch {A} J (m : Js Api A) h s :
  ends J m s -> (forall e, keeps J (h e)) -> ends J (try_catch m h) s.
Proof.
  unfold ends, try_catch. intros Hm Hh. destruct (m s) as [[a|e] s1]; [done|by apply Hh].
Qed.
Lemma ends_find {A} J id (k : option Stream -> Js Api A) s :
  ends J (k (t_find id (streams (db (world s))))) s ->
  ends J (bind (in_world (stream_findUnique id)) k) s.
Proof. unfold ends. by rewrite find_bind. Qed.
Lemma ends_lift {A B} J (o : outcome A) (k : A -> Js Api B) s :
  J (db (world s)) -> (forall a, o = Returns a -> ends J (k a) s) -> ends J (bind (lift o) k) s.
Proof. unfold ends, bind, lift. destruct o; auto. Qed.

Lemma ends_bind {A B} J (m : Js Api A) (k : A -> Js Api B) s :
  ends J m s -> (forall a, keeps J (k a)) -> ends J (bind m k) s.
Proof. unfold ends, bind. intros Hm Hk. destruct (m s) as [[a|e] s1]; [by apply Hk|done]. Qed.
Lemma ends_in_world {A} J (m : Js (World P) A) s :
  J (db (m (world s)).2) -> ends J (in_world m) s.
Proof. unfold ends, in_world, on. by destruct (m (world s)). Qed.

(** Nothing is written before the row is found. *)
Ltac ends_walk Hself :=
  repeat first
    [ apply ends_find
    | apply ends_lift; [exact Hself|intros ? ?]
    | apply ends_try_catch; [|solve [keeps_walk]]
    | solve [apply ends_keeps; [exact Hself|solve [auto with keeps nocore]]]
    | case_match ].

Lemma upsert_changed_by now user c upd w :
  db_ok (db w) -> update_ok upd -> party user c -> amounts_ok c ->
  (forall r0, t_find (streamId c) (streams (db w)) = Some r0 -> party user r0) ->
  changed_by user (db w) (db (stream_upsert now c upd w).2).
Proof.
  intros Hok Hu Hp Ha Hex. unfold stream_upsert, bind, find_stream, gets.
  destruct (t_find (streamId c) (streams (db w))) as [r|] eqn:Hr; cbn -[set_streams].
  - unfold put_stream. destruct (stream_fits (upd r)) eqn:Hf; [|by apply changed_by_self].
    destruct (Hu r) as [Ho Ham].
    apply (closed_row _ _ (changed_by_closed user (db w) (streamId c) ltac:(rewrite Hr; exact Hex))
             _ r (set_updatedAt now (upd r)) (changed_by_self _ _ Hok) Hr); done.
  - unfold stream_create, bind, find_user, gets.
    destruct (t_find (sender c) _) eqn:E1; [|by apply changed_by_self].
    destruct (t_find (recipient c) _) eqn:E2; [|by apply changed_by_self].
    unfold put_stream. destruct (stream_fits c) eqn:Hf; [|by apply changed_by_self].
    apply (changed_by_put _ _ _ (set_updatedAt now c)); [by apply changed_by_self| |done|].
    + apply db_ok_put_stream; simpl; eauto.
    + simpl. congruence.
Qed.

Lemma confirms_projected now id chain i rate deposited endTime :
  confirms chain i rate deposited = true ->
  sender (projected now id chain endTime) = ci_sender i /\
  amounts_ok (projected now id chain endTime).
Proof.
  unfold confirms. intros H. repeat (apply andb_prop in H as [H ?]).
  repeat match goal with H : bool_decide _ = true |- _ => apply bool_decide_eq_true in H end.
  split; [done|]. unfold amounts_ok. simpl.
  repeat match goal with H : _ = BigInt_toString _ |- _ => rewrite H end.
  rewrite !toString_parses. eauto.
Qed.

(** Turn the guards of a walk into equations. *)
Ltac guards :=
  repeat match goal with
  | H : negb _ = false |- _ => apply negb_false_iff in H
  | H : bool_decide _ = true |- _ => apply bool_decide_eq_true in H
  end.

Lemma createStream_ends now user body s :
  db_ok (db (world s)) ->
  ends (changed_by user (db (world s))) (createStream cfg server now (Some user) body) s.
Proof.
  intros Hok. pose proof (changed_by_self user _ Hok) as Hself.
  unfold createStream. cbn [default from_option]. unfold Datatypes.id. ends_walk Hself; guards.
  all: match goal with H : confirms _ _ _ _ = true |- context [projected ?n ?k ?ch ?e] =>
         destruct (confirms_projected n k ch _ _ _ e H) as [? ?] end.
  all: apply ends_bind; [apply ends_in_world, upsert_changed_by|
         intros; apply keeps_bind; [by apply keeps_readonly, readonly_in_world|keeps_walk]]; try done.
  all: try (left; congruence).
  all: intros r0 Hr0; left; simpl in Hr0; simplify_eq; congruence.
Qed.

Lemma withdrawHandler_ends now p user s :
  db_ok (db (world s)) ->
  ends (changed_by user (db (world s))) (withdrawHandler cfg server cacheTtlMs now p user) s.
Proof.
  intros Hok. pose proof (changed_by_self user _ Hok) as Hself.
  unfold withdrawHandler, or_500. ends_walk Hself; guards.
  apply ends_keeps; [done|]. assert (closed_at (changed_by user (db (world s))) z) as Hc.
  { apply changed_by_closed. intros r0 Hr0. right. congruence. }
  keeps_walk; first [apply (keeps_withdraw_tx _ _ Hc)|apply (keeps_event_upsert _ _ Hc)].
Qed.

Lemma cancelStreamHandler_ends now p user secret s :
  db_ok (db (world s)) ->
  ends (changed_by user (db (world s))) (cancelStreamHandler cfg server now p user secret) s.
Proof.
  intros Hok. pose proof (changed_by_self user _ Hok) as Hself.
  unfold cancelStreamHandler. ends_walk Hself; guards.
  apply ends_keeps; [done|]. assert (closed_at (changed_by user (db (world s))) z) as Hc.
  { apply changed_by_closed. intros r0 Hr0. left. congruence. }
  keeps_walk. by apply (keeps_stream_update _ _ Hc).
Qed.

Lemma topUpStreamHandler_ends now p amount user s :
  db_ok (db (world s)) ->
  ends (changed_by user (db (world s))) (topUpStreamHandler cfg server now p amount (Some user)) s.
Proof.
  intros Hok. pose proof (changed_by_self user _ Hok) as Hself.
  unfold topUpStreamHandler. cbn [default from_option]. unfold Datatypes.id. ends_walk Hself; guards.
  apply ends_keeps; [done|]. assert (closed_at (changed_by user (db (world s))) z) as Hc.
  { apply changed_by_closed. intros r0 Hr0. left. congruence. }
  keeps_walk; first [apply (keeps_increment _ _ Hc)|by apply preserves_readonly].
Qed.

Lemma readonly_try_catch {A} (m : Js Api A) h :
  readonly m -> (forall e, readonly (h e)) -> readonly (try_catch m h).
Proof.
  intros Hm Hh s. unfold try_catch. specialize (Hm s).
  destruct (m s) as [[a|e] s1]; simpl in Hm; subst; [done|apply Hh].
Qed.

Lemma readonly_change_handler user p forbidden refuse simulate code message :
  readonly (change_handler (P:=P) user p forbidden refuse simulate code message).
Proof.
  unfold change_handler, or_500. apply readonly_try_catch; [|done].
  destruct user as [u|]; [|done]. destruct (parseStreamId _) as [n|]; [|done].
  apply readonly_bind; [by apply readonly_in_world|]. intros [r|]; [|done].
  destruct (negb _); [done|]. destruct (refuse r); [done|].
  apply readonly_try_catch; [|done]. by apply readonly_bind.
Qed.

Lemma request_changed_by now user req s :
  db_ok (db (world s)) ->
  changed_by user (db (world s)) (db (world (route cfg server cacheTtlMs now user req s).2)).
Proof.
  intros Hok. destruct req; simpl route.
  - by apply createStream_ends.
  - by apply withdrawHandler_ends.
  - by apply cancelStreamHandler_ends.
  - by apply topUpStreamHandler_ends.
  - unfold pauseStream. rewrite readonly_change_handler. by apply changed_by_self.
  - unfold resumeStream. rewrite readonly_change_handler. by apply changed_by_self.
Qed.

(** A request: when, whose, which. *)
Definition Arrival : Type := Z * string * ApiRequest.
Definition serve s (a : Arrival) : Api :=
  let '(now, user, req) := a in (route cfg server cacheTtlMs now user req s).2.

(** C5. Requests write only what is their callers': from a sound database, any
    sequence of authenticated requests leaves the database sound and every stream
    in place with its sender and recipient, and a row that is not as it was
    belongs to some caller of the sequence, as sender or as recipient. *)
Theorem requests_authorized (reqs : list Arrival) s :
  db_ok (db (world s)) ->
  let d := db (world s) in
  let d' := db (world (fold_left serve reqs s)) in
  db_ok d' /\
  (forall k r, t_find k (streams d) = Some r ->
    exists r', t_find k (streams d') = Some r' /\ same_owner r r') /\
  (forall k r', t_find k (streams d') = Some r' ->
    t_find k (streams d) = Some r' \/
    exists now user req, (now, user, req) ∈ reqs /\ (sender r' = user \/ recipient r' = user)).
Proof.
  revert s. induction reqs as [|[[now user] req] reqs IH]; intros s Hok; simpl.
  { split_and!; auto. intros k r Hr. by exists r. }
  destruct (request_changed_by now user req s Hok) as (Hok1 & Hc & Hk).
  destruct (IH _ Hok1) as (Hok2 & Hk2 & Hc2). split_and!; [done|..].
  - intros k r Hr. destruct (Hk k r Hr) as (r1 & Hr1 & Ho1).
    destruct (Hk2 k r1 Hr1) as (r2 & Hr2 & Ho2). exists r2. split; [done|].
    by apply (same_owner_trans _ r1).
  - intros k r Hr. destruct (Hc2 k r Hr) as [Hr1|(n & u & q & Hin & Hp)].
    + destruct (Hc k r Hr1) as [|Hp]; [by left|right]. exists now, user, req. by split; [left|].
    + right. exists n, u, q. by split; [right|].
Qed.

(** ** Requests that cannot succeed *)

(** The world is as it was, and the request was refused — or, inside a [try],
    threw. *)
Definition refuses w (m : api (P:=P)) : Prop :=
  forall s, world s = w -> exists reply s', m s = (Returns reply, s') /\
    400 <= status_of reply /\ world s' = w.
Definition fails w (m : api (P:=P)) : Prop :=
  forall s, world s = w -> world (m s).2 = w /\
    forall reply, (m s).1 = Returns reply -> 400 <= status_of reply.

Lemma refuses_fails w m : refuses w m -> fails w m.
Proof. intros H s Hs. destruct (H s Hs) as (r & s' & -> & ? & ?). split; [done|]. by intros ? [= <-]. Qed.
Lemma refuses_error w c code msg : 400 <= c -> refuses w (sendApiError c code msg).
Proof. intros Hc s Hs. by do 2 eexists. Qed.
Lemma refuses_send w c b : 400 <= c -> refuses w (send c b).
Proof. intros Hc s Hs. by do 2 eexists. Qed.
Lemma refuses_try_catch w m h : fails w m -> (forall e, refuses w (h e)) -> refuses w (try_catch m h).
Proof.
  intros Hm Hh s Hs. unfold try_catch. destruct (Hm s Hs) as [Hw Hr].
  destruct (m s) as [[r|e] s1]; simpl in *; [|by apply Hh]. exists r, s1. auto.
Qed.
Lemma refuses_find w id k :
  refuses w (k (t_find id (streams (db w)))) -> refuses w (bind (in_world (stream_findUnique id)) k).
Proof. intros H s Hs. rewrite find_bind, Hs. by apply H. Qed.
Lemma fails_find w id k :
  fails w (k (t_find id (streams (db w)))) -> fails w (bind (in_world (stream_findUnique id)) k).
Proof. intros H s Hs. rewrite find_bind, Hs. by apply H. Qed.
Lemma fails_throw w e : fails w (throw e).
Proof. intros s Hs. by split. Qed.
Lemma fails_lift {A} w (o : outcome A) k :
  (forall a, o = Returns a -> fails w (k a)) -> fails w (bind (lift o) k).
Proof. intros H s Hs. unfold bind, lift. destruct o; [by apply H|by split]. Qed.
Lemma refuses_lift {A} w (o : outcome A) k :
  (exists a, o = Returns a) -> (forall a, o = Returns a -> refuses w (k a)) ->
  refuses w (bind (lift o) k).
Proof. intros [a ->] H s Hs. by apply H. Qed.
Lemma fails_claims {A} w (m : Js (MemoryCache ClaimableValue) A) k :
  (forall a, fails w (k a)) -> fails w (bind (in_claims m) k).
Proof.
  intros H s Hs. unfold bind, in_claims, on. destruct (m (claims s)) as [[a|e] c]; [|by split].
  by apply H.
Qed.
Lemma fails_network {A} w (m : Js (list Invocation) A) k :
  (forall l, exists e, (m l).1 = Throws e) -> fails w (bind (in_network m) k).
Proof.
  intros H s Hs. unfold bind, in_network, on. destruct (H (sent s)) as [e He].
  destruct (m (sent s)) as [o l]; simpl in *; subst. by split.
Qed.
Lemma fails_inside_lift {A} w (o : outcome A) k : fails_inside o -> fails w (bind (lift o) k).
Proof. intros (e & -> & _). apply fails_lift. done. Qed.

Ltac refuses_walk :=
  repeat first
    [ apply refuses_error; lia | apply refuses_send; lia
    | apply refuses_try_catch; [|intros; cbv beta]
    | apply refuses_find
    | apply refuses_fails, refuses_error; lia | apply refuses_fails, refuses_send; lia
    | apply fails_find
    | apply refuses_fails, refuses_try_catch; [|intros; cbv beta]
    | case_match ].

Lemma cancel_refused srv now p user secret w :
  refuses w (cancelStreamHandler cfg srv now p user secret).
Proof.
  unfold cancelStreamHandler. refuses_walk. apply fails_network. intros l.
  by destruct (cancelStream_submitted cfg srv z (default "" secret)%string l) as [? _].
Qed.

Lemma topUp_refused srv now p amount user w :
  refuses w (topUpStreamHandler cfg srv now p amount user).
Proof.
  unfold topUpStreamHandler. do 2 (case_match; [|refuses_walk]). apply refuses_lift.
  { apply digits_only_BigInt. unfold topUpBodySchema in *. destruct amount; [|done].
    destruct (digits_only _) eqn:Hd; [|done]. simpl in *. by case_match; simplify_eq. }
  intros a _. refuses_walk. apply fails_network. intros l.
  by destruct (topUpStream_submitted cfg srv z a (default "" user)%string l) as [? _].
Qed.

Lemma withdraw_refused now p user w :
  refuses w (withdrawHandler cfg None cacheTtlMs now p user).
Proof.
  unfold withdrawHandler, or_500. refuses_walk. apply fails_claims. intros c.
  refuses_walk. apply fails_inside_lift, simulated_unbound.
Qed.

Lemma change_refused user p forbidden refuse simulate code message w :
  (forall a n, fails_inside (simulate a n)) ->
  refuses w (change_handler user p forbidden refuse simulate code message).
Proof.
  intros H. unfold change_handler, or_500. refuses_walk. by apply fails_inside_lift.
Qed.

Lemma create_refused now user body w : refuses w (createStream cfg None now user body).
Proof.
  unfold createStream. refuses_walk.
  all: try (apply fails_lift; intros a _; apply fails_lift; intros b _; refuses_walk).
  all: match goal with H : getStreamFromChain _ _ _ = Some _ |- _ =>
         by rewrite getStreamFromChain_unbound in H end.
Qed.

(** Cancelling and topping up are refused whatever the chain did: every such
    request is answered with an error and leaves the database as it was, even
    one whose transaction the network has taken.  And while no RPC server is
    injected — the module never binds the pool it would use — so is every
    request: no stream is ever created, withdrawn from, paused or resumed
    through the API. *)
Theorem no_request_confirmed (req : ApiRequest) (now : Z) (user : string) s :
  match req with
  | PostCancel _ _ | PostTopUp _ _ => True
  | _ => server = None
  end ->
  exists reply s', route cfg server cacheTtlMs now user req s = (Returns reply, s') /\
    400 <= status_of reply /\ world s' = world s.
Proof.
  destruct req; simpl; intros Hs; try (rewrite Hs).
  - by apply create_refused.
  - by apply withdraw_refused.
  - by apply cancel_refused.
  - by apply topUp_refused.
  - unfold pauseStream. apply change_refused; [|done]. intros. apply simulated_unbound.
  - unfold resumeStream. apply change_refused; [|done]. intros. apply simulated_unbound.
Qed.

(** ** A withdrawal and its event *)

Lemma sql_bigint_toString z : fits_int8 z = true -> sql_bigint (BigInt_toString z) = Some z.
Proof.
  intros Hf. unfold sql_bigint, BigInt_toString. case (Z.ltb_spec z 0); intros Hz.
  - assert (digits_only (nat_digits (- z)) = true) as Hd by (apply nat_digits_only; lia).
    unfold trim. simpl trim_start.
    rewrite trim_end_all_digits; [|by destruct (nat_digits (- z))|done].
    destruct (nat_digits (- z)) as [|a b] eqn:E; [done|]. unfold nonempty_parse.
    rewrite <- E, parse_nat_digits by lia. simpl. by rewrite Z.opp_involutive, Hf.
  - assert (digits_only (nat_digits z) = true) as Hd by (apply nat_digits_only; lia).
    rewrite trim_digits by (by destruct (nat_digits z)).
    pose proof (parse_nat_digits z Hz) as Hp.
    destruct (nat_digits z) as [|a b]; [done|].
    assert (nonempty_parse (parse_digits 0) (String a b) = Some z) as Hn by done.
    simpl in Hd. apply andb_prop in Hd as [Ha _].
    destruct a as [[] [] [] [] [] [] [] []]; try discriminate Ha; by rewrite Hn, Hf.
Qed.

Lemma sql_add_toString n c :
  fits_int8 n = true -> fits_int8 c = true -> fits_int8 (n + c) = true ->
  sql_add (BigInt_toString n) (BigInt_toString c) = Some (BigInt_toString (n + c)).
Proof. intros Hn Hc Hs. unfold sql_add. by rewrite !sql_bigint_toString, Hs by done. Qed.

(** The row after a withdrawal of the API. *)
Definition after_withdraw (now n c : Z) r : Stream :=
  set_lastUpdateTime (seconds now) (set_withdrawnAmount (BigInt_toString (n + c)) r).

Lemma execute_update_run id upd r r' w :
  t_find id (streams (db w)) = Some r -> upd r = Some r' -> stream_fits r' = true ->
  execute_update id upd w =
  (Returns tt, set_db (set_streams (t_put (streamId r') r' (streams (db w))) (db w)) w).
Proof.
  intros Hr Hu Hf. unfold execute_update, bind, find_stream, gets. rewrite Hr. simpl. by rewrite Hu, Hf.
Qed.

Lemma withdraw_tx_run now id active r n c w :
  t_find id (streams (db w)) = Some r -> streamId r = id -> stream_fits r = true ->
  fits_int8 (seconds now) = true -> withdrawnAmount r = BigInt_toString n ->
  is_Some (string_to_bigint (depositedAmount r)) ->
  fits_int8 n = true -> fits_int8 c = true -> fits_int8 (n + c) = true ->
  exists o w', withdraw_tx now id active (BigInt_toString c) w = (Returns o, w') /\
    withdrawn_total id (n + c) w' /\ events (db w') = events (db w) /\ users (db w') = users (db w).
Proof.
  intros Hr Hid Hf Hnow Hn [d Hd] Fn Fc Fs.
  assert (stream_fits (after_withdraw now n c r) = true) as Hf' by fits.
  unfold withdraw_tx, transaction. unfold bind at 1.
  rewrite (execute_update_run id _ r (after_withdraw now n c r) w Hr); [|by rewrite Hn, sql_add_toString|done].
  cbv iota. simpl streamId. rewrite Hid.
  unfold bind at 1, stream_findUnique, find_stream, gets. simpl. rewrite t_find_put, decide_True by done.
  assert (forall a, withdrawn_total id (n + c) (set_db (set_streams
    (t_put id (set_updatedAt a (after_withdraw now n c r)) (streams (db w))) (db w)) w)) as Htot.
  { intros a. exists (set_updatedAt a (after_withdraw now n c r)). simpl. rewrite t_find_put, decide_True by done.
    split_and!; try done. simpl. apply toString_parses. }
  destruct active; [|do 2 eexists; split; [done|split; [|done]]].
  2: { specialize (Htot (updatedAt r)). by destruct r. }
  unfold bind at 1, lift at 1, fully_withdrawn, BigInt_of_string. simpl.
  rewrite toString_parses, Hd. simpl. destruct (d <=? n + c).
  - unfold bind. erewrite stream_update_found; [|simpl; by rewrite t_find_put, decide_True].
    rewrite put_stream_fits by fits. simpl. do 2 eexists. split; [done|]. simpl. split; [|done].
    eexists. simpl. rewrite Hid, t_find_put, decide_True by done. split; [done|]. simpl.
    split_and!; [done|fits|apply toString_parses].
  - do 2 eexists. split; [done|split; [|done]]. specialize (Htot (updatedAt r)). by destruct r.
Qed.

(** The hash of every withdrawal of a stream through the API. *)
Definition simulated_hash (id : Z) : string := "simulated-withdraw-" +:+ BigInt_toString id.

Lemma withdraw_hash id user h : withdraw cfg server id user = Returns h -> h = simulated_hash id.
Proof. unfold withdraw, simulated. case_match; [done|]. case_match; [|done]. by intros [= <-]. Qed.

(** The event of the API is stored, whether it was there or not. *)
Lemma event_upsert_run h t create w :
  db_ok (db w) -> is_Some (t_find (ev_streamId (create h)) (streams (db w))) ->
  event_fits (create h) = true -> ev_transactionHash (create h) = h -> ev_eventType (create h) = t ->
  exists w', streamEvent_upsert (Some h) t create (fun ev => ev) w = (Returns tt, w') /\
    recorded (h, t) w' /\ streams (db w') = streams (db w) /\
    forall k, k <> (h, t) -> t_find k (events (db w')) = t_find k (events (db w)).
Proof.
  intros Hok [r Hr] Hf Hh Ht. simpl. unfold bind at 1, gets at 1. simpl.
  destruct (t_find (h, t) (events (db w))) as [ev|] eqn:E.
  - destruct (ok_events _ Hok _ _ E) as [Hk Hef _]. rewrite put_event_fits by done.
    eexists. split; [done|]. unfold recorded. simpl. rewrite <- Hk. split_and!; [|done|].
    + rewrite t_find_put, decide_True by done. eauto.
    + intros k Hne. by rewrite t_find_put, decide_False.
  - unfold streamEvent_create, bind, find_stream, gets. rewrite Hr. cbv iota.
    rewrite put_event_fits by done. eexists. split; [done|]. unfold recorded. simpl. rewrite Hh, Ht.
    split_and!; [|done|].
    + rewrite t_find_put, decide_True by done. eauto.
    + intros k Hne. by rewrite t_find_put, decide_False.
Qed.

(** The stream [id] is stored with a withdrawn total of [n], in the form the code writes. *)
Definition row_ready (id n : Z) r : Prop :=
  streamId r = id /\ stream_fits r = true /\ withdrawnAmount r = BigInt_toString n.

Lemma withdrawHandler_run now p user id r n c cl cache h s :
  db_ok (db (world s)) -> parseStreamId (raw_id p) = Some id ->
  t_find id (streams (db (world s))) = Some r -> recipient r = user ->
  withdrawnAmount r = BigInt_toString n ->
  getClaimableAmount cacheTtlMs now now (claimable_state r) None (claims s) = (Returns cl, cache) ->
  actionable (result cl) = true -> claimableAmount (result cl) = BigInt_toString c ->
  withdraw cfg server id user = Returns h ->
  fits_int8 (seconds now) = true -> fits_int8 n = true -> fits_int8 c = true -> fits_int8 (n + c) = true ->
  exists updated s',
    withdrawHandler cfg server cacheTtlMs now p user s =
      (Returns (Answer 200 (Withdrawn id h (BigInt_toString c) updated)), s') /\
    sent s' = sent s /\ withdrawn_total id (n + c) (world s') /\
    recorded (simulated_hash id, "WITHDRAWN"%string) (world s') /\
    forall k, k <> (simulated_hash id, "WITHDRAWN"%string) ->
      t_find k (events (db (world s'))) = t_find k (events (db (world s))).
Proof.
  intros Hok Hp Hr Hu Hn Hcl Ha Hc Hh Hnow Fn Fc Fs.
  destruct (ok_streams _ Hok id r Hr) as [Hid Hf _ _ (_ & Hd & _)].
  destruct (withdraw_tx_run now id (isActive r) r n c (world s)) as (o & w1 & Htx & Htot & Hev & _);
    try done.
  assert (db_ok (db w1)) as Hok1.
  { pose proof (keeps_withdraw_tx (changed_by user (db (world s))) id) as Hk.
    destruct (Hk (changed_by_closed user (db (world s)) id ltac:(right; congruence)) now (isActive r)
      (BigInt_toString c) (world s) (changed_by_self user _ Hok)) as [H1 _].
    by rewrite Htx in H1. }
  destruct (event_upsert_run h "WITHDRAWN"
    (new_event id "WITHDRAWN" (Some (BigInt_toString c)) 0 (seconds now) [("withdrawnBy", JString user)]) w1)
    as (w2 & Hup & Hrec & Hst & Hother); try done.
  { simpl. destruct Htot as (r1 & Hr1 & _). eauto. }
  { fits. }
  exists o, (set_world w2 (set_claims cache s)). split; [|split; [done|]].
  - unfold withdrawHandler, or_500. rewrite Hp. unfold try_catch at 1. rewrite find_bind, Hr.
    rewrite (bool_decide_eq_true_2 _ Hu). change (negb true) with false. cbv iota.
    unfold bind at 1, in_claims, on. rewrite Hcl. cbv iota beta. rewrite Ha. change (negb true) with false. cbv iota.
    rewrite Hc, Hh. unfold try_catch, bind, lift, in_world, on. rewrite BigInt_roundtrip. simpl world.
    rewrite Htx. cbn [world set_world set_claims]. by rewrite Hup.
  - pose proof (withdraw_hash _ _ _ Hh) as ->. simpl. split_and!; [|done|].
    + destruct Htot as (r1 & Hr1 & Hrest). exists r1. by rewrite Hst.
    + intros k Hk. by rewrite Hother, Hev.
Qed.

(** A withdrawal made through the API is counted twice.  The request only
    simulates the call — nothing is sent to the network — yet adds the claimable
    amount to the stream's withdrawn total, under a transaction hash that is the
    same for every withdrawal of the stream; when the recipient's own
    transaction then reaches the indexer, its event has another hash, and the
    amount is added again. *)
Theorem api_withdrawal_counted_twice now now' p user id r n c cl cache h m a ts rcp s :
  db_ok (db (world s)) -> parseStreamId (raw_id p) = Some id ->
  t_find id (streams (db (world s))) = Some r -> recipient r = user ->
  withdrawnAmount r = BigInt_toString n ->
  getClaimableAmount cacheTtlMs now now (claimable_state r) None (claims s) = (Returns cl, cache) ->
  actionable (result cl) = true -> claimableAmount (result cl) = BigInt_toString c ->
  withdraw cfg server id user = Returns h ->
  fits_int8 (seconds now) = true -> fits_int8 n = true -> fits_int8 c = true -> fits_int8 (n + c) = true ->
  decodeAddress (ScvAddress a) = Returns rcp -> fits_int4 (m_ledger m) = true ->
  fits_int8 (Number_int ts) = true -> m_txHash m <> simulated_hash id ->
  t_find (m_txHash m, "WITHDRAWN"%string) (events (db (world s))) = None ->
  exists updated s',
    withdrawHandler cfg server cacheTtlMs now p user s =
      (Returns (Answer 200 (Withdrawn id (simulated_hash id) (BigInt_toString c) updated)), s') /\
    sent s' = sent s /\ withdrawn_total id (n + c) (world s') /\
    withdrawn_total id (n + c + c) (processEvent now' (TokensWithdrawnEvent m id a c ts) (world s')).2.
Proof.
  intros Hok Hp Hr Hu Hn Hcl Ha Hc Hh Hnow Fn Fc Fs Had Hl Hts Hne Hnew.
  destruct (withdrawHandler_run now p user id r n c cl cache h s)
    as (o & s' & Hrun & Hsent & Htot & _ & Hev); try done.
  exists o, s'. rewrite (withdraw_hash _ _ _ Hh) in Hrun. split_and!; try done.
  apply (withdrawal_step now' id a rcp (m, c, ts) (n + c) (world s')); try done.
  - unfold withdrawal_fits. simpl. unfold fits_int8 in Fc. split; [lia|done].
  - rewrite Hev; [done|]. unfold withdrawal_key. simpl. congruence.
Qed.
End Facts.

(** * Requests and calls to the chain: concrete inputs

    A stand-in SDK, a server that accepts every simulation, and the theorems on
    requests, invocations and fees applied to them. *)

Local Open Scope Z_scope.

(** The addresses of the samples: "G1", "G2" and "C7". *)
Definition sample_address (s : string) : option ScAddress :=
  if bool_decide (s = "G1"%string) then Some alice
  else if bool_decide (s = "G2"%string) then Some bob
  else if bool_decide (s = "C7"%string) then Some token else None.

Definition sample_u64 (z : Z) : option ScVal :=
  if (0 <=? z) && (z <? 2 ^ 64) then Some (ScvU64 z) else None.
Definition sample_i128 (z : Z) : option ScVal :=
  if (- 2 ^ 127 <=? z) && (z <? 2 ^ 127) then Some (i128_parts z) else None.

Lemma sample_u64_val z v : sample_u64 z = Some v -> v = ScvU64 z.
Proof. unfold sample_u64. case_match; [|done]. by intros [= <-]. Qed.
Lemma sample_i128_val z v : sample_i128 z = Some v -> exists hi lo, v = ScvI128 hi lo.
Proof. unfold sample_i128. case_match; [|done]. intros [= <-]. by do 2 eexists. Qed.
Lemma sample_address_val s v :
  ScvAddress <$> sample_address s = Some v -> exists a, sample_address s = Some a /\ v = ScvAddress a.
Proof. intros H. apply fmap_Some in H as (a & Ha & ->). eauto. Qed.

#[export] Instance sample_soroban : SorobanSdk := {|
  new_Address := sample_address;
  valid_contract _ := true;
  fromSecret s := if startsWith "S" s then Some ("G" +:+ s) else None;
  u64_ScVal := sample_u64;
  u64_ScVal_val := sample_u64_val;
  i128_ScVal := sample_i128;
  i128_ScVal_val := sample_i128_val;
  address_ScVal s := ScvAddress <$> sample_address s;
  address_ScVal_val := sample_address_val;
  is_AbortError _ := false;
  engine_message _ := "error" |}.

Definition sample_cfg : SorobanConfig := {|
  STREAM_CONTRACT_ID := "C9"; KEEPER_SECRET_KEY := "S1"; STREAM_TOKEN_ADDRESS := Some "C7"%string;
  RPC_TIMEOUT_MS := 10000; RPC_MAX_RETRIES := Fin 2; RPC_RETRY_BASE_MS := 250;
  SIMULATION_VALIDITY_LEDGERS := 10 |}.

(** Every simulation and submission succeeds at once. *)
Definition willing_server : Server := {|
  sv_simulate _ _ := Some (Returns (SimulationSuccess (Some ScvVoid)), 5);
  sv_getAccount _ _ := Some (Returns tt, 5);
  sv_send _ := Some (Returns ("tx-sent"%string, None), 5) |}.

Definition sample_api : Api (P:=gmap_engine) :=
  {| world := sample_world; claims := fresh_cache 100; sent := []; userSummaryCache := [] |}.

(** At second 120 of stream 1, which pays 10 a second from second 100, Bob can take 200. *)
Definition at_120 : Z := 120000.
Definition bob_claim : ClaimableAmountResult := {|
  result := {| cv_streamId := 1; claimableAmount := "200"; actionable := true; calculatedAt := 120 |};
  cached := false; cachedAt := None |}.

Lemma sample_world_ok : world_ok sample_world.
Proof. apply processEvent_keeps_ok, empty_world_ok. Qed.

(** Bob withdraws through the API at second 120; his transaction is indexed at 125. *)
Lemma api_withdrawal_counted_twice_witness :
  exists updated s',
    withdrawHandler sample_cfg (Some willing_server) 5000 at_120 (Segment "1") "G2" sample_api =
      (Returns (Answer 200 (Withdrawn 1 "simulated-withdraw-1" "200" updated)), s') /\
    sent s' = [] /\ withdrawn_total 1 200 (world s') /\
    withdrawn_total 1 400 (processEvent 125000 (TokensWithdrawnEvent (meta "w" 2) 1 bob 200 124) (world s')).2.
Proof.
  apply (api_withdrawal_counted_twice sample_cfg (Some willing_server) 5000 at_120 125000 (Segment "1") "G2" 1
    sample_stream 0 200 bob_claim
    (getClaimableAmount 5000 at_120 at_120 (claimable_state sample_stream) None (fresh_cache 100)).2
    "simulated-withdraw-1" (meta "w" 2) bob 124 "G2" sample_api);
    first [exact sample_world_ok | vm_refl | intros H; vm_compute in H; discriminate].
Defined.

Lemma requests_authorized_witness :
  let reqs := [(110000, "G1"%string, PostPause (Segment "1"));
               (at_120, "G2"%string, PostWithdraw (Segment "1"))] in
  let d' := db (world (fold_left (serve sample_cfg (Some willing_server) 5000) reqs sample_api)) in
  db_ok d' /\
  (forall k r, t_find k (streams (db sample_world)) = Some r ->
    exists r', t_find k (streams d') = Some r' /\ same_owner r r') /\
  (forall k r', t_find k (streams d') = Some r' ->
    t_find k (streams (db sample_world)) = Some r' \/
    exists now user req, (now, user, req) ∈ reqs /\ (sender r' = user \/ recipient r' = user)).
Proof.
  intros reqs. exact (requests_authorized sample_cfg (Some willing_server) 5000 reqs sample_api sample_world_ok).
Defined.

(** Alice cancels her stream; the network takes the transaction and she is told it failed. *)
Lemma no_request_confirmed_witness :
  (route sample_cfg (Some willing_server) 5000 at_120 "G1" (PostCancel (Segment "1") (Some "S1"%string)) sample_api).2.(sent)
    = [{| method := "cancel_stream"; args := [ScvU64 1] |}] /\
  exists reply s',
    route sample_cfg (Some willing_server) 5000 at_120 "G1" (PostCancel (Segment "1") (Some "S1"%string)) sample_api =
      (Returns reply, s') /\ 400 <= status_of reply /\ world s' = sample_world.
Proof.
  split; [vm_refl|].
  exact (no_request_confirmed sample_cfg (Some willing_server) 5000
    (PostCancel (Segment "1") (Some "S1"%string)) at_120 "G1" sample_api I).
Defined.

Definition sample_params : SimulateActionParams := {|
  sp_streamId := Some "7"%string; sp_streamIds := Some ["7"; "8"; "9"]%string;
  sp_recipient := Some "G2"%string; sp_amount := Some "1000"%string; sp_duration := Some 100;
  sp_tokenAddress := None |}.

Definition sample_batch : list Invocation :=
  map (fun n => {| method := "withdraw"; args := [ScvAddress bob; ScvU64 n] |}) [7; 8; 9].

Lemma invocations_typed_witness :
  Forall (fun i => well_typed i = true) sample_batch /\ (1 <= length sample_batch <= 10)%nat /\
  (batch_withdraw <> batch_withdraw -> length sample_batch = 1%nat).
Proof. apply (invocations_typed sample_cfg batch_withdraw bob sample_params). vm_refl. Defined.

Lemma fee_buffer_witness :
  exists fee, applyFeeBuffer (BigInt_toString 101) = Returns (BigInt_toString fee) /\
    101 < fee /\ 115 * 101 < 100 * (fee + 1) /\ (100 * fee <= 115 * 101 \/ fee = 101 + 1).
Proof. apply (fee_buffer 101). lia. Defined.

(** A fee of 101 stroops plus 15% is 116.15; the buffer gives 116. *)
Example fee_rounds_down : applyFeeBuffer "101" = Returns "116"%string.
Proof. vm_refl. Qed.

(** A call that times out twice, then answers. *)
Definition flaky (n : nat) : outcome Z * Z :=
  match n with 0%nat | 1%nat => (Throws (ErrorMsg "getAccount timed out after 10000ms"), 10000)
             | _ => (Returns 42, 30) end.

Example flaky_answers :
  answer <$> retry_loop sample_cfg (retry_fuel (Fin 2)) flaky (Fin 2) 0 0 = Some (Returns 42).
Proof. vm_refl. Qed.

