(* ===== verification/StreamQueries.v ===== *)
(** * Requests that read streams

    [findStreams] of backend/src/repositories/stream.repository.ts and the
    reading handlers of backend/src/controllers/stream.controller.ts: listing,
    one stream, its events, its claimable amount, and the summary of a user.
    They read the database of one moment and the chain, and fill two caches.

    The columns [createdAt] and [id], which no other modelled code reads, are
    given by [HiddenColumns]; so are the collation of text columns and the order
    in which the database returns rows that compare equal. *)
From S2P Require Import Prelude JsLang StreamId Json Schema Xdr Worker DeadLetter MemoryCache Contract Claimable Http Soroban StreamApi.
From stdpp Require Import sorting.
Local Open Scope Z_scope.

Class HiddenColumns := {
  stream_createdAt : Z -> Z; (* of the stream with that identifier *)
  event_id : string * string -> string; (* of the event with that key *)
  event_id_inj : Inj (=) (=) event_id;
  collate : string -> string -> bool;
  collate_total : forall a b, collate a b || collate b a = true;
  collate_trans : forall a b c, collate a b = true -> collate b c = true -> collate a c = true;
  collate_antisym : forall a b, collate a b = true -> collate b a = true -> a = b
}.

(** ** Pages *)

(** [take] and [skip]: a negative [take] reads from the end of the list. *)
Definition prisma_page {A} (skip take_ : Z) (rows : list A) : list A :=
  if 0 <=? take_ then take (Z.to_nat take_) (drop (Z.to_nat skip) rows)
  else rev (take (Z.to_nat (- take_)) (drop (Z.to_nat skip) (rev rows))).

(** An argument of the client: a number that is not an integer is refused. *)
Definition prisma_int (x : num) : outcome Z :=
  match x with Fin z => Returns z | _ => Throws (PrismaErr PValidation) end.

Section Queries.
Context {P : PrismaEngine} {Key : StrKey} {Sdk : SorobanSdk} {Hidden : HiddenColumns}.
Context (cfg : SorobanConfig) (server : option Server) (cacheTtlMs : Z).
Implicit Types (s : Api (P:=P)) (w : World P) (d : DB P) (r : Stream).

Definition stream_rows d : list Stream := (t_rows (streams d)).*2.
Definition event_rows d : list StreamEvent := (t_rows (events d)).*2.

(** ** findStreams *)

Inductive StreamFilter := active | paused | cancelled | completed.

Definition filter_of (status : string) : option StreamFilter :=
  if bool_decide (status = "active"%string) then Some active
  else if bool_decide (status = "cancelled"%string) then Some cancelled
  else if bool_decide (status = "completed"%string) then Some completed
  else if bool_decide (status = "paused"%string) then Some paused
  else None.

Inductive SortField := by_createdAt | by_startTime | by_lastUpdateTime | by_depositedAmount | by_endTime.

Record FindStreamsParams := {
  fs_status : option StreamFilter;
  fs_sender : option string;
  fs_recipient : option string;
  fs_tokenAddress : option string;
  fs_limit : Z;
  fs_offset : Z;
  fs_sortField : SortField;
  fs_ascending : bool
}.

(** [if (params.x) where.x = params.x]: the empty string is no filter. *)
Definition column_is (wanted : option string) (column : string) : bool :=
  if truthy wanted then bool_decide (wanted = Some column) else true.

Definition has_event d (id : Z) (t : string) : bool :=
  existsb (fun e => bool_decide (ev_streamId e = id) && bool_decide (ev_eventType e = t)) (event_rows d).

Definition status_is d (status : option StreamFilter) r : bool :=
  match status with
  | None => true
  | Some active => isActive r && negb (isPaused r)
  | Some paused => isPaused r
  | Some cancelled => negb (isActive r) && has_event d (streamId r) "CANCELLED"
  | Some completed => negb (isActive r) && has_event d (streamId r) "COMPLETED"
  end.

Definition stream_matches d (p : FindStreamsParams) r : bool :=
  column_is (fs_sender p) (sender r) && column_is (fs_recipient p) (recipient r) &&
  column_is (fs_tokenAddress p) (tokenAddress r) && status_is d (fs_status p) r.

(** Ascending order of a column; nulls are last. *)
Definition field_le (f : SortField) r r' : bool :=
  match f with
  | by_createdAt => stream_createdAt (streamId r) <=? stream_createdAt (streamId r')
  | by_startTime => startTime r <=? startTime r'
  | by_lastUpdateTime => lastUpdateTime r <=? lastUpdateTime r'
  | by_depositedAmount => collate (depositedAmount r) (depositedAmount r')
  | by_endTime =>
      match endTime r, endTime r' with
      | Some a, Some b => a <=? b
      | _, None => true
      | None, Some _ => false
      end
  end.

Definition sorts_before (p : FindStreamsParams) r r' : Prop :=
  if fs_ascending p then field_le (fs_sortField p) r r' = true
  else field_le (fs_sortField p) r' r = true.
#[export] Instance sorts_before_dec p : RelDecision (sorts_before p).
Proof. intros r r'. unfold sorts_before. case_match; apply _. Defined.

Definition matching_streams d (p : FindStreamsParams) : list Stream :=
  merge_sort (sorts_before p) (List.filter (stream_matches d p) (stream_rows d)).

Record FindStreamsResult := { fr_streams : list Stream; fr_total : Z; fr_hasMore : bool }.

Definition findStreams (p : FindStreamsParams) : Js (World P) FindStreamsResult :=
  gets (fun w =>
    let rows := matching_streams (db w) p in
    let page := prisma_page (fs_offset p) (fs_limit p) rows in
    let total := Z.of_nat (length rows) in
    {| fr_streams := page; fr_total := total;
       fr_hasMore := fs_offset p + Z.of_nat (length page) <? total |}).

(** ** listStreams *)

Definition DEFAULT_STREAM_PAGE_SIZE : Z := 20.
Definition MAX_STREAM_PAGE_SIZE : Z := 100.

(** The query; [None]: absent, or not a string. *)
Record ListQuery := {
  lq_sender : option string;
  lq_recipient : option string;
  lq_status : option string;
  lq_token : option string;
  lq_sort : option string;
  lq_order : option string;
  lq_limit : option string;
  lq_offset : option string
}.

Definition sort_field (sort : option string) : SortField :=
  match sort with
  | Some "startTime" => by_startTime
  | Some "lastUpdateTime" => by_lastUpdateTime
  | Some "depositedAmount" => by_depositedAmount
  | Some "endTime" => by_endTime
  | _ => by_createdAt
  end%string.

Definition parsed_limit (limit : option string) (dflt max : Z) : num :=
  num_min match limit with Some s => num_or (parseInt10 s) dflt | None => Fin dflt end max.
Definition parsed_offset (offset : option string) : num :=
  match offset with Some s => num_max 0 (num_or (parseInt10 s) 0) | None => Fin 0 end.

Inductive QueryBody :=
| StreamPage (data : list Stream) (total : Z) (hasMore : bool) (limit offset : Z)
| OneStream (stream : Stream) (events : list StreamEvent)
| FromChain (chain : ChainRecord)
| Refreshed (stream : Stream) (events : list StreamEvent) (chain : ChainRecord)
| EventPage (data : list StreamEvent) (total : Z) (hasMore : bool)
| ClaimableFromChain (streamId : Z) (claimableAmount : string) (actionable : bool) (calculatedAt : Z)
| ClaimableCached (result : ClaimableAmountResult)
| Summary (summary : UserStreamSummary).

Definition query := Js (Api (P:=P)) (Reply QueryBody).

Definition listStreams (q : ListQuery) : query :=
  or_500
    (if match lq_status q with Some st => negb (is_some (filter_of st)) | None => false end then
       sendApiError 400 "INVALID_STATUS" "status must be one of: active, cancelled, completed, paused"
     else
       let! limit := lift (prisma_int (parsed_limit (lq_limit q) DEFAULT_STREAM_PAGE_SIZE MAX_STREAM_PAGE_SIZE)) in
       let! offset := lift (prisma_int (parsed_offset (lq_offset q))) in
       let! found := in_world (findStreams
         {| fs_status := match lq_status q with Some st => filter_of st | None => None end;
            fs_sender := lq_sender q; fs_recipient := lq_recipient q; fs_tokenAddress := lq_token q;
            fs_limit := limit; fs_offset := offset; fs_sortField := sort_field (lq_sort q);
            fs_ascending := bool_decide (lq_order q = Some "asc"%string) |}) in
       send 200 (StreamPage (fr_streams found) (fr_total found) (fr_hasMore found) limit offset)).

(** ** getStream *)

Definition key_of (e : StreamEvent) : string * string := (ev_transactionHash e, ev_eventType e).

Definition newer_event (e e' : StreamEvent) : Prop := ev_timestamp e' <= ev_timestamp e.
#[export] Instance newer_event_dec : RelDecision newer_event.
Proof. intros e e'. unfold newer_event. apply _. Defined.

Definition events_of d (id : Z) : list StreamEvent :=
  merge_sort newer_event (List.filter (fun e => bool_decide (ev_streamId e = id)) (event_rows d)).

Definition getStream (now : Z) (param : PathParam) : query :=
  or_500
    match parseStreamId (raw_id param) with
    | None => sendApiError 400 "INVALID_STREAM_ID" "Invalid streamId parameter"
    | Some id =>
        let! stream := in_world (stream_findUnique id) in
        let! evs := in_world (gets (fun w => events_of (db w) id)) in
        match stream with
        | None =>
            match getStreamFromChain cfg server id with
            | None => sendApiError 404 "NOT_FOUND" "Stream not found"
            | Some chain => send 200 (FromChain chain)
            end
        | Some stream =>
            if isStale now (updatedAt stream) then
              match getStreamFromChain cfg server id with
              | Some chain => send 200 (Refreshed stream evs chain)
              | None => send 200 (OneStream stream evs)
              end
            else send 200 (OneStream stream evs)
        end
    end.

(** ** getStreamEvents *)

Definition DEFAULT_EVENTS_PAGE_SIZE : Z := 50.
Definition MAX_EVENTS_PAGE_SIZE : Z := 200.

Definition valid_event_types : list string :=
  ["CREATED"; "TOPPED_UP"; "WITHDRAWN"; "CANCELLED"; "COMPLETED"; "PAUSED"; "RESUMED";
   "FEE_COLLECTED"; "FEE_CONFIG_UPDATED"; "ADMIN_TRANSFERRED"]%string.

(** [orderBy: [{ timestamp: order }, { id: order }]] *)
Definition event_le (e e' : StreamEvent) : bool :=
  (ev_timestamp e <? ev_timestamp e') ||
  ((ev_timestamp e =? ev_timestamp e') && collate (event_id (key_of e)) (event_id (key_of e'))).
Definition event_before (ascending : bool) (e e' : StreamEvent) : Prop :=
  if ascending then event_le e e' = true else event_le e' e = true.
#[export] Instance event_before_dec ascending : RelDecision (event_before ascending).
Proof. intros e e'. unfold event_before. case_match; apply _. Defined.

Definition matching_events d (id : Z) (eventType : option string) (ascending : bool) : list StreamEvent :=
  merge_sort (event_before ascending)
    (List.filter (fun e => bool_decide (ev_streamId e = id) && column_is eventType (ev_eventType e))
       (event_rows d)).

Definition find_event d (id : string) : option StreamEvent :=
  List.find (fun e => bool_decide (event_id (key_of e) = id)) (event_rows d).

(** [cursor: { id }, skip: 1]: the rows from the cursor's place on, less the first;
    none when no row has that [id].  A negative [take] goes the other way. *)
Definition cursor_page d (cursor : string) (take_ : Z) (ascending : bool) (rows : list StreamEvent) :
    list StreamEvent :=
  match find_event d cursor with
  | None => []
  | Some c =>
      if 0 <=? take_ then
        take (Z.to_nat take_) (drop 1 (List.filter (fun e => bool_decide (event_before ascending c e)) rows))
      else
        rev (take (Z.to_nat (- take_))
          (drop 1 (rev (List.filter (fun e => bool_decide (event_before ascending e c)) rows))))
  end.

Record EventsQuery := {
  eq_limit : option string;
  eq_offset : option string;
  eq_page : option string;
  eq_cursor : option string;
  eq_order : option string;
  eq_eventType : option string
}.

Definition events_limit (limit : option string) : num :=
  parsed_limit (if truthy limit then limit else None) DEFAULT_EVENTS_PAGE_SIZE MAX_EVENTS_PAGE_SIZE.

(** [Math.max(0, (page - 1) * limit)], in doubles *)
Definition page_start (page limit : num) : num :=
  match page, limit with
  | Fin p, Fin l =>
      match Number_of_bigint (p - 1) with
      | Fin a => num_max 0 (Number_of_bigint (a * l))
      | _ => NaN (* an infinity or, times zero, no number: the client refuses both *)
      end
  | _, _ => NaN
  end.

Definition events_offset (q : EventsQuery) (limit : num) : num :=
  if truthy (eq_offset q) then parsed_offset (eq_offset q)
  else if truthy (eq_page q) && negb (truthy (eq_cursor q)) then
    page_start match eq_page q with Some s => num_or (parseInt10 s) 1 | None => Fin 1 end limit
  else Fin 0.

Definition getStreamEvents (param : PathParam) (q : EventsQuery) : query :=
  or_500
    match parseStreamId (raw_id param) with
    | None => sendApiError 400 "INVALID_STREAM_ID" "Invalid streamId parameter"
    | Some id =>
        if truthy (eq_eventType q) &&
           negb (bool_decide (default "" (eq_eventType q) ∈ valid_event_types)%string) then
          sendApiError 400 "INVALID_EVENT_TYPE" "eventType must be one of"
        else
          let! limit := lift (prisma_int (events_limit (eq_limit q))) in
          let ascending := bool_decide (eq_order q = Some "asc"%string) in
          let! rows := in_world (gets (fun w => matching_events (db w) id (eq_eventType q) ascending)) in
          let total := Z.of_nat (length rows) in
          if truthy (eq_cursor q) then
            let! page := in_world (gets (fun w =>
              cursor_page (db w) (default "" (eq_cursor q))%string limit ascending rows)) in
            send 200 (EventPage page total (Z.of_nat (length page) =? limit))
          else
            let! offset := lift (prisma_int (events_offset q (Fin limit))) in
            let page := prisma_page offset limit rows in
            send 200 (EventPage page total (offset + Z.of_nat (length page) <? total))
    end.

(** ** getStreamClaimableAmount *)

Definition claimable_from_chain (now id : Z) (amount : string) : query :=
  let! v := lift (BigInt_of_string amount) in
  send 200 (ClaimableFromChain id amount (0 <? v) (seconds now)).

Definition getStreamClaimableAmount (now : Z) (param : PathParam) (at_ : option string) : query :=
  or_500
    match parseStreamId (raw_id param) with
    | None => sendApiError 400 "INVALID_STREAM_ID" "Invalid streamId parameter"
    | Some id =>
        let requestedAt := parseInt10 <$> at_ in
        if match requestedAt with
           | Some (Fin z) => z <? 0
           | Some _ => true
           | None => false
           end
        then sendApiError 400 "INVALID_QUERY_PARAMETER"
               "'at' must be a non-negative Unix timestamp in seconds"
        else
          let at_z := match requestedAt with Some (Fin z) => Some z | _ => None end in
          let! stream := in_world (stream_findUnique id) in
          match stream with
          | None =>
              match getClaimableFromChain cfg server id with
              | Some amount => claimable_from_chain now id amount
              | None => sendApiError 404 "NOT_FOUND" "Stream not found"
              end
          | Some stream =>
              let from_row :=
                let! result := in_claims
                  (getClaimableAmount cacheTtlMs now now (claimable_state stream) at_z) in
                send 200 (ClaimableCached result) in
              if isStale now (updatedAt stream) then
                match getClaimableFromChain cfg server id with
                | Some amount => claimable_from_chain now id amount
                | None => from_row
                end
              else from_row
          end
    end.

(** ** getUserStreamSummary *)

Definition MAX_USER_STREAMS : nat := 500.
Definition USER_SUMMARY_CACHE_TTL_MS : Z := 30000.

Definition pruneUserSummaryCache (nowMs : Z) (m : list (string * (UserStreamSummary * Z))) :=
  List.filter (fun kv => nowMs <? kv.2.2) m.

(** [Map.prototype.set]: a key keeps its place. *)
Definition summary_set (k : string) (v : UserStreamSummary * Z)
    (m : list (string * (UserStreamSummary * Z))) :=
  if existsb (fun kv => bool_decide (kv.1 = k)) m
  then map (fun kv => if bool_decide (kv.1 = k) then (k, v) else kv) m
  else m ++ [(k, v)].
Definition summary_get (k : string) (m : list (string * (UserStreamSummary * Z))) :=
  snd <$> List.find (fun kv => bool_decide (kv.1 = k)) m.

Definition sumStringI128 (values : list string) : string :=
  BigInt_toString (fold_left (fun total v =>
    match BigInt_of_string v with Returns z => total + z | Throws _ => total end) values 0).

Definition later_start r r' : Prop := startTime r' <= startTime r.
#[export] Instance later_start_dec : RelDecision later_start.
Proof. intros r r'. unfold later_start. apply _. Defined.

Definition user_streams (column : Stream -> string) (address : string) d : list Stream :=
  take MAX_USER_STREAMS (merge_sort later_start
    (List.filter (fun r => bool_decide (column r = address)) (stream_rows d))).

(** The loop over the incoming streams. *)
Fixpoint claimable_total (now calculatedAt : Z) (rows : list Stream) (total : Z) :
    Js (MemoryCache ClaimableValue) Z :=
  match rows with
  | [] => ret total
  | r :: rows' =>
      let! c := getClaimableAmount cacheTtlMs now now (claimable_state r) (Some calculatedAt) in
      let! v := lift (BigInt_of_string (claimableAmount (result c))) in
      claimable_total now calculatedAt rows' (total + v)
  end.

Definition count_active (rows : list Stream) : Z := Z.of_nat (length (List.filter isActive rows)).

(** A cache miss: prune, query, add up, remember for 30 seconds. *)
Definition compute_summary (now : Z) (address : string) : query :=
  do! modify (fun s => set_summaries (pruneUserSummaryCache now (userSummaryCache s)) s) in
  let! outgoing := in_world (gets (fun w => user_streams sender address (db w))) in
  let! incoming := in_world (gets (fun w => user_streams recipient address (db w))) in
  let! claimable := in_claims (claimable_total now (seconds now) incoming 0) in
  let summary := {|
    us_address := address;
    totalStreamsCreated := Z.of_nat (length outgoing);
    totalStreamedOut := sumStringI128 (map withdrawnAmount outgoing);
    totalStreamedIn := sumStringI128 (map withdrawnAmount incoming);
    currentClaimable := BigInt_toString claimable;
    activeOutgoingCount := count_active outgoing;
    activeIncomingCount := count_active incoming;
    truncated := (MAX_USER_STREAMS <=? length outgoing)%nat || (MAX_USER_STREAMS <=? length incoming)%nat
  |} in
  do! modify (fun s =>
    set_summaries (summary_set address (summary, now + USER_SUMMARY_CACHE_TTL_MS) (userSummaryCache s)) s) in
  send 200 (Summary summary).

Definition getUserStreamSummary (now : Z) (param : PathParam) : query :=
  or_500
    (let address := match param with
                    | Segments xs => default "" (head xs)
                    | Segment t => trim t
                    | NoSegment => ""
                    end%string in
     match address with
     | EmptyString => sendApiError 400 "INVALID_ADDRESS" "Address is required"
     | _ =>
         let! cached := gets (fun s => summary_get address (userSummaryCache s)) in
         match cached with
         | Some (value, expiresAtMs) =>
             if now <? expiresAtMs then send 200 (Summary value) else compute_summary now address
         | None => compute_summary now address
         end
     end).
End Queries.
