(* ===== verification/StreamQueryFacts.v ===== *)
(** * Requests that read streams: properties

    The pages of a listing make up the matching rows, each once; following the
    cursors of a stream's events visits each event once; a summary is at most
    thirty seconds old. *)
From S2P Require Import Prelude JsLang StreamId Json Schema Xdr Worker DeadLetter MemoryCache Contract Claimable Http Soroban StreamApi StreamApiFacts StreamQueries.
From stdpp Require Import sorting.
Local Open Scope Z_scope.

(** ** Pages of a list *)

Lemma pages_concat {A} (l n : nat) (rows : list A) :
  concat (map (fun k => take l (drop (k * l) rows)) (seq 0 n)) = take (n * l) rows.
Proof.
  induction n as [|n IH]; [done|]. rewrite seq_S, map_app, concat_app, IH.
  cbn [map concat]. rewrite app_nil_r, take_take_drop. f_equal. lia.
Qed.

(** What follows an element of a list sorted by an antisymmetric relation. *)
Lemma filter_from {A} (R : A -> A -> Prop) `{!RelDecision R} (rows : list A) i c :
  (forall x y, x ∈ rows -> y ∈ rows -> R x y -> R y x -> x = y) -> Reflexive R ->
  StronglySorted R rows -> NoDup rows -> rows !! i = Some c ->
  List.filter (fun e => bool_decide (R c e)) rows = drop i rows.
Proof.
  intros HA HR Hs Hn. revert i. induction Hs as [|a rows Hs IH Ha]; intros i Hi; [done|].
  apply NoDup_cons in Hn as [Hna Hn]. rewrite Forall_forall in Ha.
  destruct i as [|i]; simpl in *.
  - simplify_eq. rewrite bool_decide_eq_true_2 by done. f_equal.
    assert (forall l, (forall e, e ∈ l -> R c e) ->
      List.filter (fun e => bool_decide (R c e)) l = l) as Hall.
    { clear. induction l as [|e l IH]; intros H; simpl; [done|].
      rewrite bool_decide_eq_true_2 by (apply H; left). f_equal. apply IH. intros. apply H. by right. }
    by apply Hall.
  - pose proof (list_elem_of_lookup_2 _ _ _ Hi) as Hin.
    rewrite bool_decide_eq_false_2.
    + apply IH; [|done..]. intros x y Hx Hy. apply HA; by right.
    + intros Hca. apply Hna. assert (c = a) as <-; [|done].
      apply HA; [by right|left|done|by apply Ha].
Qed.

Section Facts.
Context {P : PrismaEngine} {Key : StrKey} {Sdk : SorobanSdk} {Hidden : HiddenColumns}.
Context (cfg : SorobanConfig) (server : option Server) (cacheTtlMs : Z).
Implicit Types (s : Api (P:=P)) (w : World P) (d : DB P) (r : Stream).

(** ** Listing streams *)

Lemma field_le_total f r r' : field_le f r r' || field_le f r' r = true.
Proof.
  destruct f; simpl; [lia..|apply collate_total|]. destruct (endTime r), (endTime r'); lia.
Qed.
Lemma field_le_trans f r r' r'' : field_le f r r' = true -> field_le f r' r'' = true -> field_le f r r'' = true.
Proof.
  destruct f; simpl; [lia..|apply collate_trans|].
  destruct (endTime r), (endTime r'), (endTime r''); try lia; done.
Qed.

Lemma sorts_before_sorted p rows : StronglySorted (sorts_before p) (merge_sort (sorts_before p) rows).
Proof.
  assert (Transitive (sorts_before p)).
  { intros r r' r''. unfold sorts_before. case_match; eauto using field_le_trans. }
  assert (Total (sorts_before p)).
  { intros r r'. unfold sorts_before. pose proof (field_le_total (fs_sortField p) r r') as H'.
    apply orb_true_iff in H'. case_match; tauto. }
  by apply (StronglySorted_merge_sort (sorts_before p)).
Qed.

Definition at_offset (p : FindStreamsParams) (offset : Z) : FindStreamsParams := {|
  fs_status := fs_status p; fs_sender := fs_sender p; fs_recipient := fs_recipient p;
  fs_tokenAddress := fs_tokenAddress p; fs_limit := fs_limit p; fs_offset := offset;
  fs_sortField := fs_sortField p; fs_ascending := fs_ascending p |}.

(** The page of a listing at an offset, and what it says of more. *)
Definition streams_page w (p : FindStreamsParams) (k : nat) : list Stream * bool :=
  match (findStreams (at_offset p (Z.of_nat k * fs_limit p)) w).1 with
  | Returns f => (fr_streams f, fr_hasMore f)
  | Throws _ => ([], false)
  end.

Lemma streams_page_eq w p k :
  0 < fs_limit p ->
  streams_page w p k =
  (take (Z.to_nat (fs_limit p)) (drop (k * Z.to_nat (fs_limit p)) (matching_streams (db w) p)),
   (S k * Z.to_nat (fs_limit p) <? length (matching_streams (db w) p))%nat).
Proof.
  intros Hl. unfold streams_page, findStreams, gets. simpl.
  change (matching_streams (db w) (at_offset p (Z.of_nat k * fs_limit p))) with (matching_streams (db w) p).
  set (rows := matching_streams (db w) p). unfold prisma_page.
  replace (0 <=? fs_limit p) with true by lia.
  replace (Z.to_nat (Z.of_nat k * fs_limit p)) with (k * Z.to_nat (fs_limit p))%nat by nia.
  f_equal. rewrite length_take, length_drop. apply eq_iff_eq_true.
  rewrite Z.ltb_lt, Nat.ltb_lt. nia.
Qed.


(** ** The events of a stream *)

Lemma event_le_total e e' : event_le e e' || event_le e' e = true.
Proof.
  unfold event_le. pose proof (collate_total (event_id (key_of e)) (event_id (key_of e'))).
  destruct (collate _ _); simpl in *; [lia|]. destruct (collate _ _); simpl in *; lia.
Qed.
Lemma event_le_trans e e' e'' : event_le e e' = true -> event_le e' e'' = true -> event_le e e'' = true.
Proof.
  unfold event_le. intros H1 H2.
  pose proof (collate_trans (event_id (key_of e)) (event_id (key_of e')) (event_id (key_of e''))) as Ht.
  destruct (collate (event_id (key_of e)) (event_id (key_of e')));
  destruct (collate (event_id (key_of e')) (event_id (key_of e'')));
  try rewrite (Ht eq_refl eq_refl); lia.
Qed.

Lemma event_le_antisym e e' :
  event_le e e' = true -> event_le e' e = true ->
  collate (event_id (key_of e)) (event_id (key_of e')) = true /\
  collate (event_id (key_of e')) (event_id (key_of e)) = true.
Proof.
  unfold event_le. intros H1 H2. destruct (collate _ _), (collate _ _); split; lia.
Qed.

Definition events_keyed d : Prop := forall k e, t_find k (events d) = Some e -> k = key_of e.

Lemma events_keyed_ok d : db_ok d -> events_keyed d.
Proof. intros Hok k e He. by apply (ok_events _ Hok) in He as []. Qed.

Lemma event_rows_keys d : events_keyed d -> map key_of (event_rows d) = (t_rows (events d)).*1.
Proof.
  intros Hk. unfold event_rows. rewrite map_map. apply map_ext_in. intros [k e] Hin.
  apply list_elem_of_In, t_rows_spec, Hk in Hin. by rewrite Hin.
Qed.

Lemma event_rows_nodup d : events_keyed d -> NoDup (map key_of (event_rows d)).
Proof. intros Hk. rewrite event_rows_keys by done. apply t_rows_nodup. Qed.

(** A row is settled by its key. *)
Lemma event_rows_key d e e' :
  events_keyed d -> e ∈ event_rows d -> e' ∈ event_rows d -> key_of e = key_of e' -> e = e'.
Proof.
  intros Hk He He' Heq. unfold event_rows in *.
  apply list_elem_of_fmap in He as ([k x] & -> & Hx). apply list_elem_of_fmap in He' as ([k' x'] & -> & Hx').
  apply t_rows_spec in Hx, Hx'. simpl in *.
  pose proof (Hk _ _ Hx). pose proof (Hk _ _ Hx'). assert (k = k') by congruence. congruence.
Qed.

Lemma find_event_row d c : events_keyed d -> c ∈ event_rows d -> find_event d (event_id (key_of c)) = Some c.
Proof.
  intros Hk Hc. unfold find_event.
  destruct (List.find _ _) as [e|] eqn:E.
  - apply find_some in E as [He Hid]. apply list_elem_of_In in He. apply bool_decide_eq_true in Hid.
    apply event_id_inj in Hid. f_equal. by apply (event_rows_key d).
  - apply list_elem_of_In in Hc. apply (find_none _ _ E) in Hc. by rewrite bool_decide_eq_true_2 in Hc.
Qed.

Section OneStream.
Context (w : World P) (Hok : world_ok w) (id : Z) (eventType : option string) (ascending : bool).
Let rows := matching_events (db w) id eventType ascending.

Lemma rows_in e : e ∈ rows -> e ∈ event_rows (db w).
Proof.
  unfold rows, matching_events. intros He. rewrite merge_sort_Permutation in He.
  apply list_elem_of_In in He. apply list_elem_of_In. by apply filter_In in He as [? _].
Qed.

Lemma rows_nodup : NoDup rows.
Proof.
  unfold rows, matching_events. rewrite merge_sort_Permutation.
  pose proof (event_rows_nodup _ (events_keyed_ok _ Hok)) as Hn. apply NoDup_fmap_1 in Hn.
  apply NoDup_ListNoDup, List.NoDup_filter, NoDup_ListNoDup. done.
Qed.

Lemma event_before_total e e' : event_before ascending e e' \/ event_before ascending e' e.
Proof.
  unfold event_before. pose proof (event_le_total e e') as H. apply orb_true_iff in H.
  case_match; tauto.
Qed.

Lemma rows_sorted : StronglySorted (event_before ascending) rows.
Proof.
  assert (Transitive (event_before ascending)).
  { intros e e' e''. unfold event_before. case_match; eauto using event_le_trans. }
  assert (Total (event_before ascending)) by (intros e e'; apply event_before_total).
  by apply (StronglySorted_merge_sort (event_before ascending)).
Qed.

(** Two stored events of which each is before the other are one. *)
Lemma event_before_antisym e e' :
  e ∈ event_rows (db w) -> e' ∈ event_rows (db w) ->
  event_before ascending e e' -> event_before ascending e' e -> e = e'.
Proof.
  intros He He' H1 H2. apply (event_rows_key (db w)); [by apply events_keyed_ok|done..|].
  apply event_id_inj. unfold event_before in *.
  destruct (event_le_antisym e e') as [? ?]; [by case_match..|]. by apply collate_antisym.
Qed.

(** What the rows after an event are. *)
Lemma rows_from i c :
  rows !! i = Some c ->
  List.filter (fun e => bool_decide (event_before ascending c e)) rows = drop i rows.
Proof.
  intros Hi. apply filter_from; [|intros e; by destruct (event_before_total e e)|apply rows_sorted|
    apply rows_nodup|done].
  intros e e' He He'. apply event_before_antisym; by apply rows_in.
Qed.

(** C15. Following a cursor visits the events of a stream once each: the page after
    the [i]-th event of the list — with any filter, order and page size — is the
    next events of that list, in which events of the same second are told apart
    by their identifiers; and when the reply says there is no more, the page
    reaches the end of the list. *)
Theorem cursor_visits_each s q i c l :
  world s = w ->
  let cursor := event_id (key_of c) in
  rows !! i = Some c -> truthy (Some cursor) = true -> 0 < l ->
  events_limit (eq_limit q) = Fin l -> eq_cursor q = Some cursor -> eq_eventType q = eventType ->
  truthy eventType && negb (bool_decide (default "" eventType ∈ valid_event_types)%string) = false ->
  ascending = bool_decide (eq_order q = Some "asc"%string) ->
  forall param, parseStreamId (raw_id param) = Some id ->
  exists hasMore,
    getStreamEvents param q s =
      (Returns (Answer 200 (EventPage (take (Z.to_nat l) (drop (S i) rows))
         (Z.of_nat (length rows)) hasMore)), s) /\
    (hasMore = false -> (length rows <= S i + Z.to_nat l)%nat).
Proof.
  intros Hs cursor Hi Hc Hl Hlim Hcur Ht Hv Ha param Hp. eexists. split.
  - unfold getStreamEvents, or_500. rewrite Hp, Ht, Hv. cbv iota. unfold try_catch, bind at 1, lift.
    rewrite Hlim. cbn [prisma_int]. unfold bind at 1, in_world at 1, on, gets. rewrite Hs, <- Ha, Hcur, Hc.
    cbv iota. unfold bind, in_world, on, gets. cbn [world set_world default from_option].
    unfold Datatypes.id. fold rows. unfold cursor_page.
    rewrite (find_event_row _ c); [|by apply events_keyed_ok|eapply rows_in, list_elem_of_lookup_2; exact Hi].
    replace (0 <=? l) with true by lia. rewrite (rows_from i c Hi), drop_drop, Nat.add_1_r.
    destruct s. simpl in *. subst. reflexivity.
  - rewrite length_take, length_drop. intros H%Z.eqb_neq. lia.
Qed.
End OneStream.
End Facts.
