(* ===== verification/EventQueries.v ===== *)
(** * The events of a wallet, and users

    backend/src/repositories/streamEvent.repository.ts and the two endpoints
    over it — GET /v1/events of backend/src/routes/v1/events.routes.ts and GET
    /v1/users/:publicKey/events of backend/src/controllers/user.controller.ts —
    with the user handlers of that controller and the key format of
    backend/src/validators/user.validator.ts.

    The query orders events by second alone; [scan] is the order in which the
    database happens to read its rows for one query, which settles the order of
    events of the same second. *)
From S2P Require Import Prelude JsLang Texts StreamId Json Schema Xdr Worker DeadLetter MemoryCache Contract Claimable Http Soroban StreamApi StreamApiFacts StreamQueries StreamQueryFacts Samples WorkerFacts Replay.
From stdpp Require Import sorting.
Local Open Scope Z_scope.

(** ** Query parameters *)

(** The types asked for, and those of them that are known. *)
Definition parseEventTypeFilter (rawType : option string) : list string * list string :=
  let raw := default ""%string rawType in
  let requested := List.filter (fun t => truthy (Some t))
                     (map (fun t => toUpperCase (trim t)) (split_on 44 raw)) in
  (requested, List.filter (fun t => bool_decide (t ∈ valid_event_types)) requested).

(** [String(x ?? '')] of a query value, and the string itself. *)
Definition resolveEventsPageSize (rawLimit : string) : Z :=
  match parseInt10 rawLimit with
  | Fin z => if 0 <? z then Z.min z MAX_EVENTS_PAGE_SIZE else DEFAULT_EVENTS_PAGE_SIZE
  | _ => DEFAULT_EVENTS_PAGE_SIZE
  end.

Definition offset_from_page (rawPage : string) (limit : Z) : num :=
  let page := match parseInt10 rawPage with Fin z => if 0 <? z then z else 1 | _ => 1 end in
  page_start (Fin page) (Fin limit).

Definition resolveEventsOffset (rawOffset : option string) (rawPage : string) (limit : Z) : num :=
  if truthy rawOffset then
    match parseInt10 (default "" rawOffset)%string with
    | Fin z => if 0 <=? z then Fin z else offset_from_page rawPage limit
    | _ => offset_from_page rawPage limit
    end
  else offset_from_page rawPage limit.

Section Events.
Context {P : PrismaEngine} {Hidden : HiddenColumns}.
Implicit Types (w : World P) (d : DB P).

(** ** The shared query *)

(** The event's stream has the wallet as sender or recipient. *)
Definition wallet_event d (address : string) (e : StreamEvent) : bool :=
  match t_find (ev_streamId e) (streams d) with
  | Some r => bool_decide (sender r = address) || bool_decide (recipient r = address)
  | None => false
  end.

Definition wallet_matches d (address : string) (types : list string) (e : StreamEvent) : bool :=
  wallet_event d address e &&
  match types with [] => true | _ => bool_decide (ev_eventType e ∈ types) end.

Record WalletEvents := {
  we_events : list StreamEvent;
  we_total : Z;
  we_limit : Z;
  we_offset : Z;
  we_hasMore : bool
}.

Definition wallet_rows d (scan : list StreamEvent) (address : string) (types : list string) :
    list StreamEvent :=
  merge_sort newer_event (List.filter (wallet_matches d address types) scan).

Definition listEventsForWallet (scan : list StreamEvent) (address : string) (types : list string)
    (limit : Z) (offset : num) : Js (World P) WalletEvents :=
  let! skip := lift (prisma_int offset) in
  gets (fun w =>
    let rows := wallet_rows (db w) scan address types in
    let page := prisma_page skip limit rows in
    let total := Z.of_nat (length rows) in
    {| we_events := page; we_total := total; we_limit := limit; we_offset := skip;
       we_hasMore := skip + Z.of_nat (length page) <? total |}).

(** ** The endpoints *)

Record WalletQuery := {
  wq_type : option string;
  wq_limit : option string;
  wq_offset : option string;
  wq_page : option string
}.

(** A response, or an error handed to the error handler ([None]). *)
Inductive EventsReply :=
| EventsProblem (status : Z) (error : string)
| WalletPage (page : WalletEvents).

(** What the two endpoints do once they know whose events to list. *)
Definition wallet_page (scan : list StreamEvent) (address : string) (q : WalletQuery) :
    Js (World P) EventsReply :=
  let '(requested, types) := parseEventTypeFilter (wq_type q) in
  if negb (bool_decide (requested = [])) && bool_decide (types = []) then
    ret (EventsProblem 400 "No valid event types in `type` filter")
  else
    let limit := resolveEventsPageSize (default "" (wq_limit q))%string in
    let offset := resolveEventsOffset (wq_offset q) (default "" (wq_page q))%string limit in
    let! result := listEventsForWallet scan address types limit offset in
    ret (WalletPage result).

(** GET /v1/users/:publicKey/events *)
Definition getUserEvents (scan : list StreamEvent) (publicKey : option string) (q : WalletQuery) :
    Js (World P) EventsReply :=
  match publicKey with
  | None => ret (EventsProblem 400 "Invalid publicKey parameter")
  | Some key =>
      if negb (STELLAR_PUBLIC_KEY_REGEX key) then
        ret (EventsProblem 400 "Invalid Stellar public key format")
      else wallet_page scan key q
  end.

(** GET /v1/events, behind [requireAuth] *)
Definition getEvents (scan : list StreamEvent) (user : string) (address : option string) (q : WalletQuery) :
    Js (World P) EventsReply :=
  let address := match address with Some a => trim a | None => ""%string end in
  match address with
  | EmptyString => ret (EventsProblem 400 "address query parameter is required")
  | _ =>
      if negb (bool_decide (address = user)) then ret (EventsProblem 403 "Forbidden")
      else wallet_page scan address q
  end.

(** ** Users *)

(** The newest ten streams of a column. *)
Definition newest_created (r r' : Stream) : Prop :=
  stream_createdAt (streamId r') <= stream_createdAt (streamId r).
#[export] Instance newest_created_dec : RelDecision newest_created.
Proof. intros r r'. unfold newest_created. apply _. Defined.
Definition newest_ten d (column : Stream -> string) (key : string) : list Stream :=
  take 10 (merge_sort newest_created
    (List.filter (fun r => bool_decide (column r = key)) (stream_rows d))).

Inductive UserReply :=
| UserProblem (status : Z) (code : string)
| UserRow (status : Z) (user : User)
| UserWithStreams (key : string) (sentStreams receivedStreams : list Stream)
| InMemoryUser (key : string).

(** The key the schema let through; [None] is an error for the error handler. *)
Definition registerUser (publicKey : option string) : Js (World P) UserReply :=
  match publicKey with
  | Some key =>
      if STELLAR_PUBLIC_KEY_REGEX key then
        let! user := find_user key in
        match user with
        | Some u => ret (UserRow 200 u)
        | None =>
            do! put_user {| publicKey := key |} in
            ret (UserRow 201 {| publicKey := key |})
        end
      else throw (ErrorMsg "ZodError")
  | None => throw (ErrorMsg "ZodError")
  end.

Definition user_with_streams (key : string) : Js (World P) (option UserReply) :=
  let! user := find_user key in
  match user with
  | None => ret None
  | Some _ =>
      gets (fun w => Some (UserWithStreams key (newest_ten (db w) sender key) (newest_ten (db w) recipient key)))
  end.

Definition getUser (publicKey : option string) : Js (World P) UserReply :=
  match publicKey with
  | None => ret (UserProblem 400 "INVALID_PUBLIC_KEY")
  | Some key =>
      if negb (STELLAR_PUBLIC_KEY_REGEX key) then ret (UserProblem 400 "INVALID_PUBLIC_KEY")
      else
        let! user := user_with_streams key in
        match user with
        | Some u => ret u
        | None => ret (UserProblem 404 "NOT_FOUND")
        end
  end.

Definition getCurrentUser (key : string) : Js (World P) UserReply :=
  let! user := user_with_streams key in
  match user with
  | Some u => ret u
  | None => ret (InMemoryUser key)
  end.

(** ** Properties *)

Lemma resolveEventsPageSize_bounds raw : 1 <= resolveEventsPageSize raw <= 200.
Proof.
  unfold resolveEventsPageSize, DEFAULT_EVENTS_PAGE_SIZE, MAX_EVENTS_PAGE_SIZE.
  destruct (parseInt10 raw); [lia| |lia|lia]. case_match; lia.
Qed.

Lemma all_base32_no_ws s : all_base32 s = true -> trim_end s = s /\ trim_start s = s.
Proof.
  assert (forall c, base32_char c = true -> is_ws c = false) as Hc.
  { intros c. unfold base32_char, is_ws. lia. }
  induction s as [|c s IH]; [done|]. simpl. intros [H1 H2]%andb_prop. rewrite (Hc c H1).
  destruct (IH H2) as [-> _]. by destruct s.
Qed.

Lemma key_trim s : STELLAR_PUBLIC_KEY_REGEX s = true -> trim s = s /\ s <> ""%string.
Proof.
  destruct s as [|c s]; [done|]. simpl. intros [[Hc Hs]%andb_prop _]%andb_prop.
  assert (all_base32 (String c s) = true) as H.
  { simpl. unfold base32_char. apply Z.eqb_eq in Hc. by rewrite Hc, Hs. }
  unfold trim. apply all_base32_no_ws in H as [He ->]. by rewrite He.
Qed.

(** The history endpoint that is open to anyone serves what the guarded one
    guards: for every wallet, query and database, GET /v1/users/:publicKey/events
    answers — to any caller — exactly what GET /v1/events answers to that wallet
    alone, errors of the query included, while the guarded one refuses every
    other caller. *)
Theorem guarded_history_is_public (scan : list StreamEvent) (wallet user : string) (q : WalletQuery) w :
  STELLAR_PUBLIC_KEY_REGEX wallet = true ->
  getUserEvents scan (Some wallet) q w = getEvents scan wallet (Some wallet) q w /\
  (user <> wallet -> getEvents scan user (Some wallet) q w = (Returns (EventsProblem 403 "Forbidden"), w)).
Proof.
  intros Hk. destruct (key_trim _ Hk) as [Ht Hne].
  unfold getUserEvents, getEvents. rewrite Hk, Ht. simpl negb. cbv iota.
  destruct wallet as [|c wallet]; [done|]. rewrite bool_decide_eq_true_2 by done. split; [done|].
  intros Hu. rewrite bool_decide_eq_false_2 by congruence. done.
Qed.

(** The pages of one reading of the table: the events of the wallet, each once,
    newest first. *)
Theorem wallet_pages_one_scan d scan address types (l n : nat) :
  scan ≡ₚ event_rows d ->
  let rows := wallet_rows d scan address types in
  rows ≡ₚ List.filter (wallet_matches d address types) (event_rows d) /\
  StronglySorted newer_event rows /\
  concat (map (fun k => prisma_page (Z.of_nat (k * l)) (Z.of_nat l) rows) (seq 0 n)) =
    take (n * l) rows.
Proof.
  intros Hscan rows. split_and!.
  - unfold rows, wallet_rows. rewrite merge_sort_Permutation.
    clear rows. induction Hscan; simpl; repeat case_match; eauto using Permutation.
  - assert (Transitive newer_event) by (intros e e' e''; unfold newer_event; lia).
    assert (Total newer_event) by (intros e e'; unfold newer_event; destruct (Z.le_ge_cases (ev_timestamp e) (ev_timestamp e')); auto with lia).
    by apply (StronglySorted_merge_sort newer_event).
  - rewrite <- pages_concat. f_equal. apply map_ext. intros k. unfold prisma_page.
    by rewrite (proj2 (Z.leb_le _ _) (Nat2Z.is_nonneg l)), !Nat2Z.id.
Qed.

(** Registering is idempotent: a well-formed key is stored — 201 the first
    time, 200 from then on, nothing but the user row written — and anything else
    is refused without a write; the database stays sound. *)
Theorem register_idempotent (publicKey : option string) w :
  db_ok (db w) ->
  let w' := (registerUser publicKey w).2 in
  db_ok (db w') /\
  (forall key, publicKey = Some key -> STELLAR_PUBLIC_KEY_REGEX key = true ->
    is_Some (t_find key (users (db w'))) /\
    exists u, registerUser publicKey w' = (Returns (UserRow 200 u), w')) /\
  ((forall key, publicKey = Some key -> STELLAR_PUBLIC_KEY_REGEX key = false) ->
    w' = w /\ exists e, (registerUser publicKey w).1 = Throws e).
Proof.
  intros Hok. destruct publicKey as [key|]; [|by split_and!; [done|done|eauto]].
  simpl. destruct (STELLAR_PUBLIC_KEY_REGEX key) eqn:Hk.
  2: { split_and!; [done|congruence|eauto]. }
  unfold bind, find_user, gets. destruct (t_find key (users (db w))) as [u|] eqn:Hu; simpl.
  - split_and!; [done| |by intros H; rewrite (H key eq_refl) in Hk].
    intros ? [= <-] _. rewrite Hu. eauto.
  - split_and!; [|intros ? [= <-] _; rewrite t_find_put, decide_True by done; eauto|
      by intros H; rewrite (H key eq_refl) in Hk].
    apply (world_ok_put_user {| publicKey := key |} w Hok).
Qed.
End Events.

(** * Requests that read streams: concrete inputs

    Stand-in columns for [HiddenColumns], and the theorems on listings, cursors,
    the history of a wallet and registration applied to the sample stream. *)

Local Open Scope Z_scope.

Definition sample_event_id (k : string * string) : string := BigInt_toString (Zpos (encode k)).
Definition sample_collate (a b : string) : bool := (encode a <=? encode b)%positive.

Lemma sample_event_id_inj : Inj (=) (=) sample_event_id.
Proof.
  intros k k' H. apply (f_equal BigInt_of_string) in H. unfold sample_event_id in H.
  rewrite !BigInt_roundtrip in H. simplify_eq. by apply (inj encode).
Qed.
Lemma sample_collate_total a b : sample_collate a b || sample_collate b a = true.
Proof. unfold sample_collate. rewrite orb_true_iff, !Pos.leb_le. lia. Qed.
Lemma sample_collate_trans a b c :
  sample_collate a b = true -> sample_collate b c = true -> sample_collate a c = true.
Proof. unfold sample_collate. rewrite !Pos.leb_le. lia. Qed.
Lemma sample_collate_antisym a b : sample_collate a b = true -> sample_collate b a = true -> a = b.
Proof. unfold sample_collate. rewrite !Pos.leb_le. intros. apply (inj encode). lia. Qed.

#[export] Instance sample_columns : HiddenColumns := {|
  stream_createdAt id := id;
  event_id := sample_event_id;
  event_id_inj := sample_event_id_inj;
  collate := sample_collate;
  collate_total := sample_collate_total;
  collate_trans := sample_collate_trans;
  collate_antisym := sample_collate_antisym |}.

Definition all_active : FindStreamsParams := {|
  fs_status := Some active; fs_sender := Some "G1"%string; fs_recipient := None;
  fs_tokenAddress := Some ""%string; fs_limit := 1; fs_offset := 0;
  fs_sortField := by_depositedAmount; fs_ascending := false |}.


(** Stream 1 with its creation, a pause and a resumption. *)
Definition busy_world : World gmap_engine := process_all pause_and_resume sample_world.
Definition busy_api : Api (P:=gmap_engine) :=
  {| world := busy_world; claims := fresh_cache 10; sent := []; userSummaryCache := [] |}.

Lemma busy_world_ok : world_ok busy_world.
Proof. do 2 apply processEvent_keeps_ok. apply sample_world_ok. Qed.

(** The events of stream 1, newest first, and their identifiers. *)
Definition busy_events : list StreamEvent := matching_events (db busy_world) 1 None false.
Definition first_id : string :=
  match busy_events with e :: _ => event_id (key_of e) | [] => "" end.
Definition first_event : StreamEvent :=
  match busy_events with e :: _ => e | [] => new_event 0 "" None 0 0 [] "" end.

Definition after_first : EventsQuery := {|
  eq_limit := Some "2"%string; eq_offset := None; eq_page := None; eq_cursor := Some first_id;
  eq_order := None; eq_eventType := None |}.

Lemma cursor_visits_each_witness :
  exists hasMore,
    getStreamEvents (Segment "1") after_first busy_api =
      (Returns (Answer 200 (EventPage (take (Z.to_nat 2) (drop 1 busy_events)) (Z.of_nat (length busy_events)) hasMore)),
       busy_api) /\
    (hasMore = false -> (length busy_events <= 1 + Z.to_nat 2)%nat).
Proof.
  exact (cursor_visits_each busy_world busy_world_ok 1 None false busy_api after_first 0 first_event 2
    eq_refl ltac:(vm_refl) ltac:(vm_refl) ltac:(lia) ltac:(vm_refl) eq_refl eq_refl eq_refl ltac:(vm_refl)
    (Segment "1") ltac:(vm_refl)).
Defined.

Example busy_has_three_events : length busy_events = 3%nat.
Proof. vm_refl. Qed.

(** ** A wallet's history read twice *)

(** Two events of the second 110, and the two orders a scan can give them. *)
Definition twin (h : string) : StreamEvent := new_event 1 "PAUSED" None 3 110 [] h.
Definition twins_world : World gmap_engine :=
  ((do! put_event (twin "tx-1") in put_event (twin "tx-2")) sample_world).2.

(** The query orders a wallet's events by second alone, so two readings of the
    table may order two events of one second differently: here the first page
    shows one of them, and the second page shows it again. *)
Example wallet_page_repeats :
  let page scan k := prisma_page k 1
    (wallet_rows (db twins_world) scan "G1" ["PAUSED"%string]) in
  page [twin "tx-1"; twin "tx-2"] 0 = [twin "tx-1"] /\
  page [twin "tx-2"; twin "tx-1"] 1 = [twin "tx-1"].
Proof. split; vm_refl. Qed.

Definition long_key : string := "GAAAAAAAAAAAAAAAAAAAAAAAAAAAAAAAAAAAAAAAAAAAAAAAAAAAAWHF".

Lemma guarded_history_is_public_witness :
  let q := {| wq_type := Some "paused, resumed"%string; wq_limit := Some "10"%string; wq_offset := None; wq_page := None |} in
  let scan := event_rows (db busy_world) in
  getUserEvents scan (Some long_key) q busy_world = getEvents scan long_key (Some long_key) q busy_world /\
  ("G1"%string <> long_key ->
   getEvents scan "G1" (Some long_key) q busy_world = (Returns (EventsProblem 403 "Forbidden"), busy_world)).
Proof.
  intros q scan. exact (guarded_history_is_public scan long_key "G1" q busy_world ltac:(vm_refl)).
Defined.

Lemma register_idempotent_witness :
  let w' := (registerUser (Some long_key) sample_world).2 in
  db_ok (db w') /\
  (forall key, Some long_key = Some key -> STELLAR_PUBLIC_KEY_REGEX key = true ->
    is_Some (t_find key (users (db w'))) /\
    exists u, registerUser (Some long_key) w' = (Returns (UserRow 200 u), w')) /\
  ((forall key, Some long_key = Some key -> STELLAR_PUBLIC_KEY_REGEX key = false) ->
    w' = sample_world /\ exists e, (registerUser (Some long_key) sample_world).1 = Throws e).
Proof. exact (register_idempotent (Some long_key) sample_world sample_world_ok). Defined.
