(* ===== verification/Amount.v ===== *)
(** * Amounts as people read them: frontend/src/utils/amount.ts

    Conversion between raw token amounts (bigints) and decimal text, validation
    of an input field, compact display and stream progress.  Left out: the fetch
    of a token's decimals from its contract. *)
From S2P Require Import Prelude JsLang StreamId Json Double.
Local Open Scope Z_scope.

(** ** Strings *)

Fixpoint replicate_char (n : nat) (c : Ascii.ascii) : string :=
  match n with O => EmptyString | S n' => String c (replicate_char n' c) end.
Definition zero_char : Ascii.ascii := digit_char 0.

(** [padStart] and [padEnd] *)
Definition padStart (s : string) (n : nat) : string :=
  replicate_char (n - String.length s) zero_char +:+ s.
Definition padEnd (s : string) (n : nat) : string :=
  s +:+ replicate_char (n - String.length s) zero_char.

(** [s.replace(/0+$/, "")] *)
Fixpoint strip_zeros (s : string) : string :=
  match s with
  | EmptyString => EmptyString
  | String c s' =>
      match strip_zeros s' with
      | EmptyString => if code c =? 48 then EmptyString else String c EmptyString
      | t => String c t
      end
  end.

(** [s.slice(0, n)] *)
Fixpoint slice (n : nat) (s : string) : string :=
  match n, s with S n', String c s' => String c (slice n' s') | _, _ => EmptyString end.

(** The parts of [s.split(".")] at the first dot. *)
Fixpoint before_dot (s : string) : string :=
  match s with
  | EmptyString => EmptyString
  | String c s' => if code c =? 46 then EmptyString else String c (before_dot s')
  end.
Fixpoint after_dot (s : string) : option string :=
  match s with
  | EmptyString => None
  | String c s' => if code c =? 46 then Some s' else after_dot s'
  end.

(** [/^\d*\.?\d*$/] *)
Definition number_format (s : string) : bool :=
  all_digits (before_dot s) && match after_dot s with Some t => all_digits t | None => true end.

(** ** Formatting *)

Definition formatAmount (raw : Z) (decimals : nat) : string :=
  if raw =? 0 then "0"
  else if (decimals =? 0)%nat then BigInt_toString raw
  else
    let factor := 10 ^ Z.of_nat decimals in
    let integerPart := Z.quot raw factor in
    let fractionalPart := Z.rem raw factor in
    let fractionalStr := padStart (BigInt_toString fractionalPart) decimals in
    match strip_zeros fractionalStr with
    | EmptyString => BigInt_toString integerPart
    | trimmed => BigInt_toString integerPart +:+ "." +:+ trimmed
    end.

Definition fromStroops (amount : Z) (decimals : nat) : string := formatAmount amount decimals.

Definition truncateAmount (amount : Z) (decimals maxDisplayDecimals : nat) : string :=
  if amount =? 0 then "0"
  else
    let factor := 10 ^ Z.of_nat decimals in
    let integerPart := Z.quot amount factor in
    let fractionalPart := Z.rem amount factor in
    if fractionalPart =? 0 then BigInt_toString integerPart
    else
      let fractionalStr := padStart (BigInt_toString fractionalPart) decimals in
      match strip_zeros (slice maxDisplayDecimals fractionalStr) with
      | EmptyString => BigInt_toString integerPart
      | trimmed => BigInt_toString integerPart +:+ "." +:+ trimmed
      end.

Definition formatRate (ratePerSec : Z) (decimals : nat) (symbol : string) : string :=
  if ratePerSec =? 0 then
    match symbol with EmptyString => "0/sec" | _ => "0 " +:+ symbol +:+ "/sec" end
  else
    let symbolStr := match symbol with EmptyString => EmptyString | _ => " " +:+ symbol end in
    formatAmount ratePerSec decimals +:+ symbolStr +:+ "/sec (" +:+
    formatAmount (ratePerSec * 86400) decimals +:+ symbolStr +:+ "/day)".

Definition formatStreamRate := formatRate.

(** [Math.min(100, Number((withdrawn * 100n) / deposited))] *)
Definition streamProgressPercent (withdrawn deposited : Z) : num :=
  if deposited =? 0 then (if 0 <? withdrawn then Fin 100 else Fin 0)
  else num_min (Number_of_bigint (Z.quot (withdrawn * 100) deposited)) 100.

(** ** Parsing *)

Definition parseAmount (display : string) (decimals : nat) : outcome Z :=
  match trim display with
  | EmptyString => Returns 0
  | trimmed =>
      if negb (number_format trimmed) then Returns 0
      else
        let integerPart := match before_dot trimmed with EmptyString => "0"%string | s => s end in
        let fraction := match after_dot trimmed with Some s => s | None => ""%string end in
        let fractionalPart :=
          if (decimals <? String.length fraction)%nat then slice decimals fraction
          else padEnd fraction decimals in
        let factor := 10 ^ Z.of_nat decimals in
        let? i := BigInt_of_string integerPart in
        let? f := BigInt_of_string fractionalPart in
        Returns (i * factor + f)
  end.

Definition toStroops := parseAmount.

(** ** Validation *)

Definition hasValidPrecision (input : string) (decimals : nat) : bool :=
  match trim input with
  | EmptyString => true
  | clean =>
      if negb (number_format clean) then false
      else match after_dot clean with
           | Some fraction => (String.length fraction <=? decimals)%nat
           | None => true
           end
  end.

Definition validateAmountInput (input : string) (decimals : nat) : option string :=
  match trim input with
  | EmptyString => Some "Amount is required"%string
  | clean =>
      if negb (number_format clean) then Some "Please enter a valid number"%string
      else if negb (hasValidPrecision clean decimals) then
        Some ("Amount cannot have more than " +:+ BigInt_toString (Z.of_nat decimals) +:+ " decimal places")
      else if not_positive (parseFloat clean) then Some "Amount must be greater than 0"%string
      else None
  end.

(** ** Compact display *)

(** [x.toFixed(1)] for [0 <= x < 10^21]: the nearest tenth, the larger one of two. *)
Definition toFixed1 (x : double) : string :=
  match x with
  | DFin t =>
      let tenths := (2 * t * 10 + TICK) / (2 * TICK) in
      BigInt_toString (tenths / 10) +:+ "." +:+ BigInt_toString (tenths mod 10)
  | DNaN => "NaN"
  | DInf s => if s then "-Infinity" else "Infinity"
  end.

Definition formatCompactAmount (amount : Z) (decimals : nat) : string :=
  let displayAmount := formatAmount amount decimals in
  let num := parseFloat displayAmount in
  if bool_decide (num = dint 0) then "0"
  else if dltb num (dint 1000) then displayAmount
  else if dltb num (dint 1000000) then toFixed1 (ddiv_pos num 1000) +:+ "K"
  else if dltb num (dint 1000000000) then toFixed1 (ddiv_pos num 1000000) +:+ "M"
  else toFixed1 (ddiv_pos num 1000000000) +:+ "B".

(** * Amounts as people read them: properties

    Formatting and parsing are inverse on non-negative amounts, an input that
    validates is read exactly, and truncating text is rounding the amount down. *)

Local Open Scope Z_scope.

(** ** The value of a string of digits *)

Fixpoint digits_value (s : string) : Z :=
  match s with
  | EmptyString => 0
  | String c s' => digit_val c * 10 ^ Z.of_nat (String.length s') + digits_value s'
  end.

Lemma pow10_succ n : 10 ^ Z.of_nat (S n) = 10 * 10 ^ Z.of_nat n.
Proof. rewrite Nat2Z.inj_succ, Z.pow_succ_r; lia. Qed.
Lemma pow10_add n m : 10 ^ Z.of_nat (n + m) = 10 ^ Z.of_nat n * 10 ^ Z.of_nat m.
Proof. rewrite Nat2Z.inj_add, Z.pow_add_r; lia. Qed.
Lemma pow10_pos n : 0 < 10 ^ Z.of_nat n.
Proof. apply Z.pow_pos_nonneg; lia. Qed.

Lemma parse_digits_value v s :
  all_digits s = true -> parse_digits v s = Some (v * 10 ^ Z.of_nat (String.length s) + digits_value s).
Proof.
  revert v. induction s as [|c s IH]; intros v; simpl; [intros _; f_equal; lia|].
  intros [-> Hs]%andb_prop. rewrite IH by done. f_equal.
  change (Z.pos (Pos.of_succ_nat (String.length s))) with (Z.of_nat (S (String.length s))).
  rewrite pow10_succ. ring.
Qed.

Lemma all_digits_app a b : all_digits (a +:+ b) = all_digits a && all_digits b.
Proof.
  induction a as [|c a IH]; [done|]. change (all_digits (String c a +:+ b)) with (is_digit c && all_digits (a +:+ b)).
  rewrite IH. simpl. by rewrite andb_assoc.
Qed.

Lemma digits_value_app a b :
  digits_value (a +:+ b) = digits_value a * 10 ^ Z.of_nat (String.length b) + digits_value b.
Proof.
  induction a as [|c a IH]; [change ("" +:+ b) with b; cbn [digits_value]; lia|].
  change (digits_value (String c a +:+ b)) with
    (digit_val c * 10 ^ Z.of_nat (String.length (a +:+ b)) + digits_value (a +:+ b)).
  rewrite IH, length_app_string, pow10_add. simpl. ring.
Qed.

Lemma zeros_digits n : all_digits (replicate_char n zero_char) = true.
Proof. induction n; done. Qed.
Lemma zeros_length n : String.length (replicate_char n zero_char) = n.
Proof. induction n as [|n IH]; simpl; [done|by rewrite IH]. Qed.
Lemma zeros_value n : digits_value (replicate_char n zero_char) = 0.
Proof. induction n as [|n IH]; simpl; [done|]. rewrite IH. by change (digit_val zero_char) with 0. Qed.

Lemma digits_value_bounds s : all_digits s = true -> 0 <= digits_value s < 10 ^ Z.of_nat (String.length s).
Proof.
  induction s as [|c s IH]; [simpl; lia|]. simpl. intros [Hc Hs]%andb_prop. specialize (IH Hs).
  change (Z.pos (Pos.of_succ_nat (String.length s))) with (Z.of_nat (S (String.length s))).
  rewrite pow10_succ. unfold is_digit, digit_val in *. nia.
Qed.

Lemma BigInt_digits s : all_digits s = true -> BigInt_of_string s = Returns (digits_value s).
Proof.
  intros H. destruct s as [|c s]; [done|]. unfold BigInt_of_string.
  rewrite string_to_bigint_digits by done. rewrite parse_digits_value by done. done.
Qed.

Lemma nat_digits_all n : 0 <= n -> all_digits (nat_digits n) = true.
Proof. intros Hn. pose proof (nat_digits_only n Hn). by destruct (nat_digits n). Qed.
Lemma nat_digits_value n : 0 <= n -> digits_value (nat_digits n) = n.
Proof.
  intros Hn. pose proof (parse_nat_digits n Hn) as H.
  rewrite parse_digits_value in H by by apply nat_digits_all. injection H as H. lia.
Qed.

Lemma digits_acc_length fuel n d acc :
  0 <= n < 10 ^ Z.of_nat (S d) -> (String.length (digits_acc fuel n acc) <= S d + String.length acc)%nat.
Proof.
  revert n d acc. induction fuel as [|fuel IH]; intros n d acc Hn; simpl; [lia|].
  case (Z.ltb_spec n 10); intros Hlt; [simpl; lia|].
  destruct d as [|d]; [simpl in Hn; lia|]. rewrite pow10_succ in Hn.
  etrans; [apply (IH _ d)|simpl; lia].
  split; [apply Z.div_pos; lia|apply Z.div_lt_upper_bound; lia].
Qed.
Lemma nat_digits_length n d : 0 <= n < 10 ^ Z.of_nat (S d) -> (String.length (nat_digits n) <= S d)%nat.
Proof. intros Hn. unfold nat_digits. etrans; [by apply (digits_acc_length _ _ d)|simpl; lia]. Qed.

Lemma toString_nonneg n : 0 <= n -> BigInt_toString n = nat_digits n.
Proof. intros Hn. unfold BigInt_toString. by case (Z.ltb_spec n 0); [lia|]. Qed.

(** ** Padding and stripping *)

(** The fraction of an amount: [d] digits. *)
Definition fraction_text (f : Z) (d : nat) : string := padStart (BigInt_toString f) d.

Lemma fraction_text_spec f d :
  0 <= f < 10 ^ Z.of_nat (S d) ->
  let s := fraction_text f (S d) in
  all_digits s = true /\ String.length s = S d /\ digits_value s = f.
Proof.
  intros Hf s. unfold s, fraction_text, padStart. rewrite toString_nonneg by lia.
  pose proof (nat_digits_length f d Hf). rewrite all_digits_app, zeros_digits, length_app_string,
    zeros_length, digits_value_app, zeros_value, nat_digits_value by lia.
  rewrite nat_digits_all by lia. split_and!; [done|lia|lia].
Qed.

Lemma strip_zeros_spec s :
  exists k, s = strip_zeros s +:+ replicate_char k zero_char.
Proof.
  induction s as [|c s [k IH]]; [by exists 0%nat|]. simpl.
  destruct (strip_zeros s) as [|c' t] eqn:E.
  - case (Z.eqb_spec (code c) 48); intros Hc.
    + exists (S k). assert (c = zero_char) as ->.
      { rewrite <- (Ascii.ascii_nat_embedding c). unfold code in Hc.
        by replace (Ascii.nat_of_ascii c) with 48%nat by lia. }
      change (String zero_char s = String zero_char (EmptyString +:+ replicate_char k zero_char)).
      by rewrite <- IH.
    + exists k. change (String c s = String c (EmptyString +:+ replicate_char k zero_char)). by rewrite <- IH.
  - exists k. change (String c s = String c (String c' t +:+ replicate_char k zero_char)). by rewrite <- IH.
Qed.

Lemma strip_zeros_digits s : all_digits s = true -> all_digits (strip_zeros s) = true.
Proof.
  destruct (strip_zeros_spec s) as [k H]. intros Hs. rewrite H, all_digits_app in Hs.
  by apply andb_prop in Hs as [? _].
Qed.
Lemma strip_zeros_length s : (String.length (strip_zeros s) <= String.length s)%nat.
Proof. destruct (strip_zeros_spec s) as [k H]. rewrite H at 2. rewrite length_app_string. lia. Qed.

(** Padding on the right undoes the stripping. *)
Lemma padEnd_strip s : padEnd (strip_zeros s) (String.length s) = s.
Proof.
  destruct (strip_zeros_spec s) as [k H]. unfold padEnd. set (t := strip_zeros s) in *.
  assert (String.length s = String.length t + k)%nat as Hl.
  { by rewrite H, length_app_string, zeros_length. }
  rewrite Hl. replace (_ + k - _)%nat with k by lia. by symmetry.
Qed.

(** ** Reading text back *)

Lemma no_ws_trim s : all_digits s = true -> trim s = s.
Proof. apply trim_digits. Qed.

Fixpoint plain_text (s : string) : bool :=
  match s with EmptyString => true | String c s' => (is_digit c || (code c =? 46)) && plain_text s' end.

Lemma plain_trim s : plain_text s = true -> trim s = s.
Proof.
  assert (forall c, (is_digit c || (code c =? 46)) = true -> is_ws c = false) as Hc.
  { intros c. unfold is_digit, is_ws. lia. }
  assert (forall s, plain_text s = true -> trim_end s = s) as He.
  { clear s. induction s as [|c s IH]; [done|]. simpl. intros [H1 H2]%andb_prop.
    rewrite IH, (Hc c) by done. by destruct s. }
  intros H. unfold trim. replace (trim_start s) with s; [by apply He|].
  destruct s as [|c s]; [done|]. simpl in *. apply andb_prop in H as [H _]. by rewrite (Hc c).
Qed.

Lemma plain_digits s : all_digits s = true -> plain_text s = true.
Proof. induction s as [|c s IH]; [done|]. simpl. intros [-> H]%andb_prop. by apply IH. Qed.
Lemma plain_app a b : plain_text (a +:+ b) = plain_text a && plain_text b.
Proof.
  induction a as [|c a IH]; [done|].
  change (plain_text (String c a +:+ b)) with ((is_digit c || (code c =? 46)) && plain_text (a +:+ b)).
  rewrite IH. simpl. by rewrite andb_assoc.
Qed.

Lemma digit_not_dot c : is_digit c = true -> (code c =? 46) = false.
Proof. unfold is_digit. lia. Qed.
Lemma dot_split a b :
  all_digits a = true -> before_dot (a +:+ "." +:+ b) = a /\ after_dot (a +:+ "." +:+ b) = Some b.
Proof.
  induction a as [|c a IH]; [done|]. simpl all_digits. intros [Hc Ha]%andb_prop.
  destruct (IH Ha) as [E1 E2].
  change (String c a +:+ ?x) with (String c (a +:+ x)). cbn [before_dot after_dot].
  rewrite digit_not_dot by done. by rewrite E1, E2.
Qed.
Lemma dot_absent a : all_digits a = true -> before_dot a = a /\ after_dot a = None.
Proof.
  induction a as [|c a IH]; [done|]. simpl. intros [Hc Ha]%andb_prop.
  rewrite digit_not_dot by done. by destruct (IH Ha) as [-> ->].
Qed.

(** What [parseAmount] makes of an integer part and a fraction that fits. *)
Lemma parse_parts text i f d :
  trim text = text -> text <> EmptyString -> before_dot text = i ->
  default ""%string (after_dot text) = f ->
  all_digits i = true -> all_digits f = true -> (String.length f <= d)%nat ->
  parseAmount text d = Returns (digits_value i * 10 ^ Z.of_nat d + digits_value (padEnd f d)).
Proof.
  intros Ht Hne Hi Hf Di Df Hd. unfold parseAmount. rewrite Ht.
  destruct text as [|c text]; [done|]. unfold number_format.
  assert (match after_dot (String c text) with Some t => all_digits t | None => true end = true) as ->.
  { destruct (after_dot _); simpl in Hf; by subst. }
  assert (match after_dot (String c text) with Some x => x | None => ""%string end = f) as -> by (by destruct (after_dot _)).
  rewrite Hi, Di. cbn [andb negb].
  assert (match i with EmptyString => "0"%string | String a b => String a b end =
          match i with EmptyString => "0"%string | _ => i end) as -> by (by destruct i).
  assert (BigInt_of_string match i with EmptyString => "0"%string | _ => i end = Returns (digits_value i)) as ->.
  { destruct i; [done|]. by apply BigInt_digits. }
  rewrite (proj2 (Nat.ltb_ge d (String.length f)) Hd).
  rewrite BigInt_digits; [done|]. unfold padEnd. by rewrite all_digits_app, Df, zeros_digits.
Qed.

(** ** Theorems *)

Lemma quot_rem_nonneg raw d :
  0 <= raw -> let f := 10 ^ Z.of_nat d in
  Z.quot raw f = raw / f /\ Z.rem raw f = raw mod f /\ 0 <= raw / f /\ 0 <= raw mod f < f.
Proof.
  intros Hr f. pose proof (pow10_pos d). fold f in H.
  rewrite Z.quot_div_nonneg, Z.rem_mod_nonneg by lia.
  pose proof (Z.mod_pos_bound raw f H). split_and!; try done; try lia. apply Z.div_pos; lia.
Qed.

(** The text of an integer part and a fraction of [S d] digits, read back. *)
Lemma parse_decimal i F d :
  0 <= i -> all_digits F = true -> String.length F = d ->
  parseAmount
    match strip_zeros F with
    | EmptyString => BigInt_toString i
    | String _ _ as t => BigInt_toString i +:+ "." +:+ t
    end d = Returns (i * 10 ^ Z.of_nat d + digits_value F).
Proof.
  intros Hi HF Hd. pose proof (nat_digits_all i Hi) as Hdig.
  rewrite toString_nonneg by done.
  assert (nat_digits i <> EmptyString) as Hne by (pose proof (nat_digits_only i Hi); by destruct (nat_digits i)).
  pose proof (padEnd_strip F) as Hpad. rewrite Hd in Hpad.
  assert (digits_value (padEnd (strip_zeros F) d) = digits_value F) as Hval by (by rewrite Hpad).
  pose proof (strip_zeros_length F) as Hlen. pose proof (strip_zeros_digits F HF) as Hsd.
  rewrite <- Hval. transitivity (Returns (digits_value (nat_digits i) * 10 ^ Z.of_nat d +
    digits_value (padEnd (strip_zeros F) d))); [|by rewrite nat_digits_value].
  destruct (strip_zeros F) as [|c t] eqn:E.
  - destruct (dot_absent _ Hdig) as [Hb Ha].
    apply parse_parts; try done; [by apply trim_digits|by rewrite Ha|lia].
  - destruct (dot_split (nat_digits i) (String c t) Hdig) as [Hb Ha].
    apply parse_parts; try done; [| |by rewrite Ha|lia].
    + apply plain_trim. by rewrite !plain_app, (plain_digits _ Hdig), (plain_digits _ Hsd).
    + by destruct (nat_digits i).
Qed.

(** C18. What is shown is what is meant: for every non-negative amount and every
    number of decimals, parsing the formatted amount gives the amount back. *)
Theorem amount_roundtrip (raw : Z) (decimals : nat) :
  0 <= raw -> parseAmount (formatAmount raw decimals) decimals = Returns raw.
Proof.
  intros Hr. unfold formatAmount. case (Z.eqb_spec raw 0); intros H0.
  { subst. rewrite (parse_parts _ "0" ""); [|done..|simpl; lia].
    unfold padEnd. change ("" +:+ ?x) with x. rewrite zeros_value. f_equal; lia. }
  destruct decimals as [|d].
  { simpl. rewrite toString_nonneg by done. destruct (dot_absent _ (nat_digits_all raw Hr)) as [Hb Ha].
    rewrite (parse_parts _ (nat_digits raw) "");
      [|by apply trim_digits, nat_digits_all| |done|by rewrite Ha|by apply nat_digits_all|done|done].
    - rewrite nat_digits_value by done. simpl. f_equal. lia.
    - pose proof (nat_digits_only raw Hr). by destruct (nat_digits raw). }
  destruct (quot_rem_nonneg raw (S d) Hr) as (-> & -> & Hi & Hf).
  destruct (fraction_text_spec _ _ Hf) as (HF & HL & HV).
  cbn [Nat.eqb]. change (padStart (BigInt_toString ?f) (S d)) with (fraction_text f (S d)).
  pose proof (parse_decimal (raw / 10 ^ Z.of_nat (S d)) _ (S d) Hi HF HL) as Hp. rewrite HV in Hp.
  pose proof (Z.div_mod raw (10 ^ Z.of_nat (S d))) as Hdm. pose proof (pow10_pos (S d)).
  etrans; [|etrans; [exact Hp|f_equal; lia]]. by destruct (strip_zeros _).
Qed.

(** ** Amounts as doubles *)

Lemma digits_Z_value s : all_digits s = true -> digits_Z s = digits_value s.
Proof. intros H. unfold digits_Z. by rewrite parse_digits_value. Qed.

(** A text of digits ends where something else begins. *)
Definition digit_free (s : string) : bool := match s with String c _ => negb (is_digit c) | _ => true end.

Lemma digit_prefix_app a b : all_digits a = true -> digit_free b = true -> digit_prefix (a +:+ b) = a.
Proof.
  intros Ha Hb. induction a as [|c a IH].
  - change ("" +:+ b) with b. destruct b as [|x b]; [done|]. simpl in *. by destruct (is_digit x).
  - simpl in Ha. apply andb_prop in Ha as [Hc Ha]. change (String c a +:+ b) with (String c (a +:+ b)).
    simpl. by rewrite Hc, IH.
Qed.

Lemma drop_digits_app a b : all_digits a = true -> digit_free b = true -> drop_digits (a +:+ b) = b.
Proof.
  intros Ha Hb. induction a as [|c a IH].
  - change ("" +:+ b) with b. destruct b as [|x b]; [done|]. simpl in *. by destruct (is_digit x).
  - simpl in Ha. apply andb_prop in Ha as [Hc Ha]. change (String c a +:+ b) with (String c (a +:+ b)).
    simpl. by rewrite Hc, IH.
Qed.

Lemma app_nil_string a : a +:+ "" = a.
Proof. induction a as [|c a IH]; [done|]. change (String c a +:+ "") with (String c (a +:+ "")). by rewrite IH. Qed.

(** Reading digits, with or without a point, up to something that cannot go on. *)
Lemma unsigned_float_plain i f rest :
  all_digits i = true -> all_digits f = true -> i +:+ f <> EmptyString ->
  digit_free rest = true -> exponent_part rest = 0 -> startsWith "." rest = false ->
  startsWith "Infinity" (i +:+ rest) = false ->
  unsigned_float (i +:+ "." +:+ f +:+ rest) = of_rational (digits_value (i +:+ f)) (10 ^ Z.of_nat (String.length f)) /\
  (f = EmptyString -> unsigned_float (i +:+ rest) = of_rational (digits_value i) 1).
Proof.
  intros Hi Hf Hne Hr He Hdot Hinf.
  assert (all_digits (i +:+ f) = true) as Hif by (by rewrite all_digits_app, Hi, Hf).
  assert (startsWith "Infinity" (i +:+ "." +:+ f +:+ rest) = false) as Hinf'.
  { destruct i as [|c i]; [done|]. simpl in Hi. apply andb_prop in Hi as [Hc _].
    change (String c i +:+ ?x) with (String c (i +:+ x)). simpl.
    case_bool_decide as E; [by subst c|done]. }
  unfold unsigned_float, decimal_literal. rewrite Hinf, Hinf'. split.
  - rewrite digit_prefix_app, drop_digits_app by done.
    change ("." +:+ (f +:+ rest)) with (String "."%char (f +:+ rest)). cbn [fraction_digits].
    rewrite digit_prefix_app, drop_digits_app by done. cbn [fst snd].
    destruct (i +:+ f) eqn:E; [done|]. rewrite <- E, He, digits_Z_value by (by rewrite E).
    unfold decimal_double. destruct (String.length f) as [|n]; [simpl; by rewrite Z.mul_1_r|].
    rewrite (proj2 (Z.leb_gt 0 (0 - Z.of_nat (S n)))) by lia. done.
  - intros ->. rewrite app_nil_string in Hne. rewrite digit_prefix_app, drop_digits_app by done.
    assert (fraction_digits rest = (EmptyString, rest)) as ->.
    { destruct rest as [|x rest]; [done|]. simpl in Hdot. by destruct x as [[] [] [] [] [] [] [] []]. }
    rewrite app_nil_string. destruct i as [|c i]; [done|]. rewrite He, digits_Z_value by done.
    unfold decimal_double. simpl. by rewrite Z.mul_1_r.
Qed.

(** A text is its parts around the first dot. *)
Lemma dot_parts s :
  match after_dot s with Some t => s = before_dot s +:+ "." +:+ t | None => s = before_dot s end.
Proof.
  induction s as [|c s IH]; [done|]. simpl. case (Z.eqb_spec (code c) 46); intros Hc.
  - simpl. change (String c s = String "."%char s). f_equal. unfold code in Hc.
    rewrite <- (Ascii.ascii_nat_embedding c). by replace (Ascii.nat_of_ascii c) with 46%nat by lia.
  - destruct (after_dot s); [|by f_equal]. change (String c s = String c (before_dot s +:+ "." +:+ s0)).
    by f_equal.
Qed.

(** The parts of a text that has the format of a number. *)
#[local] Abbreviation whole s := (before_dot s).
#[local] Abbreviation fraction s := (default ""%string (after_dot s)).

Lemma format_parts s :
  number_format s = true ->
  all_digits (whole s) = true /\ all_digits (fraction s) = true /\ plain_text s = true /\
  (s = whole s +:+ "." +:+ fraction s \/ s = whole s /\ fraction s = ""%string).
Proof.
  intros [Hi Hf]%andb_prop. pose proof (dot_parts s) as Hd.
  assert (all_digits (fraction s) = true) as Df by (by destruct (after_dot s)). split_and!; [done|done| |].
  - destruct (after_dot s) as [f|]; rewrite Hd; [|by apply plain_digits].
    by rewrite !plain_app, (plain_digits _ Hi), (plain_digits _ Hf).
  - destruct (after_dot s); [by left|by right].
Qed.

Lemma parseFloat_plain s :
  number_format s = true -> whole s +:+ fraction s <> EmptyString ->
  parseFloat s = of_rational (digits_value (whole s +:+ fraction s)) (10 ^ Z.of_nat (String.length (fraction s))).
Proof.
  intros Hn Hne. destruct (format_parts s Hn) as (Hi & Hf & Hp & Hs).
  assert (startsWith "Infinity" (whole s +:+ "") = false) as Hinf.
  { rewrite app_nil_string. revert Hi. destruct (whole s) as [|c i]; [done|]. simpl. intros [Hc _]%andb_prop.
    case_bool_decide; [by subst c|done]. }
  destruct (unsigned_float_plain _ _ "" Hi Hf Hne eq_refl eq_refl eq_refl Hinf) as [E1 E2].
  assert (parseFloat s = unsigned_float s) as ->.
  { unfold parseFloat. assert (trim_start s = s) as ->.
    { destruct s as [|c s]; [done|]. simpl in Hp |- *. apply andb_prop in Hp as [Hc _].
      assert (is_ws c = false) as -> by (unfold is_digit, is_ws in *; lia). done. }
    unfold signed_float. destruct s as [|c s]; [done|]. simpl in Hp. apply andb_prop in Hp as [Hc _].
    destruct c as [[] [] [] [] [] [] [] []]; done. }
  rewrite !app_nil_string in *.
  set (i := whole s) in *. set (f := fraction s) in *. clearbody i f.
  destruct Hs as [->|[-> ->]]; [exact E1|]. by rewrite E2, app_nil_string.
Qed.

Lemma parseFloat_zero s :
  number_format s = true -> digits_value (whole s +:+ fraction s) = 0 -> not_positive (parseFloat s) = true.
Proof.
  intros Hn Hz. destruct (String.eqb_spec (whole s +:+ fraction s) "") as [E|E].
  - destruct (format_parts s Hn) as (_ & _ & _ & Hs). set (i := whole s) in *. set (f := fraction s) in *.
    clearbody i f. destruct i, f; try done. by destruct Hs as [->|[-> _]]; vm_compute.
  - rewrite parseFloat_plain, Hz by done. pose proof (pow10_pos (String.length (fraction s))) as Hq.
    unfold of_rational. rewrite Z.mul_0_l. unfold of_ticks. change (Z.abs 0) with (0 * 10 ^ Z.of_nat (String.length (fraction s))).
    rewrite round_exact by (done || exists 0, 0; lia). by vm_compute.
Qed.

Lemma positive_digits s :
  number_format s = true -> not_positive (parseFloat s) = false -> 0 < digits_value (whole s +:+ fraction s).
Proof.
  intros Hn Hp. destruct (format_parts s Hn) as (Hi & Hf & _).
  pose proof (digits_value_bounds (whole s +:+ fraction s)) as Hb. rewrite all_digits_app, Hi, Hf in Hb.
  destruct (Z.eq_dec (digits_value (whole s +:+ fraction s)) 0) as [E|]; [|lia].
  by rewrite (parseFloat_zero s Hn E) in Hp.
Qed.

(** What validation establishes: the text is a number of at most [decimals]
    digits after the point, it is positive, and [parseAmount] reads it. *)
Lemma validated_reads input decimals :
  validateAmountInput input decimals = None ->
  let s := trim input in
  number_format s = true /\ (String.length (fraction s) <= decimals)%nat /\
  not_positive (parseFloat s) = false /\
  parseAmount input decimals = Returns (digits_value (whole s +:+ fraction s) *
    10 ^ Z.of_nat (decimals - String.length (fraction s))).
Proof.
  intros H s. unfold validateAmountInput in H. fold s in H.
  assert (s <> EmptyString) as Hne by (by destruct s).
  assert (negb (number_format s) = false /\ negb (hasValidPrecision s decimals) = false /\
          not_positive (parseFloat s) = false) as (Hn%negb_false_iff & Hv%negb_false_iff & Hpos).
  { destruct s; [done|]. by repeat case_match. }
  destruct (format_parts s Hn) as (Hi & Hf & Hp & _).
  assert (String.length (fraction s) <= decimals)%nat as Hlen.
  { revert Hv Hne. unfold hasValidPrecision. rewrite (plain_trim s Hp). destruct s; [done|]. rewrite Hn.
    intros Hv _. destruct (after_dot _); [by apply Nat.leb_le|simpl; lia]. }
  split_and!; try done.
  assert (parseAmount input decimals = parseAmount s decimals) as ->
    by (unfold parseAmount; by rewrite (plain_trim s Hp)).
  rewrite (parse_parts s (whole s) (fraction s)) by (done || by apply plain_trim).
  unfold padEnd. rewrite !digits_value_app, zeros_length, zeros_value.
  assert (10 ^ Z.of_nat decimals = 10 ^ Z.of_nat (decimals - String.length (fraction s)) *
            10 ^ Z.of_nat (String.length (fraction s))) as ->.
  { rewrite <- pow10_add. do 2 f_equal. lia. }
  f_equal. ring.
Qed.

(** An amount the form accepts is read exactly: it is positive, and it is the
    decimal number written — no digit of the fraction was cut. *)
Theorem validated_amount_exact (input : string) (decimals : nat) :
  validateAmountInput input decimals = None ->
  exists raw, parseAmount input decimals = Returns raw /\ 0 < raw /\
    let i := before_dot (trim input) in
    let f := default ""%string (after_dot (trim input)) in
    raw * 10 ^ Z.of_nat (String.length f) = digits_value (i +:+ f) * 10 ^ Z.of_nat decimals.
Proof.
  intros (Hn & Hlen & Hpos & Hread)%validated_reads. eexists. split; [exact Hread|].
  pose proof (positive_digits _ Hn Hpos). pose proof (pow10_pos (decimals - String.length (fraction (trim input)))).
  split; [nia|]. cbv zeta. rewrite <- Z.mul_assoc, <- pow10_add. do 3 f_equal. lia.
Qed.

(** The frontend's other conversion, through a double ([toBaseUnits] and the
    payroll parser), reads such an amount as [parseAmount] does. *)
Lemma validated_scaled (input : string) (decimals : nat) raw :
  validateAmountInput input decimals = None -> (decimals <= 15)%nat ->
  parseAmount input decimals = Returns raw -> raw < 2 ^ 51 ->
  BigInt_double (Math_round (dmul (parseFloat (trim input)) (dint (10 ^ Z.of_nat decimals)))) = Returns raw.
Proof.
  intros (Hn & Hlen & Hpos & Hread)%validated_reads Hd Hraw Hb. rewrite Hread in Hraw. injection Hraw as <-.
  pose proof (positive_digits _ Hn Hpos) as Hv.
  assert (forall n, (n <= 15)%nat -> 0 < 10 ^ Z.of_nat n <= 2 ^ 53) as Hpow.
  { intros n Hn'. split; [apply pow10_pos|]. transitivity (10 ^ 15); [apply Z.pow_le_mono_r|]; lia. }
  rewrite parseFloat_plain; [|done|intros E; by rewrite E in Hv].
  pose proof (Hpow (String.length (fraction (trim input))) ltac:(lia)). pose proof (Hpow decimals Hd).
  apply scaled_exact; try done; try lia. rewrite <- Z.mul_assoc, <- pow10_add. do 3 f_equal. lia.
Qed.

Fixpoint drop_string (n : nat) (s : string) : string :=
  match n, s with S n', String _ s' => drop_string n' s' | _, _ => s end.

Lemma slice_drop n s : s = slice n s +:+ drop_string n s.
Proof.
  revert s. induction n as [|n IH]; intros s; [done|]. destruct s as [|c s]; [done|].
  change (String c s = String c (slice n s +:+ drop_string n s)). by rewrite <- IH.
Qed.
Lemma slice_length n s : (n <= String.length s)%nat -> String.length (slice n s) = n.
Proof.
  revert s. induction n as [|n IH]; intros s H; [done|]. destruct s as [|c s]; simpl in *; [lia|].
  by rewrite IH by lia.
Qed.

(** A string of digits is settled by its length and its value. *)
Lemma digits_eq a b :
  all_digits a = true -> all_digits b = true -> String.length a = String.length b ->
  digits_value a = digits_value b -> a = b.
Proof.
  revert b. induction a as [|c a IH]; intros [|c' b] Ha Hb Hl Hv; try done. simpl in *.
  apply andb_prop in Ha as [Hc Ha]. apply andb_prop in Hb as [Hc' Hb]. injection Hl as Hl.
  pose proof (digits_value_bounds a Ha). pose proof (digits_value_bounds b Hb). rewrite Hl in *.
  unfold is_digit, digit_val in *.
  assert (code c = code c') as Hcc by nia. f_equal; [|apply IH; try done; nia].
  unfold code in Hcc. rewrite <- (Ascii.ascii_nat_embedding c), <- (Ascii.ascii_nat_embedding c').
  f_equal. lia.
Qed.

Lemma strip_zeros_app s k : strip_zeros (s +:+ replicate_char k zero_char) = strip_zeros s.
Proof.
  induction s as [|c s IH].
  - change ("" +:+ ?x) with x. induction k as [|k IH]; [done|]. simpl. by rewrite IH.
  - change (String c s +:+ ?x) with (String c (s +:+ x)). cbn [strip_zeros]. by rewrite IH.
Qed.

Lemma fraction_zero d : fraction_text 0 (S d) = replicate_char (S d) zero_char.
Proof.
  destruct (fraction_text_spec 0 d) as (H1 & H2 & H3); [pose proof (pow10_pos (S d)); lia|].
  apply digits_eq; [done|apply zeros_digits|by rewrite zeros_length|by rewrite zeros_value].
Qed.

(** Cutting the fraction of an amount to [m] digits, padded again. *)
Lemma slice_fraction f d m :
  0 <= f < 10 ^ Z.of_nat (S d) -> (m <= S d)%nat ->
  let g := 10 ^ Z.of_nat (S d - m) in
  slice m (fraction_text f (S d)) +:+ replicate_char (S d - m) zero_char = fraction_text (f - f mod g) (S d).
Proof.
  intros Hf Hm g. destruct (fraction_text_spec f d Hf) as (HF & HL & HV).
  pose proof (pow10_pos (S d - m)) as Hg. fold g in Hg. pose proof (Z.mod_pos_bound f g Hg) as Hmod.
  pose proof (Z.div_mod f g ltac:(lia)) as Hdm.
  assert (0 <= f - f mod g) as Hf1 by (pose proof (Z.div_pos f g); nia).
  destruct (fraction_text_spec (f - f mod g) d ltac:(lia)) as (HF' & HL' & HV').
  set (F := fraction_text f (S d)) in *. pose proof (slice_drop m F) as Hsd.
  assert (all_digits (slice m F) = true /\ all_digits (drop_string m F) = true) as [D1 D2].
  { rewrite Hsd, all_digits_app in HF. by apply andb_prop in HF. }
  assert (String.length (drop_string m F) = S d - m)%nat as L2.
  { pose proof (f_equal String.length Hsd) as E. rewrite length_app_string, slice_length in E by lia. lia. }
  pose proof (digits_value_bounds _ D2) as B2. rewrite L2 in B2. fold g in B2.
  apply digits_eq; try done.
  - by rewrite all_digits_app, D1, zeros_digits.
  - rewrite length_app_string, slice_length, zeros_length by lia. lia.
  - rewrite HV', digits_value_app, zeros_length, zeros_value. fold g.
    rewrite Hsd, digits_value_app, L2 in HV. fold g in HV.
    rewrite <- (Z.mod_unique_pos f g (digits_value (slice m F)) (digits_value (drop_string m F))); lia.
Qed.

(** Cutting text is rounding down: showing an amount with at most [m] decimals
    shows the largest amount not above it that has no more than those. *)
Theorem truncate_rounds_down (amount : Z) (decimals m : nat) :
  0 <= amount -> (m <= decimals)%nat -> (0 < decimals)%nat ->
  truncateAmount amount decimals m =
  formatAmount (amount - amount mod 10 ^ Z.of_nat (decimals - m)) decimals.
Proof.
  intros Ha Hm Hd. destruct decimals as [|d]; [lia|]. unfold truncateAmount.
  set (g := 10 ^ Z.of_nat (S d - m)). set (a' := amount - amount mod g).
  case (Z.eqb_spec amount 0); intros H0; [by unfold a'; rewrite H0|].
  pose proof (pow10_pos (S d - m)) as Hg. fold g in Hg. pose proof (pow10_pos m) as Hpm.
  assert (10 ^ Z.of_nat (S d) = g * 10 ^ Z.of_nat m) as Hfg.
  { unfold g. rewrite <- pow10_add. do 2 f_equal. lia. }
  destruct (quot_rem_nonneg amount (S d) Ha) as (-> & -> & Hi & Hf).
  set (f := amount mod 10 ^ Z.of_nat (S d)) in *.
  assert (amount mod g = f mod g) as Hmod.
  { unfold f. rewrite Hfg, Z.mul_comm. symmetry. apply Z.mod_mod_divide. by exists (10 ^ Z.of_nat m). }
  pose proof (Z.mod_pos_bound f g Hg) as Hfm. pose proof (Z.div_mod amount (10 ^ Z.of_nat (S d)) ltac:(lia)) as Hdm.
  fold f in Hdm. assert (f mod g <= f) as Hle by (apply Z.mod_le; lia).
  assert (0 <= a') as Ha' by (unfold a'; lia).
  destruct (quot_rem_nonneg a' (S d) Ha') as (Eq & Er & _).
  assert (a' / 10 ^ Z.of_nat (S d) = amount / 10 ^ Z.of_nat (S d)) as Hq.
  { symmetry. apply (Z.div_unique_pos _ _ _ (f - f mod g)); unfold a'; lia. }
  assert (a' mod 10 ^ Z.of_nat (S d) = f - f mod g) as Hr.
  { symmetry. apply (Z.mod_unique_pos _ _ (amount / 10 ^ Z.of_nat (S d))); unfold a'; lia. }
  unfold formatAmount. cbn [Nat.eqb]. rewrite Eq, Er, Hq, Hr.
  change (padStart (BigInt_toString ?x) (S d)) with (fraction_text x (S d)).
  pose proof (slice_fraction f d m Hf Hm) as Hsl. cbv zeta in Hsl. fold g in Hsl.
  rewrite <- Hsl, strip_zeros_app.
  assert (a' = 0 -> amount / 10 ^ Z.of_nat (S d) = 0 /\ f - f mod g = 0) as Hzero by (unfold a'; nia).
  assert (f - f mod g = 0 -> strip_zeros (slice m (fraction_text f (S d))) = EmptyString) as Hstrip.
  { intros E. rewrite <- (strip_zeros_app _ (S d - m)), Hsl, E.
    rewrite fraction_zero. apply (strip_zeros_app EmptyString (S d)). }
  case (Z.eqb_spec a' 0); intros Ea.
  - destruct (Hzero Ea) as [-> E]. rewrite (Hstrip E). by case_match.
  - case (Z.eqb_spec f 0); intros Ef; [|done]. rewrite Hstrip; [done|]. rewrite Ef. done.
Qed.

(** Progress is a percentage: whenever neither amount is negative the bar shows
    an integer from 0 to 100, and 100 as soon as the deposit is withdrawn. *)
Theorem progress_percent (withdrawn deposited : Z) :
  0 <= withdrawn -> 0 <= deposited ->
  exists p, streamProgressPercent withdrawn deposited = Fin p /\ 0 <= p <= 100 /\
    (0 < withdrawn -> deposited <= withdrawn -> p = 100).
Proof.
  intros Hw Hd. unfold streamProgressPercent. case (Z.eqb_spec deposited 0); intros H0.
  { case (Z.ltb_spec 0 withdrawn); intros; eexists; split; try done; lia. }
  rewrite Z.quot_div_nonneg by lia. set (q := withdrawn * 100 / deposited).
  assert (0 <= q) as Hq by (apply Z.div_pos; lia).
  assert (deposited <= withdrawn -> 100 <= q) as H100 by (intros; apply Z.div_le_lower_bound; lia).
  unfold Number_of_bigint. replace (q <? 0) with false by lia. rewrite Z.abs_eq by done.
  assert (0 <= round53 q /\ (100 <= q -> 100 <= round53 q)) as [Hr1 Hr2].
  { destruct (Z.le_gt_cases q (2 ^ 53)) as [Hs|Hl]; [rewrite round53_small by done; lia|].
    pose proof (round53_large q ltac:(lia)). lia. }
  case_match; simpl; eexists; (split; [done|]); lia.
Qed.

(** ** Examples *)

Lemma amount_roundtrip_witness : parseAmount (formatAmount 105000000 7) 7 = Returns 105000000.
Proof. apply (amount_roundtrip 105000000 7). lia. Defined.

Lemma validated_amount_exact_witness :
  exists raw, parseAmount " 10.5 " 7 = Returns raw /\ 0 < raw /\
    let i := before_dot (trim " 10.5 ") in
    let f := default ""%string (after_dot (trim " 10.5 ")) in
    raw * 10 ^ Z.of_nat (String.length f) = digits_value (i +:+ f) * 10 ^ Z.of_nat 7.
Proof. apply (validated_amount_exact " 10.5 " 7). vm_refl. Defined.

Lemma truncate_rounds_down_witness :
  truncateAmount 123456789 7 2 = formatAmount (123456789 - 123456789 mod 10 ^ Z.of_nat (7 - 2)) 7.
Proof. apply (truncate_rounds_down 123456789 7 2); lia. Defined.

Lemma progress_percent_witness :
  exists p, streamProgressPercent 250 1000 = Fin p /\ 0 <= p <= 100 /\ (0 < 250 -> 1000 <= 250 -> p = 100).
Proof. apply (progress_percent 250 1000); lia. Defined.

(** The sign of a negative amount ends up in its fraction, and the text is no number. *)
Example negative_amount_text :
  formatAmount (-5) 7 = "0.00000-5"%string /\ parseAmount "0.00000-5" 7 = Returns 0.
Proof. split; vm_refl. Qed.
