(* ===== verification/Dates.v ===== *)
(** * Dates as texts: [Date.prototype.toISOString] and [new Date(text)]

    A date is its number of milliseconds since 1970, as everywhere in the
    development.  Years are counted from March, in eras of 400 years of 146097
    days.  The texts [new Date] reads are those of the form YYYY-MM-DD and
    YYYY-MM-DDTHH:mm:ss[.sss]Z; what an engine makes of any other text is its
    own choice, and an argument. *)
From S2P Require Import Prelude JsLang StreamId Json Amount.
Local Open Scope Z_scope.

(** ** The calendar *)

Record Civil := { year : Z; month : Z; day : Z }.
#[export] Instance Civil_eq_dec : EqDecision Civil.
Proof. solve_decision. Defined.

Definition year_of_era (doe : Z) : Z := (doe - doe / 1460 + doe / 36524 - doe / 146096) / 365.
Definition days_before_year (yoe : Z) : Z := 365 * yoe + yoe / 4 - yoe / 100.
Definition days_before_month (mp : Z) : Z := (153 * mp + 2) / 5.

(** The date of a day, counted from the first of January 1970. *)
Definition civil_from_days (days : Z) : Civil :=
  let z := days + 719468 in
  let era := z / 146097 in
  let doe := z mod 146097 in
  let yoe := year_of_era doe in
  let doy := doe - days_before_year yoe in
  let mp := (5 * doy + 2) / 153 in
  let m := if mp <? 10 then mp + 3 else mp - 9 in
  {| year := yoe + era * 400 + (if m <=? 2 then 1 else 0); month := m;
     day := doy - days_before_month mp + 1 |}.

Definition days_from_civil (c : Civil) : Z :=
  let y := if month c <=? 2 then year c - 1 else year c in
  let mp := if month c <=? 2 then month c + 9 else month c - 3 in
  let yoe := y mod 400 in
  y / 400 * 146097 + days_before_year yoe + days_before_month mp + day c - 1 - 719468.

(** ** toISOString *)

Definition DAY_MS : Z := 86400000.
(** The largest time value *)
Definition MAX_TIME : Z := 8640000000000000.

Definition pad (n : nat) (z : Z) : string := padStart (BigInt_toString z) n.

Definition year_text (y : Z) : string :=
  if (0 <=? y) && (y <=? 9999) then pad 4 y
  else (if y <? 0 then "-" else "+") +:+ pad 6 (Z.abs y).

Definition date_text (c : Civil) : string := year_text (year c) +:+ "-" +:+ pad 2 (month c) +:+ "-" +:+ pad 2 (day c).
Definition time_text (ms : Z) : string :=
  pad 2 (ms / 3600000) +:+ ":" +:+ pad 2 (ms / 60000 mod 60) +:+ ":" +:+ pad 2 (ms / 1000 mod 60) +:+ "." +:+
  pad 3 (ms mod 1000).

Definition Date_toISOString (t : num) : outcome string :=
  match t with
  | Fin t =>
      if Z.abs t <=? MAX_TIME then
        Returns (date_text (civil_from_days (t / DAY_MS)) +:+ "T" +:+ time_text (t mod DAY_MS) +:+ "Z")
      else Throws RangeErr
  | _ => Throws RangeErr
  end.

(** ** new Date(text) *)

Fixpoint take_num (n : nat) (v : Z) (s : string) : option (Z * string) :=
  match n, s with
  | O, _ => Some (v, s)
  | S n', String c s' => if is_digit c then take_num n' (v * 10 + digit_val c) s' else None
  | _, _ => None
  end.

Definition take_char (x : Z) (s : string) : option string :=
  match s with String c s' => if code c =? x then Some s' else None | EmptyString => None end.

(** Milliseconds, if they are written, and the final Z. *)
Definition take_ms (s : string) : option Z :=
  match take_char 46 s with
  | Some s =>
      match take_num 3 0 s with
      | Some (ms, rest) => if bool_decide (rest = "Z"%string) then Some ms else None
      | None => None
      end
  | None => if bool_decide (s = "Z"%string) then Some 0 else None
  end.

Definition take_time (s : string) : option Z :=
  match s with
  | EmptyString => Some 0
  | _ =>
      '(h, s) ← take_char 84 s ≫= take_num 2 0;
      '(m, s) ← take_char 58 s ≫= take_num 2 0;
      '(sec, s) ← take_char 58 s ≫= take_num 2 0;
      ms ← take_ms s;
      if (h <? 24) && (m <? 60) && (sec <? 60) then Some (((h * 60 + m) * 60 + sec) * 1000 + ms) else None
  end.

(** The date of a text in one of the two forms; a day that is not in the
    calendar is not in them. *)
Definition iso_time (s : string) : option Z :=
  '(y, s) ← take_num 4 0 s;
  '(m, s) ← take_char 45 s ≫= take_num 2 0;
  '(d, s) ← take_char 45 s ≫= take_num 2 0;
  let c := {| year := y; month := m; day := d |} in
  let days := days_from_civil c in
  ms ← take_time s;
  if bool_decide (civil_from_days days = c) then Some (days * DAY_MS + ms) else None.

Definition Date_parse (engine : string -> num) (s : string) : num :=
  match iso_time s with Some t => Fin t | None => engine s end.

Example iso_now : Date_toISOString (Fin 1709210096007) = Returns "2024-02-29T12:34:56.007Z"%string.
Proof. vm_refl. Qed.
Example iso_before : Date_toISOString (Fin (-62198755200000)) = Returns "-000001-01-01T00:00:00.000Z"%string.
Proof. vm_refl. Qed.
Example iso_read : iso_time "2024-02-29T12:34:56Z" = Some 1709210096000 /\ iso_time "2024-02-30" = None.
Proof. split; vm_refl. Qed.

(** ** Facts *)

(** Linear arithmetic with division by constants. *)
Ltac divlia := Z.to_euclidean_division_equations; lia.

Lemma day_of_year doe :
  0 <= doe < 146097 -> 0 <= year_of_era doe < 400 /\ 0 <= doe - days_before_year (year_of_era doe) <= 366.
Proof.
  intros H. unfold year_of_era, days_before_year.
  assert (exists a b c, a = doe / 1460 /\ b = doe / 36524 /\ c = doe / 146096) as (a & b & c & Ea & Eb & Ec)
    by (by do 3 eexists).
  rewrite <- Ea, <- Eb, <- Ec. assert (0 <= b <= 4 /\ 0 <= c <= 1 /\ (c = 1 -> doe = 146096)) as (Hb & Hc & Hlast)
    by (split_and!; [divlia|divlia|divlia|divlia|intros; divlia]).
  remember ((doe - a + b - c) / 365) as y eqn:Ey. assert (365 * y <= doe - a + b - c < 365 * y + 365) as Hy by divlia. clear Ey.
  destruct (decide (c = 1)) as [->|Hne].
  - rewrite Hlast in * by done. clear Hlast. assert (y = 399) as -> by divlia. split; divlia.
  - assert (doe < 146096 /\ c = 0) as [Hlt ->] by (split; divlia). clear Hlast Hne Ec.
    assert (0 <= a <= 100 /\ b <= a /\ b <= 3) as (Ha & Hba & Hb3) by (split_and!; divlia).
    assert (y / 100 = b) as ->.
    { symmetry. apply (Z.div_unique _ 100 _ (y - 100 * b)); [|divlia]. left.
      assert (b = 0 \/ b = 1 \/ b = 2 \/ b = 3) as [-> | [-> | [-> | ->]]] by divlia; divlia. }
    split; divlia.
Qed.

Lemma days_before_month_spec doy :
  0 <= doy <= 366 -> let mp := (5 * doy + 2) / 153 in
  0 <= mp < 12 /\ 1 <= doy - days_before_month mp + 1 <= 31.
Proof. unfold days_before_month. cbv zeta. intros. split; divlia. Qed.

Lemma civil_bounds days :
  let c := civil_from_days days in 1 <= month c <= 12 /\ 1 <= day c <= 31.
Proof.
  unfold civil_from_days. cbn [month day]. set (doe := _ mod 146097).
  destruct (day_of_year doe) as [_ Hd]; [unfold doe; apply Z.mod_pos_bound; divlia|].
  set (doy := doe - _) in *. pose proof (days_before_month_spec doy Hd) as [Hm Hday]. cbv zeta in *.
  split; [|done]. case (Z.ltb_spec ((5 * doy + 2) / 153) 10); divlia.
Qed.

Lemma days_civil days : days_from_civil (civil_from_days days) = days.
Proof.
  unfold civil_from_days, days_from_civil. cbn [year month day]. set (z := days + 719468). set (doe := z mod 146097).
  destruct (day_of_year doe) as [Hy Hd]; [unfold doe; apply Z.mod_pos_bound; divlia|].
  set (yoe := year_of_era doe) in *. set (doy := doe - days_before_year yoe) in *.
  pose proof (days_before_month_spec doy Hd) as [Hm _]. cbv zeta in *. set (mp := (5 * doy + 2) / 153) in *.
  assert (doe = doy + days_before_year yoe) as Hdoe by (unfold doy; divlia).
  assert (z = z / 146097 * 146097 + doe) as Hz by (unfold doe; rewrite Z.mul_comm; apply Z.div_mod; divlia).
  assert (forall a, yoe + z / 146097 * 400 + a - a = yoe + z / 146097 * 400) as Ha by (intros; divlia).
  case (Z.ltb_spec mp 10); intros Hmp.
  - rewrite (proj2 (Z.leb_gt (mp + 3) 2)) by divlia. rewrite Z.add_0_r, Z.div_add, Z.mod_add by divlia.
    rewrite (Z.div_small yoe), (Z.mod_small yoe) by divlia. replace (mp + 3 - 3) with mp by divlia. unfold z in *. divlia.
  - rewrite (proj2 (Z.leb_le (mp - 9) 2)) by divlia. rewrite Ha, Z.div_add, Z.mod_add by divlia.
    rewrite (Z.div_small yoe), (Z.mod_small yoe) by divlia. replace (mp - 9 + 9) with mp by divlia. unfold z in *. divlia.
Qed.

Lemma take_num_pad n z rest :
  0 <= z < 10 ^ Z.of_nat (S n) -> take_num (S n) 0 (pad (S n) z +:+ rest) = Some (z, rest).
Proof.
  intros Hz. assert (forall a v, all_digits a = true ->
    take_num (String.length a) v (a +:+ rest) = (fun x => (x, rest)) <$> parse_digits v a) as Htake.
  { induction a as [|c a IH]; intros v; [done|]. simpl. intros [Hc Ha]%andb_true_iff. rewrite Hc. by apply IH. }
  pose proof (fraction_text_spec z n Hz) as Hspec. cbv zeta in Hspec.
  change (fraction_text z (S n)) with (pad (S n) z) in Hspec.
  destruct Hspec as (Hall & Hlen & Hval). specialize (Htake _ 0 Hall). rewrite Hlen in Htake. rewrite Htake.
  rewrite parse_digits_value by done. simpl. by rewrite Hval.
Qed.

Lemma take_ms_pad ms : 0 <= ms < 1000 -> take_ms ("." +:+ pad 3 ms +:+ "Z") = Some ms.
Proof.
  intros H. unfold take_ms. change (take_char 46 ("." +:+ ?s)) with (Some s). cbv iota beta.
  by rewrite (take_num_pad 2) by done.
Qed.

Lemma bind_Some {A B} (a : A) (f : A -> option B) : Some a ≫= f = f a.
Proof. done. Qed.

Lemma take_time_text ms :
  0 <= ms < DAY_MS -> take_time ("T" +:+ time_text ms +:+ "Z") = Some ms.
Proof.
  unfold DAY_MS. intros H. unfold take_time, time_text. rewrite !app_string_assoc.
  change ("T" +:+ ?s) with (String "T" s). cbv iota.
  change (take_char 84 (String "T" ?s)) with (Some s). rewrite bind_Some, (take_num_pad 1), bind_Some by (simpl; divlia).
  cbv beta iota. change (take_char 58 (":" +:+ ?s)) with (Some s).
  rewrite bind_Some, (take_num_pad 1), bind_Some by (simpl; divlia).
  cbv beta iota. change (take_char 58 (":" +:+ ?s)) with (Some s).
  rewrite bind_Some, (take_num_pad 1), bind_Some by (simpl; divlia).
  cbv beta iota. rewrite take_ms_pad, bind_Some by divlia.
  rewrite (proj2 (Z.ltb_lt (ms / 3600000) 24)), (proj2 (Z.ltb_lt (ms / 60000 mod 60) 60)),
    (proj2 (Z.ltb_lt (ms / 1000 mod 60) 60)) by divlia. cbv iota. f_equal. divlia.
Qed.

Lemma year_max t : 0 <= year (civil_from_days (t / DAY_MS)) <= 9999 -> Z.abs t <= MAX_TIME.
Proof.
  intros Hy. pose proof (days_civil (t / DAY_MS)) as Hdays. pose proof (civil_bounds (t / DAY_MS)) as [Hm Hd].
  destruct (civil_from_days _) as [y m d]. cbn [year month day] in *.
  unfold days_from_civil, days_before_year, days_before_month, DAY_MS, MAX_TIME in *. cbn [year month day] in Hdays.
  revert Hdays. case (m <=? 2); intros; divlia.
Qed.

(** A date between the years 0 and 9999 is read back as it was written. *)
Lemma iso_time_roundtrip t :
  0 <= year (civil_from_days (t / DAY_MS)) <= 9999 ->
  exists s, Date_toISOString (Fin t) = Returns s /\ iso_time s = Some t.
Proof.
  set (days := t / DAY_MS). intros Hy. pose proof (days_civil days) as Hdays. pose proof (civil_bounds days) as [Hm Hd].
  assert (Z.abs t <= MAX_TIME) as Hmax by (by apply year_max).
  unfold Date_toISOString. rewrite (proj2 (Z.leb_le _ _) Hmax). eexists. split; [done|].
  fold days. destruct (civil_from_days days) as [y m d] eqn:E. cbn [year month day] in *.
  unfold iso_time, date_text, year_text. cbn [year month day].
  rewrite (proj2 (Z.leb_le 0 y)), (proj2 (Z.leb_le y 9999)) by lia. cbn [andb]. rewrite !app_string_assoc.
  rewrite (take_num_pad 3), bind_Some by (simpl; lia). cbv beta iota. change (take_char 45 ("-" +:+ ?s)) with (Some s).
  rewrite bind_Some, (take_num_pad 1), bind_Some by (simpl; lia). cbv beta iota.
  change (take_char 45 ("-" +:+ ?s)) with (Some s). rewrite bind_Some, (take_num_pad 1), bind_Some by (simpl; lia).
  cbv beta iota. rewrite take_time_text, bind_Some by (unfold DAY_MS; divlia). rewrite Hdays, E.
  rewrite bool_decide_eq_true_2 by done. f_equal. unfold days, DAY_MS. divlia.
Qed.
