(* ===== verification/WalletCalls.v ===== *)
(** * Calls a wallet signs: frontend/src/lib/soroban.ts

    Amounts and durations are read as doubles; a call is simulated, signed by
    the browser wallet, sent, and its outcome awaited for up to twenty seconds.
    The RPC server and the wallet are arguments ([Node]); building arguments is
    the SDK's ([Soroban.SorobanSdk]).  Which network the server belongs to is
    the user's choice ([stellar-config.ts]) and is part of [Node]. *)
From S2P Require Import Texts Prelude JsLang Json Double Amount Xdr Soroban Simulate SorobanFacts StreamApiFacts.
Local Open Scope Z_scope.
Local Open Scope string_scope.

(** A [SorobanCallError]: an error with a code and no HTTP status. *)
Definition SorobanCallError (message code : string) : JsError := ApiErr 0 message code [].

(** ** Amounts and durations *)

Inductive DurationUnit := seconds | minutes | hours | days | weeks | months.

Definition SECONDS_PER_UNIT (u : DurationUnit) : Z :=
  match u with
  | seconds => 1
  | minutes => 60
  | hours => 3600
  | days => 86400
  | weeks => 604800
  | months => 2592000
  end.

Definition toDurationSeconds (value : string) (unit_ : DurationUnit) : outcome Z :=
  let parsed := parseFloat value in
  if not_positive parsed then
    Throws (SorobanCallError "Duration must be a positive number." "InvalidAmount")
  else let? n := BigInt_double (Math_round parsed) in Returns (n * SECONDS_PER_UNIT unit_).

Definition toBaseUnits (value : string) (decimals : nat) : outcome Z :=
  let parsed := parseFloat value in
  if not_positive parsed then
    Throws (SorobanCallError "Amount must be a positive number." "InvalidAmount")
  else BigInt_double (Math_round (dmul parsed (dint (10 ^ Z.of_nat decimals)))).

Definition fromBaseUnits (units : Z) (decimals : nat) : string :=
  let divisor := 10 ^ Z.of_nat decimals in
  let whole := Z.quot units divisor in
  let fraction := strip_zeros (padStart (BigInt_toString (Z.rem units divisor)) decimals) in
  match fraction with
  | EmptyString => BigInt_toString whole
  | _ => BigInt_toString whole +:+ "." +:+ fraction
  end.

(** ** Tokens *)

Record TokenAddresses := { USDC : string; XLM : string; EURC : string }.

Definition getTokenAddress (tokens : TokenAddresses) (symbol : string) : outcome string :=
  let address :=
    match toUpperCase symbol with
    | "USDC" => USDC tokens
    | "XLM" => XLM tokens
    | "EURC" => EURC tokens
    | _ => EmptyString
    end in
  match address with
  | EmptyString => Throws (SorobanCallError ("Unsupported token: " +:+ symbol) "Unknown")
  | _ => Returns address
  end.

(** ** The server and the wallet *)

(** The [error] of a simulation: a text, or an object with or without a message. *)
Inductive SimulationFault := FaultText (error : string) | FaultObject (message : option string).

Inductive NativeValue := NativeBigInt (z : Z) | NativeNumber (x : double) | NativeString (s : string) | NativeOther.

Inductive SimulationAnswer := SimFault (fault : SimulationFault) | SimValue (retval : option NativeValue).

Inductive TxStatus := TxSuccess | TxFailed | TxUnknown.

Record Node := {
  contract_id : string; (* of the chosen network *)
  valid_id : string -> bool; (* whether [new Contract] accepts it *)
  nd_getAccount : string -> outcome ();
  nd_balance : string -> ScVal -> outcome SimulationAnswer; (* token, owner *)
  nd_simulate : Invocation -> outcome SimulationAnswer;
  (* the wallet: the transaction it hands back, or its error *)
  nd_sign : Invocation -> outcome (Invocation + string);
  (* the hash of an accepted transaction, or the error of a refused one *)
  nd_send : Invocation -> outcome (string + string);
  nd_getTransaction : string -> nat -> outcome TxStatus
}.

(** [/reject|cancel|denied/i] *)
Definition is_rejection (msg : string) : bool :=
  contains "reject" msg || contains "cancel" msg || contains "denied" msg.

(** The rest of the line a text starts on. *)
Fixpoint first_line (s : string) : string :=
  match s with
  | EmptyString => EmptyString
  | String c s' => if ((JsLang.code c =? 10) || (JsLang.code c =? 13))%Z then EmptyString else String c (first_line s')
  end.
Fixpoint drop_chars (n : nat) (s : string) : string :=
  match n, s with S n', String _ s' => drop_chars n' s' | _, _ => s end.

(** [/contract.*(not exist|not found|does not exist)/] on upper-case text *)
Fixpoint contract_missing (s : string) : bool :=
  (startsWith "CONTRACT" s &&
   (let rest := first_line (drop_chars 8 s) in includes "NOT EXIST" rest || includes "NOT FOUND" rest)) ||
  match s with EmptyString => false | String _ s' => contract_missing s' end.

Definition CONTRACT_NOT_FOUND_PATTERN (s : string) : bool :=
  contract_missing (toUpperCase s) || contains "missingvalue" s ||
  contains "no contract code for" s || contains "no contract instance for" s.

Definition isContractNotFoundError (fault : SimulationFault) : bool :=
  CONTRACT_NOT_FOUND_PATTERN
    (match fault with FaultText e => e | FaultObject m => default "" m end).

Definition contractNotFoundError (contractAddress : string) : JsError :=
  SorobanCallError
    ("No contract is deployed at address " +:+ contractAddress +:+
     " on this network. Check that NEXT_PUBLIC_STREAM_CONTRACT_ID (or the relevant token address) is configured correctly for this environment.")
    "ContractNotFound".

Definition fault_text (fault : SimulationFault) : string :=
  match fault with FaultText e => e | FaultObject _ => "[object Object]" end.

Definition simulation_fault (fault : SimulationFault) (id prefix : string) : JsError :=
  if isContractNotFoundError fault then contractNotFoundError id
  else SorobanCallError (prefix +:+ fault_text fault) "NetworkError".

(** ** Reading a balance *)

Section calls.
Context {Sdk : SorobanSdk} (vec_ScVal : list Z -> option ScVal) (tokens : TokenAddresses) (nd : Node).

(** [new Address(s).toScVal()] *)
Definition to_address (s : string) : outcome ScVal := native_address s.

Definition native_to_bigint (v : NativeValue) : outcome Z :=
  match v with
  | NativeBigInt z => Returns z
  | NativeNumber x => BigInt_double (Math_trunc x)
  | NativeString s => BigInt_of_string s
  | NativeOther => Throws (SorobanCallError "Token balance query returned an invalid value." "NetworkError")
  end.

Definition fetchTokenBalance (publicKey tokenSymbol : string) : outcome Z :=
  let? tokenAddress := getTokenAddress tokens tokenSymbol in
  let? _ := nd_getAccount nd publicKey in
  if negb (valid_id nd tokenAddress) then Throws (ErrorMsg "Invalid contract ID")
  else
    let? owner := to_address publicKey in
    let? simResult := nd_balance nd tokenAddress owner in
    match simResult with
    | SimFault fault => Throws (simulation_fault fault tokenAddress "Failed to fetch token balance: ")
    | SimValue None =>
        Throws (SorobanCallError "Token balance query returned no value." "NetworkError")
    | SimValue (Some v) => native_to_bigint v
    end.

Definition fetchTokenBalanceDisplay (publicKey tokenSymbol : string) (decimals : nat) : outcome string :=
  let? rawBalance := fetchTokenBalance publicKey tokenSymbol in
  Returns (fromBaseUnits rawBalance decimals).

(** ** Sending a call *)

(** What was handed to the network, oldest first, and the milliseconds waited. *)
Record Outbox := { sent : list (Invocation * string); waited : Z }.
#[local] Abbreviation call_ T := (Js Outbox T).

Definition add_sent (i : Invocation) (hash : string) : call_ () :=
  modify (fun s => {| sent := sent s ++ [(i, hash)]; waited := waited s |}).
Definition wait (ms : Z) : call_ () := modify (fun s => {| sent := sent s; waited := waited s + ms |}).

(** [for (let i = 0; i < 20; i++)], with [left] rounds to go *)
Fixpoint await_result (left : nat) (i : nat) (txHash : string) : call_ string :=
  match left with
  | O => throw (SorobanCallError "Transaction confirmation timed out." "NetworkError")
  | S left' =>
      do! wait 1000 in
      let! status := lift (nd_getTransaction nd txHash i) in
      match status with
      | TxSuccess => ret txHash
      | TxFailed => throw (SorobanCallError "Transaction failed on-chain." "NetworkError")
      | TxUnknown => await_result left' (S i) txHash
      end
  end.

Definition POLLS : nat := 20.

Definition freighterCall (publicKey name : string) (xs : list ScVal) : call_ string :=
  do! lift (nd_getAccount nd publicKey) in
  if negb (valid_id nd (contract_id nd)) then throw (ErrorMsg "Invalid contract ID")
  else
    let tx := {| method := name; args := xs |} in
    let! simResult := lift (nd_simulate nd tx) in
    match simResult with
    | SimFault fault => throw (simulation_fault fault (contract_id nd) "Simulation failed: ")
    | SimValue _ =>
        let! signed := lift (nd_sign nd tx) in
        match signed with
        | inr msg =>
            throw (if is_rejection msg
                   then SorobanCallError "Transaction was rejected in wallet." "WalletRejected"
                   else SorobanCallError msg "Unknown")
        | inl signedTx =>
            let! sendResult := lift (nd_send nd signedTx) in
            match sendResult with
            | inr error => throw (SorobanCallError ("Transaction failed: " +:+ error) "NetworkError")
            | inl txHash => do! add_sent signedTx txHash in await_result POLLS 0 txHash
            end
        end
    end.

(** ** The operations *)

Record CreateStreamParams := {
  cp_recipient : string;
  cp_tokenAddress : string;
  cp_amount : Z;
  cp_durationSeconds : Z
}.

Definition createStream (publicKey : string) (params : CreateStreamParams) : call_ string :=
  let! sender := lift (to_address publicKey) in
  let! recipient := lift (to_address (cp_recipient params)) in
  let! token := lift (to_address (cp_tokenAddress params)) in
  let! amount := lift (native_i128 (cp_amount params)) in
  let! duration := lift (native_u64 (cp_durationSeconds params)) in
  freighterCall publicKey "create_stream" [sender; recipient; token; amount; duration].

Definition topUpStream (publicKey : string) (streamId amount : Z) : call_ string :=
  let! sender := lift (to_address publicKey) in
  let! id := lift (native_u64 streamId) in
  let! amount := lift (native_i128 amount) in
  freighterCall publicKey "top_up_stream" [sender; id; amount].

Definition on_stream (name publicKey : string) (streamId : Z) : call_ string :=
  let! caller := lift (to_address publicKey) in
  let! id := lift (native_u64 streamId) in
  freighterCall publicKey name [caller; id].

Definition cancelStream := on_stream "cancel_stream".
Definition withdrawFromStream := on_stream "withdraw".
Definition pauseStream := on_stream "pause_stream".
Definition resumeStream := on_stream "resume_stream".

Definition batchWithdrawFromStreams (publicKey : string) (streamIds : list Z) : call_ string :=
  let! ids := lift (of_option TypeErr (vec_ScVal streamIds)) in
  freighterCall publicKey "batch_withdraw" [ids].

(** ** What the user reads *)

Definition toSorobanErrorMessage (error : JsError) : string :=
  match error with
  | ApiErr _ message _ _ => message
  | _ =>
      let msg := message_of error in
      if is_rejection msg then "Transaction was rejected in your wallet."
      else if contains "timeout" msg then
        "Transaction timed out. The network may be congested — please try again."
      else if contains "insufficient" msg then "Insufficient balance to complete this transaction."
      else if contains "simulation" msg then
        "Contract simulation failed. Check your inputs and try again."
      else msg
  end.
End calls.

(** * Calls a wallet signs: properties

    One call to the chain per operation at most, of the right types and made
    for the signer; success is reported exactly when the chain said so within
    twenty seconds.  The batch withdrawal is the exception: its call is one the
    contract cannot take.  The three formatters of amounts agree. *)

Local Open Scope list_scope.
Local Open Scope Z_scope.

Section calls.
Context {Sdk : SorobanSdk} (vec_ScVal : list Z -> option ScVal) (nd : Node).

(** The wallet signs what it was given. *)
Definition faithful_wallet : Prop := forall tx signed, nd_sign nd tx = Returns (inl signed) -> signed = tx.

(** The first answer that decides comes among [left] polls from the [i]-th and
    says that the transaction succeeded. *)
Definition confirmed_from (i left : nat) (hash : string) : Prop :=
  exists n, (i <= n < i + left)%nat /\ nd_getTransaction nd hash n = Returns TxSuccess /\
    forall m, (i <= m < n)%nat -> nd_getTransaction nd hash m = Returns TxUnknown.
Definition confirmed (hash : string) : Prop := confirmed_from 0 20 hash.

Lemma confirmed_here i left hash :
  nd_getTransaction nd hash i = Returns TxSuccess -> confirmed_from i (S left) hash.
Proof. intros H. exists i. split_and!; [lia|lia|done|]. intros m Hm. lia. Qed.

Lemma confirmed_next i left hash :
  nd_getTransaction nd hash i = Returns TxUnknown ->
  confirmed_from i (S left) hash <-> confirmed_from (S i) left hash.
Proof.
  intros Hi. split; intros (n & Hn & Hs & Hm).
  - assert (n <> i) by congruence. exists n. split_and!; try lia; [done|]. intros m ?. apply Hm. lia.
  - exists n. split_and!; try lia; [done|]. intros m ?. destruct (decide (m = i)) as [->|]; [done|]. apply Hm. lia.
Qed.

Lemma confirmed_not i left hash r :
  nd_getTransaction nd hash i = r -> r <> Returns TxSuccess -> r <> Returns TxUnknown ->
  ~ confirmed_from i left hash.
Proof.
  intros <- H1 H2 (n & Hn & Hs & Hm). destruct (decide (n = i)) as [->|]; [done|]. apply H2, Hm. lia.
Qed.

Lemma await_spec left i hash s :
  exists k, 0 <= k <= Z.of_nat left /\
    (await_result nd left i hash s).2 = {| sent := sent s; waited := waited s + 1000 * k |} /\
    (forall h, (await_result nd left i hash s).1 = Returns h <-> h = hash /\ confirmed_from i left hash).
Proof.
  revert i s. induction left as [|left IH]; intros i s.
  { exists 0. split_and!; try lia.
    - simpl. rewrite Z.add_0_r. by destruct s.
    - intros h. split; [done|]. intros (_ & n & ? & _). lia. }
  cbn [await_result]. unfold bind, wait, modify, lift. simpl.
  destruct (nd_getTransaction nd hash i) as [[]|e] eqn:Hi; simpl.
  - exists 1. split_and!; [lia|lia|done|]. intros h. split.
    + intros [= ->]. split; [done|]. by apply confirmed_here.
    + by intros [-> _].
  - exists 1. split_and!; [lia|lia|done|]. intros h. split; [done|].
    intros [_ Hc]. by eapply confirmed_not in Hc.
  - destruct (IH (S i) {| sent := sent s; waited := waited s + 1000 |}) as (k & Hk & E & H).
    exists (1 + k). split_and!; [lia|lia| |].
    + rewrite E. simpl. f_equal. lia.
    + intros h. rewrite H. by rewrite <- confirmed_next.
  - exists 1. split_and!; [lia|lia|done|]. intros h. split; [done|].
    intros [_ Hc]. by eapply confirmed_not in Hc.
Qed.

(** Either nothing was sent and the operation failed, or one transaction that
    satisfies [P] was sent and the operation reports what the chain decided. *)
Definition one_call (P : Invocation -> Prop) (s : Outbox) (p : outcome string * Outbox) : Prop :=
  waited s <= waited p.2 <= waited s + 20000 /\
  ((sent p.2 = sent s /\ is_returns p.1 = false) \/
   (exists tx hash, sent p.2 = sent s ++ [(tx, hash)] /\ P tx /\
      forall h, p.1 = Returns h <-> h = hash /\ confirmed hash)).

Lemma unsent P s e : one_call P s (Throws e, s).
Proof. split; [simpl; lia|by left]. Qed.

Lemma one_call_lift {A} P (o : outcome A) (k : A -> Js Outbox string) s :
  (forall a, o = Returns a -> one_call P s (k a s)) -> one_call P s (bind (lift o) k s).
Proof. intros H. destruct o as [a|e]; [by apply H|apply unsent]. Qed.

Lemma freighterCall_once (P : Invocation -> Prop) key name xs s :
  faithful_wallet -> P {| method := name; args := xs |} -> one_call P s (freighterCall nd key name xs s).
Proof.
  intros Hw HP. unfold freighterCall. apply one_call_lift. intros _ _.
  destruct (valid_id nd (contract_id nd)); [|apply unsent]. cbn [negb]. apply one_call_lift.
  intros [|] _; [apply unsent|]. apply one_call_lift. intros [signed|] Hs; [|apply unsent]. apply Hw in Hs as ->.
  apply one_call_lift. intros [hash|] _; [|apply unsent]. set (tx := {| method := name; args := xs |}) in *.
  unfold bind, add_sent, modify.
  destruct (await_spec POLLS 0 hash {| sent := sent s ++ [(tx, hash)]; waited := waited s |}) as (k & Hk & E & H).
  change (Z.of_nat POLLS) with 20 in Hk. split; [rewrite E; simpl; lia|]. right. exists tx, hash. by rewrite E.
Qed.

(** ** The operations *)

Inductive WalletOp :=
| OpCreate (params : CreateStreamParams)
| OpTopUp (streamId amount : Z)
| OpCancel (streamId : Z)
| OpWithdraw (streamId : Z)
| OpPause (streamId : Z)
| OpResume (streamId : Z).

Definition run_op (key : string) (op : WalletOp) : Js Outbox string :=
  match op with
  | OpCreate params => createStream nd key params
  | OpTopUp streamId amount => topUpStream nd key streamId amount
  | OpCancel streamId => cancelStream nd key streamId
  | OpWithdraw streamId => withdrawFromStream nd key streamId
  | OpPause streamId => pauseStream nd key streamId
  | OpResume streamId => resumeStream nd key streamId
  end.

(** A call the contract can take, made for the account [key]. *)
Definition call_for (key : string) (tx : Invocation) : Prop :=
  well_typed tx = true /\ exists a rest, new_Address key = Some a /\ args tx = ScvAddress a :: rest.

Lemma address_arg s v : to_address s = Returns v -> exists a, new_Address s = Some a /\ v = ScvAddress a.
Proof.
  unfold to_address, native_address. destruct (address_ScVal s) eqn:E; [|done]. intros [= ->].
  by apply address_ScVal_val.
Qed.

Lemma on_stream_once name key id s :
  faithful_wallet -> entry_point name = Some [TAddress; TU64] ->
  one_call (call_for key) s (on_stream nd name key id s).
Proof.
  intros Hw Hn. unfold on_stream. apply one_call_lift. intros v (a & Ha & ->)%address_arg.
  apply one_call_lift. intros w ->%native_u64_val. apply freighterCall_once; [done|].
  split; [unfold well_typed; simpl; by rewrite Hn|by exists a, [ScvU64 id]].
Qed.


(** The batch withdrawal leaves out the recipient: whatever it sends is not a
    call the contract can take. *)
Theorem batch_withdrawal_untyped (key : string) (streamIds : list Z) (s : Outbox) :
  faithful_wallet ->
  one_call (fun tx => well_typed tx = false) s (batchWithdrawFromStreams vec_ScVal nd key streamIds s).
Proof.
  intros Hw. unfold batchWithdrawFromStreams. apply one_call_lift. intros v _.
  apply freighterCall_once; [done|]. unfold well_typed. simpl. by rewrite andb_false_r.
Qed.
End calls.

(** ** Amounts *)

(** The formatters of utils/amount.ts, lib/soroban.ts and lib/csv-parser.ts are
    the same function. *)
Lemma fromBaseUnits_formats units decimals : fromBaseUnits units decimals = formatAmount units decimals.
Proof.
  unfold fromBaseUnits, formatAmount. case (Z.eqb_spec units 0); intros H.
  - subst. rewrite Z.quot_0_l, Z.rem_0_l by (pose proof (pow10_pos decimals); lia).
    unfold padStart. change (BigInt_toString 0) with "0"%string. simpl String.length.
    destruct decimals as [|d]; [done|]. replace (S d - 1)%nat with d by lia.
    change "0"%string with (replicate_char 1 zero_char).
    assert (forall n m, strip_zeros (replicate_char n zero_char +:+ replicate_char m zero_char) = "")%string as ->; [|done].
    intros n m. rewrite strip_zeros_app. pose proof (strip_zeros_app "" n) as Hs. by change ("" +:+ ?x) with x in Hs.
  - destruct decimals as [|d]; [|by destruct (strip_zeros _)]. simpl. rewrite Z.quot_1_r, Z.rem_1_r. done.
Qed.
