(* ===== verification/Csv.v ===== *)
(** * CSV text

    The line parser of frontend/src/lib/csv-parser.ts, and the two writers:
    [escapeCSV] of backend/src/services/export.service.ts and [escapeCsvCell]
    of frontend/src/utils/csvExport.ts.  A line that either writes is read back
    by the parser, whatever the fields hold ([csv_line_roundtrip]). *)
From S2P Require Import Prelude JsLang Texts StreamId Json.
Local Open Scope Z_scope.

Definition QUOTE : Ascii.ascii := "034"%char.
Definition COMMA : Ascii.ascii := ","%char.

(** ** Reading a line *)

Definition snoc (s : string) (c : Ascii.ascii) : string := s +:+ String c EmptyString.

Fixpoint csv_fields (line current : string) (inQuotes : bool) : list string :=
  match line with
  | EmptyString => [current]
  | String char rest =>
      if inQuotes then
        if bool_decide (char = QUOTE) then
          match rest with
          | String next rest' =>
              if bool_decide (next = QUOTE) then csv_fields rest' (snoc current QUOTE) true
              else csv_fields rest current false
          | EmptyString => csv_fields rest current false
          end
        else csv_fields rest (snoc current char) true
      else if bool_decide (char = QUOTE) then csv_fields rest current true
      else if bool_decide (char = COMMA) then current :: csv_fields rest EmptyString false
      else csv_fields rest (snoc current char) false
  end.

Definition parseCSVLine (line : string) : list string := csv_fields line EmptyString false.

(** ** Writing a line *)

(** Every quote doubled: [value.replace] with a global pattern of one quote. *)
Fixpoint double_quotes (s : string) : string :=
  match s with
  | EmptyString => EmptyString
  | String c s' =>
      if bool_decide (c = QUOTE) then String QUOTE (String QUOTE (double_quotes s'))
      else String c (double_quotes s')
  end.

Definition quoted (s : string) : string := String QUOTE (double_quotes s +:+ String QUOTE EmptyString).

Fixpoint has_char (c : Ascii.ascii) (s : string) : bool :=
  match s with EmptyString => false | String x s' => bool_decide (x = c) || has_char c s' end.

Definition escapeCSV (value : string) : string :=
  if has_char COMMA value || has_char QUOTE value || has_char LF value then quoted value else value.

(** A cell of [convertArrayToCSV]: a value that [String] turned into text, or
    one that is missing. *)
Definition escapeCsvCell (value : option string) : string :=
  match value with
  | None => EmptyString
  | Some text =>
      let escaped := double_quotes text in
      if has_char QUOTE escaped || has_char COMMA escaped || has_char LF escaped
      then String QUOTE (escaped +:+ String QUOTE EmptyString) else escaped
  end.

(** The rows of a table whose first row has the columns [keys].  A row is what
    its cells hold under each of them; the header is not escaped. *)
Definition convertArrayToCSV (keys : list string) (rows : list (string -> option string)) : string :=
  match rows with
  | [] => EmptyString
  | _ =>
      join (String LF EmptyString)
        (join "," keys :: map (fun row => join "," (map (fun key => escapeCsvCell (row key)) keys)) rows)
  end.

(** ** Facts *)

Lemma app_string_nil s : s +:+ "" = s.
Proof. induction s as [|c s IH]; [done|]. change (String c s +:+ "") with (String c (s +:+ "")). by rewrite IH. Qed.
Lemma snoc_app s c t : snoc s c +:+ t = s +:+ String c t.
Proof. unfold snoc. by rewrite app_string_assoc. Qed.

(** Inside quotes, a field whose quotes are doubled is taken up to the quote
    that closes it. *)
Lemma fields_quoted s current rest :
  startsWith (String QUOTE EmptyString) rest = false ->
  csv_fields (double_quotes s +:+ String QUOTE rest) current true = csv_fields rest (current +:+ s) false.
Proof.
  intros Hr. revert current. induction s as [|c s IH]; intros current.
  - change (double_quotes "" +:+ ?x) with x. rewrite app_string_nil. simpl.
    destruct rest as [|x rest]; [done|]. simpl in Hr. rewrite andb_true_r in Hr.
    rewrite bool_decide_eq_false in Hr. by rewrite bool_decide_eq_false_2 by congruence.
  - cbn [double_quotes]. case_bool_decide as Hc.
    + subst c. change (String QUOTE (String QUOTE ?a) +:+ ?b) with (String QUOTE (String QUOTE (a +:+ b))).
      cbn [csv_fields]. rewrite !bool_decide_eq_true_2 by done. rewrite IH, snoc_app. done.
    + change (String c ?a +:+ ?b) with (String c (a +:+ b)). cbn [csv_fields].
      rewrite bool_decide_eq_false_2 by done. by rewrite IH, snoc_app.
Qed.

(** Outside quotes, a text without quotes and commas is taken as it is. *)
Lemma fields_plain s current rest :
  has_char COMMA s = false -> has_char QUOTE s = false ->
  csv_fields (s +:+ rest) current false = csv_fields rest (current +:+ s) false.
Proof.
  revert current. induction s as [|c s IH]; intros current.
  - intros _ _. change ("" +:+ rest) with rest. by rewrite app_string_nil.
  - cbn [has_char]. intros [Hc Hs]%orb_false_iff [Hq Hs']%orb_false_iff.
    rewrite bool_decide_eq_false in Hc, Hq. change (String c s +:+ rest) with (String c (s +:+ rest)).
    cbn [csv_fields]. rewrite !bool_decide_eq_false_2 by done. by rewrite IH, snoc_app.
Qed.

(** What a writer has to guarantee of a cell: the parser takes it as [value]. *)
Definition cell_of (cell value : string) : Prop :=
  forall rest, startsWith (String QUOTE EmptyString) rest = false ->
    csv_fields (cell +:+ rest) EmptyString false = csv_fields rest value false.

Lemma quoted_cell value : cell_of (quoted value) value.
Proof.
  intros rest Hr. unfold quoted. change (String QUOTE ?a +:+ rest) with (String QUOTE (a +:+ rest)).
  cbn [csv_fields]. rewrite bool_decide_eq_true_2 by done. rewrite app_string_assoc. by apply fields_quoted.
Qed.

Lemma plain_cell value : has_char COMMA value = false -> has_char QUOTE value = false -> cell_of value value.
Proof. intros Hc Hq rest _. by rewrite fields_plain. Qed.

Lemma escapeCSV_cell value : cell_of (escapeCSV value) value.
Proof.
  unfold escapeCSV. destruct (has_char COMMA value) eqn:Hc; [apply quoted_cell|].
  destruct (has_char QUOTE value) eqn:Hq; [apply quoted_cell|].
  destruct (has_char LF value); [apply quoted_cell|by apply plain_cell].
Qed.

Lemma double_quotes_id s : has_char QUOTE s = false -> double_quotes s = s.
Proof.
  induction s as [|c s IH]; [done|]. simpl. intros [Hc Hs]%orb_false_iff. rewrite Hc. by rewrite IH.
Qed.
Lemma double_quotes_has c s : has_char c (double_quotes s) = has_char c s.
Proof.
  induction s as [|x s IH]; [done|]. cbn [double_quotes has_char]. case_bool_decide as Hx.
  - subst x. cbn [has_char]. rewrite IH. by destruct (bool_decide (QUOTE = c)).
  - cbn [has_char]. by rewrite IH.
Qed.

Lemma escapeCsvCell_cell value : cell_of (escapeCsvCell value) (default EmptyString value).
Proof.
  destruct value as [text|]; [|by apply plain_cell]. unfold escapeCsvCell. simpl.
  rewrite !double_quotes_has. destruct (has_char QUOTE text) eqn:Hq; [apply quoted_cell|].
  destruct (has_char COMMA text) eqn:Hc; [apply quoted_cell|].
  destruct (has_char LF text); [apply quoted_cell|]. rewrite double_quotes_id by done. by apply plain_cell.
Qed.

Lemma parse_cells cells values :
  Forall2 cell_of cells values -> values <> [] -> parseCSVLine (join "," cells) = values.
Proof.
  intros H. induction H as [|cell value cells values Hc Hcs IH]; [done|]. intros _. unfold parseCSVLine.
  destruct Hcs as [|cell' value' cells' values' Hc' Hcs].
  - simpl. specialize (Hc EmptyString eq_refl). rewrite app_string_nil in Hc. by rewrite Hc.
  - change (join "," (cell :: cell' :: cells')) with (cell +:+ "," +:+ join "," (cell' :: cells')).
    rewrite Hc by done. change ("," +:+ ?x) with (String COMMA x). cbn [csv_fields].
    rewrite bool_decide_eq_false_2, bool_decide_eq_true_2 by done. f_equal. by apply IH.
Qed.

(** A line that the statement export or the table export writes is read back by
    the payroll parser, whatever commas, quotes and line breaks the fields hold. *)
Theorem csv_line_roundtrip (values : list string) (cells : list (option string)) :
  values <> [] -> cells <> [] ->
  parseCSVLine (join "," (map escapeCSV values)) = values /\
  parseCSVLine (join "," (map escapeCsvCell cells)) = map (default EmptyString) cells.
Proof.
  intros Hv Hc. split; apply parse_cells; try done.
  - clear Hv. induction values; constructor; [apply escapeCSV_cell|done].
  - clear Hc. induction cells; constructor; [apply escapeCsvCell_cell|done].
  - by destruct cells.
Qed.

Lemma csv_line_roundtrip_witness :
  parseCSVLine (join "," (map escapeCSV ["a,b"; String QUOTE "x"; ""])) = ["a,b"; String QUOTE "x"; ""] /\
  parseCSVLine (join "," (map escapeCsvCell [Some "a"; None])) = ["a"; ""].
Proof. apply (csv_line_roundtrip ["a,b"; String QUOTE "x"; ""] [Some "a"; None]); discriminate. Defined.
