(* ===== verification/Payroll.v ===== *)
(** * Payroll uploads: frontend/src/lib/csv-parser.ts and
    components/stream-creation/BatchStreamWizard.tsx

    A CSV of recipients and amounts is parsed and validated row by row, shown
    with its totals, corrected, and executed as one stream per valid row.  The
    rendering of the wizard is left out; its state is what its handlers read
    and write. *)
From S2P Require Import Prelude JsLang Texts StreamId Json Amount Double Csv Xdr Soroban WalletCalls.
Local Open Scope Z_scope.

Record BatchStreamEntry := {
  bid : Z;
  recipient : string;
  amount : string;
  durationSeconds : string;
  cliffSeconds : string
}.

Record ValidationError := { field : string; message : string }.

Record ValidatedBatchStreamEntry := { entry : BatchStreamEntry; errors : list ValidationError }.
Definition isValid (e : ValidatedBatchStreamEntry) : bool :=
  match errors e with [] => true | _ => false end.

Record BatchValidationSummary := {
  entries : list ValidatedBatchStreamEntry;
  totalRows : Z;
  validRows : Z;
  invalidRows : Z;
  totalGrossAmount : Z;
  totalProtocolFee : Z;
  totalNetDistributed : Z;
  protocolFeeRate : Z
}.

Definition PROTOCOL_FEE_RATE : Z := 250.
Definition BASIS_POINTS : Z := 10000.
Definition TOKEN_DECIMALS : nat := 7.

(** ** Validating a row *)

Definition isValidFederatedName (value : string) : bool :=
  includes "@" value && (3 <? String.length value)%nat.

Definition parseInt_double (s : string) : double := num_double (parseInt10 s).

Definition problem (f m : string) : list ValidationError := [{| field := f; message := m |}].

Definition recipient_errors (value : string) : list ValidationError :=
  let recipient := trim value in
  match recipient with
  | EmptyString => problem "recipient" "Recipient is required"
  | _ =>
      if negb (isValidStellarPublicKey recipient) && negb (isValidFederatedName recipient) then
        problem "recipient" "Must be a valid Stellar G... public key or federated name (user@domain)"
      else []
  end.

Definition amount_errors (value : string) : list ValidationError :=
  let amountStr := trim value in
  match amountStr with
  | EmptyString => problem "amount" "Amount is required"
  | _ =>
      let amount := parseFloat amountStr in
      if is_NaN amount then problem "amount" "Amount must be a number"
      else if dleb amount (dint 0) then problem "amount" "Amount must be positive"
      else if includes "." amountStr then
        let decimals := String.length (nth 1 (split_on 46 amountStr) EmptyString) in
        if (TOKEN_DECIMALS <? decimals)%nat then problem "amount" "Maximum 7 decimal places allowed"
        else []
      else []
  end.

Definition duration_errors (value : string) : list ValidationError :=
  match trim value with
  | EmptyString => problem "durationSeconds" "Duration is required"
  | durationStr =>
      if not_positive (parseInt_double durationStr) then
        problem "durationSeconds" "Duration must be a positive integer"
      else []
  end.

Definition cliff_errors (value duration : string) : list ValidationError :=
  match trim value with
  | EmptyString => []
  | cliffStr =>
      let cliff := parseInt_double cliffStr in
      if is_NaN cliff || dltb cliff (dint 0) then
        problem "cliffSeconds" "Cliff must be a non-negative integer"
      else if dleb (parseInt_double (trim duration)) cliff then
        problem "cliffSeconds" "Cliff must be less than duration"
      else []
  end.

Definition validateEntry (e : BatchStreamEntry) : list ValidationError :=
  recipient_errors (recipient e) ++ amount_errors (amount e) ++
  duration_errors (durationSeconds e) ++ cliff_errors (cliffSeconds e) (durationSeconds e).

(** ** Parsing a file *)

Definition no_rows : BatchValidationSummary := {|
  entries := []; totalRows := 0; validRows := 0; invalidRows := 0;
  totalGrossAmount := 0; totalProtocolFee := 0; totalNetDistributed := 0;
  protocolFeeRate := PROTOCOL_FEE_RATE
|}.

(** [header.findIndex], as an index *)
Fixpoint findIndex (names : list string) (header : list string) : option nat :=
  match header with
  | [] => None
  | h :: header' =>
      if bool_decide (toLowerCase h ∈ names) then Some O
      else option_map S (findIndex names header')
  end.

(** [columns[i] ?? ""] *)
Definition column (columns : list string) (i : nat) : string := nth i columns EmptyString.

(** The base units of an amount, through a double. *)
Definition amount_units (amountStr : string) : outcome Z :=
  BigInt_double (Math_round (dmul (parseFloat amountStr) (dint (10 ^ Z.of_nat TOKEN_DECIMALS)))).

Definition protocol_fee (units : Z) : Z := Z.quot (units * PROTOCOL_FEE_RATE) BASIS_POINTS.

Section rows.
Context (recipientIdx amountIdx durationIdx : nat) (cliffIdx : option nat).

Definition entry_of (i : Z) (line : string) : BatchStreamEntry :=
  let columns := parseCSVLine line in
  {| bid := i;
     recipient := column columns recipientIdx;
     amount := column columns amountIdx;
     durationSeconds := column columns durationIdx;
     cliffSeconds := match cliffIdx with Some k => column columns k | None => "0"%string end |}.

(** The loop over the lines after the header, from line [i]: the rows, and the
    totals of the valid ones. *)
Fixpoint parse_rows (i : Z) (lines : list string) : outcome (list ValidatedBatchStreamEntry * Z * Z) :=
  match lines with
  | [] => Returns ([], 0, 0)
  | line :: lines' =>
      let e := entry_of i line in
      let errs := validateEntry e in
      let? units := match errs with [] => amount_units (trim (amount e)) | _ => Returns 0 end in
      let? rest := parse_rows (i + 1) lines' in
      let '(es, gross, fee) := rest in
      Returns ({| entry := e; errors := errs |} :: es, units + gross, protocol_fee units + fee)
  end.
End rows.

(** [validateEntry] never throws, and [parseCSVLine] yields at least one column,
    so the check for a line without columns never applies. *)
Definition parseBatchCSV (csvContent : string) : outcome BatchValidationSummary :=
  match List.filter (fun l => negb (String.length l =? 0)%nat) (map trim (split_lines csvContent)) with
  | [] | [_] => Returns no_rows
  | header :: lines =>
      let header := parseCSVLine header in
      match findIndex ["recipient"] header, findIndex ["amount"] header,
            findIndex ["duration_seconds"; "duration"] header with
      | Some recipientIdx, Some amountIdx, Some durationIdx =>
          let cliffIdx := findIndex ["cliff_seconds"; "cliff"] header in
          let? rows := parse_rows recipientIdx amountIdx durationIdx cliffIdx 1 lines in
          let '(es, gross, fee) := rows in
          Returns {|
            entries := es;
            totalRows := Z.of_nat (length es);
            validRows := Z.of_nat (length (List.filter isValid es));
            invalidRows := Z.of_nat (length (List.filter (fun e => negb (isValid e)) es));
            totalGrossAmount := gross;
            totalProtocolFee := fee;
            totalNetDistributed := gross - fee;
            protocolFeeRate := PROTOCOL_FEE_RATE |}
      | _, _, _ => Returns no_rows
      end
  end.

(** [formatAmount(amount, decimals)] *)
Definition formatAmount (amount : Z) (decimals : nat) : string := fromBaseUnits amount decimals.

(** ** The wizard *)

Record EditValues := {
  ed_recipient : string;
  ed_amount : string;
  ed_durationSeconds : string;
  ed_cliffSeconds : string
}.

Record Wizard := {
  currentStep : Z;
  csvData : string;
  validation : option BatchValidationSummary;
  editingEntryId : option Z;
  editValues : EditValues
}.

Definition with_file (csv : string) (w : Wizard) : Wizard :=
  {| currentStep := currentStep w; csvData := csv; validation := validation w;
     editingEntryId := editingEntryId w; editValues := editValues w |}.
Definition with_validation (v : BatchValidationSummary) (w : Wizard) : Wizard :=
  {| currentStep := currentStep w; csvData := csvData w; validation := Some v;
     editingEntryId := editingEntryId w; editValues := editValues w |}.
Definition editing (id : option Z) (values : EditValues) (w : Wizard) : Wizard :=
  {| currentStep := currentStep w; csvData := csvData w; validation := validation w;
     editingEntryId := id; editValues := values |}.
Definition at_step (n : Z) (w : Wizard) : Wizard :=
  {| currentStep := n; csvData := csvData w; validation := validation w;
     editingEntryId := editingEntryId w; editValues := editValues w |}.

(** A file was read, dropped or selected. *)
Definition onFileLoaded (content : string) : Js Wizard () :=
  do! modify (with_file content) in
  let! result := lift (parseBatchCSV content) in
  modify (with_validation result).

Definition handleStartEdit (e : BatchStreamEntry) : Js Wizard () :=
  modify (editing (Some (bid e))
    {| ed_recipient := recipient e; ed_amount := amount e;
       ed_durationSeconds := durationSeconds e; ed_cliffSeconds := cliffSeconds e |}).
Definition handleCancelEdit : Js Wizard () := modify (fun w => editing None (editValues w) w).

Definition edited_line (v : EditValues) : string :=
  ed_recipient v +:+ "," +:+ ed_amount v +:+ "," +:+ ed_durationSeconds v +:+ "," +:+ ed_cliffSeconds v.

(** The text after [dataLines[id - 1]] was replaced. *)
Definition edited_csv (csv : string) (id : nat) (v : EditValues) : option string :=
  match split_lines csv with
  | header :: lines =>
      let dataLines := List.filter (fun l => negb (String.length (trim l) =? 0)%nat) lines in
      if (0 <? id)%nat && (id <=? length dataLines)%nat then
        Some (join (String LF EmptyString) (header :: <[pred id := edited_line v]> dataLines))
      else None
  | [] => None
  end.

Definition handleSaveEdit : Js Wizard () :=
  let! w := gets (fun w => w) in
  match editingEntryId w, validation w with
  | Some id, Some _ =>
      do! match edited_csv (csvData w) (Z.to_nat id) (editValues w) with
          | Some newCsv => onFileLoaded newCsv
          | None => ret tt
          end in
      handleCancelEdit
  | _, _ => ret tt
  end.

(** [validation && validation.validRows > 0] *)
Definition has_valid_rows (w : Wizard) : bool :=
  match validation w with Some v => 0 <? validRows v | None => false end.

Definition handleNext : Js Wizard () :=
  modify (fun w =>
    if (currentStep w =? 1) && has_valid_rows w then at_step 2 w
    else if (currentStep w =? 2) && has_valid_rows w then at_step 3 w
    else w).
Definition handleBack : Js Wizard () :=
  modify (fun w => if 1 <? currentStep w then at_step (currentStep w - 1) w else w).

(** ** Executing *)

Section execute.
Context {Sdk : SorobanSdk} (tokens : TokenAddresses) (nd : Node).

(** What was shown while executing: the streams created, and the rows that
    failed with the message of their error. *)
Record Progress := { txHashes : list string; failed : list (Z * string) }.

(** The body of the [try] of one row. *)
Definition create_entry (publicKey tokenAddress : string) (e : BatchStreamEntry) : Js Outbox string :=
  let! amountBigInt := lift (toBaseUnits (amount e) 7) in
  let! durationBigInt := lift (BigInt_double (parseInt_double (durationSeconds e))) in
  createStream nd publicKey {|
    cp_recipient := trim (recipient e);
    cp_tokenAddress := tokenAddress;
    cp_amount := amountBigInt;
    cp_durationSeconds := durationBigInt |}.

Fixpoint execute_entries (publicKey tokenAddress : string) (es : list BatchStreamEntry)
    (p : Progress) : Js Outbox Progress :=
  match es with
  | [] => ret p
  | e :: es' =>
      let! p' := try_catch
        (let! txHash := create_entry publicKey tokenAddress e in
         ret {| txHashes := txHashes p ++ [txHash]; failed := failed p |})
        (fun err =>
           ret {| txHashes := txHashes p; failed := failed p ++ [(bid e, toSorobanErrorMessage err)] |}) in
      execute_entries publicKey tokenAddress es' p'
  end.

Definition valid_entries (v : BatchValidationSummary) : list BatchStreamEntry :=
  map entry (List.filter isValid (entries v)).

Definition handleExecute (publicKey token : string) (v : BatchValidationSummary) : Js Outbox Progress :=
  let! tokenAddress := lift (getTokenAddress tokens token) in
  execute_entries publicKey tokenAddress (valid_entries v) {| txHashes := []; failed := [] |}.
End execute.

(** ** The template offered for download *)

Definition generateSampleCSV : string :=
  join (String LF EmptyString)
    ["recipient,amount,duration_seconds,cliff_seconds";
     "GBBDIOEJGZHV5GFZQB4T7NKZQKRVNDQYXKW6Z3VJXZAVFQKZ5HM5J2EU,1500.00,2592000,0";
     "GBCKE5YFZTPDRGGB7FSC7GBF7S4D57GZB2CZ6BHWY5G7J74D7C236M2X,2200.50,5184000,604800";
     "GCBA6C5YC3FXYC4KC7LC5MC2P3C4R5C6C7U4VC5WC2X3YC2Z3AC4BC5C,1000.00,86400,0"].
