(* ===== verification/PayrollFacts.v ===== *)
(** * Payroll uploads: properties

    The totals of the review step are the sums of what the valid rows ask for;
    executing makes one call per valid row at most, in order, each for the units
    the review counted, and reports as created exactly the confirmed ones. *)
From S2P Require Import Amount Double Prelude JsLang Texts StreamId Json Csv Xdr Soroban Simulate Samples WorkerFacts StreamApiFacts WalletCalls Payroll.
Local Open Scope Z_scope.

(** ** White space around a number *)

Lemma trim_end_cons c s : is_ws c = false -> trim_end (String c s) = String c (trim_end s).
Proof. intros Hc. simpl. destruct (trim_end s); [by rewrite Hc|done]. Qed.

Lemma digit_not_ws c : is_digit c = true -> is_ws c = false.
Proof. unfold is_digit, is_ws. lia. Qed.

(** [trim_end] only takes white space away, so what starts with something else
    starts with it still. *)
Lemma trim_end_head c s :
  is_ws c = true -> trim_end (String c s) = EmptyString \/ exists t, trim_end (String c s) = String c t.
Proof. intros Hc. simpl. destruct (trim_end s); rewrite ?Hc; eauto. Qed.

Lemma digit_prefix_trim s : digit_prefix (trim_end s) = digit_prefix s.
Proof.
  induction s as [|c s IH]; [done|]. destruct (is_ws c) eqn:Hc.
  - assert (is_digit c = false) as Hd by (unfold is_digit, is_ws in *; lia).
    destruct (trim_end_head c s Hc) as [->|[t ->]]; simpl; by rewrite Hd.
  - rewrite trim_end_cons by done. simpl. by rewrite IH.
Qed.

Lemma drop_digits_trim s : drop_digits (trim_end s) = trim_end (drop_digits s).
Proof.
  induction s as [|c s IH]; [done|]. cbn [drop_digits]. destruct (is_digit c) eqn:Hd.
  - rewrite trim_end_cons by (by apply digit_not_ws). simpl. by rewrite Hd.
  - destruct (is_ws c) eqn:Hc.
    + destruct (trim_end_head c s Hc) as [->|[t ->]]; simpl; by rewrite ?Hd.
    + rewrite trim_end_cons by done. simpl. by rewrite Hd.
Qed.

Fixpoint no_ws (s : string) : bool :=
  match s with EmptyString => true | String c s' => negb (is_ws c) && no_ws s' end.
Lemma startsWith_trim p s : no_ws p = true ->
  startsWith p (trim_end s) = startsWith p s.
Proof.
  revert s. induction p as [|a p IH]; [done|]. simpl. intros s [Ha%negb_true_iff Hp]%andb_prop.
  destruct s as [|c s]; [done|]. destruct (is_ws c) eqn:Hc.
  - assert (a <> c) by congruence. simpl (startsWith _ (String c s)). rewrite bool_decide_eq_false_2 by done.
    destruct (trim_end_head c s Hc) as [->|[t ->]]; simpl; [done|]. by rewrite bool_decide_eq_false_2.
  - rewrite trim_end_cons by done. simpl. by rewrite IH.
Qed.

Lemma fraction_none c s : c <> "."%char -> fraction_digits (String c s) = (EmptyString, String c s).
Proof. intros H. by destruct c as [[] [] [] [] [] [] [] []]. Qed.

Lemma fraction_trim s :
  fraction_digits (trim_end s) = ((fraction_digits s).1, trim_end (fraction_digits s).2).
Proof.
  destruct s as [|c s]; [done|]. destruct (is_ws c) eqn:Hc.
  - assert (c <> "."%char) by (by intros ->). rewrite (fraction_none c s) by done. simpl snd.
    destruct (trim_end_head c s Hc) as [->|[t ->]]; [done|by rewrite fraction_none].
  - destruct (decide (c = "."%char)) as [->|].
    + rewrite trim_end_cons by done. simpl. by rewrite digit_prefix_trim, drop_digits_trim.
    + rewrite (fraction_none c s) by done. simpl snd. by rewrite trim_end_cons, fraction_none.
Qed.

(** The two characters an exponent can start with, and the two signs. *)
Definition exp_char (c : Ascii.ascii) : bool := bool_decide (c = "e"%char) || bool_decide (c = "E"%char).
Definition sign_char (c : Ascii.ascii) : bool := bool_decide (c = "-"%char) || bool_decide (c = "+"%char).

Lemma exponent_none c s : exp_char c = false -> exponent_part (String c s) = 0.
Proof. intros H. by destruct c as [[] [] [] [] [] [] [] []]. Qed.
Lemma exponent_plain c x s :
  exp_char c = true -> sign_char x = false ->
  exponent_part (String c (String x s)) = digits_Z (digit_prefix (String x s)).
Proof.
  intros Hc Hx. assert (c = "e"%char \/ c = "E"%char) as [-> | ->].
  { apply orb_prop in Hc. by rewrite !bool_decide_eq_true in Hc. }
  all: by destruct x as [[] [] [] [] [] [] [] []].
Qed.

Lemma exponent_trim s : exponent_part (trim_end s) = exponent_part s.
Proof.
  destruct s as [|c s]; [done|]. destruct (exp_char c) eqn:He.
  2: { rewrite (exponent_none c s) by done. destruct (is_ws c) eqn:Hc.
       - destruct (trim_end_head c s Hc) as [->|[t ->]]; [done|by apply exponent_none].
       - rewrite trim_end_cons by done. by apply exponent_none. }
  assert (is_ws c = false) as Hc by (by destruct c as [[] [] [] [] [] [] [] []]).
  rewrite trim_end_cons by done. destruct s as [|x s].
  { by destruct c as [[] [] [] [] [] [] [] []]. }
  destruct (sign_char x) eqn:Hx.
  - assert (is_ws x = false) as Hw by (by destruct x as [[] [] [] [] [] [] [] []]).
    rewrite trim_end_cons by done. pose proof (digit_prefix_trim s) as Hd.
    apply orb_prop in He, Hx. rewrite !bool_decide_eq_true in He, Hx.
    destruct He as [-> | ->], Hx as [-> | ->]; simpl; by rewrite Hd.
  - rewrite (exponent_plain c x s), <- digit_prefix_trim by done. destruct (is_ws x) eqn:Hw.
    + destruct (trim_end_head x s Hw) as [->|[t ->]]; [by destruct c as [[] [] [] [] [] [] [] []]|].
      by apply exponent_plain.
    + rewrite trim_end_cons by done. by apply exponent_plain.
Qed.

Lemma signed_float_none c s : sign_char c = false -> signed_float (String c s) = unsigned_float (String c s).
Proof. intros H. destruct c as [[] [] [] [] [] [] [] []]; (discriminate H || reflexivity). Qed.

Lemma unsigned_trim t : unsigned_float (trim_end t) = unsigned_float t.
Proof.
  unfold unsigned_float, decimal_literal.
  rewrite startsWith_trim, digit_prefix_trim, drop_digits_trim, fraction_trim by done.
  destruct (fraction_digits (drop_digits t)) as [f rest]. cbn [fst snd]. by rewrite exponent_trim.
Qed.

Lemma signed_trim s : (match s with String c _ => is_ws c = false | _ => True end) ->
  signed_float (trim_end s) = signed_float s.
Proof.
  destruct s as [|c s]; [done|]. intros Hc. rewrite trim_end_cons by done. destruct (sign_char c) eqn:Hx.
  - apply orb_prop in Hx. rewrite !bool_decide_eq_true in Hx.
    destruct Hx as [-> | ->]; cbn [signed_float]; by rewrite unsigned_trim.
  - rewrite !signed_float_none by done. rewrite <- (unsigned_trim (String c s)). by rewrite trim_end_cons.
Qed.

Lemma parseFloat_trim s : parseFloat (trim s) = parseFloat s.
Proof.
  assert (match trim_start s with String c _ => is_ws c = false | _ => True end) as Ht.
  { induction s as [|c s IH]; [done|]. simpl. by destruct (is_ws c) eqn:Hc. }
  change (signed_float (trim_start (trim_end (trim_start s))) = signed_float (trim_start s)).
  assert (trim_start (trim_end (trim_start s)) = trim_end (trim_start s)) as ->.
  { destruct (trim_start s) as [|c t]; [done|]. rewrite trim_end_cons by done. simpl. by rewrite Ht. }
  by apply signed_trim.
Qed.

(** ** The units of a row *)

(** The valid row [e] asks for [u] base units. *)
Definition asks (e : BatchStreamEntry) (u : Z) : Prop := toBaseUnits (amount e) 7 = Returns u /\ 0 <= u.

Lemma of_ticks_nonneg n d t : 0 <= n -> 0 < d -> of_ticks n d = DFin t -> 0 <= t.
Proof.
  intros Hn Hd. unfold of_ticks. case_match; [done|]. intros [= <-].
  pose proof (round_ticks_nonneg (Z.abs n) d ltac:(lia) Hd). pose proof (Z.sgn_nonneg n). nia.
Qed.

Lemma units_nonneg x p u :
  not_positive x = false -> 0 < p -> BigInt_double (Math_round (dmul x (dint p))) = Returns u -> 0 <= u.
Proof.
  pose proof TICK_pos as HT. intros Hx Hp. unfold not_positive in Hx. apply orb_false_iff in Hx as [_ Hx].
  destruct x as [|[]|t]; simpl in Hx; try done.
  - simpl. replace (p * TICK =? 0) with false by lia. done.
  - apply Z.leb_gt in Hx. unfold dmul, dint. destruct (of_ticks _ _) as [| |r] eqn:E; [done..|].
    apply of_ticks_nonneg in E; [|nia|done]. unfold Math_round, on_ticks, BigInt_double.
    rewrite Z.mod_mul, Z.div_mul by lia. intros [= <-]. apply Z.div_pos; lia.
Qed.

Lemma amount_units_asks e u :
  amount_errors (amount e) = [] -> amount_units (trim (amount e)) = Returns u -> asks e u.
Proof.
  unfold amount_errors, amount_units, asks, toBaseUnits, TOKEN_DECIMALS. intros He Hu.
  destruct (trim (amount e)) as [|c s] eqn:Et; [done|]. rewrite <- Et, parseFloat_trim in He, Hu.
  assert (not_positive (parseFloat (amount e)) = false) as Hp.
  { unfold not_positive. destruct (is_NaN _); [done|]. by destruct (dleb _ _). }
  rewrite Hp. split; [exact Hu|]. by eapply units_nonneg in Hu; [|done|lia].
Qed.

Lemma valid_asks e u :
  validateEntry e = [] -> amount_units (trim (amount e)) = Returns u -> asks e u.
Proof.
  unfold validateEntry. intros (_ & H)%app_nil. apply app_nil in H as [H _]. by apply amount_units_asks.
Qed.

(** ** The totals *)

Definition total (us : list Z) : Z := foldr Z.add 0 us.

Lemma parse_rows_spec rI aI dI cI i lines es gross fee :
  parse_rows rI aI dI cI i lines = Returns (es, gross, fee) ->
  map (fun e => bid (entry e)) es = map (fun n => i + Z.of_nat n) (seq 0 (length lines)) /\
  exists units, Forall2 asks (map entry (List.filter isValid es)) units /\
    gross = total units /\ fee = total (map protocol_fee units).
Proof.
  revert i es gross fee. induction lines as [|line lines IH]; intros i es gross fee.
  { intros [= <- <- <-]. split; [done|]. by exists []. }
  cbn [parse_rows]. set (e := entry_of _ _ _ _ i line).
  destruct (match validateEntry e with [] => amount_units (trim (amount e)) | _ => Returns 0 end) as [u|] eqn:Hu; [|done].
  destruct (parse_rows _ _ _ _ (i + 1) lines) as [[[es' g'] f']|] eqn:Hr; [|done]. simpl. intros [= <- <- <-].
  destruct (IH _ _ _ _ Hr) as (Hids & units & HF & -> & ->). split.
  { cbn [map entry]. rewrite Hids. cbn [length seq map]. f_equal; [simpl; lia|].
    rewrite <- seq_shift, map_map. apply map_ext. intros n. lia. }
  unfold isValid at 1. cbn [List.filter errors]. destruct (validateEntry e) eqn:Hv.
  - exists (u :: units). split_and!; [|done|done]. cbn [map entry]. constructor; [|done]. by apply valid_asks.
  - injection Hu as <-. exists units. by split_and!.
Qed.

Lemma fee_bounds u : 0 <= u -> 0 <= protocol_fee u /\ 0 <= u * 250 - 10000 * protocol_fee u < 10000.
Proof.
  intros Hu. unfold protocol_fee, PROTOCOL_FEE_RATE, BASIS_POINTS. rewrite Z.quot_div_nonneg by lia.
  pose proof (Z.div_mod (u * 250) 10000). pose proof (Z.mod_pos_bound (u * 250) 10000). 
  pose proof (Z.div_pos (u * 250) 10000). lia.
Qed.

Lemma fee_total units :
  Forall (fun u => 0 <= u) units ->
  0 <= total (map protocol_fee units) /\
  0 <= total units * 250 - 10000 * total (map protocol_fee units) <= 9999 * Z.of_nat (length units).
Proof.
  induction 1 as [|u units Hu _ IH]; [simpl; lia|]. pose proof (fee_bounds u Hu). cbn [total map foldr length] in *.
  unfold total in *. lia.
Qed.

Lemma filter_counts es :
  length es = (length (List.filter isValid es) + length (List.filter (fun e => negb (isValid e)) es))%nat.
Proof. induction es as [|e es IH]; [done|]. simpl. destruct (isValid e); simpl; lia. Qed.

(** The rows and totals of a parsed file. *)
Lemma parsed_rows csv v :
  parseBatchCSV csv = Returns v ->
  exists units, Forall2 asks (valid_entries v) units /\ validRows v = Z.of_nat (length units) /\
    totalGrossAmount v = total units /\ totalProtocolFee v = total (map protocol_fee units) /\
    totalNetDistributed v = totalGrossAmount v - totalProtocolFee v /\ totalRows v = validRows v + invalidRows v.
Proof.
  unfold parseBatchCSV. destruct (List.filter _ _) as [|header [|line lines]]; [intros [= <-]; by exists []..|].
  destruct (findIndex ["recipient"%string] (parseCSVLine header)), (findIndex ["amount"%string] (parseCSVLine header)),
    (findIndex ["duration_seconds"; "duration"]%string (parseCSVLine header)); try (intros [= <-]; by exists []).
  destruct (parse_rows _ _ _ _ _ _) as [[[es gross] fee]|] eqn:Hr; [|done]. simpl. intros [= <-].
  apply parse_rows_spec in Hr as (_ & units & HF & -> & ->). pose proof (Forall2_length HF) as Hl.
  rewrite length_map in Hl. exists units. split_and!; try done; simpl; [by rewrite Hl|].
  pose proof (filter_counts es). lia.
Qed.

Lemma asks_nonneg es units : Forall2 asks es units -> Forall (fun u => 0 <= u) units.
Proof. induction 1 as [|e u es us [_ Hu]]; by constructor. Qed.

(** What the review step shows adds up: every row is valid or not; the gross
    total is the sum of the units that executing the valid rows asks for; the
    fee is 2.5% of it short of at most one unit per stream; and net and fee make
    up the gross amount. *)
Theorem payroll_totals (csv : string) (v : BatchValidationSummary) :
  parseBatchCSV csv = Returns v ->
  totalRows v = validRows v + invalidRows v /\
  (exists units, Forall2 asks (valid_entries v) units /\ validRows v = Z.of_nat (length units) /\
     totalGrossAmount v = total units) /\
  0 <= totalGrossAmount v * 250 - 10000 * totalProtocolFee v <= 9999 * validRows v /\
  totalNetDistributed v + totalProtocolFee v = totalGrossAmount v.
Proof.
  intros (units & HF & Hl & Hg & Hf & Hn & Hr)%parsed_rows. pose proof (fee_total units (asks_nonneg _ _ HF)).
  split_and!; [done|by exists units|lia..].
Qed.

Lemma split_first f : (String.length (nth 0 (split_on 46 f) EmptyString) <= String.length f)%nat.
Proof.
  induction f as [|c f IH]; [done|]. simpl. case_match; simpl; [lia|]. destruct (split_on 46 f); simpl in *; lia.
Qed.
Lemma split_second s :
  (String.length (nth 1 (split_on 46 s) EmptyString) <= String.length (default EmptyString (after_dot s)))%nat.
Proof.
  induction s as [|c s IH]; [done|]. cbn [split_on after_dot]. destruct (JsLang.code c =? 46).
  - apply split_first.
  - by destruct (split_on 46 s) as [|? []].
Qed.

(** An amount that the single-stream form accepts, below 2^51 units, is counted
    and asked for exactly: the double in between loses nothing. *)
Theorem payroll_amount_exact (e : BatchStreamEntry) (raw : Z) :
  validateAmountInput (amount e) 7 = None -> parseAmount (amount e) 7 = Returns raw -> raw < 2 ^ 51 ->
  amount_errors (amount e) = [] /\ amount_units (trim (amount e)) = Returns raw /\
  toBaseUnits (amount e) 7 = Returns raw.
Proof.
  intros Hv Hr Hb. pose proof (validated_scaled _ _ _ Hv ltac:(lia) Hr Hb) as Hs.
  apply validated_reads in Hv as (Hn & Hlen & Hp & _).
  assert (amount_units (trim (amount e)) = Returns raw) as Hu by exact Hs.
  split_and!; [|done|].
  - unfold amount_errors. unfold not_positive in Hp. apply orb_false_iff in Hp as [Hp1 Hp2].
    destruct (trim (amount e)) as [|c s] eqn:Et; [done|]. rewrite <- Et in *. rewrite Hp1, Hp2.
    case_match; [|done]. rewrite (proj2 (Nat.ltb_ge _ _)); [done|]. etrans; [|exact Hlen].
    apply split_second.
  - unfold toBaseUnits. rewrite <- parseFloat_trim, Hp. exact Hs.
Qed.

(** ** Execution *)

Lemma sublist_same_length {A} (l k : list A) : sublist l k -> (length k <= length l)%nat -> l = k.
Proof.
  induction 1 as [|x l k H IH|x l k H _]; intros Hl; simpl in Hl; [done|f_equal; apply IH; lia|].
  pose proof (sublist_length _ _ H). lia.
Qed.

Section execution.
Context {Sdk : SorobanSdk} (tokens : TokenAddresses) (nd : Node) (key tok : string).

(** The call that creates the stream of a row, for [units] base units. *)
Definition creates_units (e : BatchStreamEntry) (units : Z) (tx : Invocation) : Prop :=
  exists secs s r t a d,
    toBaseUnits (amount e) 7 = Returns units /\
    BigInt_double (parseInt_double (durationSeconds e)) = Returns secs /\
    to_address key = Returns s /\ to_address (trim (recipient e)) = Returns r /\ to_address tok = Returns t /\
    native_i128 units = Returns a /\ native_u64 secs = Returns d /\
    tx = {| method := "create_stream"; args := [s; r; t; a; d] |}.
Definition creates (e : BatchStreamEntry) (tx : Invocation) : Prop := exists units, creates_units e units tx.

Lemma create_entry_once e s :
  faithful_wallet nd -> one_call nd (creates e) s (create_entry nd key tok e s).
Proof.
  intros Hw. unfold create_entry. apply one_call_lift. intros units Hu. apply one_call_lift. intros secs Hs.
  unfold createStream. do 5 (apply one_call_lift; intros ? ?). apply freighterCall_once; [done|].
  exists units. do 6 eexists. by split_and!.
Qed.

(** A row for which a call was sent: the call and its hash. *)
#[local] Abbreviation Made := (BatchStreamEntry * (Invocation * string))%type.

(** What executing the rows [es] did to the outbox and to the progress shown:
    the rows of [made] were sent, those of [created] confirmed. *)
Definition executed (es : list BatchStreamEntry) (p : Progress) (s : Outbox) (p' : Progress) (s' : Outbox)
    (made created : list Made) : Prop :=
  sent s' = sent s ++ made.*2 /\ sublist made.*1 es /\
  Forall (fun m : Made => creates m.1 m.2.1) made /\
  sublist created made /\ (forall m, m ∈ created <-> m ∈ made /\ confirmed nd m.2.2) /\
  txHashes p' = txHashes p ++ map (fun m : Made => m.2.2) created /\
  (length (failed p') + length created = length (failed p) + length es)%nat /\
  waited s <= waited s' <= waited s + 20000 * Z.of_nat (length es).

Lemma executed_nil p s : executed [] p s p s [] [].
Proof.
  unfold executed. rewrite !app_nil_r. split_and!; simpl; try done; try lia. intros m. set_solver.
Qed.

Lemma executed_created e es p s tx h s1 p' s' made created :
  sent s1 = sent s ++ [(tx, h)] -> creates e tx -> confirmed nd h -> waited s <= waited s1 <= waited s + 20000 ->
  executed es {| txHashes := txHashes p ++ [h]; failed := failed p |} s1 p' s' made created ->
  executed (e :: es) p s p' s' ((e, (tx, h)) :: made) ((e, (tx, h)) :: created).
Proof.
  intros Hs1 Hc Hh Ht (Hs & Hsub & Hall & Hcr & Hiff & Htx & Hlen & Hw). unfold executed. cbn [fmap list_fmap fst snd].
  split_and!; try done.
  - by rewrite Hs, Hs1, <- app_assoc.
  - by constructor.
  - by constructor.
  - by constructor.
  - intros m. rewrite !elem_of_cons, Hiff. naive_solver.
  - rewrite Htx. cbn [txHashes map snd]. by rewrite <- app_assoc.
  - cbn [failed length] in *. lia.
  - lia.
  - cbn [length]. lia.
Qed.

Lemma executed_sent e es p s tx h s1 err p' s' made created :
  sent s1 = sent s ++ [(tx, h)] -> creates e tx -> ~ confirmed nd h -> waited s <= waited s1 <= waited s + 20000 ->
  executed es {| txHashes := txHashes p; failed := failed p ++ [err] |} s1 p' s' made created ->
  executed (e :: es) p s p' s' ((e, (tx, h)) :: made) created.
Proof.
  intros Hs1 Hc Hh Ht (Hs & Hsub & Hall & Hcr & Hiff & Htx & Hlen & Hw). unfold executed. cbn [fmap list_fmap fst snd].
  cbn [txHashes failed] in *. rewrite length_app in Hlen.
  split_and!; try done; try (cbn [length] in *; lia); try by constructor.
  - by rewrite Hs, Hs1, <- app_assoc.
  - intros m. rewrite elem_of_cons, Hiff. naive_solver.
Qed.

Lemma executed_unsent e es p s s1 err p' s' made created :
  sent s1 = sent s -> waited s <= waited s1 <= waited s + 20000 ->
  executed es {| txHashes := txHashes p; failed := failed p ++ [err] |} s1 p' s' made created ->
  executed (e :: es) p s p' s' made created.
Proof.
  intros Hs1 Ht (Hs & Hsub & Hall & Hcr & Hiff & Htx & Hlen & Hw). unfold executed.
  cbn [txHashes failed] in *. rewrite length_app in Hlen.
  split_and!; try done; try (cbn [length] in *; lia); [by rewrite Hs, Hs1|by constructor].
Qed.

Lemma execute_entries_spec es p s :
  faithful_wallet nd ->
  exists p' s' made created, execute_entries nd key tok es p s = (Returns p', s') /\
    executed es p s p' s' made created.
Proof.
  intros Hw. revert p s. induction es as [|e es IH]; intros p s.
  { exists p, s, [], []. split; [done|apply executed_nil]. }
  cbn [execute_entries]. unfold bind at 1, try_catch, bind at 1.
  destruct (create_entry_once e s Hw) as [Ht H]. destruct (create_entry nd key tok e s) as [[h|err] s1].
  all: cbn [fst snd] in *; unfold ret at 1.
  - destruct H as [[_ H]|(tx & hash & Hs & Hc & H)]; [done|]. destruct (proj1 (H h) eq_refl) as [-> Hh].
    destruct (IH {| txHashes := txHashes p ++ [hash]; failed := failed p |} s1) as (p' & s' & made & created & E & Hx).
    exists p', s'. do 2 eexists. split; [exact E|]. by eapply executed_created.
  - set (err' := (bid e, toSorobanErrorMessage err)).
    destruct (IH {| txHashes := txHashes p; failed := failed p ++ [err'] |} s1) as (p' & s' & made & created & E & Hx).
    destruct H as [[Hs _]|(tx & hash & Hs & Hc & H)].
    + exists p', s', made, created. split; [exact E|]. by eapply executed_unsent.
    + exists p', s'. do 2 eexists. split; [exact E|]. eapply executed_sent; try done.
      intros Hconf. by pose proof (proj2 (H hash) (conj eq_refl Hconf)).
Qed.

(** The calls of all the rows that asked, for the units they asked for. *)
Lemma made_units (made : list Made) units :
  Forall (fun m : Made => creates m.1 m.2.1) made -> Forall2 asks made.*1 units ->
  Forall2 (fun (m : Made) u => creates_units m.1 u m.2.1) made units.
Proof.
  revert units. induction made as [|m made IH]; intros units Hm HF.
  { inversion HF. constructor. }
  inversion Hm as [|? ? [u Hu] Hm']; subst. inversion HF as [|? u' ? units' [Ha _] HF']; subst.
  constructor; [|by apply IH]. pose proof Hu as (? & ? & ? & ? & ? & ? & Ha' & _). rewrite Ha in Ha'. by injection Ha' as ->.
Qed.

(** C21. Executing a reviewed upload makes one call per valid row at most, in the
    order of the rows: a creation for the units the review counted.  The hashes
    shown as created are those the chain confirmed, every other valid row is
    shown as failed, and when no row failed the calls add up to the gross total. *)
Theorem payroll_execution (csv : string) (v : BatchValidationSummary) (token : string) (s : Outbox) :
  faithful_wallet nd -> parseBatchCSV csv = Returns v -> getTokenAddress tokens token = Returns tok ->
  exists p s' made created,
    handleExecute tokens nd key token v s = (Returns p, s') /\
    executed (valid_entries v) {| txHashes := []; failed := [] |} s p s' made created /\
    (failed p = [] -> exists units,
       Forall2 (fun (m : Made) u => creates_units m.1 u m.2.1) created units /\
       sent s' = sent s ++ created.*2 /\ total units = totalGrossAmount v).
Proof.
  intros Hw (units & HF & _ & Hg & _)%parsed_rows Htok. unfold handleExecute, bind, lift. rewrite Htok.
  destruct (execute_entries_spec (valid_entries v) {| txHashes := []; failed := [] |} s Hw)
    as (p & s' & made & created & E & Hx). exists p, s', made, created. split_and!; [exact E|done|].
  intros Hf. destruct Hx as (Hs & Hsub & Hall & Hcr & _ & _ & Hlen & _). rewrite Hf in Hlen. cbn [failed length] in Hlen.
  pose proof (sublist_length _ _ Hsub) as L1. pose proof (sublist_length _ _ Hcr) as L2. rewrite length_fmap in L1.
  assert (created = made) as -> by (apply sublist_same_length; [done|lia]).
  assert (made.*1 = valid_entries v) as Em by (apply sublist_same_length; [done|rewrite length_fmap; lia]).
  exists units. split_and!; [|done|done]. apply made_units; [done|by rewrite Em].
Qed.
End execution.

(** * Payroll uploads and wallet calls: concrete inputs

    The downloadable template executed against a network that confirms at the
    second poll, and what happens to rows the parser should have refused or the
    wizard loses part of. *)

Local Open Scope Z_scope.

(** An SDK for texts of the right format: keys are accounts, [C7] a contract. *)
Definition key_address (s : string) : option ScAddress :=
  if STELLAR_PUBLIC_KEY_REGEX s then Some alice
  else if bool_decide (s = "C7"%string) then Some token else None.
Lemma key_address_val s v :
  ScvAddress <$> key_address s = Some v -> exists a, key_address s = Some a /\ v = ScvAddress a.
Proof. intros H. apply fmap_Some in H as (a & Ha & ->). eauto. Qed.

#[local] Instance key_soroban : SorobanSdk := {|
  new_Address := key_address;
  valid_contract _ := true;
  fromSecret _ := None;
  u64_ScVal := sample_u64;
  u64_ScVal_val := sample_u64_val;
  i128_ScVal := sample_i128;
  i128_ScVal_val := sample_i128_val;
  address_ScVal s := ScvAddress <$> key_address s;
  address_ScVal_val := key_address_val;
  is_AbortError _ := false;
  engine_message _ := "error" |}.

Definition sample_tokens : TokenAddresses := {| USDC := "C7"; XLM := "C7"; EURC := "C7" |}.

(** A network that confirms every transaction at the second poll. *)
Definition slow_node : Node := {|
  contract_id := "C9";
  valid_id _ := true;
  nd_getAccount _ := Returns tt;
  nd_balance _ _ := Returns (SimValue (Some (NativeBigInt 105000000)));
  nd_simulate _ := Returns (SimValue None);
  nd_sign tx := Returns (inl tx);
  nd_send _ := Returns (inl "hash"%string);
  nd_getTransaction _ n := Returns (match n with O => TxUnknown | _ => TxSuccess end) |}.

Lemma slow_wallet_faithful : faithful_wallet slow_node.
Proof. intros tx signed. by intros [= ->]. Qed.

Definition payer : string := "GBBDIOEJGZHV5GFZQB4T7NKZQKRVNDQYXKW6Z3VJXZAVFQKZ5HM5J2EU".
Definition nothing_sent : Outbox := {| sent := []; waited := 0 |}.


Example top_up_confirmed :
  run_op slow_node payer (OpTopUp 7 500) nothing_sent =
  (Returns "hash"%string, {| sent := [({| method := "top_up_stream"; args := [ScvAddress alice; ScvU64 7; i128_parts 500] |}, "hash"%string)];
                             waited := 2000 |}).
Proof. vm_refl. Qed.

Lemma batch_withdrawal_untyped_witness :
  one_call slow_node (fun tx => well_typed tx = false) nothing_sent
    (batchWithdrawFromStreams (fun _ => Some ScvOther) slow_node payer [1; 2] nothing_sent).
Proof. exact (batch_withdrawal_untyped (fun _ => Some ScvOther) slow_node payer [1; 2] nothing_sent slow_wallet_faithful). Defined.

Definition parsed (csv : string) : BatchValidationSummary :=
  match parseBatchCSV csv with Returns v => v | Throws _ => no_rows end.

Lemma payroll_totals_witness :
  let v := parsed generateSampleCSV in
  totalRows v = validRows v + invalidRows v /\
  (exists units, Forall2 asks (valid_entries v) units /\ validRows v = Z.of_nat (length units) /\
     totalGrossAmount v = total units) /\
  0 <= totalGrossAmount v * 250 - 10000 * totalProtocolFee v <= 9999 * validRows v /\
  totalNetDistributed v + totalProtocolFee v = totalGrossAmount v.
Proof. apply (payroll_totals generateSampleCSV (parsed generateSampleCSV)). vm_refl. Defined.

Definition plain_row (a : string) : BatchStreamEntry :=
  {| bid := 1; recipient := payer; amount := a; durationSeconds := "86400"; cliffSeconds := "0" |}.

Lemma payroll_amount_exact_witness :
  amount_errors "1234.5678901" = [] /\ amount_units (trim "1234.5678901") = Returns 12345678901 /\
  toBaseUnits "1234.5678901" 7 = Returns 12345678901.
Proof. apply (payroll_amount_exact (plain_row "1234.5678901") 12345678901); by vm_compute. Defined.

Lemma payroll_execution_witness :
  exists p s' made created,
    handleExecute sample_tokens slow_node payer "USDC" (parsed generateSampleCSV) nothing_sent = (Returns p, s') /\
    executed slow_node payer "C7" (valid_entries (parsed generateSampleCSV))
      {| txHashes := []; failed := [] |} nothing_sent p s' made created /\
    (failed p = [] -> exists units,
       Forall2 (fun m u => creates_units payer "C7" m.1 u m.2.1) created units /\
       sent s' = sent nothing_sent ++ created.*2 /\ total units = totalGrossAmount (parsed generateSampleCSV)).
Proof.
  apply (payroll_execution sample_tokens slow_node payer "C7" generateSampleCSV (parsed generateSampleCSV) "USDC");
    [exact slow_wallet_faithful|vm_refl|vm_refl].
Defined.

(** ** What the wizard does not catch *)

Definition upload (row : string) : string :=
  "recipient,amount,duration_seconds,cliff_seconds" +:+ String LF (payer +:+ "," +:+ row).

(** An infinite amount validates, and converting it throws out of the parser. *)
Example infinite_amount_throws : parseBatchCSV (upload "Infinity,86400,0") = Throws RangeErr.
Proof. vm_refl. Qed.

(** Text after the number is ignored, in amounts and durations alike. *)
Example trailing_text_accepted :
  totalGrossAmount (parsed (upload "12 thousand,30 days,")) = 120000000 /\
  map isValid (entries (parsed (upload "12 thousand,30 days,"))) = [true].
Proof. split; vm_refl. Qed.

(** From 2^53 units on the double is not exact: the row asks for 9007199254740993. *)
Example large_amount_off_by_one :
  totalGrossAmount (parsed (upload "900719925.4740993,86400,0")) = 9007199254740992.
Proof. vm_refl. Qed.

(** A cliff is validated and shown, and the stream is created without it. *)
Example cliff_lost :
  handleExecute sample_tokens slow_node payer "USDC" (parsed (upload "10,86400,3600")) nothing_sent =
  handleExecute sample_tokens slow_node payer "USDC" (parsed (upload "10,86400,0")) nothing_sent.
Proof. vm_refl. Qed.

(** A federated name validates and can never be paid. *)
Example federated_name_fails :
  let csv := "recipient,amount,duration" +:+ String LF "bob@example.org,10,60" in
  map isValid (entries (parsed csv)) = [true] /\
  match (handleExecute sample_tokens slow_node payer "USDC" (parsed csv) nothing_sent).1 with
  | Returns p => txHashes p = [] /\ map fst (failed p) = [1] | Throws _ => False
  end.
Proof. cbv zeta. split; [vm_refl|vm_compute; done]. Qed.

(** Saving an edit writes the columns in the template's order, whatever the
    file's header: here the amount becomes the recipient. *)
Example edit_ignores_header :
  let csv := "amount,recipient,duration" +:+ String LF ("10," +:+ payer +:+ ",60") in
  let v := {| ed_recipient := payer; ed_amount := "20"; ed_durationSeconds := "60"; ed_cliffSeconds := "0" |} in
  map isValid (entries (parsed csv)) = [true] /\
  match edited_csv csv 1 v with
  | Some csv' => map isValid (entries (parsed csv')) = [false] | None => False
  end.
Proof. cbv zeta. split; [vm_refl|vm_compute; done]. Qed.
