(* ===== verification/StreamForm.v ===== *)
(** * The stream form: frontend/src/lib/stream-validation.ts,
    hooks/useStreamForm.ts and components/stream-creation/StreamCreationWizard.tsx

    Validation of the fields, the hook that holds the form with its templates
    and its draft in the browser's storage, and the steps of the wizard.

    A component is mounted ([mount]): its state is initialised and its effects
    run in order.  After that, what the user and the timers do are functions on
    [Page], the state of the hook with the storage; an effect that depends on a
    changed value runs at the end of the function that changes it.  Storage
    accepts every write. *)
From S2P Require Import Prelude JsLang Texts StreamId Json Double Amount Xdr Soroban WalletCalls PayrollFacts.
Local Open Scope Z_scope.

(** ** Validation *)

Record StreamFormData := {
  fd_recipient : string;
  fd_token : string;
  fd_amount : string;
  fd_duration : string;
  fd_durationUnit : DurationUnit;
  fd_descriptionTag : option string
}.

Definition validateRecipient (recipient : string) : option string :=
  let trimmed := trim recipient in
  match trimmed with
  | EmptyString => Some "Recipient address is required"%string
  | _ => if isValidStellarPublicKey trimmed then None
         else Some "Invalid Stellar public key format"%string
  end.

Definition validateToken (token : string) : option string :=
  match trim token with EmptyString => Some "Please select a token"%string | _ => None end.

Definition validateAmount (amount : string) (walletBalance : option string) : option string :=
  let trimmed := trim amount in
  match trimmed with
  | EmptyString => Some "Amount is required"%string
  | _ =>
      let parsed := parseFloat trimmed in
      if not_positive parsed then Some "Amount must be a positive number"%string
      else if negb (hasValidPrecision trimmed 7) then
        Some "Amount exceeds maximum precision (7 decimal places)"%string
      else
        match validateAmountInput trimmed 7 with
        | Some deepCheck => Some deepCheck
        | None =>
            match walletBalance with
            | None | Some EmptyString => None
            | Some balance =>
                if dltb (parseFloat balance) parsed then Some "Amount exceeds wallet balance"%string
                else None
            end
        end
  end.

Definition validateDuration (duration : string) : option string :=
  let trimmed := trim duration in
  match trimmed with
  | EmptyString => Some "Duration is required"%string
  | _ => if not_positive (parseFloat trimmed) then Some "Duration must be a positive number"%string
         else None
  end.

Record StreamFormErrors := {
  err_recipient : option string;
  err_token : option string;
  err_amount : option string;
  err_duration : option string
}.
Definition no_errors : StreamFormErrors :=
  {| err_recipient := None; err_token := None; err_amount := None; err_duration := None |}.

(** [Object.keys(errors).length === 0] *)
Definition error_free (e : StreamFormErrors) : bool :=
  match e with
  | {| err_recipient := None; err_token := None; err_amount := None; err_duration := None |} => true
  | _ => false
  end.

Definition validateStreamForm (data : StreamFormData) (step : option Z) (walletBalance : option string) :
    StreamFormErrors :=
  let shouldValidate (fieldStep : Z) (check : option string) : option string :=
    match step with
    | None => check
    | Some s => if s =? fieldStep then check else None
    end in
  {| err_recipient := shouldValidate 2 (validateRecipient (fd_recipient data));
     err_token := shouldValidate 3 (validateToken (fd_token data));
     err_amount := shouldValidate 4 (validateAmount (fd_amount data) walletBalance);
     err_duration := shouldValidate 5 (validateDuration (fd_duration data)) |}.

(** ** Templates and drafts *)

(** [Partial<StreamFormData>] *)
Record FormUpdates := {
  up_recipient : option string;
  up_token : option string;
  up_amount : option string;
  up_duration : option string;
  up_durationUnit : option DurationUnit;
  up_descriptionTag : option string
}.

Definition no_updates : FormUpdates :=
  {| up_recipient := None; up_token := None; up_amount := None; up_duration := None;
     up_durationUnit := None; up_descriptionTag := None |}.

Definition or_else {A} (o : option A) (a : A) : A := match o with Some x => x | None => a end.

(** [{ ...data, ...updates }] *)
Definition spread (data : StreamFormData) (u : FormUpdates) : StreamFormData := {|
  fd_recipient := or_else (up_recipient u) (fd_recipient data);
  fd_token := or_else (up_token u) (fd_token data);
  fd_amount := or_else (up_amount u) (fd_amount data);
  fd_duration := or_else (up_duration u) (fd_duration data);
  fd_durationUnit := or_else (up_durationUnit u) (fd_durationUnit data);
  fd_descriptionTag := match up_descriptionTag u with Some t => Some t | None => fd_descriptionTag data end
|}.

(** [delete next[key]] for every key of the updates *)
Definition clear_errors (e : StreamFormErrors) (u : FormUpdates) : StreamFormErrors :=
  let clear {A} (updated : option A) (err : option string) : option string :=
    match updated with Some _ => None | None => err end in
  {| err_recipient := clear (up_recipient u) (err_recipient e);
     err_token := clear (up_token u) (err_token e);
     err_amount := clear (up_amount u) (err_amount e);
     err_duration := clear (up_duration u) (err_duration e) |}.

Record StreamTemplate := {
  tp_id : string;
  tp_name : string;
  tp_description : string;
  tp_values : FormUpdates
}.

Definition DEFAULT_FORM_DATA : StreamFormData :=
  {| fd_recipient := ""; fd_token := "USDC"; fd_amount := ""; fd_duration := "";
     fd_durationUnit := days; fd_descriptionTag := Some ""%string |}.

Definition template_values (token amount duration : string) (u : DurationUnit) (tag : string) : FormUpdates :=
  {| up_recipient := None; up_token := Some token; up_amount := Some amount; up_duration := Some duration;
     up_durationUnit := Some u; up_descriptionTag := Some tag |}.

Definition BUILT_IN_TEMPLATES : list StreamTemplate := [
  {| tp_id := "monthly-salary"; tp_name := "Monthly Salary";
     tp_description := "Recurring monthly payroll stream";
     tp_values := template_values "USDC" "5000" "1" months "salary" |};
  {| tp_id := "weekly-subscription"; tp_name := "Weekly Subscription";
     tp_description := "Weekly recurring subscription billing";
     tp_values := template_values "USDC" "49" "1" weeks "subscription" |};
  {| tp_id := "one-time-grant"; tp_name := "One-time Grant";
     tp_description := "Short fixed-duration grant payout";
     tp_values := template_values "USDC" "1000" "14" days "grant" |};
  {| tp_id := "custom"; tp_name := "Custom";
     tp_description := "Start with blank defaults";
     tp_values := template_values "USDC" "" "" days "custom" |}].

(** ** What is stored *)

Definition unit_name (u : DurationUnit) : string :=
  match u with
  | seconds => "seconds" | minutes => "minutes" | hours => "hours"
  | days => "days" | weeks => "weeks" | months => "months"
  end.
Definition unit_of_name (s : string) : option DurationUnit :=
  match s with
  | "seconds" => Some seconds | "minutes" => Some minutes | "hours" => Some hours
  | "days" => Some days | "weeks" => Some weeks | "months" => Some months
  | _ => None
  end%string.

Definition text_opt (j : Json) : option string := match j with JString s => Some s | _ => None end.
Definition json_opt (o : option string) : Json := match o with Some s => JString s | None => JUndefined end.

(** A draft as it was read back.  A field of another type, which [saveDraft]
    never writes, reads as missing; a missing text as the empty one. *)
Record DraftPayload := {
  dr_recipient : string;
  dr_token : string;
  dr_amount : string;
  dr_duration : string;
  dr_durationUnit : option DurationUnit;
  dr_descriptionTag : option string;
  dr_savedAt : Z
}.

Definition blank (s : string) : bool := match trim s with EmptyString => true | _ => false end.

Definition parse_draft (raw : string) : option DraftPayload :=
  match JSON_parse raw with
  | Throws _ => None
  | Returns parsed =>
      match member "recipient" parsed, member "amount" parsed with
      | JString recipient, JString amount =>
          if blank recipient && blank amount then None
          else Some {|
            dr_recipient := recipient;
            dr_token := or_else (text_opt (member "token" parsed)) EmptyString;
            dr_amount := amount;
            dr_duration := or_else (text_opt (member "duration" parsed)) EmptyString;
            dr_durationUnit := text_opt (member "durationUnit" parsed) ≫= unit_of_name;
            dr_descriptionTag := text_opt (member "descriptionTag" parsed);
            dr_savedAt := match member "savedAt" parsed with JNumber n => n | _ => 0 end |}
      | _, _ => None
      end
  end.

Definition draft_json (now : Z) (data : StreamFormData) : Json :=
  JObject [("recipient", JString (fd_recipient data)); ("token", JString (fd_token data));
           ("amount", JString (fd_amount data)); ("duration", JString (fd_duration data));
           ("durationUnit", JString (unit_name (fd_durationUnit data)));
           ("descriptionTag", json_opt (fd_descriptionTag data)); ("savedAt", JNumber now)]%string.

Record Browser := { session : gmap string string; local : gmap string string }.

Definition DEFAULT_TEMPLATE_STORAGE_KEY : string := "flowfi.stream.templates.v1".
Definition DEFAULT_DRAFT_STORAGE_KEY : string := "flowfi.create-stream.draft.v1".

Definition loadDraft (key : string) (b : Browser) : option DraftPayload :=
  match session b !! key with
  | None | Some EmptyString => None
  | Some raw => parse_draft raw
  end.

Definition saveDraft (key : string) (now : Z) (data : StreamFormData) (b : Browser) : Browser :=
  if blank (fd_recipient data) && blank (fd_amount data) then b
  else {| session := <[key := JSON_stringify (draft_json now data)]> (session b); local := local b |}.

Definition clearDraft (key : string) (b : Browser) : Browser :=
  {| session := delete key (session b); local := local b |}.

Definition values_json (u : FormUpdates) : Json :=
  JObject [("recipient", json_opt (up_recipient u)); ("token", json_opt (up_token u));
           ("amount", json_opt (up_amount u)); ("duration", json_opt (up_duration u));
           ("durationUnit", json_opt (unit_name <$> up_durationUnit u));
           ("descriptionTag", json_opt (up_descriptionTag u))]%string.
Definition values_of_json (j : Json) : FormUpdates := {|
  up_recipient := text_opt (member "recipient" j);
  up_token := text_opt (member "token" j);
  up_amount := text_opt (member "amount" j);
  up_duration := text_opt (member "duration" j);
  up_durationUnit := text_opt (member "durationUnit" j) ≫= unit_of_name;
  up_descriptionTag := text_opt (member "descriptionTag" j)
|}.

Definition template_json (t : StreamTemplate) : Json :=
  JObject [("id", JString (tp_id t)); ("name", JString (tp_name t));
           ("description", JString (tp_description t)); ("values", values_json (tp_values t))]%string.

(** The items that have an id and a name. *)
Definition template_of_json (item : Json) : option StreamTemplate :=
  match member "id" item, member "name" item with
  | JString id, JString name =>
      Some {| tp_id := id; tp_name := name;
              tp_description := match member "description" item with
                                | JString EmptyString => "Saved custom template"
                                | JString d => d
                                | _ => "Saved custom template"
                                end;
              tp_values := values_of_json (member "values" item) |}
  | _, _ => None
  end.

Definition loadCustomTemplates (key : string) (b : Browser) : list StreamTemplate :=
  match local b !! key with
  | None | Some EmptyString => []
  | Some stored =>
      match JSON_parse stored with
      | Returns (JArray items) => omap template_of_json items
      | _ => []
      end
  end.

Definition persistCustomTemplates (key : string) (items : list StreamTemplate) (b : Browser) : Browser :=
  {| session := session b; local := <[key := JSON_stringify (JArray (map template_json items))]> (local b) |}.

(** ** The hook *)

Record UseStreamFormOptions := {
  initialData : option FormUpdates;
  templateStorageKey : string;
  enableDraftPersistence : bool;
  draftStorageKey : string
}.

Record Page := {
  formData : StreamFormData;
  form_errors : StreamFormErrors;
  walletBalance : option string;
  customTemplates : list StreamTemplate;
  selectedTemplateId : option string;
  restoredDraft : option DraftPayload;
  draftDiscarded : bool;
  browser : Browser
}.

Definition set_form (data : StreamFormData) (e : StreamFormErrors) (p : Page) : Page :=
  {| formData := data; form_errors := e; walletBalance := walletBalance p;
     customTemplates := customTemplates p; selectedTemplateId := selectedTemplateId p;
     restoredDraft := restoredDraft p; draftDiscarded := draftDiscarded p; browser := browser p |}.
Definition set_templates (items : list StreamTemplate) (selected : option string) (p : Page) : Page :=
  {| formData := formData p; form_errors := form_errors p; walletBalance := walletBalance p;
     customTemplates := items; selectedTemplateId := selected;
     restoredDraft := restoredDraft p; draftDiscarded := draftDiscarded p; browser := browser p |}.
Definition set_balance (balance : option string) (p : Page) : Page :=
  {| formData := formData p; form_errors := form_errors p; walletBalance := balance;
     customTemplates := customTemplates p; selectedTemplateId := selectedTemplateId p;
     restoredDraft := restoredDraft p; draftDiscarded := draftDiscarded p; browser := browser p |}.
Definition set_discarded (p : Page) : Page :=
  {| formData := formData p; form_errors := form_errors p; walletBalance := walletBalance p;
     customTemplates := customTemplates p; selectedTemplateId := selectedTemplateId p;
     restoredDraft := restoredDraft p; draftDiscarded := true; browser := browser p |}.
Definition set_browser (b : Browser) (p : Page) : Page :=
  {| formData := formData p; form_errors := form_errors p; walletBalance := walletBalance p;
     customTemplates := customTemplates p; selectedTemplateId := selectedTemplateId p;
     restoredDraft := restoredDraft p; draftDiscarded := draftDiscarded p; browser := b |}.

Section hook.
Context (options : UseStreamFormOptions).

(** The effect on [customTemplates]. *)
Definition persist_templates (p : Page) : Page :=
  set_browser (persistCustomTemplates (templateStorageKey options) (customTemplates p) (browser p)) p.

Definition initial_form (draft : option DraftPayload) : StreamFormData :=
  match draft with
  | Some d =>
      {| fd_recipient := dr_recipient d; fd_token := dr_token d; fd_amount := dr_amount d;
         fd_duration := dr_duration d;
         fd_durationUnit := or_else (dr_durationUnit d) (fd_durationUnit DEFAULT_FORM_DATA);
         fd_descriptionTag :=
           match dr_descriptionTag d with Some t => Some t | None => fd_descriptionTag DEFAULT_FORM_DATA end |}
  | None => match initialData options with Some u => spread DEFAULT_FORM_DATA u | None => DEFAULT_FORM_DATA end
  end.

(** The state of a hook whose component appears: the initial values, then the
    effects in their order.  The effect on the templates runs at once, on the
    empty list the state starts with; those of the balance, the draft and the
    hydration only start a request and two timers. *)
Definition mount (b : Browser) : Page :=
  let draft := if enableDraftPersistence options then loadDraft (draftStorageKey options) b else None in
  persist_templates
    {| formData := initial_form draft; form_errors := no_errors; walletBalance := None;
       customTemplates := []; selectedTemplateId := None; restoredDraft := draft;
       draftDiscarded := false; browser := b |}.

(** The timer of the hydration effect: it fires once, after the effects. *)
Definition hydrate (p : Page) : Page :=
  persist_templates
    (set_templates (loadCustomTemplates (templateStorageKey options) (browser p)) (selectedTemplateId p) p).

(** The timer of the draft effect, half a second after the last change. *)
Definition draft_timer (now : Z) (p : Page) : Page :=
  if enableDraftPersistence options
  then set_browser (saveDraft (draftStorageKey options) now (formData p) (browser p)) p
  else p.

(** The answer to the balance request; [None]: it failed. *)
Definition balance_answer (balance : option string) (p : Page) : Page := set_balance balance p.

Definition hasDraft (p : Page) : bool := is_some (restoredDraft p) && negb (draftDiscarded p).
Definition allTemplates (p : Page) : list StreamTemplate := BUILT_IN_TEMPLATES ++ customTemplates p.

Definition updateFormData (updates : FormUpdates) (p : Page) : Page :=
  set_form (spread (formData p) updates) (clear_errors (form_errors p) updates) p.

Definition resetForm (p : Page) : Page :=
  let p := set_templates (customTemplates p) None (set_form DEFAULT_FORM_DATA no_errors p) in
  if enableDraftPersistence options
  then set_browser (clearDraft (draftStorageKey options) (browser p)) p else p.

Definition validate_with (step : option Z) (p : Page) : Page * bool :=
  let newErrors := validateStreamForm (formData p) step (walletBalance p) in
  (set_form (formData p) newErrors p, error_free newErrors).
Definition validateStep (step : Z) : Page -> Page * bool := validate_with (Some step).
Definition validateAll : Page -> Page * bool := validate_with None.

Definition set_amount (a : string) : FormUpdates :=
  {| up_recipient := None; up_token := None; up_amount := Some a; up_duration := None;
     up_durationUnit := None; up_descriptionTag := None |}.

Definition setMaxAmount (p : Page) : Page :=
  match walletBalance p with
  | None | Some EmptyString => p
  | Some balance => updateFormData (set_amount balance) p
  end.

(** [template.values.x ?? formData.x] for every field but the recipient *)
Definition applied_values (v : FormUpdates) (data : StreamFormData) : FormUpdates := {|
  up_recipient := None;
  up_token := Some (or_else (up_token v) (fd_token data));
  up_amount := Some (or_else (up_amount v) (fd_amount data));
  up_duration := Some (or_else (up_duration v) (fd_duration data));
  up_durationUnit := Some (or_else (up_durationUnit v) (fd_durationUnit data));
  up_descriptionTag := match up_descriptionTag v with Some t => Some t | None => fd_descriptionTag data end
|}.

Definition applyTemplate (templateId : string) (p : Page) : Page * option string :=
  match List.find (fun t => bool_decide (tp_id t = templateId)) (allTemplates p) with
  | None => (p, None)
  | Some template =>
      (updateFormData (applied_values (tp_values template) (formData p))
         (set_templates (customTemplates p) (Some templateId) p),
       Some ("Applied template " +:+ dquote +:+ tp_name template +:+ dquote +:+
             ". You can still edit every field."))
  end.

Definition empty (s : string) : bool := match s with EmptyString => true | _ => false end.

Definition saveCustomTemplate (now : Z) (name : string) (p : Page) : Page * option string :=
  let data := formData p in
  let tag := match fd_descriptionTag data with Some EmptyString | None => None | t => t end in
  match trim name with
  | EmptyString => (p, Some "Enter a template name first."%string)
  | cleanedName =>
      if empty (fd_amount data) || empty (fd_duration data) || empty (fd_token data) then
        (p, Some "Set amount, duration, and token before saving a custom template."%string)
      else
        let newTemplate := {|
          tp_id := "custom-" +:+ BigInt_toString now;
          tp_name := cleanedName;
          tp_description := match tag with Some t => "Tag: " +:+ t | None => "Saved custom template" end;
          tp_values := template_values (fd_token data) (fd_amount data) (fd_duration data)
                         (fd_durationUnit data) (or_else tag "custom"%string) |} in
        (persist_templates (set_templates (newTemplate :: customTemplates p) (Some (tp_id newTemplate)) p), None)
  end.

Definition deleteCustomTemplate (templateId : string) (p : Page) : Page :=
  persist_templates
    (set_templates (List.filter (fun t => negb (bool_decide (tp_id t = templateId))) (customTemplates p))
       (if bool_decide (selectedTemplateId p = Some templateId) then None else selectedTemplateId p) p).

Definition discardDraft (p : Page) : Page :=
  set_form DEFAULT_FORM_DATA (form_errors p)
    (set_discarded (set_browser (clearDraft (draftStorageKey options) (browser p)) p)).
End hook.

(** ** The wizard *)

Definition STEPS : Z := 5.

Record WizardState := { wz_step : Z; wz_page : Page }.

(** What can happen in the wizard: the controls of the step that is shown, the
    two buttons, the balance arriving and the hydration timer. *)
Inductive wizard_step (options : UseStreamFormOptions) : WizardState -> WizardState -> Prop :=
| WzApplyTemplate id p :
    wizard_step options {| wz_step := 1; wz_page := p |}
      {| wz_step := 1; wz_page := (applyTemplate id p).1 |}
| WzSaveTemplate now name p :
    wizard_step options {| wz_step := 1; wz_page := p |}
      {| wz_step := 1; wz_page := (saveCustomTemplate options now name p).1 |}
| WzEdit k u p :
    (k = 2 /\ u = {| up_recipient := up_recipient u; up_token := None; up_amount := None; up_duration := None;
                     up_durationUnit := None; up_descriptionTag := None |} \/
     k = 3 /\ u = {| up_recipient := None; up_token := up_token u; up_amount := None; up_duration := None;
                     up_durationUnit := None; up_descriptionTag := None |} \/
     k = 4 /\ u = {| up_recipient := None; up_token := None; up_amount := up_amount u; up_duration := None;
                     up_durationUnit := None; up_descriptionTag := None |} \/
     k = 5 /\ u = {| up_recipient := None; up_token := None; up_amount := None; up_duration := up_duration u;
                     up_durationUnit := up_durationUnit u; up_descriptionTag := None |}) ->
    wizard_step options {| wz_step := k; wz_page := p |} {| wz_step := k; wz_page := updateFormData u p |}
| WzSetMax p :
    wizard_step options {| wz_step := 4; wz_page := p |} {| wz_step := 4; wz_page := setMaxAmount p |}
| WzNext k p :
    (* handleNext: the step is validated; it is left when that succeeds *)
    let '(p', ok) := validateStep k p in
    wizard_step options {| wz_step := k; wz_page := p |}
      {| wz_step := if ok && (k <? STEPS) then k + 1 else k; wz_page := p' |}
| WzBack k p :
    wizard_step options {| wz_step := k; wz_page := p |}
      {| wz_step := if 1 <? k then k - 1 else k; wz_page := p |}
| WzBalance k balance p :
    wizard_step options {| wz_step := k; wz_page := p |} {| wz_step := k; wz_page := balance_answer balance p |}
| WzHydrate k p :
    wizard_step options {| wz_step := k; wz_page := p |} {| wz_step := k; wz_page := hydrate options p |}.

Definition wizard_start (options : UseStreamFormOptions) (b : Browser) : WizardState :=
  {| wz_step := 1; wz_page := mount options b |}.

Definition wizard_reachable (options : UseStreamFormOptions) (b : Browser) : WizardState -> Prop :=
  rtc (wizard_step options) (wizard_start options b).

(** [handleSubmit], offered on the last step: what is handed to [onSubmit]. *)
Definition handleSubmit (w : WizardState) : option StreamFormData :=
  if (validateStep (wz_step w) (wz_page w)).2 then Some (formData (wz_page w)) else None.

(** *** Waiting for the indexer: [startPolling] *)

Definition TIMEOUT_MS : Z := 30000.
Definition POLL_INTERVAL : Z := 2000.

(** One request for the streams of the sender: how long it took, and what the
    body holds; [Throws]: it failed, or its body is no JSON. *)
Record Fetch := { ft_took : Z; ft_payload : outcome Json }.

(** The streams of an answer.  The server sends an array, or an object whose
    [data], if it has one, is an array. *)
Definition payload_streams (payload : Json) : outcome (list Json) :=
  match payload with
  | JArray xs => Returns xs
  | JNull => Throws TypeErr
  | _ => Returns match member "data" payload with JArray xs => xs | _ => [] end
  end.

(** The stream the wizard takes for the one that was created: the first of the
    answer. *)
Definition first_stream (f : Fetch) : option Json :=
  match (let? payload := ft_payload f in payload_streams payload) with
  | Returns (newStream :: _) => Some newStream
  | _ => None
  end.

Inductive Polled := Confirmed (newStream : Json) | TimedOut.

(** The loop from its [n]-th request on, with the number of requests made;
    [None]: it is still running after [fuel] turns. *)
Fixpoint startPolling (fuel n : nat) (elapsed : Z) (fetch : nat -> Fetch) : option (Polled * nat) :=
  match fuel with
  | O => None
  | S fuel' =>
      if elapsed <? TIMEOUT_MS then
        let elapsed := elapsed + ft_took (fetch n) in
        match first_stream (fetch n) with
        | Some newStream => Some (Confirmed newStream, S n)
        | None => startPolling fuel' (S n) (elapsed + POLL_INTERVAL) fetch
        end
      else Some (TimedOut, n)
  end.

(** ** Submitting a form: app/streams/create/create-stream-content.tsx *)

Section submit.
Context {Sdk : SorobanSdk} (tokens : TokenAddresses) (nd : Node).

(** The parameters the full-page form sends; [unit_] is the unit it assumes. *)
Definition stream_params (unit_ : DurationUnit) (data : StreamFormData) : outcome CreateStreamParams :=
  let? amountBigInt := toBaseUnits (fd_amount data) 7 in
  let? durationBigInt := toDurationSeconds (fd_duration data) unit_ in
  let? tokenAddress := getTokenAddress tokens (fd_token data) in
  Returns {| cp_recipient := fd_recipient data; cp_tokenAddress := tokenAddress;
             cp_amount := amountBigInt; cp_durationSeconds := durationBigInt |}.

(** The form's [handleSubmit]: nothing is sent unless every field validates;
    the draft is discarded once the stream exists. *)
Definition submitPage (options : UseStreamFormOptions) (publicKey : string) :
    Js (Page * Outbox) (option (outcome string)) :=
  fun s =>
    let '(p, ok) := validateAll s.1 in
    if negb ok then (Returns None, (p, s.2))
    else
      match (let! params := lift (stream_params days (formData p)) in createStream nd publicKey params) s.2 with
      | (Returns txHash, o) => (Returns (Some (Returns txHash)), (discardDraft options p, o))
      | (Throws e, o) => (Returns (Some (Throws e)), (p, o))
      end.
End submit.

(** * The stream form: properties

    What the form accepts can be paid; a wizard that reaches its last step has
    validated the fields of the others; a draft comes back as it was; custom
    templates are written faithfully, and erased by the next mount. *)

From stdpp Require Import relations.
Local Open Scope Z_scope.

(** ** Accepted forms *)

Lemma error_free_fields data step balance :
  error_free (validateStreamForm data step balance) = true ->
  err_recipient (validateStreamForm data step balance) = None /\
  err_token (validateStreamForm data step balance) = None /\
  err_amount (validateStreamForm data step balance) = None /\
  err_duration (validateStreamForm data step balance) = None.
Proof. unfold error_free. by destruct (validateStreamForm data step balance) as [[] [] [] []]. Qed.

Lemma validateRecipient_key r : validateRecipient r = None -> isValidStellarPublicKey (trim r) = true.
Proof. unfold validateRecipient. destruct (trim r); [done|]. by case_match. Qed.

Lemma validateAmount_input a balance :
  validateAmount a balance = None ->
  validateAmountInput (trim a) 7 = None /\ validateAmount a None = None /\
  (forall b, balance = Some b -> b <> EmptyString -> dltb (parseFloat b) (parseFloat (trim a)) = false).
Proof.
  unfold validateAmount. destruct (trim a) as [|c s] eqn:E; [done|]. rewrite <- E.
  destruct (not_positive _); [done|]. destruct (negb (hasValidPrecision _ _)); [done|].
  destruct (validateAmountInput (trim a) 7); [done|].
  intros Hb. split_and!; [done|done|]. intros b -> Hne. destruct b; [done|]. by destruct (dltb _ _).
Qed.

Lemma trim_idem s : trim (trim s) = trim s.
Proof.
  unfold trim. assert (forall t, trim_end (trim_end t) = trim_end t) as He.
  { induction t as [|c t IH]; [done|]. simpl. destruct (trim_end t) as [|x u] eqn:E.
    - destruct (is_ws c) eqn:Hc; [done|]. simpl. by rewrite Hc.
    - cbn [trim_end] in IH |- *. by rewrite IH. }
  assert (match trim_start s with String c _ => is_ws c = false | _ => True end) as Ht.
  { induction s as [|c s IH]; [done|]. simpl. by destruct (is_ws c) eqn:Hc. }
  destruct (trim_start s) as [|c t]; [done|]. rewrite trim_end_cons by done. simpl. rewrite Ht.
  rewrite <- trim_end_cons by done. apply He.
Qed.

Lemma validateDuration_positive d : validateDuration d = None -> not_positive (parseFloat d) = false.
Proof.
  unfold validateDuration. destruct (trim d) eqn:E; [done|]. rewrite <- E, parseFloat_trim. by destruct (not_positive _).
Qed.

Lemma parseAmount_trim a d : parseAmount (trim a) d = parseAmount a d.
Proof. unfold parseAmount. by rewrite trim_idem. Qed.

(** The number of whole units a positive duration is rounded to. *)
Definition rounded (x : double) : outcome Z := BigInt_double (Math_round x).

Lemma rounded_positive x n :
  not_positive x = false -> rounded x = Returns n -> 0 <= n.
Proof.
  pose proof TICK_pos as HT. unfold not_positive. intros [_ H]%orb_false_iff.
  destruct x as [| |t]; [done..|]. simpl in H. apply Z.leb_gt in H.
  unfold rounded, Math_round, on_ticks, BigInt_double. rewrite Z.mod_mul, Z.div_mul by lia.
  intros [= <-]. apply Z.div_pos; lia.
Qed.

(** Whatever a form or a wizard accepts can be turned into a call: the recipient
    is a public key but for white space, the amount is a positive number of base
    units, read exactly below 2^51 and not above the balance that was shown, and
    the duration, if it is finite, is a whole number of units — which may be
    none: anything below half a unit is rounded to zero. *)
Theorem accepted_form_payable (data : StreamFormData) (balance : option string) (u : DurationUnit) :
  error_free (validateStreamForm data None balance) = true ->
  isValidStellarPublicKey (trim (fd_recipient data)) = true /\ trim (fd_token data) <> EmptyString /\
  (exists raw, parseAmount (fd_amount data) 7 = Returns raw /\ 0 < raw /\
     (raw < 2 ^ 51 -> toBaseUnits (fd_amount data) 7 = Returns raw)) /\
  (forall b, balance = Some b -> b <> EmptyString ->
     dltb (parseFloat b) (parseFloat (fd_amount data)) = false) /\
  match rounded (parseFloat (fd_duration data)) with
  | Returns n => 0 <= n /\ toDurationSeconds (fd_duration data) u = Returns (n * SECONDS_PER_UNIT u)
  | Throws e => toDurationSeconds (fd_duration data) u = Throws e
  end.
Proof.
  intros (Hr & Ht & Ha & Hd)%error_free_fields. simpl in *.
  apply validateAmount_input in Ha as (Hin & _ & Hb). split_and!.
  - by apply validateRecipient_key.
  - unfold validateToken in Ht. by destruct (trim (fd_token data)).
  - pose proof (validated_reads _ _ Hin) as (Hn & _ & Hp & Hread). rewrite parseAmount_trim in Hread.
    eexists. split; [exact Hread|]. pose proof (positive_digits _ Hn Hp).
    pose proof (pow10_pos (7 - String.length (default EmptyString (after_dot (trim (trim (fd_amount data))))))).
    split; [nia|]. intros Hlt. rewrite trim_idem, parseFloat_trim in Hp. unfold toBaseUnits. rewrite Hp.
    pose proof (validated_scaled _ 7 _ Hin ltac:(lia) (eq_trans (parseAmount_trim _ _) Hread) Hlt) as Hs.
    rewrite (parseFloat_trim (trim _)), parseFloat_trim in Hs. exact Hs.
  - intros b Hbal Hne. rewrite <- (parseFloat_trim (fd_amount data)). by apply Hb.
  - apply validateDuration_positive in Hd. unfold toDurationSeconds. rewrite Hd.
    change (BigInt_double (Math_round ?x)) with (rounded x). destruct (rounded _) eqn:E; simpl; [|done].
    split; [by eapply rounded_positive|done].
Qed.

(** ** The wizard *)

(** The fields of the steps that were left are valid; of the amount, as far as it
    does not depend on the balance. *)
Definition wizard_inv (w : WizardState) : Prop :=
  let data := formData (wz_page w) in
  1 <= wz_step w <= STEPS /\
  (2 < wz_step w -> validateRecipient (fd_recipient data) = None) /\
  (3 < wz_step w -> validateToken (fd_token data) = None) /\
  (4 < wz_step w -> validateAmount (fd_amount data) None = None).

Lemma step_field data k balance :
  error_free (validateStreamForm data (Some k) balance) = true ->
  (k = 2 -> validateRecipient (fd_recipient data) = None) /\
  (k = 3 -> validateToken (fd_token data) = None) /\
  (k = 4 -> validateAmount (fd_amount data) balance = None) /\
  (k = 5 -> validateDuration (fd_duration data) = None).
Proof.
  intros (Hr & Ht & Ha & Hd)%error_free_fields. simpl in *.
  split_and!; intros ->; [exact Hr|exact Ht|exact Ha|exact Hd].
Qed.

Lemma wizard_step_inv options w w' : wizard_step options w w' -> wizard_inv w -> wizard_inv w'.
Proof.
  unfold wizard_inv, STEPS. intros H. destruct H as [id p|now name p|k u p Hu|p|k p|k p|k balance p|k p]; cbn [wz_step wz_page].
  - intros _. split_and!; intros; lia.
  - intros _. split_and!; intros; lia.
  - intros (Hk & Hr & Ht & Ha). destruct Hu as [[-> ->]|[[-> ->]|[[-> ->]|[-> ->]]]];
      split_and!; intros; try lia; simpl; auto with lia.
  - intros (Hk & Hr & Ht & Ha). unfold setMaxAmount. destruct (walletBalance p) as [[|c b]|];
      split_and!; intros; try lia; simpl; auto with lia.
  - unfold validateStep, validate_with. cbn [fst snd wz_step wz_page formData set_form].
    intros (Hk & Hr & Ht & Ha). destruct (error_free _) eqn:E; cbn [andb]; [|split_and!; done || lia].
    apply step_field in E as (E2 & E3 & E4 & _).
    unfold STEPS. destruct (Z.ltb_spec k 5); [|split_and!; done || lia].
    split_and!; try lia; intros.
    + destruct (decide (k = 2)); auto with lia.
    + destruct (decide (k = 3)); auto with lia.
    + destruct (decide (k = 4)) as [E|]; [|auto with lia]. by apply E4, validateAmount_input in E as (_ & ? & _).
  - intros (Hk & Hr & Ht & Ha). destruct (Z.ltb_spec 1 k); cbv iota; split_and!; intros; try lia; auto with lia.
  - done.
  - done.
Qed.

(** C23. Whatever the user does in the wizard, what it submits on its last step has
    been validated field by field: going back, editing and applying templates
    never let an unchecked field through. *)
Theorem wizard_submits_validated (options : UseStreamFormOptions) (b : Browser) (w : WizardState) (data : StreamFormData) :
  wizard_reachable options b w -> wz_step w = STEPS -> handleSubmit w = Some data ->
  data = formData (wz_page w) /\ error_free (validateStreamForm data None None) = true.
Proof.
  intros Hreach Hstep Hsub. assert (wizard_inv w) as (_ & Hr & Ht & Ha).
  { unfold wizard_reachable in Hreach. assert (wizard_inv (wizard_start options b)) as H0
      by (unfold wizard_inv, wizard_start, STEPS; simpl; split_and!; intros; lia).
    revert H0. induction Hreach; [done|]. intros. by eapply IHHreach, wizard_step_inv. }
  unfold handleSubmit, validateStep, validate_with in Hsub. cbn [snd] in Hsub.
  destruct (error_free _) eqn:E; [|done]. injection Hsub as <-. split; [done|].
  apply step_field in E as (_ & _ & _ & Hd). rewrite Hstep in *. unfold STEPS in *.
  unfold error_free, validateStreamForm. by rewrite Hr, Ht, Ha, Hd by lia.
Qed.

(** *** Waiting for the indexer *)

(** What a run of the loop from request [n] on shows, after [m] requests in all. *)
Definition poll_result (fetch : nat -> Fetch) (n m : nat) (r : Polled) : Prop :=
  match r with
  | Confirmed x => exists k, m = S k /\ (n <= k)%nat /\ first_stream (fetch k) = Some x /\
      forall j, (n <= j < k)%nat -> first_stream (fetch j) = None
  | TimedOut => forall j, (n <= j < m)%nat -> first_stream (fetch j) = None
  end.

Lemma polling_from fetch fuel n elapsed :
  (forall k, 0 <= ft_took (fetch k)) -> TIMEOUT_MS <= elapsed + POLL_INTERVAL * Z.of_nat fuel ->
  exists r m, startPolling (S fuel) n elapsed fetch = Some (r, m) /\ (m <= n + fuel)%nat /\ poll_result fetch n m r.
Proof.
  intros Ht. unfold TIMEOUT_MS, POLL_INTERVAL. revert n elapsed. induction fuel as [|fuel IH]; intros n elapsed Hfuel.
  - cbn [startPolling]. unfold TIMEOUT_MS. rewrite (proj2 (Z.ltb_ge elapsed 30000)) by lia.
    eexists _, _. split; [done|]. split; [lia|]. intros j Hj. lia.
  - remember (S fuel) as fuel1. cbn [startPolling]. subst fuel1. unfold TIMEOUT_MS.
    destruct (Z.ltb_spec elapsed 30000) as [Hlt|Hge].
    2: { eexists _, _. split; [done|]. split; [lia|]. intros j Hj. lia. }
    pose proof (Ht n) as Hn. destruct (first_stream (fetch n)) as [x|] eqn:Ef.
    + exists (Confirmed x), (S n). split; [done|]. split; [lia|]. exists n. split_and!; [done|lia|done|lia].
    + destruct (IH (S n) (elapsed + ft_took (fetch n) + POLL_INTERVAL)) as (r & m & Hr & Hm & Hres);
        [unfold POLL_INTERVAL; lia|]. exists r, m. split; [exact Hr|]. split; [lia|].
      assert (forall k, (n <= k)%nat -> n = k \/ (S n <= k)%nat) as Hcase by lia.
      destruct r as [x|]; cbn [poll_result] in *.
      * destruct Hres as (k & -> & Hk & Hx & Hnone). exists k. split_and!; [done|lia|done|].
        intros j [Hj Hjk]. destruct (Hcase j Hj) as [<-|?]; [done|by apply Hnone].
      * intros j [Hj Hjm]. destruct (Hcase j Hj) as [<-|?]; [done|by apply Hres].
Qed.

(** Waiting for a created stream ends after fifteen requests at most, however
    long they take; it shows the first stream of the first answer that has any —
    so to a sender who had a stream before, the first request confirms an old one,
    whatever became of the new — and times out only if no answer had one. *)
Theorem wizard_polling_ends (fetch : nat -> Fetch) :
  (forall k, 0 <= ft_took (fetch k)) ->
  exists r m, startPolling 16 0 0 fetch = Some (r, m) /\ (m <= 15)%nat /\ poll_result fetch 0 m r /\
    (forall old, first_stream (fetch 0%nat) = Some old -> r = Confirmed old /\ m = 1%nat).
Proof.
  intros Ht. destruct (polling_from fetch 15 0 0 Ht ltac:(done)) as (r & m & Hr & Hm & Hres).
  exists r, m. split_and!; [exact Hr|exact Hm|exact Hres|].
  intros old Hold. cbn [startPolling] in Hr. unfold TIMEOUT_MS in Hr. cbn [Z.ltb Z.compare] in Hr. rewrite Hold in Hr.
  by injection Hr as <- <-.
Qed.

(** ** Drafts *)

Lemma unit_of_unit_name u : unit_of_name (unit_name u) = Some u.
Proof. by destruct u. Qed.

Lemma unit_bind u : text_opt (JString (unit_name u)) ≫= unit_of_name = Some u.
Proof. apply unit_of_unit_name. Qed.

Lemma stringify_object_nonempty fs : exists c s, JSON_stringify (JObject fs) = String c s.
Proof. by do 2 eexists. Qed.

Definition draft_of (now : Z) (data : StreamFormData) : DraftPayload := {|
  dr_recipient := fd_recipient data; dr_token := fd_token data; dr_amount := fd_amount data;
  dr_duration := fd_duration data; dr_durationUnit := Some (fd_durationUnit data);
  dr_descriptionTag := fd_descriptionTag data; dr_savedAt := now |}.

Lemma saved_draft_loads key now data b :
  blank (fd_recipient data) && blank (fd_amount data) = false ->
  loadDraft key (saveDraft key now data b) = Some (draft_of now data).
Proof.
  intros Hb. unfold loadDraft, saveDraft. rewrite Hb. cbn [session]. rewrite lookup_insert_eq.
  destruct (stringify_object_nonempty
    [("recipient", JString (fd_recipient data)); ("token", JString (fd_token data));
     ("amount", JString (fd_amount data)); ("duration", JString (fd_duration data));
     ("durationUnit", JString (unit_name (fd_durationUnit data)));
     ("descriptionTag", json_opt (fd_descriptionTag data)); ("savedAt", JNumber now)]%string) as (c & s & E).
  unfold draft_json. rewrite E. cbv iota. rewrite <- E. unfold parse_draft. rewrite JSON_parse_normalize.
  unfold draft_of. destruct data as [r t a d u [tag|]]; cbn [fd_recipient fd_token fd_amount fd_duration fd_durationUnit fd_descriptionTag] in *.
  all: cbn -[andb blank unit_name unit_of_name]; closed_texts; rewrite Hb; by rewrite unit_bind.
Qed.

(** A draft comes back: the page that is opened after a save shows the form as it
    was, with every field, and offers to discard it; once it was discarded, or the
    form reset, the next page starts afresh. *)
Theorem draft_restored (options : UseStreamFormOptions) (b : Browser) (now : Z) (data : StreamFormData) :
  enableDraftPersistence options = true ->
  blank (fd_recipient data) && blank (fd_amount data) = false ->
  let p := mount options (saveDraft (draftStorageKey options) now data b) in
  formData p = spread data {| up_recipient := None; up_token := None; up_amount := None; up_duration := None;
                              up_durationUnit := None;
                              up_descriptionTag := Some (or_else (fd_descriptionTag data) ""%string) |} /\
  hasDraft p = true /\
  formData (mount options (browser (discardDraft options p))) = initial_form options None /\
  formData (mount options (browser (resetForm options p))) = initial_form options None.
Proof.
  intros He Hb p. assert (restoredDraft p = Some (draft_of now data)) as Hd.
  { unfold p, mount. rewrite He. by apply saved_draft_loads. }
  assert (forall b', loadDraft (draftStorageKey options) (clearDraft (draftStorageKey options) b') = None) as Hc.
  { intros b'. unfold loadDraft, clearDraft. cbn [session]. by rewrite lookup_delete_eq. }
  split_and!.
  - unfold p, mount. rewrite He, saved_draft_loads by done. cbn. destruct data as [? ? ? ? ? []]; done.
  - unfold hasDraft. by rewrite Hd.
  - unfold mount at 1. rewrite He. cbn [browser set_browser set_form set_discarded discardDraft]. by rewrite Hc.
  - unfold mount at 1. rewrite He. unfold resetForm. rewrite He. cbn [browser set_browser set_form set_templates]. by rewrite Hc.
Qed.

(** ** Templates *)

(** A template that [saveCustomTemplate] makes. *)
Definition described (t : StreamTemplate) : Prop := tp_description t <> EmptyString.

Lemma template_json_reads t : described t -> template_of_json (normalize (template_json t)) = Some t.
Proof.
  intros Hd. destruct t as [id name desc [r tk a d u g]]. unfold described in Hd. cbn in Hd.
  unfold template_json, values_json. cbn [tp_id tp_name tp_description tp_values].
  destruct r, tk, a, d, u as [u|], g; cbn -[unit_name unit_of_name]; unfold template_of_json, values_of_json;
    repeat (cbn -[unit_name unit_of_name]; closed_texts);
    rewrite ?unit_of_unit_name; by destruct desc.
Qed.

Lemma templates_load key items b :
  Forall described items -> loadCustomTemplates key (persistCustomTemplates key items b) = items.
Proof.
  intros H. unfold loadCustomTemplates, persistCustomTemplates. cbn [local]. rewrite lookup_insert_eq.
  assert (exists c s, JSON_stringify (JArray (map template_json items)) = String c s) as (c & s & E) by (by do 2 eexists).
  rewrite E. cbv iota. rewrite <- E, JSON_parse_normalize. cbn [normalize].
  clear E. induction H as [|t items Ht _ IH]; [done|].
  change (map normalize (map template_json (t :: items)))
    with (normalize (template_json t) :: map normalize (map template_json items)).
  cbn [omap list_omap]. by rewrite template_json_reads, IH.
Qed.

(** Custom templates are stored faithfully and still lost: what a page saved loads
    again unchanged, but the next page overwrites it with the empty list before
    it reads it, so its hydration finds nothing. *)
Theorem templates_erased_on_mount (options : UseStreamFormOptions) (b : Browser) (items : list StreamTemplate) :
  Forall described items ->
  let stored := persistCustomTemplates (templateStorageKey options) items b in
  loadCustomTemplates (templateStorageKey options) stored = items /\
  customTemplates (hydrate options (mount options stored)) = [] /\
  loadCustomTemplates (templateStorageKey options) (browser (hydrate options (mount options stored))) = [].
Proof.
  intros H stored. split; [by apply templates_load|].
  assert (loadCustomTemplates (templateStorageKey options) (browser (mount options stored)) = []) as E
    by (apply (templates_load _ [] stored); constructor).
  assert (customTemplates (hydrate options (mount options stored)) = []) as Hc by exact E.
  split; [done|]. unfold hydrate, persist_templates. cbn [browser set_browser set_templates customTemplates].
  rewrite E. by apply (templates_load _ []).
Qed.

Lemma built_in_ids x t : t ∈ BUILT_IN_TEMPLATES -> tp_id t <> "custom-" +:+ x.
Proof.
  intros Ht E. assert (startsWith "custom-" (tp_id t) = true) as Hs by (by rewrite E).
  assert (Forall (fun t => startsWith "custom-" (tp_id t) = false) BUILT_IN_TEMPLATES) as HF by (by repeat constructor).
  rewrite Forall_forall in HF. rewrite HF in Hs; [done|first [exact Ht|by apply list_elem_of_In]].
Qed.

(** A template that was just saved is offered, and applying it to any form gives
    back the values it was saved from. *)
Theorem saved_template_applies (options : UseStreamFormOptions) (now : Z) (name : string) (p q : Page) :
  let '(p', failure) := saveCustomTemplate options now name p in
  failure = None ->
  customTemplates q = customTemplates p' ->
  let data := formData (applyTemplate ("custom-" +:+ BigInt_toString now) q).1 in
  fd_token data = fd_token (formData p) /\ fd_amount data = fd_amount (formData p) /\
  fd_duration data = fd_duration (formData p) /\ fd_durationUnit data = fd_durationUnit (formData p) /\
  fd_recipient data = fd_recipient (formData q).
Proof.
  unfold saveCustomTemplate. destruct (trim name) as [|c s]; [done|]. destruct (_ || _ || _); [done|].
  intros _ Hq. cbn zeta. pose proof (built_in_ids (BigInt_toString now)) as Hbuilt. cbn [customTemplates persist_templates set_browser set_templates] in Hq.
  unfold applyTemplate, allTemplates. rewrite Hq. set (id := "custom-" +:+ BigInt_toString now) in *.
  assert (forall l, (forall t, t ∈ l -> tp_id t <> id) -> forall l',
    List.find (fun t => bool_decide (tp_id t = id)) (l ++ l') = List.find (fun t => bool_decide (tp_id t = id)) l') as Hskip.
  { induction l as [|t l IH]; intros Hl l'; [done|]. simpl. rewrite bool_decide_eq_false_2 by (apply Hl; set_solver).
    apply IH. intros t' Ht'. apply Hl. set_solver. }
  rewrite Hskip by done. cbn [List.find tp_id]. rewrite bool_decide_eq_true_2 by done. by split_and!.
Qed.

(** ** Concrete inputs *)

Definition page_options : UseStreamFormOptions :=
  {| initialData := Some {| up_recipient := None; up_token := Some "XLM"%string; up_amount := None;
       up_duration := Some "30"%string; up_durationUnit := None; up_descriptionTag := None |};
     templateStorageKey := DEFAULT_TEMPLATE_STORAGE_KEY; enableDraftPersistence := true;
     draftStorageKey := DEFAULT_DRAFT_STORAGE_KEY |}.
Definition new_browser : Browser := {| session := ∅; local := ∅ |}.
Definition some_key : string := "GBBDIOEJGZHV5GFZQB4T7NKZQKRVNDQYXKW6Z3VJXZAVFQKZ5HM5J2EU".
Definition sample_form : StreamFormData :=
  {| fd_recipient := some_key; fd_token := "USDC"; fd_amount := "12.5"; fd_duration := "3";
     fd_durationUnit := days; fd_descriptionTag := Some "rent"%string |}.

Lemma accepted_form_payable_witness :
  error_free (validateStreamForm sample_form None (Some "100"%string)) = true /\
  (exists raw, parseAmount "12.5" 7 = Returns raw /\ 0 < raw /\ (raw < 2 ^ 51 -> toBaseUnits "12.5" 7 = Returns raw)).
Proof.
  assert (error_free (validateStreamForm sample_form None (Some "100"%string)) = true) as H by vm_refl.
  split; [exact H|]. exact (proj1 (proj2 (proj2 (accepted_form_payable sample_form (Some "100"%string) days H)))).
Defined.

Lemma next_ok options k p :
  (validateStep k p).2 = true -> k < STEPS ->
  wizard_step options {| wz_step := k; wz_page := p |} {| wz_step := k + 1; wz_page := (validateStep k p).1 |}.
Proof.
  intros Hok Hk. pose proof (WzNext options k p) as H. destruct (validateStep k p) as [p' ok]. simpl in *.
  subst ok. unfold STEPS in *. by rewrite (proj2 (Z.ltb_lt k 5) Hk) in H.
Qed.

(** A run of the wizard: the template step is left as it is, the recipient and
    the amount are typed in. *)
Definition typed_recipient : FormUpdates :=
  {| up_recipient := Some some_key; up_token := None; up_amount := None; up_duration := None;
     up_durationUnit := None; up_descriptionTag := None |}.
Definition at_recipient : Page := updateFormData typed_recipient (validateStep 1 (mount page_options new_browser)).1.
Definition at_amount : Page :=
  updateFormData (set_amount "12.5") (validateStep 3 (validateStep 2 at_recipient).1).1.
Definition at_last : WizardState := {| wz_step := 5; wz_page := (validateStep 4 at_amount).1 |}.
Definition submitted : StreamFormData :=
  {| fd_recipient := some_key; fd_token := "XLM"; fd_amount := "12.5"; fd_duration := "30";
     fd_durationUnit := days; fd_descriptionTag := Some ""%string |}.

Lemma type_recipient p :
  wizard_step page_options {| wz_step := 2; wz_page := p |} {| wz_step := 2; wz_page := updateFormData typed_recipient p |}.
Proof. apply WzEdit. left. by split. Qed.
Lemma type_amount a p :
  wizard_step page_options {| wz_step := 4; wz_page := p |} {| wz_step := 4; wz_page := updateFormData (set_amount a) p |}.
Proof. apply WzEdit. right. right. left. by split. Qed.

Lemma run_to_last : wizard_reachable page_options new_browser at_last.
Proof.
  apply (rtc_l _ _ {| wz_step := 2; wz_page := (validateStep 1 (mount page_options new_browser)).1 |}).
  { apply (next_ok page_options 1); [vm_refl|done]. }
  apply (rtc_l _ _ {| wz_step := 2; wz_page := at_recipient |}); [apply type_recipient|].
  apply (rtc_l _ _ {| wz_step := 3; wz_page := (validateStep 2 at_recipient).1 |}).
  { apply (next_ok page_options 2); [vm_refl|done]. }
  apply (rtc_l _ _ {| wz_step := 4; wz_page := (validateStep 3 (validateStep 2 at_recipient).1).1 |}).
  { apply (next_ok page_options 3); [vm_refl|done]. }
  apply (rtc_l _ _ {| wz_step := 4; wz_page := at_amount |}); [apply type_amount|].
  apply rtc_once. apply (next_ok page_options 4); [vm_refl|done].
Qed.

Lemma wizard_submits_validated_witness :
  submitted = formData (wz_page at_last) /\ error_free (validateStreamForm submitted None None) = true.
Proof.
  apply (wizard_submits_validated page_options new_browser at_last submitted); [|done|vm_refl].
  exact run_to_last.
Defined.

Lemma draft_restored_witness :
  let p := mount page_options (saveDraft DEFAULT_DRAFT_STORAGE_KEY 1700000000000 sample_form new_browser) in
  formData p = sample_form /\ hasDraft p = true.
Proof.
  destruct (draft_restored page_options new_browser 1700000000000 sample_form) as (H1 & H2 & _);
    [vm_refl|vm_refl|]. by split.
Defined.

Lemma templates_erased_on_mount_witness :
  Forall described BUILT_IN_TEMPLATES /\
  customTemplates (hydrate page_options (mount page_options
    (persistCustomTemplates DEFAULT_TEMPLATE_STORAGE_KEY BUILT_IN_TEMPLATES new_browser))) = [].
Proof.
  assert (Forall described BUILT_IN_TEMPLATES) as H by (by repeat constructor).
  split; [done|]. apply (templates_erased_on_mount page_options new_browser BUILT_IN_TEMPLATES H).
Defined.

Lemma wizard_polling_ends_witness :
  exists r m, startPolling 16 0 0 (fun _ => {| ft_took := 300; ft_payload := Returns (JObject [("data"%string, JArray [JNumber 7])]) |})
      = Some (r, m) /\ r = Confirmed (JNumber 7) /\ m = 1%nat.
Proof.
  destruct (wizard_polling_ends (fun _ => {| ft_took := 300; ft_payload := Returns (JObject [("data"%string, JArray [JNumber 7])]) |})
    ltac:(by intros)) as (r & m & Hr & _ & _ & Hold).
  exists r, m. split; [exact Hr|]. apply Hold. vm_refl.
Defined.

(** Less than half a day is accepted and becomes a stream of no seconds at all;
    a day and a half becomes two. *)
Example short_duration_vanishes :
  validateDuration "0.4" = None /\ toDurationSeconds "0.4" days = Returns 0 /\
  toDurationSeconds "1.5" days = Returns 172800.
Proof. split_and!; vm_refl. Qed.

(** An infinite duration is accepted, and cannot be converted. *)
Example infinite_duration : validateDuration "Infinity" = None /\ toDurationSeconds "Infinity" days = Throws RangeErr.
Proof. split; vm_refl. Qed.

(** Emptying the form by hand keeps the draft of what was erased. *)
Example erased_draft_stays :
  let p := mount page_options (saveDraft DEFAULT_DRAFT_STORAGE_KEY 1000 sample_form new_browser) in
  let erased := updateFormData {| up_recipient := Some ""%string; up_token := None; up_amount := Some ""%string;
                  up_duration := None; up_durationUnit := None; up_descriptionTag := None |} p in
  formData (mount page_options (browser (draft_timer page_options 2000 erased))) = sample_form.
Proof. cbv zeta. vm_refl. Qed.
