(* ===== verification/Base64.v ===== *)
(** * Bytes and base64 text

    UTF-8 ([TextEncoder], [Buffer.from]), [btoa] and [atob], and the URL-safe
    alphabet.  Text is of code units below 256, so a character is one or two
    bytes; bytes that decode to anything else are [None]. *)
From S2P Require Import Prelude JsLang StreamId Json.
Local Open Scope Z_scope.

Definition char_of (b : Z) : Ascii.ascii := Ascii.ascii_of_nat (Z.to_nat b).
Definition is_byte (b : Z) : bool := (0 <=? b) && (b <? 256).

(** ** UTF-8 *)

Fixpoint utf8_encode (s : string) : list Z :=
  match s with
  | EmptyString => []
  | String c s' =>
      (if code c <? 128 then [code c] else [192 + code c / 64; 128 + code c mod 64]) ++ utf8_encode s'
  end.

Fixpoint utf8_decode (bytes : list Z) : option string :=
  match bytes with
  | [] => Some EmptyString
  | b :: rest =>
      if b <? 128 then String (char_of b) <$> utf8_decode rest
      else
        match rest with
        | c :: rest' =>
            if (194 <=? b) && (b <=? 195) && (128 <=? c) && (c <? 192)
            then String (char_of ((b - 192) * 64 + (c - 128))) <$> utf8_decode rest'
            else None
        | [] => None
        end
  end.

(** ** Base64 *)

Definition alphabet : string := "ABCDEFGHIJKLMNOPQRSTUVWXYZabcdefghijklmnopqrstuvwxyz0123456789+/".

Definition b64_char (i : Z) : Ascii.ascii :=
  match String.get (Z.to_nat i) alphabet with Some c => c | None => "="%char end.

(** The value of a character of the alphabet. *)
Definition b64_val (c : Ascii.ascii) : option Z :=
  let x := code c in
  if (65 <=? x) && (x <=? 90) then Some (x - 65)
  else if (97 <=? x) && (x <=? 122) then Some (x - 71)
  else if (48 <=? x) && (x <=? 57) then Some (x + 4)
  else if x =? 43 then Some 62
  else if x =? 47 then Some 63
  else None.

Fixpoint sextets (bytes : list Z) : list Z :=
  match bytes with
  | a :: b :: c :: rest =>
      a / 4 :: (a mod 4) * 16 + b / 16 :: (b mod 16) * 4 + c / 64 :: c mod 64 :: sextets rest
  | [a; b] => [a / 4; (a mod 4) * 16 + b / 16; (b mod 16) * 4]
  | [a] => [a / 4; (a mod 4) * 16]
  | [] => []
  end.

(** The bytes of a list of sextets; the bits left over are dropped. *)
Fixpoint octets (s : list Z) : option (list Z) :=
  match s with
  | a :: b :: c :: d :: rest =>
      (fun r => a * 4 + b / 16 :: (b mod 16) * 16 + c / 4 :: (c mod 4) * 64 + d :: r) <$> octets rest
  | [a; b; c] => Some [a * 4 + b / 16; (b mod 16) * 16 + c / 4]
  | [a; b] => Some [a * 4 + b / 16]
  | [_] => None
  | [] => Some []
  end.

Fixpoint of_chars (l : list Ascii.ascii) : string :=
  match l with [] => EmptyString | c :: l' => String c (of_chars l') end.
Fixpoint chars (s : string) : list Ascii.ascii :=
  match s with EmptyString => [] | String c s' => c :: chars s' end.

Definition padding (n : nat) : string :=
  match (n mod 3)%nat with 1%nat => "==" | 2%nat => "=" | _ => "" end.

(** [btoa] of a binary string. *)
Definition btoa (bytes : list Z) : string :=
  of_chars (map b64_char (sextets bytes)) +:+ padding (length bytes).

Fixpoint values (l : list Ascii.ascii) : option (list Z) :=
  match l with
  | [] => Some []
  | c :: l' => v ← b64_val c; vs ← values l'; Some (v :: vs)
  end.

Definition ascii_space (c : Ascii.ascii) : bool :=
  (code c =? 9) || (code c =? 10) || (code c =? 12) || (code c =? 13) || (code c =? 32).

(** At most two ["="] at the end of a text whose length is a multiple of four. *)
Definition drop_padding (l : list Ascii.ascii) : list Ascii.ascii :=
  if (length l mod 4 =? 0)%nat then
    match rev l with
    | "="%char :: "="%char :: r => rev r
    | "="%char :: r => rev r
    | _ => l
    end
  else l.

(** [atob]; [None]: it throws. *)
Definition atob (s : string) : option (list Z) :=
  vs ← values (drop_padding (List.filter (fun c => negb (ascii_space c)) (chars s)));
  octets vs.

(** ** The URL-safe alphabet *)

(** [.replace(/\+/g, "-").replace(/\//g, "_")] and back *)
Definition url_char (c : Ascii.ascii) : Ascii.ascii :=
  if code c =? 43 then "-"%char else if code c =? 47 then "_"%char else c.
Definition std_char (c : Ascii.ascii) : Ascii.ascii :=
  if code c =? 45 then "+"%char else if code c =? 95 then "/"%char else c.

Fixpoint map_chars (f : Ascii.ascii -> Ascii.ascii) (s : string) : string :=
  match s with EmptyString => EmptyString | String c s' => String (f c) (map_chars f s') end.

(** [.replace(/=+$/, "")] *)
Fixpoint strip_equals (s : string) : string :=
  match s with
  | EmptyString => EmptyString
  | String c s' =>
      match strip_equals s' with
      | EmptyString => if code c =? 61 then EmptyString else String c EmptyString
      | t => String c t
      end
  end.

Definition base64url (bytes : list Z) : string := strip_equals (map_chars url_char (btoa bytes)).
Definition un_base64url (s : string) : option (list Z) := atob (map_chars std_char s).

(** ** Node's decoder

    [Buffer.from(s, "base64url")]: both alphabets, up to the first ["="], other
    characters skipped, a sextet left over dropped. *)
Fixpoint octets_lax (s : list Z) : list Z :=
  match s with
  | a :: b :: c :: d :: rest =>
      a * 4 + b / 16 :: (b mod 16) * 16 + c / 4 :: (c mod 4) * 64 + d :: octets_lax rest
  | [a; b; c] => [a * 4 + b / 16; (b mod 16) * 16 + c / 4]
  | [a; b] => [a * 4 + b / 16]
  | _ => []
  end.

Fixpoint sextets_of (s : string) : list Z :=
  match s with
  | EmptyString => []
  | String c s' =>
      if code c =? 61 then []
      else match b64_val (std_char c) with
           | Some v => v :: sextets_of s'
           | None => sextets_of s'
           end
  end.

(** [JSON.parse(buf.toString())]; [other] is what it makes of bytes that are not
    the UTF-8 of text below 256. *)
Definition parse_bytes (other : list Z -> outcome Json) (bytes : list Z) : outcome Json :=
  match utf8_decode bytes with Some text => JSON_parse text | None => other bytes end.

Definition Buffer_from_base64url (s : string) : list Z := octets_lax (sextets_of s).

(** [buf.toString("hex")] *)
Definition hex (bytes : list Z) : string :=
  of_chars (concat (map (fun b => [hex_char (b / 16); hex_char (b mod 16)]) bytes)).

(** ** Round trips *)

Definition bytes_ok (l : list Z) : Prop := Forall (fun b => is_byte b = true) l.

Lemma char_of_code c : char_of (code c) = c.
Proof. unfold char_of, code. rewrite Nat2Z.id. apply Ascii.ascii_nat_embedding. Qed.
Lemma code_bound c : 0 <= code c < 256.
Proof. unfold code. pose proof (Ascii.nat_ascii_bounded c). lia. Qed.

Lemma utf8_bytes s : bytes_ok (utf8_encode s).
Proof.
  unfold bytes_ok. induction s as [|c s IH]; [constructor|]. simpl. apply Forall_app. split; [|done].
  pose proof (code_bound c). pose proof (Z.mod_pos_bound (code c) 64 eq_refl).
  assert (0 <= code c / 64 < 4) by (split; [apply Z.div_pos|apply Z.div_lt_upper_bound]; lia).
  case (Z.ltb_spec (code c) 128); intros; repeat constructor; unfold is_byte; lia.
Qed.

Lemma utf8_roundtrip s : utf8_decode (utf8_encode s) = Some s.
Proof.
  induction s as [|c s IH]; [done|]. simpl. pose proof (code_bound c).
  case (Z.ltb_spec (code c) 128); intros Hc.
  - simpl. rewrite (proj2 (Z.ltb_lt _ _) Hc), IH. simpl. by rewrite char_of_code.
  - pose proof (Z.div_mod (code c) 64 ltac:(lia)). pose proof (Z.mod_pos_bound (code c) 64 eq_refl).
    assert (2 <= code c / 64 < 4) by (split; [apply Z.div_le_lower_bound|apply Z.div_lt_upper_bound]; lia).
    cbn [app utf8_decode].
    replace (192 + code c / 64 <? 128) with false by lia.
    replace ((194 <=? 192 + code c / 64) && (192 + code c / 64 <=? 195) &&
             (128 <=? 128 + code c mod 64) && (128 + code c mod 64 <? 192)) with true by lia.
    rewrite IH. simpl. replace ((192 + code c / 64 - 192) * 64 + (128 + code c mod 64 - 128)) with (code c) by lia.
    by rewrite char_of_code.
Qed.

Lemma list_ind3 {A} (Q : list A -> Prop) :
  Q [] -> (forall a, Q [a]) -> (forall a b, Q [a; b]) -> (forall a b c l, Q l -> Q (a :: b :: c :: l)) ->
  forall l, Q l.
Proof.
  intros H0 H1 H2 H3. fix IH 1. intros [|a [|b [|c l]]]; [done|done|done|]. apply H3, IH.
Qed.

Definition sextets_ok (l : list Z) : Prop := Forall (fun v => 0 <= v < 64) l.

Lemma byte_parts b : is_byte b = true ->
  0 <= b / 4 < 64 /\ 0 <= b mod 4 < 4 /\ 0 <= b / 16 < 16 /\ 0 <= b mod 16 < 16 /\
  0 <= b / 64 < 4 /\ 0 <= b mod 64 < 64 /\
  b = 4 * (b / 4) + b mod 4 /\ b = 16 * (b / 16) + b mod 16 /\ b = 64 * (b / 64) + b mod 64.
Proof.
  unfold is_byte. intros H.
  pose proof (Z.mod_pos_bound b 4 eq_refl). pose proof (Z.mod_pos_bound b 16 eq_refl).
  pose proof (Z.mod_pos_bound b 64 eq_refl). pose proof (Z.div_mod b 4 ltac:(lia)).
  pose proof (Z.div_mod b 16 ltac:(lia)). pose proof (Z.div_mod b 64 ltac:(lia)). lia.
Qed.

Ltac sextet_bounds :=
  repeat match goal with H : is_byte _ = true |- _ => apply byte_parts in H end; lia.

Lemma sextets_bound l : bytes_ok l -> sextets_ok (sextets l).
Proof.
  unfold bytes_ok, sextets_ok. induction l as [|a|a b|a b c l IH] using list_ind3; intros H;
    repeat match goal with H : Forall _ (_ :: _) |- _ => apply Forall_cons_1 in H as [? H] end;
    simpl; repeat (apply Forall_cons_2; [sextet_bounds|]); auto.
Qed.

(** Quotients and remainders of a sum of a multiple and a small part. *)
Lemma div_part n q r : 0 <= r < n -> (q * n + r) / n = q.
Proof. intros. rewrite Z.add_comm, Z.div_add by lia. rewrite Z.div_small by lia. lia. Qed.
Lemma mod_part n q r : 0 <= r < n -> (q * n + r) mod n = r.
Proof. intros. rewrite Z.add_comm, Z.mod_add by lia. by rewrite Z.mod_small by lia. Qed.

Lemma octets_sextets l : bytes_ok l -> octets (sextets l) = Some l.
Proof.
  unfold bytes_ok. induction l as [|a|a b|a b c l IH] using list_ind3; intros H;
    repeat match goal with H : Forall _ (_ :: _) |- _ => apply Forall_cons_1 in H as [? H] end; [done|..];
    repeat match goal with H : is_byte _ = true |- _ => apply byte_parts in H end.
  - simpl. rewrite <- (Z.add_0_r (a mod 4 * 16)), div_part by lia. do 2 f_equal. lia.
  - simpl. rewrite div_part, mod_part by lia.
    rewrite <- (Z.add_0_r (b mod 16 * 4)), div_part by lia. repeat f_equal; lia.
  - simpl. rewrite IH by done. simpl.
    rewrite div_part, mod_part by lia. rewrite div_part, mod_part by lia. repeat f_equal; lia.
Qed.

Lemma b64_val_char i : 0 <= i < 64 -> b64_val (b64_char i) = Some i.
Proof.
  intros Hi. assert (forallb (fun n => bool_decide (b64_val (b64_char (Z.of_nat n)) = Some (Z.of_nat n)))
    (seq 0 64) = true) as H by (by vm_compute).
  rewrite forallb_forall in H. specialize (H (Z.to_nat i)). rewrite Z2Nat.id in H by lia.
  apply bool_decide_eq_true in H; [done|]. apply in_seq. lia.
Qed.

Lemma values_chars l : sextets_ok l -> values (map b64_char l) = Some l.
Proof.
  intros H. induction H as [|v l Hv Hl IH]; [done|]. simpl. rewrite b64_val_char by done. simpl. by rewrite IH.
Qed.

(** What the URL-safe text is made of. *)
Lemma url_char_spec i : 0 <= i < 64 ->
  std_char (url_char (b64_char i)) = b64_char i /\
  code (url_char (b64_char i)) <> 61 /\ code (url_char (b64_char i)) <> 46 /\
  ascii_space (b64_char i) = false /\ b64_char i <> "="%char /\
  (is_digit (url_char (b64_char i)) || (65 <=? code (upper_char (url_char (b64_char i)))) && (code (upper_char (url_char (b64_char i))) <=? 95) ||
   (code (url_char (b64_char i)) =? 45)) = true.
Proof.
  intros Hi. set (ok := fun n => let c := b64_char (Z.of_nat n) in
    bool_decide (std_char (url_char c) = c) && negb (code (url_char c) =? 61) && negb (code (url_char c) =? 46) &&
    negb (ascii_space c) && negb (bool_decide (c = "="%char)) &&
    (is_digit (url_char c) || (65 <=? code (upper_char (url_char c))) && (code (upper_char (url_char c)) <=? 95) ||
     (code (url_char c) =? 45))).
  assert (forallb ok (seq 0 64) = true) as H by (by vm_compute).
  rewrite forallb_forall in H. specialize (H (Z.to_nat i) ltac:(apply in_seq; lia)).
  unfold ok in H. rewrite Z2Nat.id in H by lia.
  repeat (apply andb_prop in H as [H ?]).
  repeat match goal with H : negb _ = true |- _ => apply negb_true_iff in H end.
  apply bool_decide_eq_true in H. split_and!; try done; try lia.
  intros E. match goal with H : bool_decide _ = false |- _ => apply bool_decide_eq_false in H end. done.
Qed.

Definition url_text (l : list Z) : string := of_chars (map (fun i => url_char (b64_char i)) l).

Lemma map_chars_app f a b : map_chars f (a +:+ b) = map_chars f a +:+ map_chars f b.
Proof. induction a as [|c a IH]; [done|]. exact (f_equal (String (f c)) IH). Qed.
Lemma map_chars_of f l : map_chars f (of_chars l) = of_chars (map f l).
Proof. induction l as [|c l IH]; [done|]. simpl. by rewrite IH. Qed.
Lemma chars_of l : chars (of_chars l) = l.
Proof. induction l as [|c l IH]; [done|]. simpl. by rewrite IH. Qed.

Lemma strip_equals_text l tail :
  sextets_ok l -> strip_equals tail = EmptyString -> strip_equals (url_text l +:+ tail) = url_text l.
Proof.
  intros Hl Ht. induction Hl as [|i l Hi Hl IH]; [done|]. unfold url_text. simpl.
  change (String ?c ?x +:+ tail) with (String c (x +:+ tail)). fold (url_text l). cbn [strip_equals].
  rewrite IH. destruct (url_text l) eqn:E; [|done].
  destruct (url_char_spec i Hi) as (_ & H61 & _). by rewrite (proj2 (Z.eqb_neq _ _) H61).
Qed.

Lemma base64url_text bytes : bytes_ok bytes -> base64url bytes = url_text (sextets bytes).
Proof.
  intros Hb. unfold base64url, btoa. rewrite map_chars_app, map_chars_of, map_map.
  apply (strip_equals_text (sextets bytes)); [by apply sextets_bound|].
  unfold padding. by repeat case_match.
Qed.

Lemma drop_padding_none l : (forall c, In c l -> c <> "="%char) -> drop_padding l = l.
Proof.
  intros H. unfold drop_padding. case_match; [|done].
  destruct (rev l) as [|c r] eqn:E; [done|].
  assert (c <> "="%char) as Hc by (apply H, in_rev; rewrite E; by left).
  destruct c as [[] [] [] [] [] [] [] []]; try done.
Qed.

(** Decoding what was encoded gives the bytes back. *)
Lemma base64url_roundtrip bytes : bytes_ok bytes -> un_base64url (base64url bytes) = Some bytes.
Proof.
  intros Hb. pose proof (sextets_bound _ Hb) as Hs. rewrite base64url_text by done.
  unfold un_base64url, atob, url_text. rewrite map_chars_of, map_map, chars_of.
  assert (map (fun i => std_char (url_char (b64_char i))) (sextets bytes) = map b64_char (sextets bytes)) as ->.
  { apply map_ext_in. intros i Hi. unfold sextets_ok in Hs. rewrite Forall_forall in Hs.
    by destruct (url_char_spec i (Hs i Hi)) as [-> _]. }
  assert (List.filter (fun c => negb (ascii_space c)) (map b64_char (sextets bytes)) = map b64_char (sextets bytes)) as ->.
  { clear -Hs. induction Hs as [|i l Hi Hl IH]; [done|]. simpl.
    destruct (url_char_spec i Hi) as (_ & _ & _ & -> & _). simpl. by rewrite IH. }
  rewrite drop_padding_none.
  - rewrite values_chars by done. simpl. by apply octets_sextets.
  - intros c Hc. apply in_map_iff in Hc as (i & <- & Hi). unfold sextets_ok in Hs. rewrite Forall_forall in Hs.
    by destruct (url_char_spec i (Hs i Hi)) as (_ & _ & _ & _ & H & _).
Qed.

Lemma octets_lax_octets s r : octets s = Some r -> octets_lax s = r.
Proof.
  revert s r. fix IH 1. intros [|a [|b [|c [|d rest]]]] r H; simpl in *; simplify_eq; try done.
  destruct (octets rest) as [r'|] eqn:E; simplify_eq/=. by rewrite (IH rest r').
Qed.

Lemma sextets_of_text l : sextets_ok l -> sextets_of (url_text l) = l.
Proof.
  induction 1 as [|i l Hi _ IH]; [done|]. unfold url_text. simpl. fold (url_text l).
  destruct (url_char_spec i Hi) as (-> & H61 & _).
  by rewrite (proj2 (Z.eqb_neq _ _) H61), b64_val_char, IH.
Qed.

Lemma Buffer_roundtrip bytes : bytes_ok bytes -> Buffer_from_base64url (base64url bytes) = bytes.
Proof.
  intros Hb. unfold Buffer_from_base64url. rewrite base64url_text by done.
  rewrite sextets_of_text by by apply sextets_bound. by apply octets_lax_octets, octets_sextets.
Qed.

Lemma utf8_inj s t : utf8_encode s = utf8_encode t -> s = t.
Proof. intros H. apply (f_equal utf8_decode) in H. rewrite !utf8_roundtrip in H. congruence. Qed.

(** URL-safe text has no dot in it. *)
Lemma split_url_text l : sextets_ok l -> split_on 46 (url_text l) = [url_text l].
Proof.
  induction 1 as [|i l Hi _ IH]; [done|]. unfold url_text. simpl. fold (url_text l).
  destruct (url_char_spec i Hi) as (_ & _ & H46 & _).
  by rewrite (proj2 (Z.eqb_neq _ _) H46), IH.
Qed.

Lemma split_base64url bytes : bytes_ok bytes -> split_on 46 (base64url bytes) = [base64url bytes].
Proof. intros H. rewrite base64url_text by done. by apply split_url_text, sextets_bound. Qed.
