(* ===== verification/PaymentRequest.v ===== *)
(** * Payment links: frontend/src/utils/paymentRequest.ts

    The terms of a stream as a token in a URL, and back.  Numbers are integers,
    as everywhere in the development: a duration with a fraction is not
    modelled.  Bytes that are not the UTF-8 of text below 256 decode to text the
    model has no value for; [JSON_parse_other] is what [JSON.parse] makes of it. *)
From S2P Require Import Prelude JsLang StreamId Json Base64.
Local Open Scope Z_scope.

Record PaymentRequestParams := {
  pr_recipient : string;
  pr_token : string;
  pr_amount : string;
  pr_durationSeconds : Z;
  pr_cliffSeconds : option Z;
  pr_note : option string
}.

Definition PAYMENT_REQUEST_PARAM : string := "r".

Definition toBase64Url (input : string) : string := base64url (utf8_encode input).

Definition wire_json (p : PaymentRequestParams) : Json :=
  JObject [("v", JNumber 1); ("recipient", JString (pr_recipient p)); ("token", JString (pr_token p));
           ("amount", JString (pr_amount p)); ("durationSeconds", JNumber (pr_durationSeconds p));
           ("cliffSeconds", JNumber (default 0 (pr_cliffSeconds p)));
           ("note", JString (default "" (pr_note p)))%string].

Definition encodePaymentRequest (p : PaymentRequestParams) : string :=
  toBase64Url (JSON_stringify (wire_json p)).

Definition buildPaymentRequestUrl (p : PaymentRequestParams) (basePath : string) : string :=
  basePath +:+ "?" +:+ PAYMENT_REQUEST_PARAM +:+ "=" +:+ encodePaymentRequest p.

Section Decode.
Context (JSON_parse_other : list Z -> outcome Json).

(** [JSON.parse(fromBase64Url(token))] *)
Definition parse_token (token : string) : outcome Json :=
  match un_base64url token with
  | None => Throws (ErrorMsg "InvalidCharacterError")
  | Some bytes => parse_bytes JSON_parse_other bytes
  end.

Definition isNonEmptyString (j : Json) : option string :=
  match j with JString (String _ _ as s) => Some s | _ => None end.

Definition decodePaymentRequest (token : option string) : option PaymentRequestParams :=
  match token with
  | None | Some EmptyString => None
  | Some token =>
      match parse_token token with
      | Returns (JObject fields) =>
          let wire := JObject fields in
          match member "v" wire with
          | JNumber 1 =>
              recipient ← isNonEmptyString (member "recipient" wire);
              tok ← isNonEmptyString (member "token" wire);
              amount ← isNonEmptyString (member "amount" wire);
              match member "durationSeconds" wire with
              | JNumber d =>
                  if d <=? 0 then None
                  else
                    Some {| pr_recipient := recipient; pr_token := tok; pr_amount := amount;
                            pr_durationSeconds := d;
                            pr_cliffSeconds := Some match member "cliffSeconds" wire with
                                                    | JNumber c => Z.max 0 c | _ => 0 end;
                            pr_note := Some match member "note" wire with
                                            | JString s => s | _ => ""%string end |}
              | _ => None
              end
          | _ => None
          end
      | _ => None
      end
  end.

(** ** The query string: URLSearchParams *)

(** Cut at the first [c]: what is before, and what is after if there is one. *)
Fixpoint cut (x : Z) (s : string) : string * option string :=
  match s with
  | EmptyString => (EmptyString, None)
  | String c s' =>
      if code c =? x then (EmptyString, Some s')
      else let '(a, b) := cut x s' in (String c a, b)
  end.

(** Percent-decoding, with ["+"] for a space. *)
Fixpoint percent_bytes (s : string) : list Z :=
  match s with
  | EmptyString => []
  | String c s' =>
      match s' with
      | String h1 (String h2 s'') =>
          match (if code c =? 37 then hex_val h1 else None), hex_val h2 with
          | Some a, Some b => (a * 16 + b) :: percent_bytes s''
          | _, _ => (if code c =? 43 then [32] else utf8_encode (String c EmptyString)) ++ percent_bytes s'
          end
      | _ => (if code c =? 43 then [32] else utf8_encode (String c EmptyString)) ++ percent_bytes s'
      end
  end.

Definition form_decode (s : string) : option string := utf8_decode (percent_bytes s).

(** [params.get(name)]: the first pair of that name; a pair whose text is outside
    the model is passed over. *)
Fixpoint search_get (fuel : nat) (name s : string) : option string :=
  match fuel with
  | O => None
  | S fuel' =>
      let '(item, rest) := cut 38 s in
      let '(k, v) := cut 61 item in
      if negb (bool_decide (item = ""%string)) && bool_decide (form_decode k = Some name) then
        form_decode (default "" v)%string
      else
        match rest with Some s' => search_get fuel' name s' | None => None end
  end.

Definition decodePaymentRequestFromSearch (search : string) : option PaymentRequestParams :=
  let q := match search with String "?"%char s => s | s => s end in
  decodePaymentRequest (search_get (S (String.length q)) PAYMENT_REQUEST_PARAM q).

(** ** Properties *)

(** The terms of a link that can be paid. *)
Definition payable (p : PaymentRequestParams) : bool :=
  negb (bool_decide (pr_recipient p = ""%string)) && negb (bool_decide (pr_token p = ""%string)) &&
  negb (bool_decide (pr_amount p = ""%string)) && (0 <? pr_durationSeconds p) &&
  match pr_cliffSeconds p with Some c => 0 <=? c | None => false end && is_some (pr_note p).

(** Defaults filled in, and a cliff that is not negative. *)
Definition completed (p : PaymentRequestParams) : PaymentRequestParams := {|
  pr_recipient := pr_recipient p; pr_token := pr_token p; pr_amount := pr_amount p;
  pr_durationSeconds := pr_durationSeconds p;
  pr_cliffSeconds := Some (Z.max 0 (default 0 (pr_cliffSeconds p)));
  pr_note := Some (default "" (pr_note p))%string |}.

Lemma parse_token_encode p : parse_token (encodePaymentRequest p) = Returns (wire_json p).
Proof.
  unfold parse_token, encodePaymentRequest, toBase64Url.
  rewrite base64url_roundtrip by apply utf8_bytes. unfold parse_bytes. rewrite utf8_roundtrip.
  by apply JSON_parse_stringify.
Qed.

Lemma decode_encode p :
  pr_recipient p <> ""%string -> pr_token p <> ""%string -> pr_amount p <> ""%string -> 0 < pr_durationSeconds p ->
  decodePaymentRequest (Some (encodePaymentRequest p)) = Some (completed p).
Proof.
  intros Hr Ht Ha Hd. unfold decodePaymentRequest.
  destruct (encodePaymentRequest p) as [|c t] eqn:E.
  { pose proof (parse_token_encode p) as H. rewrite E in H. vm_compute in H. discriminate. }
  rewrite <- E, parse_token_encode. unfold wire_json, member. simpl.
  destruct (pr_recipient p) as [|] eqn:Er; [done|]. destruct (pr_token p) as [|] eqn:Et; [done|].
  destruct (pr_amount p) as [|] eqn:Ea; [done|]. simpl.
  rewrite (proj2 (Z.leb_gt _ _) Hd). unfold completed. by rewrite Er, Et, Ea.
Qed.

(** Whatever a link's token says, decoding it gives terms that can be paid or
    nothing: a recipient, a token and an amount that are not empty, a positive
    duration, a cliff that is not negative, and a note. *)
Theorem decoded_request_payable (token : option string) (p : PaymentRequestParams) :
  decodePaymentRequest token = Some p -> payable p = true.
Proof.
  unfold decodePaymentRequest. destruct token as [[|c0 t0]|]; [done| |done].
  destruct (parse_token _) as [[| | | | | | |fields]|]; try done. cbv zeta.
  destruct (member "v" _) as [| | |v| | | |]; try done. intros H.
  assert (exists r t m, (r <> "" /\ t <> "" /\ m <> "")%string /\
    match member "durationSeconds" (JObject fields) with
    | JNumber d => if d <=? 0 then None else
        Some {| pr_recipient := r; pr_token := t; pr_amount := m; pr_durationSeconds := d;
                pr_cliffSeconds := Some match member "cliffSeconds" (JObject fields) with
                                        | JNumber c => Z.max 0 c | _ => 0 end;
                pr_note := Some match member "note" (JObject fields) with
                                | JString s => s | _ => ""%string end |}
    | _ => None end = Some p) as (r & t & m & (Hr & Ht & Hm) & Hd).
  { destruct v as [|[]|]; try done.
    apply bind_Some in H as (r & Hr & H). apply bind_Some in H as (t & Ht & H).
    apply bind_Some in H as (m & Hm & H). exists r, t, m. split; [|exact H].
    assert (forall j s, isNonEmptyString j = Some s -> s <> ""%string) as Hne.
    { intros j s0. unfold isNonEmptyString. by destruct j as [| | | | |[]| |]; intros; simplify_eq. }
    split_and!; by eapply Hne. }
  destruct (member "durationSeconds" _) as [| | |d| | | |]; try done.
  destruct (d <=? 0) eqn:Ed; [done|]. injection Hd as <-. unfold payable. cbn -[member Z.max].
  rewrite !bool_decide_eq_false_2 by done. cbn [negb andb]. apply Z.leb_gt in Ed.
  rewrite (proj2 (Z.ltb_lt _ _) Ed), andb_true_r. cbn [andb]. apply Z.leb_le.
  clear. case_match; first [apply Z.le_refl | apply Z.le_max_l].
Qed.

(** Text of URL-safe characters goes through the query string unchanged. *)
Definition url_safe (c : Ascii.ascii) : bool :=
  (code c <? 128) && negb (code c =? 37) && negb (code c =? 38) && negb (code c =? 43) && negb (code c =? 61).
Fixpoint all_safe (s : string) : bool :=
  match s with EmptyString => true | String c s' => url_safe c && all_safe s' end.

Lemma cut_safe x s : (x =? 38) || (x =? 61) = true -> all_safe s = true -> cut x s = (s, None).
Proof.
  intros Hx. induction s as [|c s IH]; [done|]. simpl. intros [Hc Hs]%andb_prop.
  rewrite IH by done. unfold url_safe in Hc. case (Z.eqb_spec (code c) x); intros; [lia|done].
Qed.

Lemma percent_safe s : all_safe s = true -> percent_bytes s = utf8_encode s.
Proof.
  induction s as [|c s IH]; [done|]. simpl. intros [Hc Hs]%andb_prop. specialize (IH Hs).
  unfold url_safe in Hc. replace (code c =? 37) with false by lia. replace (code c =? 43) with false by lia.
  rewrite app_nil_r, IH. by repeat case_match.
Qed.

Lemma url_text_safe l : sextets_ok l -> all_safe (url_text l) = true.
Proof.
  intros H. induction H as [|i l Hi Hl IH]; [done|]. unfold url_text. simpl. fold (url_text l).
  rewrite IH, andb_true_r. unfold url_safe.
  assert (forallb (fun n => url_safe (url_char (b64_char (Z.of_nat n)))) (seq 0 64) = true) as Hall by (by vm_compute).
  rewrite forallb_forall in Hall. specialize (Hall (Z.to_nat i) ltac:(apply in_seq; lia)).
  by rewrite Z2Nat.id in Hall by lia.
Qed.

Lemma token_safe p : all_safe (encodePaymentRequest p) = true.
Proof.
  unfold encodePaymentRequest, toBase64Url. rewrite base64url_text by apply utf8_bytes.
  apply url_text_safe, sextets_bound, utf8_bytes.
Qed.

(** C17. A link carries its terms: for every request with a recipient, a token, an
    amount and a positive duration — a note in any text below 256, quotes and
    control characters included — the query string of its URL decodes to the
    same terms, with the defaults filled in. *)
Theorem payment_link_roundtrip (p : PaymentRequestParams) :
  pr_recipient p <> ""%string -> pr_token p <> ""%string -> pr_amount p <> ""%string -> 0 < pr_durationSeconds p ->
  exists search, buildPaymentRequestUrl p "/pay" = "/pay" +:+ search /\
    decodePaymentRequestFromSearch search = Some (completed p).
Proof.
  intros Hr Ht Ha Hd. exists ("?r=" +:+ encodePaymentRequest p). split; [done|].
  unfold decodePaymentRequestFromSearch.
  change ("?r=" +:+ encodePaymentRequest p) with (String "?"%char ("r=" +:+ encodePaymentRequest p)).
  cbv iota beta zeta. rewrite <- (decode_encode p Hr Ht Ha Hd). f_equal.
  pose proof (token_safe p) as Hs.
  assert (cut 38 ("r=" +:+ encodePaymentRequest p) = ("r=" +:+ encodePaymentRequest p, None)) as Hcut.
  { change ("r=" +:+ ?x) with (String "r" (String "=" x)). simpl.
    by rewrite (cut_safe 38) by done. }
  cbn [search_get]. rewrite Hcut.
  change ("r=" +:+ encodePaymentRequest p) with (String "r" (String "=" (encodePaymentRequest p))).
  cbn [cut]. change (code "r"%char =? 61) with false. change (code "="%char =? 61) with true. cbv iota.
  rewrite bool_decide_eq_false_2 by done. rewrite bool_decide_eq_true_2 by by vm_compute. simpl.
  unfold form_decode. by rewrite percent_safe, utf8_roundtrip.
Qed.
End Decode.

(** ** Examples *)

Definition sample_request : PaymentRequestParams := {|
  pr_recipient := "GBOB"; pr_token := "USDC"; pr_amount := "5000"; pr_durationSeconds := 2592000;
  pr_cliffSeconds := None; pr_note := Some ("caf" +:+ String (Ascii.ascii_of_nat 233) " & more")%string |}.

Lemma payment_link_roundtrip_witness :
  exists search, buildPaymentRequestUrl sample_request "/pay" = "/pay" +:+ search /\
    decodePaymentRequestFromSearch (fun _ => Throws SyntaxErr) search = Some (completed sample_request).
Proof. by apply (payment_link_roundtrip (fun _ => Throws SyntaxErr) sample_request). Defined.

Lemma decoded_request_payable_witness : payable (completed sample_request) = true.
Proof.
  apply (decoded_request_payable (fun _ => Throws SyntaxErr) (Some (encodePaymentRequest sample_request))). vm_refl.
Defined.
