(* ===== verification/Auth.v ===== *)
(** * Wallet authentication: backend/src/middleware/auth.ts, auth.middleware.ts

    Challenges, the token a signed challenge is exchanged for, and the guards of
    the routes.  HMAC-SHA256, the reading of a signed transaction and the check
    of a signature are the libraries': the class [AuthSdk].  A field of a request
    body is text or missing.  The record keeps the tokens as requests see them:
    [AuthEntry] is a request with its time and its answer, and [served] runs a
    list of them. *)
From S2P Require Import Prelude JsLang StreamId Json Base64.
Local Open Scope Z_scope.

Record Operation := { op_type : string; op_value : option (list Z) }.

(** A transaction read from XDR; a fee-bump transaction has no [source]. *)
Record SignedTx := {
  tx_source : option string;
  tx_operations : list Operation;
  tx_hash : list Z;
  tx_signatures : list (list Z)
}.

Class AuthSdk := {
  hmac_sha256 : string -> string -> list Z; (* key, text *)
  hmac_bytes : forall k t, bytes_ok (hmac_sha256 k t);
  hmac_length : forall k t, length (hmac_sha256 k t) = 32%nat;
  isValidEd25519PublicKey : string -> bool;
  fromXDR : string -> option SignedTx; (* [None]: it throws *)
  fromPublicKey : string -> bool; (* whether it returns *)
  verifies : string -> list Z -> list Z -> bool; (* key, hash, signature *)
  JSON_parse_other : list Z -> outcome Json; (* bytes that are no text below 256 *)
  loose_lt : Json -> Z -> bool (* [x < n] for a text, an array or an object *)
}.

(** The environment the module starts with. *)
Record AuthEnv := {
  isProduction : bool;
  rawJwtSecret : option string;
  randomSecret : string;
  JWT_ISSUER_env : option string;
  JWT_AUDIENCE_env : option string;
  ADMIN_PUBLIC_KEY : option string
}.

Record Challenge := { nonce : string; expiresAt : Z }.

Record AuthState := {
  challenges : gmap string Challenge;
  challengeSweepTimer : bool
}.

Inductive AuthReply :=
| AuthError (status : Z) (error : string)
| ChallengeIssued (nonce : string) (expiresAt : Z)
| TokenIssued (token : string) (expiresIn : Z)
| LetThrough (user : Json)
| Passed (user : option Json).

Section Auth.
Context {Sdk : AuthSdk} (env : AuthEnv).

Definition truthy_text (s : option string) : option string :=
  match s with Some EmptyString | None => None | _ => s end.

(** The secret, or the error the module fails to load with. *)
Definition load_secret : outcome string :=
  if isProduction env then
    match truthy_text (rawJwtSecret env) with
    | None => Throws (ErrorMsg "JWT_SECRET environment variable is required in production")
    | Some s =>
        if (length (utf8_encode s) <? 32)%nat
        then Throws (ErrorMsg "JWT_SECRET must be at least 32 bytes long in production")
        else Returns s
    end
  else Returns (default (randomSecret env) (truthy_text (rawJwtSecret env))).

Definition JWT_SECRET : string := match load_secret with Returns s => s | Throws _ => "" end.
Definition JWT_EXPIRY_SECONDS : Z := 3600.
Definition JWT_ISSUER : string := default "flowfi-api"%string (truthy_text (JWT_ISSUER_env env)).
Definition JWT_AUDIENCE : string := default "flowfi-api"%string (truthy_text (JWT_AUDIENCE_env env)).

(** ** Challenges and their sweep *)

Definition put_challenges (m : gmap string Challenge) (s : AuthState) : AuthState :=
  {| challenges := m; challengeSweepTimer := challengeSweepTimer s |}.
Definition put_timer (b : bool) (s : AuthState) : AuthState :=
  {| challenges := challenges s; challengeSweepTimer := b |}.

(** The state once the module is loaded: [startChallengeSweep()] has run. *)
Definition loaded : AuthState := {| challenges := ∅; challengeSweepTimer := true |}.

Definition expired (now : Z) (c : Challenge) : bool := expiresAt c <? now.

Definition sweepExpiredChallenges (now : Z) : Js AuthState Z := fun s =>
  let gone := filter (fun kv => expired now kv.2 = true) (challenges s) in
  let kept := filter (fun kv => expired now kv.2 = false) (challenges s) in
  (Returns (Z.of_nat (size gone)), put_challenges kept s).

Definition startChallengeSweep : Js AuthState unit := fun s =>
  if challengeSweepTimer s then (Returns tt, s) else (Returns tt, put_timer true s).
Definition stopChallengeSweep : Js AuthState unit := fun s =>
  if challengeSweepTimer s then (Returns tt, put_timer false s) else (Returns tt, s).

(** ** Tokens *)

Definition jwt_header : string := base64url (utf8_encode (JSON_stringify
  (JObject [("alg", JString "HS256"); ("typ", JString "JWT")])%string)).

Definition signature_of (text : string) : string := base64url (hmac_sha256 JWT_SECRET text).

Definition signJwt (payload : Json) : string :=
  let header := jwt_header in
  let body := base64url (utf8_encode (JSON_stringify payload)) in
  header +:+ "." +:+ body +:+ "." +:+ signature_of (header +:+ "." +:+ body).

(** [a.length === b.length && crypto.timingSafeEqual(a, b)] *)
Definition same_bytes (a b : list Z) : bool := (length a =? length b)%nat && bool_decide (a = b).

(** [!payload.exp || payload.exp < now] *)
Definition exp_passed (exp : Json) (now : Z) : bool :=
  match exp with
  | JUndefined | JNull | JBool false | JString EmptyString => true
  | JNumber e | JBigint e => (e =? 0) || (e <? now)
  | JBool true => 1 <? now
  | e => loose_lt e now
  end.

Definition is_text (j : Json) (s : string) : bool :=
  match j with JString t => bool_decide (t = s) | _ => false end.

(** [now] is [Date.now()]; the answer is [payload.sub]. *)
Definition verifyJwt (now : Z) (token : string) : option Json :=
  match split_on 46 token with
  | header :: body :: sig :: _ =>
      match truthy_text (Some header), truthy_text (Some body), truthy_text (Some sig) with
      | Some _, Some _, Some _ =>
          let expectedSig := signature_of (header +:+ "." +:+ body) in
          if negb (same_bytes (utf8_encode sig) (utf8_encode expectedSig)) then None
          else
            match parse_bytes JSON_parse_other (Buffer_from_base64url body) with
            | Throws _ | Returns (JNull | JUndefined) => None
            | Returns payload =>
                if exp_passed (member "exp" payload) (seconds now) then None
                else if negb (is_text (member "iss" payload) JWT_ISSUER) ||
                        negb (is_text (member "aud" payload) JWT_AUDIENCE) then None
                else Some (member "sub" payload)
            end
      | _, _, _ => None
      end
  | _ => None
  end.

(** ** Handlers *)

(** [drawn] are the random bytes. *)
Definition issueChallenge (now : Z) (drawn : list Z) (publicKey : option string) : Js AuthState AuthReply :=
  match truthy_text publicKey with
  | Some key =>
      if isValidEd25519PublicKey key then
        let n := hex drawn in
        do! modify (fun s => put_challenges
              (<[key := {| nonce := n; expiresAt := now + 60000 |}]> (challenges s)) s) in
        ret (ChallengeIssued n (now + 60000))
      else ret (AuthError 400 "Invalid publicKey")
  | None => ret (AuthError 400 "Invalid publicKey")
  end.

Definition nonce_of (tx : SignedTx) : option string :=
  match tx_operations tx with
  | op :: _ =>
      if bool_decide (op_type op = "manageData"%string) then Some (hex (default [] (op_value op))) else None
  | [] => None
  end.

Definition token_payload (key : string) (now : Z) : Json := JObject
  [("sub", JString key); ("iat", JNumber now); ("exp", JNumber (now + JWT_EXPIRY_SECONDS));
   ("iss", JString JWT_ISSUER); ("aud", JString JWT_AUDIENCE)]%string.

Definition verifyChallenge (now : Z) (publicKey signedTransaction : option string) :
    Js AuthState AuthReply :=
  match truthy_text publicKey, truthy_text signedTransaction with
  | Some key, Some text =>
      let! pending := gets (fun s => challenges s !! key) in
      match pending with
      | None => ret (AuthError 401 "Challenge expired or not found")
      | Some challenge =>
          if expired now challenge then ret (AuthError 401 "Challenge expired or not found")
          else
            match fromXDR text with
            | None => ret (AuthError 401 "Invalid signed transaction")
            | Some tx =>
                if negb (bool_decide (tx_source tx = Some key)) then
                  ret (AuthError 401 "Transaction source does not match publicKey")
                else if negb (bool_decide (nonce_of tx = Some (nonce challenge))) then
                  ret (AuthError 401 "Invalid challenge nonce in transaction")
                else if negb (fromPublicKey key) then ret (AuthError 401 "Invalid signed transaction")
                else if negb (existsb (verifies key (tx_hash tx)) (tx_signatures tx)) then
                  ret (AuthError 401 "Invalid signature")
                else
                  do! modify (fun s => put_challenges (delete key (challenges s)) s) in
                  ret (TokenIssued (signJwt (token_payload key (seconds now))) JWT_EXPIRY_SECONDS)
            end
      end
  | _, _ => ret (AuthError 400 "publicKey and signedTransaction required")
  end.

(** ** Guards *)

(** [header.slice(7)] of a header that starts with [Bearer ] *)
Definition bearer (authorization : option string) : option string :=
  h ← authorization; strip "Bearer " h.

Definition requireAuth (now : Z) (authorization : option string) : AuthReply :=
  match bearer authorization with
  | None => AuthError 401 "Missing Bearer token"
  | Some token =>
      match verifyJwt now token with
      | None => AuthError 401 "Invalid or expired token"
      | Some user => LetThrough user
      end
  end.

Definition requireAdmin (now : Z) (authorization : option string) : AuthReply :=
  match requireAuth now authorization with
  | LetThrough user =>
      match truthy_text (ADMIN_PUBLIC_KEY env) with
      | Some adminKey => if is_text user adminKey then LetThrough user else AuthError 403 "Admin access required"
      | None => AuthError 403 "Admin access required"
      end
  | r => r
  end.

Definition extractBearerToken (authorization : option string) : option string :=
  h ← truthy_text authorization;
  match split_on 32 h with
  | [scheme; token] => if bool_decide (scheme = "Bearer"%string) then Some token else None
  | _ => None
  end.

(** The middleware never refuses: a user or none. *)
Definition optionalAuthMiddleware (now : Z) (authorization : option string) : AuthReply :=
  Passed (token ← truthy_text (extractBearerToken authorization); verifyJwt now token).

(** ** Requests over time *)

Inductive AuthRequest :=
| PostChallenge (publicKey : option string) (drawn : list Z)
| PostVerify (publicKey signedTransaction : option string)
| Guarded (authorization : option string)
| AdminOnly (authorization : option string)
| Optional (authorization : option string)
| Tick. (* the sweep timer *)

Definition answer (now : Z) (req : AuthRequest) : Js AuthState AuthReply :=
  match req with
  | PostChallenge publicKey drawn => issueChallenge now drawn publicKey
  | PostVerify publicKey tx => verifyChallenge now publicKey tx
  | Guarded h => ret (requireAuth now h)
  | AdminOnly h => ret (requireAdmin now h)
  | Optional h => ret (optionalAuthMiddleware now h)
  | Tick =>
      let! on := gets challengeSweepTimer in
      if on : bool then do! sweepExpiredChallenges now in ret (Passed None) else ret (Passed None)
  end.

Record AuthEntry := { at_time : Z; asked : AuthRequest; got : AuthReply }.

Definition serve_one (sl : AuthState * list AuthEntry) (r : Z * AuthRequest) :
    AuthState * list AuthEntry :=
  match answer r.1 r.2 sl.1 with
  | (Returns reply, s) => (s, sl.2 ++ [{| at_time := r.1; asked := r.2; got := reply |}])
  | (Throws _, s) => (s, sl.2)
  end.

Definition served (rs : list (Z * AuthRequest)) : AuthState * list AuthEntry :=
  foldl serve_one (loaded, []) rs.
End Auth.
