(* ===== verification/AuthFacts.v ===== *)
(** * What a token proves

    Tokens verify until they expire and say who asked for them; whoever a guard
    lets through has signed a challenge with the key it is let through as. *)
From S2P Require Import Prelude JsLang StreamId Json Base64 Auth.
From stdpp Require Import sorting.
Local Open Scope Z_scope.

(** ** The three parts of a token *)

Lemma split_on_app c a x rest :
  split_on c a = [a] -> code x = c -> split_on c (a +:+ String x rest) = a :: split_on c rest.
Proof.
  intros Ha Hx. induction a as [|y a IH].
  { change ("" +:+ ?s) with s. simpl. by rewrite (proj2 (Z.eqb_eq _ _) Hx). }
  change (String y a +:+ ?s) with (String y (a +:+ s)). simpl in *.
  destruct (code y =? c) eqn:E; [done|].
  destruct (split_on c a) as [|t ts] eqn:Es; [by destruct a; simpl in Es; repeat case_match|].
  injection Ha as -> ->. by rewrite IH.
Qed.

Lemma dot_app s : "." +:+ s = String "." s.
Proof. done. Qed.

Lemma split_text_inj h b h' b' :
  split_on 46 h = [h] -> split_on 46 b = [b] -> split_on 46 h' = [h'] -> split_on 46 b' = [b'] ->
  h +:+ "." +:+ b = h' +:+ "." +:+ b' -> h = h' /\ b = b'.
Proof.
  intros Hh Hb Hh' Hb' E. apply (f_equal (split_on 46)) in E.
  rewrite !dot_app, !split_on_app, Hb, Hb' in E by done. by simplify_eq.
Qed.

(** The parts of a split text have no separator in them. *)
Lemma split_on_parts c s : Forall (fun t => split_on c t = [t]) (split_on c s).
Proof.
  induction s as [|x s IH]; [by repeat constructor|]. simpl.
  destruct (code x =? c) eqn:E; [by constructor|].
  destruct (split_on c s) as [|t ts]; [repeat constructor; simpl; by rewrite E|].
  apply Forall_cons in IH as [Ht Hts]. constructor; [|done]. simpl. by rewrite E, Ht.
Qed.

Section Facts.
Context {Sdk : AuthSdk} (env : AuthEnv).

Notation serve := (served env).

Lemma split_signature text : split_on 46 (signature_of env text) = [signature_of env text].
Proof. apply split_base64url, hmac_bytes. Qed.

Lemma signature_nonempty text : truthy_text (Some (signature_of env text)) <> None.
Proof.
  unfold signature_of. intros H. assert (base64url (hmac_sha256 (JWT_SECRET env) text) = ""%string) as E.
  { by destruct (base64url _). }
  apply (f_equal Buffer_from_base64url) in E. rewrite Buffer_roundtrip in E by apply hmac_bytes.
  pose proof (hmac_length (JWT_SECRET env) text) as Hl. rewrite E in Hl. discriminate Hl.
Qed.

Definition payload_part (j : Json) : string := base64url (utf8_encode (JSON_stringify j)).
Definition signed_part (j : Json) : string := jwt_header +:+ "." +:+ payload_part j.

Lemma split_signJwt j :
  split_on 46 (signJwt env j) = [jwt_header; payload_part j; signature_of env (signed_part j)].
Proof.
  unfold signJwt. fold (payload_part j) (signed_part j).
  rewrite !dot_app, split_on_app by by vm_compute.
  rewrite split_on_app by (done || apply split_base64url, utf8_bytes).
  by rewrite split_signature.
Qed.

Lemma same_bytes_refl a : same_bytes a a = true.
Proof. unfold same_bytes. by rewrite Nat.eqb_refl, bool_decide_eq_true_2. Qed.

Lemma parse_payload j : carried j = true ->
  parse_bytes JSON_parse_other (Buffer_from_base64url (payload_part j)) = Returns j.
Proof.
  intros H. unfold payload_part, parse_bytes. rewrite Buffer_roundtrip, utf8_roundtrip by apply utf8_bytes.
  by apply JSON_parse_stringify.
Qed.

(** What [verifyJwt] makes of the payload it has read. *)
Definition accepted (now : Z) (payload : Json) : option Json :=
  if exp_passed (member "exp" payload) (seconds now) then None
  else if negb (is_text (member "iss" payload) (JWT_ISSUER env)) ||
          negb (is_text (member "aud" payload) (JWT_AUDIENCE env)) then None
  else Some (member "sub" payload).

Lemma accepted_payload now key t0 :
  0 <= t0 ->
  accepted now (token_payload env key t0) = if t0 + 3600 <? seconds now then None else Some (JString key).
Proof.
  intros Ht. unfold accepted, token_payload, member, is_text. simpl.
  unfold JWT_EXPIRY_SECONDS. rewrite (proj2 (Z.eqb_neq _ _)) by lia. simpl.
  rewrite !bool_decide_eq_true_2 by done. by case_match.
Qed.

Lemma verify_token now key t0 :
  0 <= t0 ->
  verifyJwt env now (signJwt env (token_payload env key t0)) =
    if t0 + 3600 <? seconds now then None else Some (JString key).
Proof.
  intros Ht. rewrite <- accepted_payload by done. unfold verifyJwt. rewrite split_signJwt.
  fold (signed_part (token_payload env key t0)).
  pose proof (signature_nonempty (signed_part (token_payload env key t0))) as Hs.
  assert (truthy_text (Some (payload_part (token_payload env key t0))) <> None) as Hp.
  { intros H. assert (payload_part (token_payload env key t0) = ""%string) as E by by destruct (payload_part _).
    pose proof (parse_payload (token_payload env key t0) eq_refl) as Hr. rewrite E in Hr. discriminate Hr. }
  destruct (truthy_text (Some (payload_part _))); [|done]. destruct (truthy_text (Some (signature_of _ _))); [|done].
  change (truthy_text (Some jwt_header)) with (Some jwt_header). cbv iota zeta.
  rewrite same_bytes_refl. change (negb true) with false. cbv iota.
  by rewrite parse_payload.
Qed.

(** A token made at second [t0] for a key is accepted as that key's until the
    second [t0 + 3600] is over, and refused from then on — whatever the secret,
    the issuer and the audience the server was started with. *)
Theorem token_roundtrip (now t0 : Z) (key : string) :
  0 <= t0 ->
  verifyJwt env now (signJwt env (token_payload env key t0)) =
    (if seconds now <=? t0 + JWT_EXPIRY_SECONDS then Some (JString key) else None).
Proof.
  intros Ht. rewrite verify_token by done. unfold JWT_EXPIRY_SECONDS.
  rewrite Z.leb_antisym. by destruct (_ <? _).
Qed.

(** ** What an accepted token is *)

(** A token with the tag of the text in its first two parts. *)
Definition carries_tag (token text : string) : Prop :=
  exists h b rest, split_on 46 token = h :: b :: signature_of env text :: rest /\
    text = h +:+ "." +:+ b /\ split_on 46 h = [h] /\ split_on 46 b = [b].

Lemma verifyJwt_inv now token user :
  verifyJwt env now token = Some user ->
  exists h b payload, carries_tag token (h +:+ "." +:+ b) /\ split_on 46 h = [h] /\ split_on 46 b = [b] /\
    parse_bytes JSON_parse_other (Buffer_from_base64url b) = Returns payload /\
    accepted now payload = Some user.
Proof.
  unfold verifyJwt. pose proof (split_on_parts 46 token) as Hp.
  destruct (split_on 46 token) as [|h [|b [|sig rest]]] eqn:E; try done.
  apply Forall_cons in Hp as [Hh Hp]. apply Forall_cons in Hp as [Hb _].
  destruct (truthy_text (Some h)); [|done]. destruct (truthy_text (Some b)); [|done].
  destruct (truthy_text (Some sig)); [|done]. cbv zeta.
  destruct (same_bytes _ _) eqn:Es; [|done]. change (negb true) with false. cbv iota.
  apply andb_prop in Es as [_ Es]. apply bool_decide_eq_true, utf8_inj in Es as ->.
  intros H. exists h, b.
  destruct (parse_bytes _ _) as [payload|] eqn:Epl; [|done]. exists payload.
  split_and!; try done; [by exists h, b, rest|].
  by destruct payload.
Qed.

(** ** Runs *)

Lemma answer_returns now req s : exists reply s', answer env now req s = (Returns reply, s').
Proof.
  destruct req; simpl; unfold issueChallenge, verifyChallenge, bind, gets, modify, ret;
    repeat case_match; simplify_eq/=; eauto; unfold sweepExpiredChallenges in *; simplify_eq.
Qed.

Lemma served_snoc rs r :
  exists e, at_time e = r.1 /\ asked e = r.2 /\
    answer env r.1 r.2 (serve rs).1 = (Returns (got e), (serve (rs ++ [r])).1) /\
    (serve (rs ++ [r])).2 = (serve rs).2 ++ [e].
Proof.
  assert (serve (rs ++ [r]) = serve_one env (serve rs) r) as Es by (unfold served; by rewrite foldl_app).
  destruct (answer_returns r.1 r.2 (serve rs).1) as (reply & s' & E).
  exists {| at_time := r.1; asked := r.2; got := reply |}. rewrite Es. unfold serve_one. by rewrite E.
Qed.

(** A transaction that meets the challenge: from the key, carrying the nonce,
    signed by the key. *)
Definition meets (key n text : string) : Prop :=
  exists tx, fromXDR text = Some tx /\ tx_source tx = Some key /\ nonce_of tx = Some n /\
    existsb (verifies key (tx_hash tx)) (tx_signatures tx) = true.

(** An entry that sets or uses up the challenge of a key. *)
Definition touches (key : string) (e : AuthEntry) : bool :=
  match asked e, got e with
  | PostChallenge k _, ChallengeIssued _ _ => bool_decide (k = Some key)
  | PostVerify k _, TokenIssued _ _ => bool_decide (k = Some key)
  | _, _ => false
  end.

Definition challenge_entry (t : Z) (key : string) (drawn : list Z) : AuthEntry :=
  {| at_time := t; asked := PostChallenge (Some key) drawn; got := ChallengeIssued (hex drawn) (t + 60000) |}.

(** [c] is the challenge the key was last given, and it is not used up. *)
Definition outstanding (log : list AuthEntry) (key : string) (c : Challenge) : Prop :=
  exists p q t drawn, log = p ++ challenge_entry t key drawn :: q /\
    c = {| nonce := hex drawn; expiresAt := t + 60000 |} /\ Forall (fun e => touches key e = false) q.

Definition backed (s : AuthState) (log : list AuthEntry) : Prop :=
  forall key c, challenges s !! key = Some c -> outstanding log key c.

Lemma outstanding_snoc log e key c :
  outstanding log key c -> touches key e = false -> outstanding (log ++ [e]) key c.
Proof.
  intros (p & q & t & drawn & -> & -> & Hq) He. exists p, (q ++ [e]), t, drawn.
  split_and!; [by rewrite <- app_assoc|done|]. rewrite Forall_app. auto.
Qed.

Lemma truthy_text_Some o key : truthy_text o = Some key -> o = Some key.
Proof. by destruct o as [[|]|]. Qed.

(** Every answer keeps the pending challenges backed by the record. *)
Lemma answer_backed now req s reply s' log :
  answer env now req s = (Returns reply, s') -> backed s log ->
  backed s' (log ++ [{| at_time := now; asked := req; got := reply |}]).
Proof.
  intros E Hb.
  assert (s' = s -> (forall key, touches key {| at_time := now; asked := req; got := reply |} = false) ->
    backed s' (log ++ [{| at_time := now; asked := req; got := reply |}])) as Hsame.
  { intros -> Ht key c Hc. apply outstanding_snoc; [by apply Hb|apply Ht]. }
  destruct req as [pk drawn|pk text| | | |]; simpl in E;
    unfold issueChallenge, verifyChallenge, bind, gets, modify, ret in E; try (simplify_eq; by apply Hsame).
  - destruct (truthy_text pk) as [key|] eqn:Ek; [|simplify_eq; by apply Hsame].
    apply truthy_text_Some in Ek as ->.
    destruct (isValidEd25519PublicKey key); simplify_eq; [|by apply Hsame].
    intros k c. simpl. destruct (decide (k = key)) as [->|Hne].
    + rewrite lookup_insert_eq. intros [= <-]. by exists log, [], now, drawn.
    + rewrite lookup_insert_ne by done. intros Hc. apply outstanding_snoc; [by apply Hb|].
      apply bool_decide_eq_false. congruence.
  - destruct (truthy_text pk) as [key|] eqn:Ek; [|simplify_eq; by apply Hsame].
    apply truthy_text_Some in Ek as ->.
    repeat (case_match; simplify_eq/=; try by apply Hsame).
    intros k c'. simpl. rewrite lookup_delete_Some. intros [Hne Hc].
    apply outstanding_snoc; [by apply Hb|]. apply bool_decide_eq_false. congruence.
  - destruct (challengeSweepTimer s); [|simplify_eq; by apply Hsame].
    unfold sweepExpiredChallenges in E. simplify_eq.
    intros k c. simpl. rewrite map_lookup_filter_Some. intros [Hc _]. apply outstanding_snoc; [by apply Hb|done].
Qed.

Lemma served_backed rs : backed (serve rs).1 (serve rs).2.
Proof.
  induction rs as [|r rs IH] using rev_ind; [by intros key c|].
  destruct (served_snoc rs r) as (e & Ht & Ha & E & ->).
  destruct e as [t req reply]; simpl in *; subst. by eapply answer_backed.
Qed.

(** Every entry of the record is the answer of a state its past backs. *)
Lemma served_entry rs before e after :
  (serve rs).2 = before ++ e :: after ->
  exists s s', backed s before /\ answer env (at_time e) (asked e) s = (Returns (got e), s').
Proof.
  revert after. induction rs as [|r rs IH] using rev_ind; intros after.
  { intros H. by apply app_cons_not_nil in H. }
  destruct (served_snoc rs r) as (e' & Ht & Ha & E & ->). intros H.
  destruct after as [|e2 after _] using rev_ind.
  - apply app_inj_tail in H as [<- <-]. rewrite Ht, Ha. eexists _, _. split; [apply served_backed|done].
  - rewrite app_comm_cons, app_assoc in H. apply app_inj_tail in H as [H _]. by eapply IH.
Qed.

(** ** Who is let through *)

(** The user an answer lets through, and the token it was asked with. *)
Definition user_of (e : AuthEntry) : option Json :=
  match got e with LetThrough u => Some u | Passed u => u | _ => None end.

Definition token_of (req : AuthRequest) : option string :=
  match req with
  | Guarded h | AdminOnly h => bearer h
  | Optional h => truthy_text (extractBearerToken h)
  | _ => None
  end.

Lemma let_through now req s reply s' u :
  answer env now req s = (Returns reply, s') ->
  user_of {| at_time := now; asked := req; got := reply |} = Some u ->
  exists token, token_of req = Some token /\ verifyJwt env now token = Some u /\
    (forall h, req = AdminOnly h -> exists k, u = JString k /\ ADMIN_PUBLIC_KEY env = Some k).
Proof.
  intros E Hu. destruct req as [pk drawn|pk text|h|h|h|]; simpl in E.
  1,2,6: exfalso; unfold issueChallenge, verifyChallenge, bind, gets, modify, ret, user_of in *;
    repeat (case_match; simplify_eq/=); done.
  all: unfold ret, requireAdmin, requireAuth, optionalAuthMiddleware, user_of in *; simpl in *; simplify_eq.
  - destruct (bearer h) as [token|]; [|done]. exists token.
    destruct (verifyJwt env now token); by simplify_eq.
  - destruct (bearer h) as [token|]; [|done]. exists token.
    destruct (verifyJwt env now token) as [user|]; [|done].
    destruct (truthy_text (ADMIN_PUBLIC_KEY env)) as [k|] eqn:Ek; [|done].
    destruct (is_text user k) eqn:Ei; [|done]. simplify_eq. split_and!; try done. intros h' _.
    exists k. apply truthy_text_Some in Ek. split; [|done].
    destruct u; try done. simpl in Ei. by apply bool_decide_eq_true in Ei as ->.
  - destruct (truthy_text (extractBearerToken h)) as [token|]; [|done]. by exists token.
Qed.

Lemma token_issued now req s s' tok x :
  answer env now req s = (Returns (TokenIssued tok x), s') ->
  exists key text c, req = PostVerify (Some key) (Some text) /\ challenges s !! key = Some c /\
    now <= expiresAt c /\ meets key (nonce c) text /\
    tok = signJwt env (token_payload env key (seconds now)).
Proof.
  intros E. destruct req as [pk drawn|pk text|h|h|h|]; simpl in E;
    unfold issueChallenge, verifyChallenge, bind, gets, modify, ret, requireAdmin, requireAuth,
      optionalAuthMiddleware in E;
    try by repeat (case_match; simplify_eq/=).
  destruct (truthy_text pk) as [key|] eqn:Ek; [|done]. destruct (truthy_text text) as [t|] eqn:Et; [|done].
  apply truthy_text_Some in Ek as ->. apply truthy_text_Some in Et as ->.
  destruct (challenges s !! key) as [c|] eqn:Ec; [|done].
  destruct (expired now c) eqn:Ee; [done|]. destruct (fromXDR t) as [tx|] eqn:Ex; [|done].
  repeat match type of E with context [if negb ?b then _ else _] => destruct b eqn:?; simpl in E; [|done] end.
  simplify_eq. exists key, t, c. split_and!; try done; [by apply Z.ltb_ge|].
  repeat match goal with H : bool_decide _ = true |- _ => apply bool_decide_eq_true in H end.
  by exists tx.
Qed.

(** Tags cannot be made up: a token that carries the tag of a text carries one
    the server gave out before. *)
Definition unforged (before : list AuthEntry) (token : string) : Prop :=
  forall text, carries_tag token text ->
    exists e tok x, e ∈ before /\ got e = TokenIssued tok x /\ carries_tag tok text.

Lemma tag_of_issued j text : carries_tag (signJwt env j) text -> text = signed_part j.
Proof.
  intros (h & b & rest & E & -> & _). rewrite split_signJwt in E. by simplify_eq.
Qed.

(** The token of a request that was let through is one that was given out. *)
Lemma accepted_token_issued before now token u :
  verifyJwt env now token = Some u -> unforged before token ->
  exists e tok x, e ∈ before /\ got e = TokenIssued tok x /\
    forall key t0, 0 <= t0 -> tok = signJwt env (token_payload env key t0) ->
      u = JString key /\ seconds now <= t0 + JWT_EXPIRY_SECONDS.
Proof.
  intros (h & b & payload & Htag & Hh & Hb & Hp & Ha)%verifyJwt_inv Hu.
  destruct (Hu _ Htag) as (e & tok & x & Hin & Hg & Ht). exists e, tok, x. split_and!; [done..|].
  intros key t0 H0 ->. apply tag_of_issued, split_text_inj in Ht as [_ ->]; [|done..| |].
  - rewrite parse_payload in Hp by done. injection Hp as <-. rewrite accepted_payload in Ha by done.
    unfold JWT_EXPIRY_SECONDS. destruct (Z.ltb_spec (t0 + 3600) (seconds now)); simplify_eq. split; [done|lia].
  - by vm_compute.
  - apply split_base64url, utf8_bytes.
Qed.

(** C4. Whoever a guard lets through as a user has proved to hold that user's key:
    in any run of requests, if tags cannot be made up, a request let through at
    [now] as [user] was preceded by a challenge given to that very key, and then
    by a transaction from the key that carries the challenge's nonce and is
    signed by the key, at most sixty seconds later and at most an hour before
    [now]; no challenge of the key was given or used in between, so each nonce
    buys one token.  Behind the admin guard the key is the administrator's. *)
Theorem admitted_users_proved_key (rs : list (Z * AuthRequest)) (before after : list AuthEntry)
    (e : AuthEntry) (u : Json) :
  (serve rs).2 = before ++ e :: after -> user_of e = Some u ->
  (forall token, token_of (asked e) = Some token -> unforged before token) ->
  (forall e', e' ∈ before -> 0 <= at_time e') ->
  exists p q r key drawn t1 text tok x t0,
    u = JString key /\
    before = p ++ challenge_entry t1 key drawn :: q ++
      {| at_time := t0; asked := PostVerify (Some key) (Some text); got := TokenIssued tok x |} :: r /\
    meets key (hex drawn) text /\ t0 <= t1 + 60000 /\ seconds (at_time e) <= seconds t0 + 3600 /\
    (forall e', e' ∈ q -> touches key e' = false) /\
    (forall h, asked e = AdminOnly h -> ADMIN_PUBLIC_KEY env = Some key).
Proof.
  intros Hlog Huser Hunf Htimes.
  destruct (served_entry _ _ _ _ Hlog) as (s & s' & _ & Eans).
  destruct e as [now req reply]; simpl in *.
  destruct (let_through _ _ _ _ _ _ Eans Huser) as (token & Htok & Hver & Hadmin).
  destruct (accepted_token_issued _ _ _ _ Hver (Hunf _ Htok)) as (e0 & tok & x & Hin & Hg & Hmade).
  pose proof (Htimes _ Hin) as H0. apply list_elem_of_split in Hin as (b0 & r & ->).
  rewrite <- app_assoc in Hlog. simpl in Hlog.
  destruct (served_entry _ _ _ _ Hlog) as (s0 & s0' & Hback & E0).
  destruct e0 as [t0 req0 rep0]; simpl in *. subst rep0.
  apply token_issued in E0 as (key & text & c & -> & Hc & Hexp & Hmeets & ->).
  destruct (Hback _ _ Hc) as (p & q & t1 & drawn & -> & -> & Hq).
  destruct (Hmade key (seconds t0)) as [-> Hle]; [by apply Z.div_pos; lia|done|].
  exists p, q, r, key, drawn, t1, text, (signJwt env (token_payload env key (seconds t0))), x, t0.
  split_and!; try done.
  - by rewrite <- app_assoc.
  - intros e' He. by eapply Forall_forall in Hq.
  - intros h Hh. by destruct (Hadmin h Hh) as (k & [= <-] & ?).
Qed.
End Facts.

(** * A run of the authentication endpoints *)

Local Open Scope Z_scope.

(** A tag that mixes the key and the text; signatures are the hash and the key's
    first letter. *)
Definition toy_sum (s : string) : Z := foldr (fun c a => (code c + 3 * a) mod 256) 7 (chars s).

Definition toy_tag (k t : string) : list Z := replicate 32 (toy_sum (k +:+ t)).

Lemma toy_tag_bytes k t : bytes_ok (toy_tag k t).
Proof.
  apply Forall_replicate. unfold toy_sum. destruct (chars (k +:+ t)) as [|c l]; [done|]. simpl. unfold is_byte.
  pose proof (Z.mod_pos_bound (code c + 3 * foldr (fun c a => (code c + 3 * a) mod 256) 7 l) 256). lia.
Qed.

#[export] Instance sample_auth : AuthSdk := {|
  hmac_sha256 := toy_tag;
  hmac_bytes := toy_tag_bytes;
  hmac_length := fun k t => length_replicate 32 (toy_sum (k +:+ t));
  isValidEd25519PublicKey := fun k => bool_decide (k = "GALICE"%string) || bool_decide (k = "GADMIN"%string);
  fromXDR := fun text =>
    match split_on 46 text with
    | [key; value] => Some {| tx_source := Some key;
        tx_operations := [{| op_type := "manageData"; op_value := Some (utf8_encode value) |}];
        tx_hash := utf8_encode value; tx_signatures := [[1]; utf8_encode value] |}
    | _ => None
    end;
  fromPublicKey := fun _ => true;
  verifies := fun _ h s => bool_decide (h = s);
  JSON_parse_other := fun _ => Throws SyntaxErr;
  loose_lt := fun _ _ => false
|}.
Definition sample_env : AuthEnv := {|
  isProduction := false; rawJwtSecret := Some "secret"%string; randomSecret := "";
  JWT_ISSUER_env := None; JWT_AUDIENCE_env := None; ADMIN_PUBLIC_KEY := Some "GADMIN"%string
|}.

Definition login_token : string := signJwt sample_env (token_payload sample_env "GALICE" 1030).

Definition login : list (Z * AuthRequest) :=
  [(1000000, PostChallenge (Some "GALICE"%string) [110; 49]);
   (1030000, PostVerify (Some "GALICE"%string) (Some "GALICE.n1"%string));
   (4630999, Guarded (Some ("Bearer " +:+ login_token)%string))].

Definition login_log : list AuthEntry :=
  [challenge_entry 1000000 "GALICE" [110; 49];
   {| at_time := 1030000; asked := PostVerify (Some "GALICE"%string) (Some "GALICE.n1"%string);
      got := TokenIssued login_token 3600 |}].

Lemma admitted_users_proved_key_witness :
  exists p q r key drawn t1 text tok x t0,
    JString "GALICE" = JString key /\
    login_log = p ++ challenge_entry t1 key drawn :: q ++
      {| at_time := t0; asked := PostVerify (Some key) (Some text); got := TokenIssued tok x |} :: r /\
    meets key (hex drawn) text /\ t0 <= t1 + 60000 /\ seconds 4630999 <= seconds t0 + 3600 /\
    (forall e', e' ∈ q -> touches key e' = false) /\
    (forall h, Guarded (Some ("Bearer " +:+ login_token)%string) = AdminOnly h ->
       ADMIN_PUBLIC_KEY sample_env = Some key).
Proof.
  apply (admitted_users_proved_key sample_env login login_log []
    {| at_time := 4630999; asked := Guarded (Some ("Bearer " +:+ login_token)%string);
       got := LetThrough (JString "GALICE") |} (JString "GALICE")).
  - vm_refl.
  - done.
  - intros token Htok text Htag.
    exists {| at_time := 1030000; asked := PostVerify (Some "GALICE"%string) (Some "GALICE.n1"%string);
              got := TokenIssued login_token 3600 |}, login_token, 3600.
    split; [set_solver|]. split; [done|].
    assert (token = login_token) as -> by (apply (f_equal (default ""%string)) in Htok; exact (eq_sym Htok)).
    exact Htag.
  - intros e' He. unfold login_log in He. rewrite !elem_of_cons in He.
    destruct He as [->|[->|He]]; [done|done|by apply not_elem_of_nil in He].
Defined.

Lemma token_roundtrip_witness :
  verifyJwt sample_env 4630999 login_token =
    (if seconds 4630999 <=? 1030 + JWT_EXPIRY_SECONDS then Some (JString "GALICE") else None).
Proof. apply (token_roundtrip sample_env 4630999 1030 "GALICE"). lia. Defined.

(** A minute after its hour the token is refused; so is a tampered one. *)
Example token_expires : verifyJwt sample_env 4631000 login_token = None.
Proof. vm_refl. Qed.

(** What follows a third dot is not looked at. *)
Example trailing_text_ignored :
  verifyJwt sample_env 4000000 (login_token +:+ ".anything") = Some (JString "GALICE").
Proof. vm_refl. Qed.

(** A challenge is given to whoever asks, and replaces the pending one. *)
Example challenge_replaced :
  map got (served sample_env
    [(1000000, PostChallenge (Some "GALICE"%string) [110; 49]);
     (1001000, PostChallenge (Some "GALICE"%string) [110; 50]);
     (1030000, PostVerify (Some "GALICE"%string) (Some "GALICE.n1"%string))]).2 =
  [ChallengeIssued "6e31" 1060000; ChallengeIssued "6e32" 1061000;
   AuthError 401 "Invalid challenge nonce in transaction"].
Proof. vm_refl. Qed.

(** A used challenge is gone; the administrator's guard refuses other users. *)
Example second_use_and_admin :
  map got (served sample_env (login ++
    [(1031000, PostVerify (Some "GALICE"%string) (Some "GALICE.n1"%string));
     (1032000, AdminOnly (Some ("Bearer " +:+ login_token)%string));
     (1032000, Optional (Some ("Bearer " +:+ login_token)%string))])).2 =
  [ChallengeIssued "6e31" 1060000; TokenIssued login_token 3600; LetThrough (JString "GALICE");
   AuthError 401 "Challenge expired or not found"; AuthError 403 "Admin access required";
   Passed (Some (JString "GALICE"))].
Proof. vm_refl. Qed.
