(* ===== verification/Statement.v ===== *)
(** * Account statements: backend/src/services/export.service.ts and
    [exportTransactions] of backend/src/controllers/user.controller.ts

    A statement is written to the response while the streams of a wallet are
    read in batches of a hundred, ordered by their creation alone.  The order in
    which the database reads its rows for the [k]-th batch, which settles the
    order of streams created in the same millisecond, is [stream_scan k]; the
    rows themselves are those of one moment.  The identifier a batch starts after
    is that of the last stream of the one before: its column [id] is stood for by
    the stream's on-chain identifier, since both are unique. *)
From S2P Require Import Prelude JsLang Texts StreamId Json Schema Xdr Worker DeadLetter Amount Csv Dates Http StreamQueries.
From stdpp Require Import sorting.
Local Open Scope Z_scope.

(** ** Records *)

Inductive Direction := incoming | outgoing | all_directions.

Record ExportOptions := {
  ex_direction : Direction;
  ex_startDate : option num;
  ex_endDate : option num;
  ex_tokenAddress : option string
}.

Record TransactionRecord := {
  tx_timestamp : string;
  tx_streamId : string;
  tx_transactionHash : string;
  tx_eventType : string;
  tx_direction : string;
  tx_counterpartyAddress : string;
  tx_tokenContract : string;
  tx_grossAmountStroops : string;
  tx_grossAmountFormatted : string;
  tx_protocolFeeDeducted : string;
  tx_netAmount : string
}.

Definition CSV_HEADERS : string :=
  StreamId.join "," ["Timestamp (UTC)"; "Stream ID"; "Transaction Hash"; "Event Type"; "Direction";
            "Counterparty Address"; "Token Contract"; "Gross Amount (Stroops)";
            "Gross Amount (Formatted)"; "Protocol Fee Deducted"; "Net Amount"]%string.

Definition formatAmount (stroops : string) : outcome string :=
  let? amount := BigInt_of_string stroops in
  let divisor := 10 ^ 7 in
  Returns (BigInt_toString (Z.quot amount divisor) +:+ "." +:+
           padStart (BigInt_toString (Z.rem amount divisor)) 7).

Definition calculateProtocolFee (amount eventType : string) : outcome string :=
  if bool_decide (eventType = "WITHDRAWN"%string) then
    let? amt := BigInt_of_string amount in
    Returns (BigInt_toString (Z.quot (amt * 5) 1000))
  else Returns "0"%string.

(** [new Date(Number(event.timestamp) * 1000).toISOString()]; the product is
    exact wherever it is a date. *)
Definition event_time (timestamp : Z) : outcome string :=
  Date_toISOString match Number_of_bigint timestamp with Fin t => Fin (t * 1000) | x => x end.

Definition mapEventToTransaction (event : StreamEvent) (stream : Stream) (userAddress : string) :
    outcome TransactionRecord :=
  let isOutgoing := bool_decide (sender stream = userAddress) in
  let grossAmount := if truthy (ev_amount event) then default "" (ev_amount event) else "0" in
  let? protocolFee := calculateProtocolFee grossAmount (ev_eventType event) in
  let? gross := BigInt_of_string grossAmount in
  let? fee := BigInt_of_string protocolFee in
  let netAmount := BigInt_toString (gross - fee) in
  let? timestamp := event_time (ev_timestamp event) in
  let? grossFormatted := formatAmount grossAmount in
  let? netFormatted := formatAmount netAmount in
  Returns {|
    tx_timestamp := timestamp; tx_streamId := BigInt_toString (streamId stream);
    tx_transactionHash := ev_transactionHash event; tx_eventType := ev_eventType event;
    tx_direction := if isOutgoing then "OUTGOING" else "INCOMING";
    tx_counterpartyAddress := if isOutgoing then recipient stream else sender stream;
    tx_tokenContract := tokenAddress stream; tx_grossAmountStroops := grossAmount;
    tx_grossAmountFormatted := grossFormatted; tx_protocolFeeDeducted := protocolFee;
    tx_netAmount := netFormatted |}.

Definition record_fields (r : TransactionRecord) : list string :=
  [tx_timestamp r; tx_streamId r; tx_transactionHash r; tx_eventType r; tx_direction r;
   tx_counterpartyAddress r; tx_tokenContract r; tx_grossAmountStroops r; tx_grossAmountFormatted r;
   tx_protocolFeeDeducted r; tx_netAmount r].

Definition transactionToCSVRow (r : TransactionRecord) : string := StreamId.join "," (map escapeCSV (record_fields r)).

(** The object [JSON.stringify] is given, in the order of its literal. *)
Definition record_json (r : TransactionRecord) : Json :=
  JObject (zip ["timestamp"; "streamId"; "transactionHash"; "eventType"; "direction"; "counterpartyAddress";
                "tokenContract"; "grossAmountStroops"; "grossAmountFormatted"; "protocolFeeDeducted";
                "netAmount"]%string (map JString (record_fields r))).

(** ** The query *)

(** The bounds on an event's second; the conversion of an invalid date throws. *)
Definition second_of (date : num) : outcome Z :=
  match date with Fin t => Returns (t / 1000) | _ => Throws RangeErr end.
Definition optional_second (date : option num) : outcome (option Z) :=
  match date with
  | None => Returns None
  | Some t => let? s := second_of t in Returns (Some s)
  end.

Definition in_range (gte lte : option Z) (t : Z) : bool :=
  match gte with Some s => s <=? t | None => true end && match lte with Some s => t <=? s | None => true end.

Section Statements.
Context {P : PrismaEngine} {Hidden : HiddenColumns}.
Context (engine : string -> num) (d : DB P) (stream_scan : nat -> list Stream).
Context (userAddress : string) (options : ExportOptions).

Definition older_created (r r' : Stream) : Prop :=
  stream_createdAt (streamId r) <= stream_createdAt (streamId r').
#[export] Instance older_created_dec : RelDecision older_created.
Proof. intros r r'. unfold older_created. apply _. Defined.
Definition older_event (e e' : StreamEvent) : Prop := ev_timestamp e <= ev_timestamp e'.
#[export] Instance older_event_dec : RelDecision older_event.
Proof. intros e e'. unfold older_event. apply _. Defined.

Definition where_ (r : Stream) : bool :=
  (match ex_direction options with incoming => false | _ => bool_decide (sender r = userAddress) end ||
   match ex_direction options with outgoing => false | _ => bool_decide (recipient r = userAddress) end) &&
  (if truthy (ex_tokenAddress options) then bool_decide (ex_tokenAddress options = Some (tokenAddress r)) else true).

(** The rows after the one with the identifier [cursor]. *)
Fixpoint after_cursor (cursor : Z) (rows : list Stream) : list Stream :=
  match rows with
  | [] => []
  | r :: rows' => if bool_decide (streamId r = cursor) then rows' else after_cursor cursor rows'
  end.

Definition BATCH_SIZE : nat := 100.

Definition ordered (k : nat) : list Stream := merge_sort older_created (List.filter where_ (stream_scan k)).
Definition batch (k : nat) (cursor : option Z) : list Stream :=
  take BATCH_SIZE match cursor with Some id => after_cursor id (ordered k) | None => ordered k end.

(** The events that are included with a stream. *)
Definition included (gte lte : option Z) (r : Stream) : list StreamEvent :=
  merge_sort older_event
    (List.filter (fun e => bool_decide (ev_streamId e = streamId r) && in_range gte lte (ev_timestamp e))
       (event_rows d)).

(** ** The response *)

Record Response := {
  res_status : Z;
  res_headers : list (string * string);
  res_body : string; (* what was written *)
  res_ended : bool;
  processedCount : Z;
  isFirst : bool
}.

Definition fresh_response : Response :=
  {| res_status := 200; res_headers := []; res_body := EmptyString; res_ended := false;
     processedCount := 0; isFirst := true |}.

Definition setHeader (name v : string) : Js Response unit := modify (fun s =>
  {| res_status := res_status s; res_headers := res_headers s ++ [(name, v)]; res_body := res_body s;
     res_ended := res_ended s; processedCount := processedCount s; isFirst := isFirst s |}).
Definition write (text : string) : Js Response unit := modify (fun s =>
  {| res_status := res_status s; res_headers := res_headers s; res_body := res_body s +:+ text;
     res_ended := res_ended s; processedCount := processedCount s; isFirst := isFirst s |}).
Definition end_response : Js Response unit := modify (fun s =>
  {| res_status := res_status s; res_headers := res_headers s; res_body := res_body s;
     res_ended := true; processedCount := processedCount s; isFirst := isFirst s |}).
Definition count_row : Js Response unit := modify (fun s =>
  {| res_status := res_status s; res_headers := res_headers s; res_body := res_body s;
     res_ended := res_ended s; processedCount := processedCount s + 1; isFirst := false |}).

(** [isFirst] is only there for the JSON form; the CSV form leaves it out. *)
Inductive Format := csv | json.

Definition write_transaction (f : Format) (r : TransactionRecord) : Js Response unit :=
  match f with
  | csv => do! write (transactionToCSVRow r +:+ String LF EmptyString) in count_row
  | json =>
      do! (let! first := gets isFirst in if first then ret tt else write ",") in
      do! write (JSON_stringify (record_json r)) in
      count_row
  end.

Definition write_stream (f : Format) (gte lte : option Z) (r : Stream) : Js Response unit :=
  for_each (included gte lte r) (fun event =>
    let! transaction := lift (mapEventToTransaction event r userAddress) in
    write_transaction f transaction).

(** The loop over the batches.  The result says whether it left its loop within
    [fuel] batches. *)
Fixpoint write_batches (f : Format) (fuel k : nat) (cursor : option Z) : Js Response bool :=
  match fuel with
  | O => ret false
  | S fuel' =>
      let! gte := lift (optional_second (ex_startDate options)) in
      let! lte := lift (optional_second (ex_endDate options)) in
      let rows := batch k cursor in
      match last rows with
      | None => ret true
      | Some lastStream =>
          do! for_each rows (write_stream f gte lte) in
          if (length rows <? BATCH_SIZE)%nat then ret true
          else write_batches f fuel' (S k) (Some (streamId lastStream))
      end
  end.

Fixpoint before_T (s : string) : string :=
  match s with
  | EmptyString => EmptyString
  | String c s' => if code c =? 84 then EmptyString else String c (before_T s')
  end.

Definition start_response (now : Z) (kind extension : string) : Js Response unit :=
  let! today := lift (Date_toISOString (Fin now)) in
  do! setHeader "Content-Type" (kind +:+ "; charset=utf-8") in
  do! setHeader "Content-Disposition"
        ("attachment; filename=" +:+ dquote +:+ "flowfi-statement-" +:+ userAddress +:+ "-" +:+
         before_T today +:+ "." +:+ extension +:+ dquote) in
  setHeader "Transfer-Encoding" "chunked".

(** After an error what was written is left as it is: the headers were sent with
    the first text, so nothing is answered, and nothing ends the response. *)
Definition headersSent (s : Response) : bool := match res_body s with EmptyString => res_ended s | _ => true end.
Definition export_failed : Js Response bool := fun s =>
  if headersSent s then (Returns true, s)
  else (Returns true, {| res_status := 500; res_headers := res_headers s; res_body := JSON_stringify (JObject [("error", JString "Export failed")]);
                         res_ended := true; processedCount := processedCount s; isFirst := isFirst s |}).

Definition streamTransactionCSV (fuel : nat) (now : Z) : Js Response bool :=
  do! start_response now "text/csv" "csv" in
  do! write (CSV_HEADERS +:+ String LF EmptyString) in
  try_catch
    (let! finished := write_batches csv fuel 0 None in
     if finished then do! end_response in ret true else ret false)
    (fun _ => export_failed).

Definition streamTransactionJSON (fuel : nat) (now : Z) : Js Response bool :=
  do! start_response now "application/json" "json" in
  do! write ("{" +:+ dquote +:+ "transactions" +:+ dquote +:+ ":[") in
  try_catch
    (let! finished := write_batches json fuel 0 None in
     if finished then
       let! count := gets processedCount in
       let! exportedAt := lift (Date_toISOString (Fin now)) in
       do! write ("]," +:+ dquote +:+ "metadata" +:+ dquote +:+ ":{" +:+ dquote +:+ "totalRecords" +:+ dquote +:+ ":" +:+
                  BigInt_toString count +:+ "," +:+ dquote +:+ "exportedAt" +:+ dquote +:+ ":" +:+ dquote +:+ exportedAt +:+
                  dquote +:+ "," +:+ dquote +:+ "userAddress" +:+ dquote +:+ ":" +:+ dquote +:+ userAddress +:+ dquote +:+
                  "}}") in
       do! end_response in
       ret true
     else ret false)
    (fun _ => export_failed).
End Statements.

(** ** The endpoint *)

Record ExportQuery := {
  xq_format : option string;
  xq_direction : option string;
  xq_startDate : option string;
  xq_endDate : option string;
  xq_tokenAddress : option string
}.

Definition or_text (s : option string) (other : string) : string := if truthy s then default "" s else other.

Definition direction_of (s : string) : option Direction :=
  if bool_decide (s = "incoming"%string) then Some incoming
  else if bool_decide (s = "outgoing"%string) then Some outgoing
  else if bool_decide (s = "all"%string) then Some all_directions
  else None.
Definition format_of (s : string) : option Format :=
  if bool_decide (s = "csv"%string) then Some csv
  else if bool_decide (s = "json"%string) then Some json else None.

Definition query_date (engine : string -> num) (s : option string) : option num :=
  if truthy s then Some (Date_parse engine (default "" s)) else None.

(** What the endpoint does with a request: an error, or a statement that is
    being written. *)
Definition exportTransactions {P : PrismaEngine} {Hidden : HiddenColumns} (engine : string -> num) (d : DB P)
    (stream_scan : nat -> list Stream) (fuel : nat) (now : Z) (address : PathParam) (q : ExportQuery) :
    Js Response (Reply bool) :=
  match first_id address with
  | None => sendApiError 400 "INVALID_ADDRESS" "Invalid Stellar address"
  | Some address =>
      if negb (STELLAR_PUBLIC_KEY_REGEX address) then sendApiError 400 "INVALID_ADDRESS" "Invalid Stellar address"
      else
        match format_of (or_text (xq_format q) "csv") with
        | None => sendApiError 400 "INVALID_FORMAT" "Invalid format. Must be csv or json"
        | Some f =>
            match direction_of (or_text (xq_direction q) "all") with
            | None => sendApiError 400 "INVALID_DIRECTION" "Invalid direction. Must be incoming, outgoing, or all"
            | Some direction =>
                let options := {|
                  ex_direction := direction; ex_startDate := query_date engine (xq_startDate q);
                  ex_endDate := query_date engine (xq_endDate q);
                  ex_tokenAddress := if truthy (xq_tokenAddress q) then xq_tokenAddress q else None |} in
                let! finished := match f with
                  | csv => streamTransactionCSV d stream_scan address options fuel now
                  | json => streamTransactionJSON d stream_scan address options fuel now
                  end in
                send 200 finished
            end
        end
  end.
