(* ===== verification/StatementFacts.v ===== *)
(** * Account statements: properties

    A statement whose dates are valid lists every event of the wallet's streams
    in its range once, in a text the readers of its two forms take apart again;
    with an invalid date it stops after its first line and never ends.  The fee
    it deducts from withdrawals is not the contract's. *)
From S2P Require Import Prelude JsLang Texts StreamId Json Schema Xdr Worker DeadLetter Amount Csv Dates Http StreamQueries StreamQueryFacts Statement.
From stdpp Require Import sorting.
Local Open Scope Z_scope.

(** ** Records *)

(** A text of whole and fractional digits, as [formatAmount] of the service
    writes it. *)
Lemma formatAmount_reads amount v :
  0 <= v -> BigInt_of_string amount = Returns v ->
  exists text, formatAmount amount = Returns text /\ parseAmount text 7 = Returns v.
Proof.
  intros Hv Ha. unfold formatAmount. rewrite Ha. cbn [obind]. eexists. split; [done|].
  destruct (quot_rem_nonneg v 7 Hv) as (Hq & Hr & Hi & Hf). change (10 ^ Z.of_nat 7) with (10 ^ 7) in *.
  rewrite Hq, Hr.
  pose proof (fraction_text_spec (v mod 10 ^ 7) 6 Hf) as (Hdig & Hlen & Hval).
  change (fraction_text (v mod 10 ^ 7) 7) with (padStart (BigInt_toString (v mod 10 ^ 7)) 7) in *.
  set (F := padStart _ 7) in *. pose proof (nat_digits_all (v / 10 ^ 7) Hi) as Hi_dig.
  rewrite toString_nonneg by done.
  destruct (dot_split (nat_digits (v / 10 ^ 7)) F Hi_dig) as [Hb Haft].
  replace (Returns v) with (Returns (digits_value (nat_digits (v / 10 ^ 7)) * 10 ^ Z.of_nat 7 + digits_value F)).
  2: { f_equal. rewrite nat_digits_value, Hval by done. change (Z.of_nat 7) with 7. pose proof (Z.div_mod v (10 ^ 7)). lia. }
  assert (padEnd F 7 = F) as Hpad by (unfold padEnd; rewrite Hlen; apply app_string_nil).
  rewrite <- Hpad at 2. apply parse_parts; try done.
  - apply plain_trim. by rewrite !plain_app, (plain_digits _ Hi_dig), (plain_digits _ Hdig).
  - by destruct (nat_digits _).
  - by rewrite Haft.
  - lia.
Qed.

Lemma quot_permil g : 0 <= g -> 0 <= Z.quot (g * 5) 1000 <= g.
Proof. intros. rewrite Z.quot_div_nonneg by lia. divlia. Qed.

Definition gross_text (e : StreamEvent) : string :=
  if truthy (ev_amount e) then default ""%string (ev_amount e) else "0"%string.

(** The fee a statement deducts. *)
Definition deducted (e : StreamEvent) (gross : Z) : Z :=
  if bool_decide (ev_eventType e = "WITHDRAWN"%string) then Z.quot (gross * 5) 1000 else 0.

Lemma fee_reads e g :
  BigInt_of_string (gross_text e) = Returns g ->
  calculateProtocolFee (gross_text e) (ev_eventType e) = Returns (BigInt_toString (deducted e g)).
Proof. intros Hg. unfold calculateProtocolFee, deducted. case_bool_decide; [by rewrite Hg|done]. Qed.

(** An event with a whole amount and a time that is a date has a row, whose three
    amounts are the event's, the fee and their difference. *)
Lemma record_exists e r user g time :
  0 <= g -> BigInt_of_string (gross_text e) = Returns g -> event_time (ev_timestamp e) = Returns time ->
  exists t, mapEventToTransaction e r user = Returns t /\
    tx_transactionHash t = ev_transactionHash e /\ tx_eventType t = ev_eventType e /\ tx_timestamp t = time /\
    tx_streamId t = BigInt_toString (streamId r) /\
    parseAmount (tx_grossAmountFormatted t) 7 = Returns g /\
    BigInt_of_string (tx_protocolFeeDeducted t) = Returns (deducted e g) /\
    parseAmount (tx_netAmount t) 7 = Returns (g - deducted e g).
Proof.
  intros Hg Htext Htime. unfold mapEventToTransaction. fold (gross_text e).
  rewrite (fee_reads e g Htext). cbn [obind]. rewrite Htext, BigInt_roundtrip, Htime. cbn [obind].
  assert (0 <= deducted e g <= g) by (unfold deducted; case_bool_decide; [by apply quot_permil|lia]).
  destruct (formatAmount_reads (gross_text e) g Hg Htext) as (gf & -> & Hgf).
  destruct (formatAmount_reads (BigInt_toString (g - deducted e g)) (g - deducted e g)) as (nf & -> & Hnf);
    [lia|apply BigInt_roundtrip|].
  cbn [obind]. eexists. split; [done|]. cbn. rewrite BigInt_roundtrip. by split_and!.
Qed.

(** ** Writing *)

Section Facts.
Context {P : PrismaEngine} {Hidden : HiddenColumns}.
Context (d : DB P) (stream_scan : nat -> list Stream) (user : string) (options : ExportOptions).

(** The transactions of some streams, in the order they are written. *)
Definition pairs (gte lte : option Z) (rows : list Stream) : list (Stream * StreamEvent) :=
  concat (map (fun r => map (fun e => (r, e)) (included d gte lte r)) rows).

Definition recorded (p : Stream * StreamEvent) (t : TransactionRecord) : Prop :=
  mapEventToTransaction p.2 p.1 user = Returns t.

Definition wrote (f : Format) (s : Response) (t : TransactionRecord) : Response :=
  (write_transaction f t s).2.

Lemma write_transaction_eq f t s : write_transaction f t s = (Returns tt, wrote f s t).
Proof. unfold wrote, write_transaction. destruct f; [done|]. unfold bind, gets. by destruct (isFirst s). Qed.

Lemma write_stream_eq f gte lte r ts s :
  Forall2 recorded (pairs gte lte [r]) ts ->
  write_stream d user f gte lte r s = (Returns tt, fold_left (wrote f) ts s).
Proof.
  unfold pairs, write_stream. cbn [map concat]. rewrite app_nil_r. revert ts s.
  induction (included d gte lte r) as [|e es IH]; intros ts s H; inversion H as [|? t ? ts' Ht Hts]; subst; [done|].
  cbn [for_each fold_left]. unfold bind at 1. unfold bind at 1. unfold lift. unfold recorded in Ht. cbn [fst snd] in Ht.
  rewrite Ht, write_transaction_eq. by apply IH.
Qed.

Lemma pairs_app gte lte rows rows' : pairs gte lte (rows ++ rows') = pairs gte lte rows ++ pairs gte lte rows'.
Proof. unfold pairs. by rewrite map_app, concat_app. Qed.

Lemma write_streams_eq f gte lte rows ts s :
  Forall2 recorded (pairs gte lte rows) ts ->
  for_each rows (write_stream d user f gte lte) s = (Returns tt, fold_left (wrote f) ts s).
Proof.
  revert ts s. induction rows as [|r rows IH]; intros ts s H.
  - inversion H; subst. done.
  - change (r :: rows) with ([r] ++ rows) in H. rewrite pairs_app in H.
    apply Forall2_app_inv_l in H as (ts1 & ts2 & H1 & H2 & ->). cbn [for_each]. unfold bind.
    rewrite (write_stream_eq _ _ _ _ _ _ H1), fold_left_app. by apply IH.
Qed.

(** The rows a batch starts with are what the rows before it leave. *)
Lemma after_cursor_split rows done_ r rest :
  rows = done_ ++ r :: rest -> NoDup (map streamId rows) -> after_cursor (streamId r) rows = rest.
Proof.
  intros -> Hnd. induction done_ as [|x xs IH]; cbn [app after_cursor].
  - by rewrite bool_decide_eq_true_2.
  - cbn [map app] in Hnd. apply NoDup_cons in Hnd as [Hx Hnd]. rewrite bool_decide_eq_false_2; [by apply IH|].
    intros E. apply Hx. rewrite E, map_app. cbn [map]. set_solver.
Qed.

Definition cursor_of (done_ : list Stream) : option Z := streamId <$> last done_.

(** The streams a batch reads after those that were written. *)
Lemma batch_eq k done_ rest :
  ordered stream_scan user options k = done_ ++ rest -> NoDup (map streamId (done_ ++ rest)) ->
  batch stream_scan user options k (cursor_of done_) = take BATCH_SIZE rest.
Proof.
  intros Hord Hnd. unfold batch, cursor_of. f_equal. destruct done_ as [|x xs _] using rev_ind; [done|].
  rewrite last_snoc. simpl. rewrite Hord. eapply (after_cursor_split _ xs x); [|done]. by rewrite <- app_assoc.
Qed.
Section Loop.
Context (gte lte : option Z) (rows : list Stream).
Hypothesis Hgte : optional_second (ex_startDate options) = Returns gte.
Hypothesis Hlte : optional_second (ex_endDate options) = Returns lte.
Hypothesis Hstable : forall k, ordered stream_scan user options k = rows.
Hypothesis Hids : NoDup (map streamId rows).

(** One turn of the loop, on what is left of the rows. *)
Lemma write_batches_turn f fuel k done_ rest s :
  rows = done_ ++ rest ->
  write_batches d stream_scan user options f (S fuel) k (cursor_of done_) s =
    match last (take BATCH_SIZE rest) with
    | None => (Returns true, s)
    | Some lastStream =>
        (do! for_each (take BATCH_SIZE rest) (write_stream d user f gte lte) in
         if (length (take BATCH_SIZE rest) <? BATCH_SIZE)%nat then ret true
         else write_batches d stream_scan user options f fuel (S k) (Some (streamId lastStream))) s
    end.
Proof.
  intros Hrows. cbn [write_batches]. rewrite Hgte, Hlte. unfold lift, bind at 1 2.
  rewrite (batch_eq k done_ rest) by (rewrite <- Hrows; done).
  by destruct (last (take BATCH_SIZE rest)).
Qed.

Lemma last_take_split (n : nat) (rest : list Stream) r :
  last (take n rest) = Some r -> exists init, take n rest = init ++ [r].
Proof.
  intros H. destruct (take n rest) as [|x xs _] using rev_ind; [done|].
  rewrite last_snoc in H. injection H as ->. by exists xs.
Qed.

Lemma write_batches_eq f fuel k done_ rest ts s :
  rows = done_ ++ rest -> (length rest < BATCH_SIZE * fuel)%nat ->
  Forall2 recorded (pairs gte lte rest) ts ->
  write_batches d stream_scan user options f fuel k (cursor_of done_) s =
    (Returns true, fold_left (wrote f) ts s).
Proof.
  unfold BATCH_SIZE. revert k done_ rest ts s. induction fuel as [|fuel IH]; intros k done_ rest ts s Hrows Hlen Hts; [lia|].
  rewrite (write_batches_turn f fuel k done_ rest) by done.
  destruct (last (take BATCH_SIZE rest)) as [lastStream|] eqn:El.
  2: { apply last_None in El. destruct rest as [|r rest]; [|done]. inversion Hts; subst. done. }
  apply last_take_split in El as (init & Einit).
  pose proof (take_drop BATCH_SIZE rest) as Hsplit. rewrite <- Hsplit, pairs_app in Hts.
  apply Forall2_app_inv_l in Hts as (ts1 & ts2 & H1 & H2 & ->).
  unfold bind. rewrite (write_streams_eq _ _ _ _ _ _ H1), fold_left_app.
  rewrite length_take. unfold BATCH_SIZE in *. destruct (Nat.ltb_spec (100 `min` length rest) 100) as [Hlt|Hge].
  - rewrite drop_ge in H2 by lia. by inversion H2; subst.
  - rewrite <- (IH (S k) (done_ ++ take 100 rest) (drop 100 rest)).
    + f_equal. unfold cursor_of. by rewrite Einit, app_assoc, last_snoc.
    + by rewrite <- app_assoc, Hsplit.
    + rewrite length_drop. lia.
    + done.
Qed.
End Loop.

(** ** What is written *)

Definition csv_line (t : TransactionRecord) : string := transactionToCSVRow t +:+ String LF EmptyString.
Definition csv_lines (ts : list TransactionRecord) : string := foldr String.append EmptyString (map csv_line ts).

Lemma wrote_csv ts s :
  let s' := fold_left (wrote csv) ts s in
  res_body s' = res_body s +:+ csv_lines ts /\ res_ended s' = res_ended s /\ res_status s' = res_status s /\
  processedCount s' = processedCount s + Z.of_nat (length ts).
Proof.
  cbv zeta. revert s. induction ts as [|t ts IH]; intros s.
  - cbn. rewrite app_string_nil. split_and!; [done..|lia].
  - cbn [fold_left]. destruct (IH (wrote csv s t)) as (-> & -> & -> & ->). cbn [length].
    unfold wrote, write_transaction, bind, write, count_row, modify. cbn [snd res_body res_ended res_status processedCount].
    unfold csv_lines. cbn [map foldr]. rewrite app_string_assoc. split_and!; [done..|lia].
Qed.

(** The rows of the JSON form, with the comma before each but the first. *)
Definition json_rows (first : bool) (ts : list TransactionRecord) : string :=
  (if first then EmptyString else match ts with [] => EmptyString | _ => ","%string end) +:+
  StreamId.join "," (map (fun t => JSON_stringify (record_json t)) ts).

Lemma json_rows_cons t ts :
  JSON_stringify (record_json t) +:+ json_rows false ts = json_rows true (t :: ts).
Proof. destruct ts; [|done]. unfold json_rows. cbn [map StreamId.join]. by rewrite !app_string_nil. Qed.

Lemma wrote_json ts s :
  let s' := fold_left (wrote json) ts s in
  res_body s' = res_body s +:+ json_rows (isFirst s) ts /\ res_ended s' = res_ended s /\ res_status s' = res_status s /\
  processedCount s' = processedCount s + Z.of_nat (length ts).
Proof.
  cbv zeta. revert s. induction ts as [|t ts IH]; intros s.
  - cbn. destruct (isFirst s); cbn; rewrite app_string_nil; split_and!; done || lia.
  - cbn [fold_left]. destruct (IH (wrote json s t)) as (-> & -> & -> & ->). cbn [length].
    unfold wrote, write_transaction, bind, write, count_row, modify, gets, ret.
    destruct (isFirst s); cbn [snd res_body res_ended res_status processedCount isFirst];
      (split_and!; [|done|done|lia]); rewrite ?app_string_assoc; f_equal.
    + apply json_rows_cons.
    + by rewrite json_rows_cons.
Qed.

(** ** Which events *)

Definition in_statement (gte lte : option Z) (e : StreamEvent) : bool :=
  match t_find (ev_streamId e) (streams d) with
  | Some r => where_ user options r
  | None => false
  end && in_range gte lte (ev_timestamp e).

(** The row of an event: what identifies it, and its three amounts. *)
Definition row_of (e : StreamEvent) (t : TransactionRecord) : Prop :=
  tx_transactionHash t = ev_transactionHash e /\ tx_eventType t = ev_eventType e /\
  tx_streamId t = BigInt_toString (ev_streamId e) /\
  exists g, BigInt_of_string (gross_text e) = Returns g /\
    parseAmount (tx_grossAmountFormatted t) 7 = Returns g /\
    BigInt_of_string (tx_protocolFeeDeducted t) = Returns (deducted e g) /\
    parseAmount (tx_netAmount t) 7 = Returns (g - deducted e g).

(** An event that can be written. *)
Definition readable (e : StreamEvent) : Prop :=
  exists g time, 0 <= g /\ BigInt_of_string (gross_text e) = Returns g /\ event_time (ev_timestamp e) = Returns time.

Lemma eq_Permutation {A} (l l' : list A) : l = l' -> l ≡ₚ l'.
Proof. by intros ->. Qed.

Lemma filter_disjoint {A} (p q : A -> bool) (l : list A) :
  (forall x, p x = true -> q x = false) ->
  List.filter p l ++ List.filter q l ≡ₚ List.filter (fun x => p x || q x) l.
Proof.
  intros H. induction l as [|x l IH]; [done|]. cbn [List.filter]. destruct (p x) eqn:Hp.
  - rewrite (H x Hp). cbn [app orb]. by constructor.
  - cbn [orb]. destruct (q x); [|done]. rewrite <- Permutation_middle. by constructor.
Qed.

Lemma included_events gte lte rows evs :
  NoDup (map streamId rows) ->
  concat (map (fun r => List.filter (fun e => bool_decide (ev_streamId e = streamId r) && in_range gte lte (ev_timestamp e)) evs) rows)
  ≡ₚ List.filter (fun e => bool_decide (ev_streamId e ∈ map streamId rows) && in_range gte lte (ev_timestamp e)) evs.
Proof.
  induction rows as [|r rows IH]; intros Hnd; cbn [map concat].
  - induction evs as [|e evs IHe]; [done|]. cbn [List.filter]. by rewrite bool_decide_eq_false_2 by set_solver.
  - cbn [map] in Hnd. apply NoDup_cons in Hnd as [Hr Hnd]. rewrite (IH Hnd), filter_disjoint.
    + apply eq_Permutation, filter_ext. intros e. destruct (in_range _ _ _); [|by rewrite !andb_false_r].
      rewrite !andb_true_r. apply eq_iff_eq_true. rewrite orb_true_iff, !bool_decide_eq_true. set_solver.
    + intros e. destruct (in_range _ _ _); [|by rewrite andb_false_r]. rewrite !andb_true_r, bool_decide_eq_true, bool_decide_eq_false.
      congruence.
Qed.

Lemma pairs_events gte lte rows :
  (pairs gte lte rows).*2 ≡ₚ
  concat (map (fun r => List.filter (fun e => bool_decide (ev_streamId e = streamId r) && in_range gte lte (ev_timestamp e))
                          (event_rows d)) rows).
Proof.
  unfold pairs. induction rows as [|r rows IH]; [done|]. cbn [map concat]. rewrite fmap_app, IH. f_equiv.
  rewrite <- list_fmap_compose. unfold compose. cbn [snd]. rewrite list_fmap_id. apply merge_sort_Permutation.
Qed.

Section Rows.
Hypothesis Hok : db_ok d.

Lemma stream_rows_find id r : r ∈ stream_rows d /\ streamId r = id <-> t_find id (streams d) = Some r.
Proof.
  unfold stream_rows. split.
  - intros [([k x] & -> & Hin)%list_elem_of_fmap <-]. apply t_rows_spec in Hin. cbn [snd].
    by rewrite (sro_key _ _ _ (ok_streams _ Hok _ _ Hin)).
  - intros Hf. split; [|by apply (sro_key _ _ _ (ok_streams _ Hok _ _ Hf))].
    apply list_elem_of_fmap. exists (id, r). split; [done|]. by apply t_rows_spec.
Qed.

Lemma stream_rows_nodup : NoDup (map streamId (stream_rows d)).
Proof.
  unfold stream_rows. replace (map streamId (t_rows (streams d)).*2) with (t_rows (streams d)).*1; [apply t_rows_nodup|].
  rewrite <- list_fmap_compose. apply list_fmap_ext. intros i [k r] Hi. apply list_elem_of_lookup_2, t_rows_spec in Hi.
  symmetry. by apply (sro_key _ _ _ (ok_streams _ Hok _ _ Hi)).
Qed.

Lemma matching_nodup rows : rows ≡ₚ List.filter (where_ user options) (stream_rows d) -> NoDup (map streamId rows).
Proof.
  intros Hp. rewrite Hp. clear Hp. pose proof stream_rows_nodup as H. induction (stream_rows d) as [|r rs IH]; [done|].
  cbn [map List.filter] in *. apply NoDup_cons in H as [Hr H]. case_match; [|by apply IH]. cbn [map]. apply NoDup_cons.
  split; [|by apply IH]. intros Hin. apply Hr. apply list_elem_of_fmap in Hin as (x & E & Hx). rewrite E.
  apply list_elem_of_fmap. exists x. split; [done|]. by apply list_elem_of_In, List.filter_In, proj1, list_elem_of_In in Hx.
Qed.

(** What is written for the streams of the wallet are its events, each once. *)
Lemma statement_events gte lte rows :
  rows ≡ₚ List.filter (where_ user options) (stream_rows d) ->
  (pairs gte lte rows).*2 ≡ₚ List.filter (in_statement gte lte) (event_rows d).
Proof.
  intros Hp. rewrite pairs_events, included_events by (by apply matching_nodup). apply eq_Permutation, filter_ext. intros e. unfold in_statement. f_equal. apply eq_iff_eq_true. rewrite bool_decide_eq_true, list_elem_of_fmap.
  setoid_rewrite Hp. setoid_rewrite list_elem_of_In. setoid_rewrite List.filter_In. setoid_rewrite <- list_elem_of_In. split.
  - intros (r & Hid & Hr & Hw). symmetry in Hid. by rewrite (proj1 (stream_rows_find (ev_streamId e) r) (conj Hr Hid)).
  - destruct (t_find _ _) as [r|] eqn:E; [|done]. intros Hw. apply stream_rows_find in E as [Hr Hid]. by exists r.
Qed.
End Rows.

(** ** Texts that JSON leaves as they are *)

Definition plain_char (c : Ascii.ascii) : bool :=
  (32 <=? code c) && negb (code c =? 34) && negb (code c =? 92).
Fixpoint json_plain (s : string) : bool :=
  match s with EmptyString => true | String c s' => plain_char c && json_plain s' end.

Lemma plain_escape s : json_plain s = true -> json_escape s = s.
Proof.
  induction s as [|c s IH]; [done|]. simpl. intros [Hc Hs]%andb_true_iff. rewrite (IH Hs).
  unfold plain_char in Hc. unfold json_escape_char. repeat case_match; lia || done.
Qed.

Lemma json_plain_app a b : json_plain (a +:+ b) = json_plain a && json_plain b.
Proof.
  induction a as [|c a IH]; [done|]. change (json_plain (String c a +:+ b)) with (plain_char c && json_plain (a +:+ b)).
  rewrite IH. simpl. by rewrite andb_assoc.
Qed.

Lemma key_plain s : STELLAR_PUBLIC_KEY_REGEX s = true -> json_plain s = true.
Proof.
  destruct s as [|c s]; [done|]. simpl. intros [[Hc Hs]%andb_true_iff _]%andb_true_iff. unfold plain_char.
  replace (code c) with 71 by lia. cbn. clear Hc. induction s as [|x s IH]; [done|]. simpl in *.
  apply andb_true_iff in Hs as [Hx Hs]. rewrite (IH Hs). unfold plain_char, base32_char in *. lia.
Qed.

Lemma digits_plain s : all_digits s = true -> json_plain s = true.
Proof.
  induction s as [|c s IH]; [done|]. simpl. intros [Hc Hs]%andb_true_iff. rewrite (IH Hs).
  unfold is_digit, plain_char in *. lia.
Qed.

Lemma pad_plain n z : 0 <= z < 10 ^ Z.of_nat (S n) -> json_plain (pad (S n) z) = true.
Proof. intros Hz. apply digits_plain. by destruct (fraction_text_spec z n Hz). Qed.

Lemma iso_plain now :
  0 <= year (civil_from_days (now / DAY_MS)) <= 9999 ->
  exists iso, Date_toISOString (Fin now) = Returns iso /\ json_plain iso = true.
Proof.
  intros Hy. destruct (iso_time_roundtrip now Hy) as (iso & Hiso & _). exists iso. split; [done|].
  unfold Date_toISOString in Hiso. case_match; [|done]. injection Hiso as <-.
  pose proof (civil_bounds (now / DAY_MS)) as [Hm Hd]. unfold date_text, time_text, year_text.
  rewrite (proj2 (Z.leb_le 0 _)), (proj2 (Z.leb_le _ 9999)) by lia. cbn [andb]. rewrite !json_plain_app.
  pose proof (Z.mod_pos_bound now DAY_MS ltac:(done)) as Hms. destruct (civil_from_days _) as [y m dd].
  cbn [year month day] in *. revert Hms. generalize (now mod DAY_MS). unfold DAY_MS. intros ms Hms.
  rewrite (pad_plain 3), !(pad_plain 1), (pad_plain 2) by (simpl; divlia). done.
Qed.

(** ** Statements *)

(** The streams of the wallet were created at different times, so there is one
    order of them, whatever order the database reads them in. *)
Definition created_apart : Prop :=
  NoDup (map (fun r => stream_createdAt (streamId r)) (List.filter (where_ user options) (stream_rows d))).

Lemma map_inj_on {A B} (f : A -> B) l x y : NoDup (map f l) -> x ∈ l -> y ∈ l -> f x = f y -> x = y.
Proof.
  induction l as [|a l IH]; [set_solver|]. cbn [map]. intros [Ha Hnd]%NoDup_cons Hx Hy E.
  apply elem_of_cons in Hx as [->|Hx]; apply elem_of_cons in Hy as [->|Hy]; [done| | |by apply IH].
  - destruct Ha. rewrite E. by apply list_elem_of_fmap_2.
  - destruct Ha. rewrite <- E. by apply list_elem_of_fmap_2.
Qed.

Lemma Permutation_filter {A} (p : A -> bool) (l l' : list A) : l ≡ₚ l' -> List.filter p l ≡ₚ List.filter p l'.
Proof. induction 1; simpl; repeat case_match; eauto using Permutation. Qed.

Lemma ordered_perm k :
  stream_scan k ≡ₚ stream_rows d ->
  ordered stream_scan user options k ≡ₚ List.filter (where_ user options) (stream_rows d).
Proof. intros H. unfold ordered. rewrite merge_sort_Permutation. by apply Permutation_filter. Qed.

Lemma ordered_stable k :
  created_apart -> (forall k, stream_scan k ≡ₚ stream_rows d) ->
  ordered stream_scan user options k = ordered stream_scan user options 0.
Proof.
  intros Happ Hscan. pose proof (ordered_perm k (Hscan k)) as Hk. pose proof (ordered_perm 0 (Hscan 0%nat)) as H0.
  assert (Transitive older_created) by (intros a b c; unfold older_created; lia).
  assert (Total older_created) by (intros a b; unfold older_created; lia).
  apply (StronglySorted_unique_strong older_created).
  - intros x y Hx Hy. rewrite Hk in Hx. rewrite H0 in Hy. unfold older_created. intros.
    eapply (map_inj_on (fun r => stream_createdAt (streamId r))); [exact Happ|done|done|]. simpl. lia.
  - by apply (StronglySorted_merge_sort older_created).
  - by apply (StronglySorted_merge_sort older_created).
  - by rewrite Hk, H0.
Qed.

Section Complete.
Context (gte lte : option Z).
Hypothesis Hok : db_ok d.
Hypothesis Happ : created_apart.
Hypothesis Hscan : forall k, stream_scan k ≡ₚ stream_rows d.
Hypothesis Hgte : optional_second (ex_startDate options) = Returns gte.
Hypothesis Hlte : optional_second (ex_endDate options) = Returns lte.
Hypothesis Hread : Forall readable (List.filter (in_statement gte lte) (event_rows d)).

Lemma records_exist :
  exists ts, Forall2 recorded (pairs gte lte (ordered stream_scan user options 0)) ts /\
    exists es, es ≡ₚ List.filter (in_statement gte lte) (event_rows d) /\ Forall2 row_of es ts.
Proof.
  pose proof (ordered_perm 0 (Hscan 0%nat)) as Hperm. set (rows := ordered _ _ _ 0) in *.
  pose proof (statement_events Hok gte lte rows Hperm) as Hev.
  assert (forall p, p ∈ pairs gte lte rows -> readable p.2 /\ ev_streamId p.2 = streamId p.1) as Hpairs.
  { intros p Hp. split.
    - rewrite <- Hev in Hread. rewrite Forall_forall in Hread. apply Hread.
      by apply list_elem_of_fmap_2.
    - unfold pairs in Hp. apply list_elem_of_In, in_concat in Hp as (l & Hl & Hp).
      apply in_map_iff in Hl as (r & <- & _). apply in_map_iff in Hp as (e & <- & He). cbn [fst snd].
      apply list_elem_of_In in He. unfold included in He. rewrite merge_sort_Permutation in He.
      apply list_elem_of_In, List.filter_In, proj2, andb_true_iff, proj1, bool_decide_eq_true in He. done. }
  assert (exists ts, Forall2 (fun p t => recorded p t /\ row_of p.2 t) (pairs gte lte rows) ts) as (ts & Hts).
  { clear Hev. induction (pairs gte lte rows) as [|p ps IH]; [by exists []|].
    destruct IH as (ts & Hts); [by intros q Hq; apply Hpairs, list_elem_of_further|].
    destruct (Hpairs p) as ((g & time & Hg & Htext & Htime) & Hid); [by left|].
    destruct (record_exists p.2 p.1 user g time Hg Htext Htime) as (t & Ht & H1 & H2 & _ & H4 & H5 & H6 & H7).
    exists (t :: ts). constructor; [|done]. split; [done|]. unfold row_of. rewrite Hid. split_and!; eauto. }
  exists ts. split; [by eapply Forall2_impl; [exact Hts|]; intros ? ? []|].
  exists (pairs gte lte rows).*2. split; [exact Hev|]. apply Forall2_fmap_l.
  by eapply Forall2_impl; [exact Hts|]; intros ? ? [].
Qed.

Lemma write_all f fuel s :
  (length (stream_rows d) < BATCH_SIZE * fuel)%nat ->
  exists ts es, es ≡ₚ List.filter (in_statement gte lte) (event_rows d) /\ Forall2 row_of es ts /\
    write_batches d stream_scan user options f fuel 0 None s = (Returns true, fold_left (wrote f) ts s).
Proof.
  intros Hfuel. destruct records_exist as (ts & Hts & es & Hes & Hrow). exists ts, es. split_and!; [done..|].
  pose proof (ordered_perm 0 (Hscan 0%nat)) as Hperm.
  apply (write_batches_eq gte lte (ordered stream_scan user options 0) Hgte Hlte
    (fun k => ordered_stable k Happ Hscan) (matching_nodup Hok _ Hperm) f fuel 0 [] _ ts s eq_refl); [|done].
  rewrite (Permutation_length Hperm). pose proof (List.filter_length_le (where_ user options) (stream_rows d)). lia.
Qed.

Lemma csv_row_reads t : parseCSVLine (transactionToCSVRow t) = record_fields t.
Proof.
  apply parse_cells; [|done]. unfold record_fields. cbn [map].
  repeat constructor; apply escapeCSV_cell.
Qed.

Lemma started now kind extension s :
  0 <= year (civil_from_days (now / DAY_MS)) <= 9999 ->
  exists s', start_response user now kind extension s = (Returns tt, s') /\ res_body s' = res_body s /\
    res_ended s' = res_ended s /\ res_status s' = res_status s /\ processedCount s' = processedCount s /\
    isFirst s' = isFirst s.
Proof.
  intros Hy. destruct (iso_time_roundtrip now Hy) as (iso & Hiso & _). unfold start_response. rewrite Hiso.
  eexists. split; [done|]. by split_and!.
Qed.


(** The same in the other form: what is written piece by piece is the text
    [JSON.stringify] gives of the whole statement.  The address, which is written
    unescaped, needs no escape: a public key never does ([key_plain]). *)
Theorem json_statement_stringified (fuel : nat) (now : Z) :
  json_plain user = true ->
  0 <= year (civil_from_days (now / DAY_MS)) <= 9999 ->
  (length (stream_rows d) < BATCH_SIZE * fuel)%nat ->
  exists ts es iso s,
    streamTransactionJSON d stream_scan user options fuel now fresh_response = (Returns true, s) /\
    res_ended s = true /\ res_status s = 200 /\ Date_toISOString (Fin now) = Returns iso /\
    es ≡ₚ List.filter (in_statement gte lte) (event_rows d) /\ Forall2 row_of es ts /\
    res_body s = JSON_stringify (JObject
      [("transactions", JArray (map record_json ts));
       ("metadata", JObject [("totalRecords", JNumber (Z.of_nat (length es))); ("exportedAt", JString iso);
                             ("userAddress", JString user)])])%string.
Proof.
  intros Huser Hnow Hfuel.
  destruct (started now "application/json" "json" fresh_response Hnow) as (s0 & Hs & Hb & He & Hst & Hc & Hf).
  set (s1 := (write ("{" +:+ dquote +:+ "transactions" +:+ dquote +:+ ":[") s0).2).
  destruct (write_all json fuel s1 Hfuel) as (ts & es & Hes & Hrow & Hrun).
  destruct (wrote_json ts s1) as (Hb' & He' & Hst' & Hc'). destruct (iso_plain now Hnow) as (iso & Hiso & Hplain).
  exists ts, es, iso. set (s2 := fold_left (wrote json) ts s1) in *.
  eexists. split_and!; [|..|exact Hiso|exact Hes|exact Hrow|].
  - unfold streamTransactionJSON, bind at 1. rewrite Hs. unfold bind at 1.
    change (write ?t s0) with (Returns tt, s1). cbv iota beta. unfold try_catch, bind at 1. rewrite Hrun.
    cbv iota beta. unfold bind at 1, gets. unfold bind at 1, lift. rewrite Hiso. reflexivity.
  - done.
  - cbn [end_response write modify snd res_status]. rewrite Hst'. unfold s1. cbn. by rewrite Hst.
  - cbn [end_response write modify snd res_body]. rewrite Hb', Hc'. unfold s1. cbn [write modify snd res_body isFirst processedCount].
    rewrite Hb, Hf, Hc. rewrite (Forall2_length _ _ _ Hrow). cbn [fresh_response res_body isFirst processedCount].
    unfold json_rows. rewrite <- (map_map record_json JSON_stringify).
    cbn [JSON_stringify map concat app StreamId.join fst snd].
    unfold json_quote. rewrite (plain_escape iso Hplain), (plain_escape user Huser).
    by rewrite !app_string_assoc.
Qed.
End Complete.
End Facts.

(** ** Dates that are none *)

Lemma start_response_at user now kind extension s :
  0 <= year (civil_from_days (now / DAY_MS)) <= 9999 ->
  exists s', start_response user now kind extension s = (Returns tt, s') /\ res_body s' = res_body s /\
    res_ended s' = res_ended s /\ res_status s' = res_status s /\ processedCount s' = processedCount s.
Proof.
  intros Hy. destruct (iso_time_roundtrip now Hy) as (iso & Hiso & _). unfold start_response. rewrite Hiso.
  eexists. split; [done|]. by split_and!.
Qed.

Definition invalid_date (date : option num) : bool :=
  match date with Some (Fin _) | None => false | Some _ => true end.

Lemma invalid_second date : invalid_date date = true -> optional_second date = Throws RangeErr.
Proof. by destruct date as [[]|]. Qed.

Definition first_text (f : Format) : string :=
  match f with
  | csv => CSV_HEADERS +:+ String LF EmptyString
  | json => "{" +:+ dquote +:+ "transactions" +:+ dquote +:+ ":["
  end.

Section InvalidDates.
Context {P : PrismaEngine} {Hidden : HiddenColumns}.

Lemma write_batches_invalid (d : DB P) scan user options f fuel k cursor s :
  invalid_date (ex_startDate options) || invalid_date (ex_endDate options) = true ->
  exists e, write_batches d scan user options f (S fuel) k cursor s = (Throws e, s).
Proof.
  intros H. cbn [write_batches]. unfold bind, lift. destruct (optional_second (ex_startDate options)) eqn:Es; [|by eexists].
  destruct (optional_second (ex_endDate options)) eqn:Ee; [|by eexists].
  apply orb_true_iff in H as [H|H]; apply invalid_second in H; congruence.
Qed.

(** A date the engine cannot read — a Unix timestamp, which the documentation of
    the endpoint offers, is one — is not refused: the first line of the statement
    is sent with status 200, and then nothing; the response is never ended. *)
Theorem invalid_date_never_ends (engine : string -> num) (d : DB P) (scan : nat -> list Stream)
    (fuel : nat) (now : Z) (address : string) (q : ExportQuery) (f : Format) :
  STELLAR_PUBLIC_KEY_REGEX address = true ->
  format_of (or_text (xq_format q) "csv") = Some f ->
  is_some (direction_of (or_text (xq_direction q) "all")) = true ->
  invalid_date (query_date engine (xq_startDate q)) || invalid_date (query_date engine (xq_endDate q)) = true ->
  0 <= year (civil_from_days (now / DAY_MS)) <= 9999 ->
  exists s, exportTransactions engine d scan (S fuel) now (Segment address) q fresh_response = (Returns (Answer 200 true), s) /\
    res_ended s = false /\ res_status s = 200 /\ res_body s = first_text f /\ processedCount s = 0.
Proof.
  intros Ha Hf Hd Hdates Hnow. unfold exportTransactions. cbn [first_id]. rewrite Ha, Hf. cbn [negb].
  destruct (direction_of _) as [direction|]; [|done]. set (options := Build_ExportOptions _ _ _ _).
  assert (forall kind extension, exists s1, (do! start_response address now kind extension in write (first_text f)) fresh_response
      = (Returns tt, s1) /\ res_body s1 = first_text f /\ res_ended s1 = false /\ res_status s1 = 200 /\ processedCount s1 = 0)
    as Hstart.
  { intros kind extension. destruct (start_response_at address now kind extension fresh_response Hnow) as (s0 & Hs & Hb & He & Hst & Hc).
    eexists. unfold bind. rewrite Hs. split; [done|]. cbn. rewrite Hb, He, Hst, Hc. by split_and!. }
  assert (forall s1, res_body s1 = first_text f -> export_failed s1 = (Returns true, s1)) as Hfail.
  { intros s1 Hb. unfold export_failed, headersSent. rewrite Hb. by destruct f. }
  destruct f.
  - destruct (Hstart "text/csv" "csv")%string as (s1 & Hs & Hb & He & Hst & Hc).
    destruct (write_batches_invalid d scan address options csv fuel 0 None s1 Hdates) as [e Hrun].
    exists s1. split_and!; [|done..]. unfold bind at 1, streamTransactionCSV. fold (first_text csv).
    unfold bind at 1. unfold bind in Hs at 1. destruct (start_response _ _ _ _ _) as [[[]|] s0]; [|done].
    unfold bind at 1. rewrite Hs. unfold try_catch, bind at 1. rewrite Hrun, Hfail by done. done.
  - destruct (Hstart "application/json" "json")%string as (s1 & Hs & Hb & He & Hst & Hc).
    destruct (write_batches_invalid d scan address options json fuel 0 None s1 Hdates) as [e Hrun].
    exists s1. split_and!; [|done..]. unfold bind at 1, streamTransactionJSON. fold (first_text json).
    unfold bind at 1. unfold bind in Hs at 1. destruct (start_response _ _ _ _ _) as [[[]|] s0]; [|done].
    unfold bind at 1. rewrite Hs. unfold try_catch, bind at 1. rewrite Hrun, Hfail by done. done.
Qed.
End InvalidDates.

(** * Account statements: concrete inputs

    The statement of the sample sender, a request dated by a Unix timestamp, a
    stream that a tie in the order of creation loses, and the fee of a statement
    next to what the contract pays. *)

From S2P Require Import Soroban StreamApi StreamApiFacts Contract ContractCalls EventQueries Samples WorkerFacts Replay.
Local Open Scope Z_scope.

(** ** The fee *)

(** The contract pays a withdrawal out in full and takes no fee for it; the
    statement of the same withdrawal deducts half a percent all the same. *)
Theorem statement_fee_invented (m : EventMeta) (now : Z) (to : ScAddress) (id : Z) (c c' : ContractState)
    (evs : list EventResponse) (e : StreamEvent) (r : Stream) (user time : string) :
  withdraw m now to id c = Ok (c', evs) ->
  exists entry paid,
    entries c !! id = Some entry /\
    (withdrawn_amount <$> (en_core <$> entries c' !! id)) = Some (withdrawn_amount (en_core entry) + paid) /\
    head evs = Some (TokensWithdrawnEvent m id to paid now) /\
    (forall treasury fee token, FeeCollectedEvent m id treasury fee token ∉ evs) /\
    (ev_eventType e = "WITHDRAWN"%string -> ev_amount e = Some (BigInt_toString paid) ->
     event_time (ev_timestamp e) = Returns time -> 200 <= paid ->
     exists t net, mapEventToTransaction e r user = Returns t /\ parseAmount (tx_netAmount t) 7 = Returns net /\
       net = paid - paid / 200 /\ net < paid).
Proof.
  unfold withdraw, load_stream. destruct (entries c !! id) as [entry|] eqn:Ee; [|done]. cbn [ok_or rbind].
  destruct (ensure (bool_decide _) _); [|done]. cbn [rbind]. destruct (ensure (is_active _) _); [|done]. cbn [rbind].
  destruct (ensure (negb _) _); [|done]. cbn [rbind]. set (paid := calculate_claimable _ _).
  unfold ensure. case (Z.ltb_spec 0 paid); intros Hpos; [|done]. cbn [rbind].
  unfold checked_add. destruct (_ && _); [|done]. cbn [ok_or rbind]. intros [= <- <-].
  exists entry, paid. split_and!; [done|by cbn; rewrite lookup_insert_eq|done| |].
  - intros treasury fee token Hin. apply elem_of_cons in Hin as [H|Hin]; [done|].
    case_match; [|by apply not_elem_of_nil in Hin]. by apply list_elem_of_singleton in Hin.
  - intros Htype Ham Htime Hbig.
    assert (gross_text e = BigInt_toString paid) as Htext.
    { unfold gross_text. rewrite Ham. unfold truthy. rewrite bool_decide_eq_false_2; [done|].
      pose proof (nat_digits_only paid ltac:(lia)). rewrite toString_nonneg by lia. by destruct (nat_digits paid). }
    destruct (record_exists e r user paid time ltac:(lia)) as (t & Ht & _ & _ & _ & _ & _ & _ & Hnet);
      [rewrite Htext; apply BigInt_roundtrip|done|].
    exists t. eexists. split_and!; [exact Ht|exact Hnet|..]; unfold deducted; rewrite bool_decide_eq_true_2 by done;
      rewrite Z.quot_div_nonneg by lia; divlia.
Qed.

(** Stream 1 with its creation and a withdrawal of 50. *)
Definition paid_world : World gmap_engine := process_all [(105000, withdrawn1)] sample_world.
Definition paid_db : DB gmap_engine := db paid_world.
Definition paid_events : list StreamEvent := Eval vm_compute in event_rows paid_db.
Definition everything : ExportOptions :=
  {| ex_direction := all_directions; ex_startDate := Some (Fin 0); ex_endDate := None; ex_tokenAddress := None |}.
Definition paid_scan (k : nat) : list Stream := stream_rows paid_db.

Lemma paid_ok : db_ok paid_db.
Proof. apply processEvent_keeps_ok, sample_world_ok. Qed.
Lemma paid_apart : created_apart paid_db "G1" everything.
Proof. apply (bool_decide_unpack _). vm_compute. exact I. Qed.
Lemma paid_events_eq : List.filter (in_statement paid_db "G1" everything (Some 0) None) (event_rows paid_db) = paid_events.
Proof. vm_refl. Qed.
Lemma paid_readable : Forall readable (List.filter (in_statement paid_db "G1" everything (Some 0) None) (event_rows paid_db)).
Proof.
  rewrite paid_events_eq.
  apply List.Forall_cons; [exists 50; eexists; split; [lia|split; [vm_refl|vm_compute; reflexivity]]|].
  apply List.Forall_cons; [exists 1000; eexists; split; [lia|split; [vm_refl|vm_compute; reflexivity]]|]. apply List.Forall_nil.
Qed.


Lemma json_statement_stringified_witness :
  exists ts s,
    streamTransactionJSON paid_db paid_scan "G1" everything 1 1700000000000 fresh_response = (Returns true, s) /\
    res_body s = JSON_stringify (JObject
      [("transactions", JArray (map record_json ts));
       ("metadata", JObject [("totalRecords", JNumber 2); ("exportedAt", JString "2023-11-14T22:13:20.000Z");
                             ("userAddress", JString "G1")])])%string.
Proof.
  destruct (json_statement_stringified paid_db paid_scan "G1" everything (Some 0) None paid_ok paid_apart (fun _ => Permutation_refl _)
    eq_refl eq_refl paid_readable 1 1700000000000 ltac:(vm_refl) ltac:(vm_compute; split; discriminate)
    ltac:(apply (bool_decide_unpack _); vm_compute; exact I))
    as (ts & es & iso & s & Hrun & _ & _ & Hiso & Hes & _ & Hbody).
  exists ts, s. split; [exact Hrun|]. rewrite Hbody, (Permutation_length Hes), paid_events_eq.
  vm_compute in Hiso. by injection Hiso as <-.
Defined.

(** ** A Unix timestamp *)

Definition by_timestamp : ExportQuery :=
  {| xq_format := None; xq_direction := None; xq_startDate := Some "1700000000"%string; xq_endDate := None;
     xq_tokenAddress := None |}.
Definition a_key : string := "GBBDIOEJGZHV5GFZQB4T7NKZQKRVNDQYXKW6Z3VJXZAVFQKZ5HM5J2EU".

Lemma invalid_date_never_ends_witness :
  exists s, exportTransactions (fun _ => NaN) paid_db paid_scan 1 1700000000000 (Segment a_key) by_timestamp fresh_response =
    (Returns (Answer 200 true), s) /\ res_ended s = false /\ res_status s = 200 /\ res_body s = first_text csv /\
    processedCount s = 0.
Proof.
  apply (invalid_date_never_ends (fun _ => NaN) paid_db paid_scan 0 1700000000000 a_key by_timestamp csv);
    [vm_refl|vm_refl|vm_refl|vm_refl|vm_compute; split; discriminate].
Defined.

(** ** The fee of a withdrawal *)

Definition paying : ContractState :=
  {| stream_counter := 1; config := None; protocol_paused := false;
     entries := {[ 1 := {| en_sender := alice; en_recipient := bob; en_token := token; en_start_time := 100;
       en_status := Active; en_core := {| rate_per_second := 10; deposited_amount := 1000; withdrawn_amount := 0;
         last_update_time := 100; is_active := true; Contract.paused := false; paused_at := None; schedule := Linear |} |} ]} |}.
Definition paid_400 : StreamEvent :=
  {| ev_streamId := 1; ev_eventType := "WITHDRAWN"; ev_amount := Some "400"%string; ev_transactionHash := "tx";
     ev_ledgerSequence := 1; ev_timestamp := 140; ev_metadata := None |}.

Definition paid_run : ContractState * list EventResponse :=
  match withdraw (meta "w" 2) 140 bob 1 paying with Ok run => run | Err _ => (paying, []) end.

Lemma statement_fee_invented_witness :
  exists t, mapEventToTransaction paid_400 sample_stream "G2" = Returns t /\ parseAmount (tx_netAmount t) 7 = Returns 398.
Proof.
  destruct (statement_fee_invented (meta "w" 2) 140 bob 1 paying paid_run.1 paid_run.2 paid_400 sample_stream "G2"
    "1970-01-01T00:02:20.000Z" ltac:(vm_refl)) as (entry & paid & He & Hpaid & _ & _ & Hrow).
  assert (paid = 400) as ->.
  { vm_compute in He. injection He as <-. vm_compute in Hpaid. by injection Hpaid as <-. }
  destruct (Hrow eq_refl eq_refl ltac:(vm_refl) ltac:(lia)) as (t & net & Ht & Hnet & -> & _). exists t. by split.
Defined.

(** ** Ties *)

(** A hundred and one streams of one sender, created in the same millisecond. *)
Definition tied (id : Z) : Stream := {|
  streamId := id; sender := "G1"; recipient := "G2"; tokenAddress := "C7"; ratePerSecond := "10";
  depositedAmount := "1000"; withdrawnAmount := "0"; startTime := 100; lastUpdateTime := 100; endTime := None;
  isActive := true; isPaused := false; pausedAt := None; totalPausedDuration := 0; updatedAt := 0 |}.
Definition tied_columns : HiddenColumns := {|
  stream_createdAt _ := 0; event_id := sample_event_id; event_id_inj := sample_event_id_inj; collate := sample_collate;
  collate_total := sample_collate_total; collate_trans := sample_collate_trans; collate_antisym := sample_collate_antisym |}.
Definition one_order : list Stream := map (fun n => tied (Z.of_nat n)) (seq 1 101).
Definition two_orders (k : nat) : list Stream := match k with O => one_order | _ => rev one_order end.

(** The database reads them forwards for the first batch and backwards for the
    second, which then starts over among those it has shown: one stream is in
    neither, and the statement ends after the second as if it were complete. *)
Definition first_batch : list Stream := batch (Hidden:=tied_columns) two_orders "G1" everything 0 None.
Definition second_batch : list Stream :=
  batch (Hidden:=tied_columns) two_orders "G1" everything 1 (streamId <$> last first_batch).
Example tie_loses_stream :
  length first_batch = 100%nat /\ length second_batch = 25%nat /\
  map streamId (List.filter (fun r => negb (bool_decide (r ∈ first_batch ++ second_batch))) one_order) = [64].
Proof. split_and!; vm_refl. Qed.
