(* ===== verification/AdminRoutes.v ===== *)
(** * The admin endpoints: backend/src/routes/v1/admin.routes.ts

    Protocol metrics with their cache, and the status, reset and replay of the
    indexer.  The routes import two previews that services/indexerService.ts does
    not export; those of services/indexer.service.ts, which have the names, stand
    for them.  The raw queries run on the rows of one moment.  What the process
    says of itself — open connections, its pool, its uptime — is an argument, and
    so is the column [createdAt] of an event. *)
From S2P Require Import Prelude JsLang Texts StreamId Json Schema Xdr Worker IndexerCursor DeadLetter Poll MemoryCache Double Dates StreamQueries.
Local Open Scope Z_scope.

(** ** [Number] of a value from a request *)

(** An exponent with its sign, to the end of the text; or no exponent. *)
Definition exponent_text (s : string) : bool :=
  match s with
  | EmptyString => true
  | String "e"%char (String "-"%char t) | String "E"%char (String "-"%char t)
  | String "e"%char (String "+"%char t) | String "E"%char (String "+"%char t)
  | String "e"%char t | String "E"%char t => digits_only t
  | _ => false
  end.

Definition decimal_text (s : string) : bool :=
  let '(f, rest) := fraction_digits (drop_digits s) in
  match digit_prefix s +:+ f with EmptyString => false | _ => exponent_text rest end.

Definition unsigned_text (s : string) : string :=
  match s with String "-"%char t | String "+"%char t => t | t => t end.

Definition Number_text (s : string) : double :=
  match trim s with
  | EmptyString => dint 0
  | String "0"%char (String ("x"%char | "X"%char | "o"%char | "O"%char | "b"%char | "B"%char) _) as t =>
      match string_to_bigint t with Some z => Number_double z | None => DNaN end
  | t =>
      if bool_decide (unsigned_text t = "Infinity"%string) || decimal_text (unsigned_text t)
      then signed_float t else DNaN
  end.

(** [String(x)] of an element of an array that is turned into a text. *)
Fixpoint String_element (j : Json) : string :=
  match j with
  | JNull | JUndefined => EmptyString
  | JBool b => if b then "true" else "false"
  | JNumber n | JBigint n => BigInt_toString n
  | JString s => s
  | JArray xs => StreamId.join "," (map String_element xs)
  | JObject _ => "[object Object]"
  end.

Definition Number_json (j : Json) : double :=
  match j with
  | JNull => dint 0
  | JUndefined | JObject _ => DNaN
  | JBool b => dint (if b then 1 else 0)
  | JNumber n => dint n
  | JBigint n => Number_double n
  | JString s => Number_text s
  | JArray _ => Number_text (String_element j)
  end.

(** [Number.isInteger(x) && x >= 0], and the integer *)
Definition ledger_of (x : double) : option Z :=
  match x with
  | DFin t => if (t mod TICK =? 0) && (0 <=? t) then Some (t / TICK) else None
  | _ => None
  end.

Example ledger_texts :
  map (fun s => ledger_of (Number_text s)) ["12"; " 0x10 "; "1e3"; "1.5"; "-1"; "12 000"; ""; "Infinity"]%string =
  [Some 12; Some 16; Some 1000; None; None; None; Some 0; None].
Proof. vm_refl. Qed.

(** ** Metrics *)

Record ProcessReadings := { sse_connections : Z; pgPool : Json; uptime : Z }.

Record Metrics := {
  total_streams : Z;
  active_streams : Z;
  paused_streams : Z;
  completed_streams : Z;
  cancelled_streams : Z;
  total_volume_streamed : string;
  events_last24h : Z;
  totalFeesCollectedByToken : gmap string (option Z);
  feesLast24h : gmap string (option Z);
  m_readings : ProcessReadings;
  m_cache : nat * nat * nat * nat;
  m_lastLedger : Z;
  m_lagSeconds : option Z;
  m_lastUpdated : option Z;
  m_counters : IndexerEventCounters;
  m_timestamp : Z
}.

(** [COALESCE(NULLIF(metadata::json ->> 'token', ''), 'unknown')] *)
Definition token_of (metadata : option string) : outcome string :=
  match metadata with
  | None => Returns "unknown"%string
  | Some text =>
      let? j := JSON_parse text in
      Returns match member "token" j with
              | JUndefined | JNull | JString EmptyString => "unknown"%string
              | JString s => s
              | v => JSON_stringify v
              end
  end.

(** [CAST(x AS numeric)] of a column that holds integers; a null stays one. *)
Definition numeric_opt (amount : option string) : outcome (option Z) :=
  match amount with
  | None => Returns None
  | Some s =>
      match s with
      | EmptyString => Throws (ErrorMsg "invalid input syntax for type numeric")
      | _ => let? z := of_option (ErrorMsg "invalid input syntax for type numeric") (string_to_bigint s) in
             Returns (Some z)
      end
  end.

(** [SUM]: nulls are left out, and the sum of nothing else is null. *)
Definition sum_add (x y : option Z) : option Z :=
  match x, y with Some a, Some b => Some (a + b) | Some a, None => Some a | None, y => y end.

Definition is_fee (e : StreamEvent) : bool := bool_decide (ev_eventType e = "FEE_COLLECTED"%string).

(** [GROUP BY token]: the totals of the groups. *)
Fixpoint fees_by_token (rows : list StreamEvent) : outcome (gmap string (option Z)) :=
  match rows with
  | [] => Returns ∅
  | e :: rows' =>
      let? token := token_of (ev_metadata e) in
      let? amount := numeric_opt (ev_amount e) in
      let? groups := fees_by_token rows' in
      Returns (<[token := sum_add amount (default None (groups !! token))]> groups)
  end.

Fixpoint sum_numeric (xs : list string) : outcome Z :=
  match xs with
  | [] => Returns 0
  | x :: xs' =>
      let? a := numeric_opt (Some x) in
      let? rest := sum_numeric xs' in
      Returns (default 0 a + rest)
  end.

Definition DAY24_MS : Z := 24 * 60 * 60 * 1000.
Definition ADMIN_METRICS_CACHE_KEY : string := "admin:metrics".
Definition ADMIN_METRICS_CACHE_TTL_SECONDS : Z := 60.

Section Routes.
Context {P : PrismaEngine} {K : StrKey} {Sdk : StellarSdk}.
Context (event_createdAt : string * string -> Z).
Implicit Types (w : World P).

Definition recent_event (now : Z) (e : StreamEvent) : bool := now - DAY24_MS <=? event_createdAt (key_of e).

Definition count_where (p : Stream -> bool) (d : DB P) : Z := Z.of_nat (length (List.filter p (stream_rows d))).

(** The queries run together; the rest is computed from their answers. *)
Definition buildAdminMetrics (now : Z) (readings : ProcessReadings) (cache : MemoryCache Metrics) w : outcome Metrics :=
  let d := db w in
  let fees := List.filter is_fee (event_rows d) in
  let? feeRows := fees_by_token fees in
  let? feesLast24hRows := fees_by_token (List.filter (recent_event now) fees) in
  let? withdrawnVolume := sum_numeric (map withdrawnAmount (stream_rows d)) in
  Returns {|
    total_streams := Z.of_nat (length (stream_rows d));
    active_streams := count_where isActive d;
    paused_streams := count_where isPaused d;
    completed_streams := count_where (fun r => negb (isActive r) && has_event d (streamId r) "COMPLETED") d;
    cancelled_streams := count_where (fun r => negb (isActive r) && has_event d (streamId r) "CANCELLED") d;
    total_volume_streamed := BigInt_toString withdrawnVolume;
    events_last24h := Z.of_nat (length (List.filter (recent_event now) (event_rows d)));
    totalFeesCollectedByToken := feeRows; feesLast24h := feesLast24hRows;
    m_readings := readings; m_cache := getStats cache;
    m_lastLedger := from_option lastLedger 0 (indexerState d);
    m_lagSeconds := (fun r => now / 1000 - is_updatedAt r / 1000) <$> indexerState d;
    m_lastUpdated := is_updatedAt <$> indexerState d;
    m_counters := getEventCounters now (worker w); m_timestamp := now |}.

Definition withLiveIndexerCounters (now : Z) w (payload : Metrics) : Metrics := {|
  total_streams := total_streams payload; active_streams := active_streams payload;
  paused_streams := paused_streams payload; completed_streams := completed_streams payload;
  cancelled_streams := cancelled_streams payload; total_volume_streamed := total_volume_streamed payload;
  events_last24h := events_last24h payload;
  totalFeesCollectedByToken := totalFeesCollectedByToken payload; feesLast24h := feesLast24h payload;
  m_readings := m_readings payload; m_cache := m_cache payload; m_lastLedger := m_lastLedger payload;
  m_lagSeconds := m_lagSeconds payload; m_lastUpdated := m_lastUpdated payload;
  m_counters := getEventCounters now (worker w); m_timestamp := m_timestamp payload |}.

(** When the payload was stored, or else now. *)
Definition withCalculatedAt (now : Z) (cache : MemoryCache Metrics) : Z * MemoryCache Metrics :=
  let '(metadata, cache) := getMetadata now ADMIN_METRICS_CACHE_KEY cache in
  (match metadata with Some (createdAt, _) => createdAt | None => now end, cache).

Inductive AdminAnswer :=
| AdminError (status : Z) (error : string)
| MetricsAnswer (hit : bool) (payload : Metrics) (calculatedAt : Z)
| StatusAnswer (status : IndexerStatus)
| DryRunReset (preview : ResetPreview)
| DryRunReplay (preview : ReplayPreview)
| ResetDone (lastLedger : Z)
| ReplayStarted (replayingFrom : Z). (* the identifier of the request is undefined, and left out *)

(** GET /metrics; the clock stands still during a request. *)
Definition get_metrics (now : Z) (readings : ProcessReadings) w (cache : MemoryCache Metrics) :
    AdminAnswer * MemoryCache Metrics :=
  match get now ADMIN_METRICS_CACHE_KEY cache with
  | (Some cached, cache) =>
      let '(calculatedAt, cache) := withCalculatedAt now cache in
      (MetricsAnswer true (withLiveIndexerCounters now w cached) calculatedAt, cache)
  | (None, cache) =>
      match buildAdminMetrics now readings cache w with
      | Returns payload =>
          let cache := set now ADMIN_METRICS_CACHE_KEY payload (ADMIN_METRICS_CACHE_TTL_SECONDS * 1000) cache in
          let '(calculatedAt, cache) := withCalculatedAt now cache in
          (MetricsAnswer false payload calculatedAt, cache)
      | Throws _ => (AdminError 500 "Internal server error", cache)
      end
  end.

(** ** The indexer *)

Definition is_dryRun (dryRun : option string) : bool := bool_decide (dryRun = Some "true"%string).

(** GET /indexer/status *)
Definition indexer_status (now : Z) : Js (World P) AdminAnswer :=
  try_catch (let! status := getIndexerStatus now in ret (StatusAnswer status))
    (fun _ => ret (AdminError 500 "Failed to fetch indexer status")).

(** POST /indexer/reset; [body] is the parsed body, undefined if there is none. *)
Definition indexer_reset (now : Z) (body : Json) (dryRun : option string) : Js (World P) AdminAnswer :=
  match ledger_of (Number_json (member "ledger" body)) with
  | None => ret (AdminError 400 "ledger must be a non-negative integer")
  | Some ledger =>
      try_catch
        (if is_dryRun dryRun then
           let! preview := previewReset ledger in ret (DryRunReset preview)
         else
           do! resetIndexer now ledger in
           ret (ResetDone ledger))
        (fun _ => ret (AdminError 500 "Reset failed"))
  end.

(** POST /indexer/replay; [from_ledger] is the query parameter: undefined, a
    text, or an array of them. *)
Definition indexer_replay (getEvents : GetEventsParams -> outcome EventsPage) (cfg : WorkerConfig) (now : Z)
    (from_ledger : Json) (dryRun : option string) : Js (World P) AdminAnswer :=
  match ledger_of (Number_json from_ledger) with
  | None => ret (AdminError 400 "from_ledger must be a non-negative integer")
  | Some fromLedger =>
      try_catch
        (if is_dryRun dryRun then
           let! preview := previewReplay fromLedger in ret (DryRunReplay preview)
         else
           do! replayFromLedger getEvents cfg now fromLedger in
           ret (ReplayStarted fromLedger))
        (fun _ => ret (AdminError 500 "Replay failed"))
  end.

(** GET /indexer/dead-letter (controllers/admin.controller.ts): a parameter of the
    query is undefined, a text, an array or an object. *)
Definition readSingleQueryParam (value : Json) : option string :=
  match value with
  | JArray (JString s :: _) | JString s => Some s
  | _ => None
  end.

Definition parseOptionalInt (raw : option string) : option Z :=
  match raw with None | Some EmptyString => None | Some s => ledger_of (Number_text s) end.

(** The time, if there is one, or the error of a date that cannot be read. *)
Definition parseOptionalDate (engine : string -> num) (raw : option string) (field : string) : option Z + string :=
  match raw with
  | None | Some EmptyString => inl None
  | Some s =>
      match Date_parse engine s with
      | Fin t => inl (Some t)
      | _ => inr (field +:+ " must be a valid ISO-8601 date")
      end
  end.

Record ListParams := {
  lp_page : Json; lp_limit : Json; lp_ledgerSequence : Json; lp_startDate : Json; lp_endDate : Json; lp_eventType : Json
}.

Inductive ListAnswer := Listed (r : DeadLetterListResult) | ListError (status : Z) (error : string).

Definition listDeadLetterHandler (engine : string -> num) (params : ListParams) : Js (World P) ListAnswer :=
  let int raw := parseOptionalInt (readSingleQueryParam raw) in
  let page := default 1 (int (lp_page params)) in
  match parseOptionalDate engine (readSingleQueryParam (lp_startDate params)) "startDate",
        parseOptionalDate engine (readSingleQueryParam (lp_endDate params)) "endDate" with
  | inr error, _ | inl _, inr error => ret (ListError 400 error)
  | inl startDate, inl endDate =>
      if match startDate, endDate with Some a, Some b => b <? a | _, _ => false end then
        ret (ListError 400 "startDate must be before endDate")
      else
        try_catch
          (let! result := listDeadLetterEvents {|
             q_page := page;
             q_limit := Z.min (default DEFAULT_DEAD_LETTER_PAGE_SIZE (int (lp_limit params))) MAX_DEAD_LETTER_PAGE_SIZE;
             q_ledgerSequence := int (lp_ledgerSequence params);
             q_startDate := startDate; q_endDate := endDate;
             q_eventType := readSingleQueryParam (lp_eventType params) |} in
           ret (Listed result))
          (fun _ => ret (ListError 500 "Failed to list dead-letter events"))
  end.
End Routes.
