(* ===== verification/AdminRoutesFacts.v ===== *)
(** * The admin endpoints: properties

    What the metrics show is what was true of the database at the moment they
    name, less than a minute ago; the totals of fees are those of their tokens; a
    reset does what it says, or nothing; a replay resets the cursor and fails. *)
From S2P Require Import Prelude JsLang Texts StreamId Json Schema Xdr Worker IndexerCursor DeadLetter Contract ContractCalls Poll MemoryCache Double StreamQueries AdminRoutes Samples SampleSdk.
From stdpp Require Import sorting.
Local Open Scope Z_scope.

(** ** Fees *)

(** [SUM] over the rows of a group. *)
Definition sum_all (amounts : list (option Z)) : option Z := foldr sum_add None amounts.

Definition token_is (t : string) (e : StreamEvent) : bool := 
  match token_of (ev_metadata e) with Returns token => bool_decide (token = t) | Throws _ => false end.
Definition amount_of (e : StreamEvent) : option Z :=
  match numeric_opt (ev_amount e) with Returns a => a | Throws _ => None end.

Lemma fees_by_token_spec rows groups :
  fees_by_token rows = Returns groups ->
  Forall (fun e => is_returns (token_of (ev_metadata e)) = true /\ is_returns (numeric_opt (ev_amount e)) = true) rows /\
  forall t, groups !! t = match List.filter (token_is t) rows with
                          | [] => None
                          | es => Some (sum_all (map amount_of es))
                          end.
Proof.
  revert groups. induction rows as [|e rows IH]; intros groups; cbn [fees_by_token].
  { intros [= <-]. split; [constructor|]. intros t. apply lookup_empty. }
  destruct (token_of (ev_metadata e)) as [token|] eqn:Et; [|done]. cbn [obind].
  destruct (numeric_opt (ev_amount e)) as [amount|] eqn:Ea; [|done]. cbn [obind].
  destruct (fees_by_token rows) as [gs|]; [|done]. cbn [obind]. intros [= <-].
  destruct (IH gs eq_refl) as [Hall Hgs]. split.
  { constructor; [|done]. by rewrite Et, Ea. }
  intros t. cbn [List.filter]. unfold token_is at 1. rewrite Et. destruct (decide (t = token)) as [->|Hne].
  - rewrite lookup_insert_eq, bool_decide_eq_true_2 by done. cbn [map]. unfold amount_of at 1. rewrite Ea, Hgs.
    f_equal. cbn [sum_all foldr]. by destruct (List.filter (token_is token) rows).
  - rewrite lookup_insert_ne, bool_decide_eq_false_2 by congruence. apply Hgs.
Qed.

(** ** The cache of the metrics *)

Definition entry_in (item : CacheItem Metrics) (c : MemoryCache Metrics) : Prop :=
  (ADMIN_METRICS_CACHE_KEY, item) ∈ entries c.

Section Metrics.
Context {P : PrismaEngine} (event_createdAt : string * string -> Z).

(** A request for the metrics, with what the process and the database are then. *)
Record MetricsRequest := { rq_now : Z; rq_readings : ProcessReadings; rq_world : World P }.

Definition serve (c : MemoryCache Metrics) (q : MetricsRequest) : AdminAnswer * MemoryCache Metrics :=
  get_metrics event_createdAt (rq_now q) (rq_readings q) (rq_world q) c.

Fixpoint serve_all (c : MemoryCache Metrics) (qs : list MetricsRequest) : list AdminAnswer :=
  match qs with
  | [] => []
  | q :: qs' => let '(a, c') := serve c q in a :: serve_all c' qs'
  end.

(** The metrics that a request computes from the database. *)
Definition built (q : MetricsRequest) (m : Metrics) : Prop :=
  exists c, buildAdminMetrics event_createdAt (rq_now q) (rq_readings q) c (rq_world q) = Returns m.

(** What an answer to [q] may be, given the requests so far. *)
Definition honest (asked : list MetricsRequest) (q : MetricsRequest) (a : AdminAnswer) : Prop :=
  match a with
  | MetricsAnswer false m t => t = rq_now q /\ built q m
  | MetricsAnswer true m t =>
      exists q' m', q' ∈ asked /\ t = rq_now q' /\ rq_now q < t + 60000 /\ built q' m' /\
        m = withLiveIndexerCounters (rq_now q) (rq_world q) m'
  | AdminError 500 _ => forall m, ~ built q m
  | _ => False
  end.

Definition cache_honest (asked : list MetricsRequest) (c : MemoryCache Metrics) : Prop :=
  forall item, entry_in item c -> exists q, q ∈ asked /\ createdAt item = rq_now q /\
    expiresAt item = rq_now q + 60000 /\ built q (item_value item).

Lemma build_throws q c e :
  buildAdminMetrics event_createdAt (rq_now q) (rq_readings q) c (rq_world q) = Throws e -> forall m, ~ built q m.
Proof.
  intros H m [c' H']. unfold buildAdminMetrics in *. destruct (fees_by_token _); [|done]. cbn [obind] in *.
  destruct (fees_by_token _); [|done]. cbn [obind] in *. by destruct (sum_numeric _).
Qed.

Lemma serve_honest asked c q :
  cache_honest asked c ->
  honest asked q (serve c q).1 /\ cache_honest (q :: asked) (serve c q).2.
Proof.
  intros Hc. assert (forall c', (forall item, entry_in item c' -> entry_in item c) -> cache_honest (q :: asked) c') as Hsub.
  { intros c' H item Hi. destruct (Hc item (H item Hi)) as (q' & Hq & Hrest). exists q'. split; [by right|done]. }
  unfold serve, get_metrics. pose proof (get_entries (rq_now q) ADMIN_METRICS_CACHE_KEY c) as Hsub1.
  destruct (get _ _ c) as [[cached|] c1] eqn:Eg; cbn [snd] in Hsub1.
  - destruct (get_then_metadata _ _ _ _ _ Eg) as (i & Hi & Hv & Hlt & Hm). unfold withCalculatedAt.
    pose proof (getMetadata_entries (rq_now q) ADMIN_METRICS_CACHE_KEY c1) as Hsub2.
    destruct (getMetadata _ _ c1) as [metadata c2]. cbn [fst] in Hm. subst metadata. cbn [fst snd honest] in *. split.
    + destruct (Hc i Hi) as (q' & Hq & Ht & He & Hb). exists q', cached. subst cached. split_and!; done || lia.
    + apply Hsub. intros item Hitem. by apply Hsub1, Hsub2.
  - destruct (buildAdminMetrics _ _ _ c1 _) as [payload|e] eqn:Eb.
    2: { split; [cbn [fst honest]; by eapply build_throws|]. apply Hsub. intros item. apply Hsub1. }
    assert (built q payload) as Hb by (by exists c1).
    unfold withCalculatedAt. set (c2 := set _ _ _ _ c1).
    assert (cache_honest (q :: asked) c2) as Hc2.
    { intros item [Hi|Hi]%set_entries.
      - destruct (Hc item (Hsub1 _ Hi)) as (q' & Hq & Hrest). exists q'. split; [by right|done].
      - injection Hi as ->. exists q. split; [by left|]. by split_and!. }
    pose proof (getMetadata_entries (rq_now q) ADMIN_METRICS_CACHE_KEY c2) as Hsub2.
    assert (forall cr ex, (getMetadata (rq_now q) ADMIN_METRICS_CACHE_KEY c2).1 = Some (cr, ex) -> cr = rq_now q) as Hm.
    { intros cr ex. unfold getMetadata. destruct (map_get _ _) as [i|] eqn:E; [|done]. case_match; [done|].
      cbn. intros [= <- _]. unfold c2, set, evictIfOverCapacity in E. cbn [entries with_entries maxItems] in E.
      by apply evict_stored in E as <-. }
    destruct (getMetadata _ _ c2) as [metadata c3]. cbn [fst snd honest] in *. split.
    + split; [|done]. destruct metadata as [[cr ex]|]; [by eapply Hm|done].
    + intros item Hi. apply Hc2. by apply Hsub2.
Qed.

(** The metrics are honest whatever order requests come in and whatever happens
    to the database between them: a fresh answer is computed from the database of
    its own request; one from the cache is what an earlier request computed, less
    than a minute before, at the moment the answer names, with the counters of the
    worker of now; and there is an error only where nothing can be computed. *)
Theorem metrics_honest (max : nat) (qs : list MetricsRequest) (i : nat) (q : MetricsRequest) (a : AdminAnswer) :
  qs !! i = Some q -> serve_all (fresh_cache max) qs !! i = Some a -> honest (take i qs) q a.
Proof.
  assert (forall c asked qs i q a, cache_honest asked c -> qs !! i = Some q -> serve_all c qs !! i = Some a ->
    honest (rev (take i qs) ++ asked) q a) as H.
  { clear. intros c asked qs. revert c asked. induction qs as [|q0 qs IH]; intros c asked [|i] q a Hc Hq Ha; try done.
    - cbn in Hq, Ha. injection Hq as ->. destruct (serve_honest asked c q Hc) as [H _].
      destruct (serve c q) as [a0 c0]. by injection Ha as <-.
    - cbn [serve_all] in Ha. destruct (serve_honest asked c q0 Hc) as [_ Hc0]. destruct (serve c q0) as [a0 c0].
      cbn [take rev lookup list_lookup] in *. rewrite <- app_assoc. by eapply IH. }
  intros Hq Ha. assert (cache_honest [] (fresh_cache max)) as H0.
  { intros item Hi. unfold entry_in in Hi. cbn in Hi. by apply not_elem_of_nil in Hi. }
  specialize (H _ _ _ _ _ _ H0 Hq Ha). rewrite app_nil_r in H.
  destruct a as [status e|[] m t|st|pr|pr|l|l]; try exact H.
  destruct H as (q' & m' & Hin & Hrest). exists q', m'. split; [|exact Hrest].
  apply list_elem_of_In in Hin. apply list_elem_of_In. by apply in_rev.
Qed.

(** The totals are those of the rows they are taken over: the fees of every token
    are summed over its own events, no event in two totals or in none, and the
    volume is the sum of what all streams have paid out. *)
Theorem metrics_totals (q : MetricsRequest) (m : Metrics) :
  built q m ->
  let fees := List.filter is_fee (event_rows (db (rq_world q))) in
  (forall token, totalFeesCollectedByToken m !! token =
     match List.filter (token_is token) fees with [] => None | es => Some (sum_all (map amount_of es)) end) /\
  (forall e, e ∈ fees -> exists token, token_is token e = true /\ forall other, token_is other e = true -> other = token) /\
  (exists v, sum_numeric (map withdrawnAmount (stream_rows (db (rq_world q)))) = Returns v /\
     total_volume_streamed m = BigInt_toString v).
Proof.
  intros [c H] fees. unfold buildAdminMetrics in H. fold fees in H.
  destruct (fees_by_token fees) as [groups|] eqn:Ef; [|done]. cbn [obind] in H.
  destruct (fees_by_token (List.filter _ fees)) as [recent|]; [|done]. cbn [obind] in H.
  destruct (sum_numeric _) as [v|]; [|done]. cbn [obind] in H. injection H as <-.
  destruct (fees_by_token_spec _ _ Ef) as [Hall Hgroups]. split_and!; [exact Hgroups| |by exists v].
  intros e He. rewrite Forall_forall in Hall. destruct (Hall e He) as [Ht _]. unfold token_is.
  destruct (token_of (ev_metadata e)) as [t|]; [|done]. exists t. rewrite bool_decide_eq_true_2 by done.
  split; [done|]. intros other Ho. by apply bool_decide_eq_true in Ho.
Qed.
End Metrics.

(** ** The indexer *)

Section Indexer.
Context {P : PrismaEngine} {K : StrKey} {Sdk : StellarSdk}.
Implicit Types (w : World P).

(** Every request that is no dry run and names a ledger moves the cursor there
    and is then told the replay failed, since no poll ever runs; a text that is
    empty names ledger 0. *)
Theorem replay_resets_and_fails getEvents cfg now from_ledger dryRun l w :
  ledger_of (Number_json from_ledger) = Some l -> fits_int4 l = true -> is_dryRun dryRun = false ->
  indexer_replay getEvents cfg now from_ledger dryRun w =
    (Returns (AdminError 500 "Replay failed"),
     set_db (set_indexerState (Some {| lastLedger := l; lastCursor := None; is_updatedAt := now |}) (db w)) w) /\
  indexer_replay getEvents cfg now (JString "") dryRun w =
    (Returns (AdminError 500 "Replay failed"),
     set_db (set_indexerState (Some {| lastLedger := 0; lastCursor := None; is_updatedAt := now |}) (db w)) w).
Proof.
  assert (forall j l', ledger_of (Number_json j) = Some l' -> fits_int4 l' = true -> is_dryRun dryRun = false ->
    indexer_replay getEvents cfg now j dryRun w = (Returns (AdminError 500 "Replay failed"),
     set_db (set_indexerState (Some {| lastLedger := l'; lastCursor := None; is_updatedAt := now |}) (db w)) w)) as H.
  { intros j l' Hj Hl Hd. unfold indexer_replay. rewrite Hj, Hd. unfold try_catch, replayFromLedger, resetIndexer, bind at 1 2.
    rewrite indexerState_upsert_fits by done. unfold triggerPoll, bind, gets. cbn. by destruct (isRunning (worker w)). }
  intros Hl Hf Hd. split; [by apply H|]. by apply H; [vm_refl|vm_refl|].
Qed.

(** A reset either moves the cursor to the ledger it names or leaves everything
    as it is: a value that is no whole number is refused, a dry run changes
    nothing, and a ledger the column cannot hold is an error.  A ledger that is
    null, false, blank or an empty list names ledger 0. *)
Theorem reset_all_or_nothing now body dryRun w :
  let '(answer, w') := indexer_reset now body dryRun w in
  match ledger_of (Number_json (member "ledger" body)) with
  | None => answer = Returns (AdminError 400 "ledger must be a non-negative integer") /\ w' = w
  | Some l =>
      if is_dryRun dryRun then w' = w /\ exists p, answer = Returns (DryRunReset p) /\ targetLastLedger p = l
      else if fits_int4 l then answer = Returns (ResetDone l) /\
        w' = set_db (set_indexerState (Some {| lastLedger := l; lastCursor := None; is_updatedAt := now |}) (db w)) w
      else answer = Returns (AdminError 500 "Reset failed") /\ w' = w
  end /\
  Forall (fun j => ledger_of (Number_json j) = Some 0) [JNull; JBool false; JString " "; JArray []].
Proof.
  unfold indexer_reset. destruct (ledger_of (Number_json (member "ledger" body))) as [l|].
  2: { split; [done|]. repeat constructor; vm_refl. }
  destruct (is_dryRun dryRun).
  - unfold try_catch, previewReset, indexerState_findUnique, bind, gets, ret. cbn.
    split; [|repeat constructor; vm_refl]. split; [done|]. by eexists.
  - unfold try_catch, resetIndexer, bind at 1. destruct (fits_int4 l) eqn:Ef.
    + rewrite indexerState_upsert_fits by done. split; [done|]. repeat constructor; vm_refl.
    + unfold indexerState_upsert, bind, put_indexerState. cbn [lastLedger]. rewrite Ef.
      split; [done|]. repeat constructor; vm_refl.
Qed.

(** ** The listing of dead letters *)

(** The listing answers every request and changes nothing: with a page of records
    that are quarantined and match, within the bounds of a page, or with 400 for a
    date, or 500 for a number no column holds. *)
Theorem dead_letter_listing engine (params : ListParams) (w : World P) :
  exists answer, listDeadLetterHandler engine params w = (Returns answer, w) /\
  match answer with
  | Listed r =>
      1 <= lr_page r /\ 1 <= lr_limit r <= 100 /\ Z.of_nat (length (lr_items r)) <= lr_limit r /\
      Z.of_nat (length (lr_items r)) <= lr_total r /\
      Forall (fun row => row ∈ (t_rows (deadLetters (db w))).*2 /\
        (forall t, readSingleQueryParam (lp_eventType params) = Some t -> t <> EmptyString -> dl_eventType row = t))
        (lr_items r)
  | ListError status _ => status = 400 \/ status = 500
  end.
Proof.
  unfold listDeadLetterHandler.
  destruct (parseOptionalDate engine (readSingleQueryParam (lp_startDate params)) "startDate"%string) as [a|e]; [|eexists; split; [reflexivity|by left]].
  destruct (parseOptionalDate engine (readSingleQueryParam (lp_endDate params)) "endDate"%string) as [b|e]; [|eexists; split; [reflexivity|by left]].
  case_match; [eexists; split; [reflexivity|by left]|].
  unfold try_catch, bind at 1, listDeadLetterEvents, bind at 1, deadLetter_find. cbv zeta.
  match goal with |- context [if ?c then bind deadLetter_rows _ else _] => destruct c end; [|eexists; split; [reflexivity|by right]].
  eexists. split; [reflexivity|]. cbn [lr_page lr_limit lr_items lr_total q_page q_limit q_eventType].
  unfold MAX_DEAD_LETTER_PAGE_SIZE. split; [lia|]. split; [lia|].
  rewrite length_take, length_drop. split; [lia|]. split; [lia|].
  apply list.Forall_forall. intros row Hrow. apply subseteq_take, subseteq_drop in Hrow.
  rewrite merge_sort_Permutation in Hrow. apply list_elem_of_In, filter_In in Hrow as [Hin Hm].
  split; [by apply list_elem_of_In|]. intros t Ht Hne. unfold dl_matches in Hm. cbn [q_eventType] in Hm. rewrite Ht in Hm.
  repeat (apply andb_prop in Hm as [Hm ?]). unfold DeadLetter.truthy in *.
  rewrite bool_decide_eq_false_2 in H2 by done. apply bool_decide_eq_true_1 in H2. congruence.
Qed.
End Indexer.

(** ** Concrete inputs *)

Definition fee1 : EventResponse := ContractCalls.FeeCollectedEvent (Contract.Build_EventMeta "ev-f" 2 "tx-f") 1 alice 25 token.
Definition fee_world : World gmap_engine := (processEvent 101000 fee1 sample_world).2.
Definition readings : ProcessReadings := {| sse_connections := 0; pgPool := JNull; uptime := 5 |}.
Definition asked_at (now : Z) (w : World gmap_engine) : MetricsRequest :=
  {| rq_now := now; rq_readings := readings; rq_world := w |}.
Definition three_requests : list MetricsRequest :=
  [asked_at 200000 sample_world; asked_at 230000 fee_world; asked_at 260000 fee_world].
Definition no_createdAt (_ : string * string) : Z := 0.
Definition answer_shape (a : AdminAnswer) : option (bool * Z * option (option Z)) :=
  match a with
  | MetricsAnswer hit m t => Some (hit, t, totalFeesCollectedByToken m !! "C7"%string)
  | _ => None
  end.

(** The fee is seen once the first answer is a minute old. *)
Lemma metrics_honest_witness :
  map answer_shape (serve_all no_createdAt (fresh_cache 10) three_requests) =
    [Some (false, 200000, None); Some (true, 200000, None); Some (false, 260000, Some (Some 25))] /\
  forall a, serve_all no_createdAt (fresh_cache 10) three_requests !! 1%nat = Some a ->
    honest no_createdAt [asked_at 200000 sample_world] (asked_at 230000 fee_world) a.
Proof.
  split; [vm_compute; reflexivity|]. intros a Ha.
  exact (metrics_honest no_createdAt 10 three_requests 1 (asked_at 230000 fee_world) a eq_refl Ha).
Defined.

Lemma metrics_totals_witness :
  exists m, built no_createdAt (asked_at 260000 fee_world) m /\
    totalFeesCollectedByToken m !! "C7"%string = Some (Some 25).
Proof.
  destruct (buildAdminMetrics no_createdAt 260000 readings (fresh_cache 1) fee_world) as [m|e] eqn:E; [|vm_compute in E; discriminate E].
  assert (built no_createdAt (asked_at 260000 fee_world) m) as H by (exists (fresh_cache 1); exact E).
  exists m. split; [exact H|]. destruct (metrics_totals no_createdAt _ m H) as [Ht _]. rewrite Ht. vm_compute. reflexivity.
Defined.

Lemma replay_resets_and_fails_witness :
  (indexer_replay (fun _ => Throws TypeErr) {| stream_contract_id := "C7"; start_ledger := 0 |} 5000 (JString "7") None sample_world).1 =
    Returns (AdminError 500 "Replay failed").
Proof.
  destruct (replay_resets_and_fails (fun _ => Throws TypeErr) {| stream_contract_id := "C7"; start_ledger := 0 |} 5000
    (JString "7") None 7 sample_world ltac:(vm_refl) eq_refl eq_refl) as [H _]. exact (f_equal fst H).
Defined.
