(* ===== verification/SdkClient.v ===== *)
(** * The client library: packages/flowfi-sdk/src/builder.ts, client.ts and
    signers/index.ts

    Building a contract call, simulating it with a padded fee, signing it and
    sending it.  @stellar/stellar-sdk, the wallet extension and the RPC server are
    arguments ([StellarNode]); [call_vals] is the one thing that is relied on of
    them: the arguments of [Contract.call] are ScVals, and a transaction with any
    other cannot be written as XDR.  [RpcShim] is the client an application may
    inject, function by function. *)
From S2P Require Import Prelude JsLang Texts Double StreamId Json Xdr Soroban.
Local Open Scope Z_scope.

(** ** The fee *)

Definition DEFAULT_FEE_BUFFER_MULTIPLIER : double := DFin (5 * (TICK / 4)).
Definition FALLBACK_BASE_FEE_STROOPS : Z := 100.

Definition applyFeeBuffer (minResourceFee : Z) (multiplier : double) : outcome string :=
  if dltb multiplier (dint 1) then Throws (ErrorMsg "applyFeeBuffer: multiplier must be >= 1")
  else
    let scaled := dmul (Number_double minResourceFee) multiplier in
    let? fee := BigInt_double (Math_ceil scaled) in
    Returns (BigInt_toString fee).

(** ** Building a call *)

(** A value handed to [contract.call]: what [nativeToScVal] made, or a value of
    the language. *)
Inductive MethodArg := Val (v : ScVal) | Text (s : string) | Big (z : Z) | Number_ (n : Z).

Record CreateStreamParams := {
  sp_sender : string;
  sp_recipient : string;
  sp_tokenAddress : string;
  sp_amount : Z;
  sp_duration : Z;
  sp_cliffDuration : option Z
}.

Record BuildCallArgs := { sourceAccount : string; contractId : string; networkPassphrase : string }.

(** What a simulation answers; [assembledTx], if there is one, as its XDR. *)
Record SimulationResult := {
  sim_error : option Json;
  minResourceFee : option string;
  assembledTx : option string
}.

(** What [rpc.assembleTransaction] gives: a transaction, or a builder, which has
    no [toXDR] of its own. *)
Inductive Assembled := Transaction (xdr : string) | Builder.

Class StellarNode := {
  node_Account : string -> outcome unit;
  node_Contract : string -> outcome unit;
  node_u64 : Z -> outcome ScVal;
  node_i128 : Z -> outcome ScVal;
  (* the XDR of the transaction with one call *)
  call_XDR : BuildCallArgs -> string -> list MethodArg -> Z -> outcome string;
  fromXDR : string -> outcome string;
  simulate : string -> outcome SimulationResult;
  assemble : string -> SimulationResult -> outcome Assembled;
  sendTransaction : string -> outcome (option string); (* the hash in the answer *)
  fromSecret_publicKey : string -> outcome string;
  sign_with : string -> string -> outcome string;
  freighter_address : outcome string;
  freighter_sign : string -> outcome (option string) (* the signed XDR of the answer *)
}.

(** The contract of [Contract.call]: ScVals only. *)
Definition is_val (a : MethodArg) : bool := match a with Val _ => true | _ => false end.
Definition call_vals (N : StellarNode) : Prop :=
  forall build m args fee xdr, call_XDR build m args fee = Returns xdr -> forallb is_val args = true.

Section Client.
Context {N : StellarNode}.

Definition encodeMethodArgs (m : string) (methodArgs : list MethodArg) : outcome (list MethodArg) :=
  if bool_decide (m = "create_stream"%string) || bool_decide (m = "create_stream_with_cliff"%string) then
    match methodArgs with
    | [sender; recipient; token; Big amount; Number_ duration] =>
        let? amount := node_i128 amount in
        let? duration := node_u64 duration in
        Returns [sender; recipient; token; Val amount; Val duration]
    | [sender; recipient; token; Big amount; Number_ duration; Number_ cliff] =>
        let? amount := node_i128 amount in
        let? duration := node_u64 duration in
        let? cliff := node_u64 cliff in
        Returns [sender; recipient; token; Val amount; Val duration; Val cliff]
    | _ => Throws TypeErr
    end
  else Returns methodArgs.

Definition buildContractCallXdr (build : BuildCallArgs) (m : string) (methodArgs : list MethodArg)
    (baseFeeStroops : option Z) : outcome string :=
  let? _ := node_Account (sourceAccount build) in
  let? _ := node_Contract (contractId build) in
  let? encodedArgs := encodeMethodArgs m methodArgs in
  call_XDR build m encodedArgs (default FALLBACK_BASE_FEE_STROOPS baseFeeStroops).

Definition buildCreateStreamXdr (p : CreateStreamParams) (build : BuildCallArgs) : outcome string :=
  buildContractCallXdr build
    match sp_cliffDuration p with Some _ => "create_stream_with_cliff" | None => "create_stream" end
    ([Text (sp_sender p); Text (sp_recipient p); Text (sp_tokenAddress p); Big (sp_amount p);
      Number_ (sp_duration p)] ++ match sp_cliffDuration p with Some c => [Number_ c] | None => [] end) None.

Definition buildWithdrawXdr (streamId : Z) (recipient : string) (build : BuildCallArgs) : outcome string :=
  let? id := node_u64 streamId in
  buildContractCallXdr build "withdraw" [Text recipient; Val id] None.
Definition buildTopUpXdr (streamId : Z) (sender : string) (amount : Z) (build : BuildCallArgs) : outcome string :=
  let? id := node_u64 streamId in
  let? amount := node_i128 amount in
  buildContractCallXdr build "top_up_stream" [Text sender; Val id; Val amount] None.
Definition buildCancelXdr (streamId : Z) (sender : string) (build : BuildCallArgs) : outcome string :=
  let? id := node_u64 streamId in
  buildContractCallXdr build "cancel_stream" [Text sender; Val id] None.
Definition buildCloseXdr (streamId : Z) (caller : string) (build : BuildCallArgs) : outcome string :=
  let? id := node_u64 streamId in
  buildContractCallXdr build "close_stream" [Text caller; Val id] None.

(** ** The shim and the signers *)

Record RpcShim := {
  shim_simulate : string -> outcome SimulationResult;
  shim_send : option (string -> outcome (string * option Z));
  shim_getStream : option (Z -> outcome Json);
  shim_getClaimableAmount : option (Z -> outcome Z);
  shim_getStreamIdForTx : option (string -> outcome Z)
}.

Inductive Signer :=
| CustomSigner (publicKey : string) (signFn : string -> outcome string)
| KeypairSigner (secret : string)
| FreighterSigner.

(** The constructor of [KeypairSigner]; the others accept anything. *)
Definition new_KeypairSigner (secret : string) : outcome Signer :=
  if startsWith "S" secret then Returns (KeypairSigner secret)
  else Throws (ErrorMsg ("KeypairSigner expects a Stellar secret key starting with " +:+ dquote +:+ "S" +:+ dquote)).

Definition getPublicKey (s : Signer) : outcome string :=
  match s with
  | CustomSigner key _ => Returns key
  | KeypairSigner secret => fromSecret_publicKey secret
  | FreighterSigner =>
      let? address := freighter_address in
      match address with
      | EmptyString => Throws (ErrorMsg
          "FreighterSigner: no address returned — is Freighter installed and unlocked?")
      | _ => Returns address
      end
  end.

Definition signTransaction (s : Signer) (envelopeXdr : string) : outcome string :=
  match s with
  | CustomSigner _ signFn => signFn envelopeXdr
  | KeypairSigner secret => sign_with secret envelopeXdr
  | FreighterSigner =>
      let? signed := freighter_sign envelopeXdr in
      match signed with
      | Some xdr => Returns xdr
      | None => Throws (ErrorMsg "FreighterSigner: unexpected signTransaction response shape")
      end
  end.

(** ** Simulation *)

Definition simulateAndAssemble (unsignedXdr : string) (multiplier : double) (shim : option RpcShim) :
    outcome (string * string) :=
  let? tx := fromXDR unsignedXdr in
  let? simulation := match shim with Some s => shim_simulate s tx | None => simulate tx end in
  match sim_error simulation with
  | Some error => Throws (ErrorMsg ("simulateAndAssemble: simulation failed: " +:+ JSON_stringify error))
  | None =>
      let assembled :=
        match assemble tx simulation with
        | Returns a => match assembledTx simulation with Some xdr => Transaction xdr | None => a end
        | Throws _ => Transaction tx (* as it was *)
        end in
      let? minFee := BigInt_of_string (default (BigInt_toString FALLBACK_BASE_FEE_STROOPS) (minResourceFee simulation)) in
      let? resourceFee := applyFeeBuffer minFee multiplier in
      Returns (match assembled with Transaction xdr => xdr | Builder => unsignedXdr end, resourceFee)
  end.

(** ** The client *)

Record ClientConfig := {
  cc_rpcUrl : string;
  cc_networkPassphrase : string;
  cc_contractId : string;
  cc_feeBufferMultiplier : double
}.

Definition empty_text (s : string) : bool := match s with EmptyString => true | _ => false end.

Definition new_FlowFiClient (rpcUrl passphrase contract : string) (feeBufferMultiplier : option double) :
    outcome ClientConfig :=
  if empty_text rpcUrl || empty_text passphrase || empty_text contract then
    Throws (ErrorMsg "FlowFiClient: rpcUrl, networkPassphrase and contractId are required")
  else Returns {| cc_rpcUrl := rpcUrl; cc_networkPassphrase := passphrase; cc_contractId := contract;
                  cc_feeBufferMultiplier := default DEFAULT_FEE_BUFFER_MULTIPLIER feeBufferMultiplier |}.

(** What leaves the client. *)
Inductive Sent := Signed (envelopeXdr : string) | Submitted (signedXdr : string).
Definition record_sent (e : Sent) : Js (list Sent) unit := modify (fun log => log ++ [e]).

Section Calls.
Context (cfg : ClientConfig) (shim : option RpcShim).

Definition baseBuildArgs (source : string) : BuildCallArgs :=
  {| sourceAccount := source; contractId := cc_contractId cfg; networkPassphrase := cc_networkPassphrase cfg |}.

(** A shim's function, if the shim has it. *)
Definition shim_has {A} (f : RpcShim -> option A) : option A := match shim with Some s => f s | None => None end.

Definition submitSigned (signedXdr : string) : Js (list Sent) (string * option Z) :=
  match shim_has shim_send with
  | Some send => do! record_sent (Submitted signedXdr) in lift (send signedXdr)
  | None =>
      let! tx := lift (fromXDR signedXdr) in
      do! record_sent (Submitted tx) in
      let! hash := lift (sendTransaction tx) in
      ret (default ""%string hash, None)
  end.

(** The padded fee is computed, and then left. *)
Definition signAndSubmit (unsignedXdr : string) (signer : Signer) : Js (list Sent) (string * option Z) :=
  let! assembled := lift (simulateAndAssemble unsignedXdr (cc_feeBufferMultiplier cfg) shim) in
  do! record_sent (Signed assembled.1) in
  let! signedXdr := lift (signTransaction signer assembled.1) in
  submitSigned signedXdr.

Definition pollStreamIdFromTx (transactionHash : string) : outcome Z :=
  match shim_has shim_getStreamIdForTx with Some f => f transactionHash | None => Returns 0 end.

Definition validateCreateParams (p : CreateStreamParams) : outcome unit :=
  if sp_amount p <=? 0 then Throws (ErrorMsg "createStream: amount must be > 0")
  else if sp_duration p <=? 0 then Throws (ErrorMsg "createStream: duration must be > 0")
  else match sp_cliffDuration p with
       | Some c => if (c <=? 0) || (sp_duration p <? c)
                   then Throws (ErrorMsg "createStream: cliffDuration must satisfy 0 < cliff <= duration")
                   else Returns tt
       | None => Returns tt
       end.

Definition createStream (p : CreateStreamParams) (signer : Signer) : Js (list Sent) (Z * string) :=
  do! lift (validateCreateParams p) in
  let! source := lift (getPublicKey signer) in
  let! unsigned := lift (buildCreateStreamXdr p (baseBuildArgs source)) in
  let! sent := signAndSubmit unsigned signer in
  let! streamId := lift (pollStreamIdFromTx sent.1) in
  ret (streamId, sent.1).

Record WithdrawResult := { wr_streamId : Z; wr_amount : Z; wr_transactionHash : string }.

Fixpoint withdraw_each (recipient : string) (streamIds : list Z) (signer : Signer) :
    Js (list Sent) (list WithdrawResult) :=
  match streamIds with
  | [] => ret []
  | streamId :: rest =>
      let! unsigned := lift (buildWithdrawXdr streamId recipient (baseBuildArgs recipient)) in
      let! sent := signAndSubmit unsigned signer in
      let! out := withdraw_each recipient rest signer in
      ret ({| wr_streamId := streamId; wr_amount := default 0 sent.2; wr_transactionHash := sent.1 |} :: out)
  end.

Definition batchWithdraw (streamIds : list Z) (signer : Signer) : Js (list Sent) (list WithdrawResult) :=
  match streamIds with
  | [] => throw (ErrorMsg "batchWithdraw: streamIds must not be empty")
  | _ =>
      let! recipient := lift (getPublicKey signer) in
      withdraw_each recipient streamIds signer
  end.

Definition topUpStream (streamId amount : Z) (signer : Signer) : Js (list Sent) string :=
  if amount <=? 0 then throw (ErrorMsg "topUpStream: amount must be > 0")
  else
    let! sender := lift (getPublicKey signer) in
    let! unsigned := lift (buildTopUpXdr streamId sender amount (baseBuildArgs sender)) in
    let! sent := signAndSubmit unsigned signer in
    ret sent.1.

Definition cancelStream (streamId : Z) (signer : Signer) : Js (list Sent) string :=
  let! sender := lift (getPublicKey signer) in
  let! unsigned := lift (buildCancelXdr streamId sender (baseBuildArgs sender)) in
  let! sent := signAndSubmit unsigned signer in
  ret sent.1.

Definition closeStream (streamId : Z) (signer : Signer) : Js (list Sent) string :=
  let! caller := lift (getPublicKey signer) in
  let! unsigned := lift (buildCloseXdr streamId caller (baseBuildArgs caller)) in
  let! sent := signAndSubmit unsigned signer in
  ret sent.1.

(** The live read path is a placeholder. *)
Definition simulateRead (m : string) : outcome Json := Returns JNull.

Definition getStream (streamId : Z) : outcome Json :=
  match shim_has shim_getStream with Some f => f streamId | None => simulateRead "get_stream" end.

Definition getClaimableAmount (streamId : Z) : outcome Z :=
  match shim_has shim_getClaimableAmount with
  | Some f => f streamId
  | None =>
      let? value := simulateRead "get_claimable_amount" in
      match value with
      | JNull | JUndefined => Returns 0
      | JNumber n | JBigint n => Returns n
      | JString s => BigInt_of_string s
      | _ => Throws SyntaxErr
      end
  end.
End Calls.
End Client.

(** * The client library: properties

    The padded fee never falls below the minimum a double can hold exactly, and
    can above; a call that names an account by its text is never built, so no
    operation of the library signs or sends anything, and its reads are constant. *)

Local Open Scope Z_scope.

(** ** The fee *)

Lemma scaled_ge m t :
  0 <= m <= 2 ^ 53 -> TICK <= t -> m * TICK <= round_ticks (m * TICK * t) TICK.
Proof.
  intros Hm Ht. pose proof TICK_pos. apply round_ticks_ge; [done| |].
  - exists m, 1074. rewrite <- TICK_pow. split_and!; lia.
  - apply Z.mul_le_mono_nonneg_l; [nia|done].
Qed.

Lemma ceil_ge m r : m * TICK <= r -> m <= - (- r / TICK).
Proof. pose proof TICK_pos. intros H'. pose proof (Z.div_le_mono (- r) (- m * TICK) TICK ltac:(done) ltac:(lia)). rewrite Z.div_mul in *; lia. Qed.

Lemma product_le m t a b u : 0 <= m <= a -> 0 < u -> t <= b * u -> 0 <= b -> m * u * t <= a * b * u * u.
Proof.
  intros Hm Hu Ht Hb. replace (m * u * t) with (m * t * u) by ring. apply Z.mul_le_mono_nonneg_r; [lia|].
  replace (a * b * u) with (a * (b * u)) by ring. transitivity (m * (b * u)).
  - apply Z.mul_le_mono_nonneg_l; lia.
  - apply Z.mul_le_mono_nonneg_r; nia.
Qed.

(** Up to 2^53 the padded fee is never below the simulated minimum, whatever the
    multiplier; it is a text of digits unless the multiplier is infinite, not a
    number, or so large that the product overflows, which throw. *)
Theorem fee_never_below_minimum (m : Z) (multiplier : double) :
  0 <= m <= 2 ^ 53 ->
  match applyFeeBuffer m multiplier with
  | Returns text => exists f, text = BigInt_toString f /\ m <= f
  | Throws e =>
      e = ErrorMsg "applyFeeBuffer: multiplier must be >= 1" /\ dltb multiplier (dint 1) = true \/
      e = RangeErr /\ match multiplier with DFin t => 2 ^ 970 * TICK < t | _ => True end
  end.
Proof.
  intros Hm. pose proof TICK_pos as HT. unfold applyFeeBuffer. destruct (dltb multiplier (dint 1)) eqn:Hlt; [by left|].
  rewrite Number_double_small by done. destruct multiplier as [|s|t].
  - by right.
  - unfold dint, dmul. destruct (m * TICK =? 0); by right.
  - unfold dint in *. simpl in Hlt. apply Z.ltb_ge in Hlt. unfold dmul.
    destruct (Z.eq_dec m 0) as [->|Hnz].
    { change (0 * TICK) with 0. change (0 * t) with 0. change (of_ticks 0 TICK) with (DFin 0).
      exists 0. by vm_compute. }
    assert (0 < m * TICK * t) as Hpos by (apply Z.mul_pos_pos; [apply Z.mul_pos_pos|]; lia).
    destruct (Z.le_gt_cases t (2 ^ 970 * TICK)) as [Hle|Hgt].
    + assert (m * TICK * t <= 2 ^ 1023 * TICK * TICK) as Hb.
      { replace (2 ^ 1023) with (2 ^ 53 * 2 ^ 970) by (rewrite <- Z.pow_add_r; [done|lia|lia]).
        by apply product_le. }
      rewrite (of_ticks_finite _ _ 1023) by (done || lia).
      pose proof (scaled_ge m t Hm ltac:(lia)) as Hge. set (r := round_ticks _ _) in *.
      unfold Math_ceil, on_ticks, BigInt_double. rewrite Z.mod_mul, Z.div_mul by lia. cbn [obind].
      eexists. split; [done|]. by apply ceil_ge.
    + unfold of_ticks. set (r := round_ticks _ _). destruct (_ <=? r); [by right|].
      unfold Math_ceil, on_ticks, BigInt_double. rewrite Z.mod_mul, Z.div_mul by lia. cbn [Z.eqb obind].
      eexists. split; [done|]. apply ceil_ge. rewrite Z.sgn_pos, Z.mul_1_l by done. subst r.
      rewrite Z.abs_eq by lia. apply scaled_ge; lia.
Qed.

(** One stroop above, the pad of nothing loses it. *)
Example fee_below_minimum : applyFeeBuffer (2 ^ 53 + 1) (dint 1) = Returns "9007199254740992"%string.
Proof. vm_refl. Qed.
Example default_pad : applyFeeBuffer 101 DEFAULT_FEE_BUFFER_MULTIPLIER = Returns "127"%string.
Proof. vm_refl. Qed.

(** ** Calls *)

Section Calls.
Context {N : StellarNode} (Hvals : call_vals N) (cfg : ClientConfig) (shim : option RpcShim).

(** A call with a text among its arguments is not built. *)
Lemma text_not_built build m args fee :
  forallb is_val args = false -> exists e, call_XDR build m args fee = Throws e.
Proof.
  intros H. destruct (call_XDR build m args fee) as [xdr|e] eqn:E; [|by exists e].
  apply Hvals in E. congruence.
Qed.

Lemma plain_not_built build m args :
  m <> "create_stream"%string -> m <> "create_stream_with_cliff"%string -> forallb is_val args = false ->
  exists e, buildContractCallXdr build m args None = Throws e.
Proof.
  intros H1 H2 Hargs. unfold buildContractCallXdr. destruct (node_Account _); [|by eexists]. cbn [obind].
  destruct (node_Contract _); [|by eexists]. cbn [obind]. unfold encodeMethodArgs.
  rewrite !bool_decide_eq_false_2 by done. cbn [orb obind]. by apply text_not_built.
Qed.

Lemma create_not_built p build : exists e, buildCreateStreamXdr p build = Throws e.
Proof.
  unfold buildCreateStreamXdr, buildContractCallXdr. destruct (node_Account _); [|by eexists]. cbn [obind].
  destruct (node_Contract _); [|by eexists]. cbn [obind]. unfold encodeMethodArgs.
  destruct (sp_cliffDuration p) as [c|]; cbn [app];
    [rewrite (bool_decide_eq_true_2 (_ = "create_stream_with_cliff"%string)) by done; rewrite orb_true_r|
     rewrite (bool_decide_eq_true_2 (_ = "create_stream"%string)) by done; cbn [orb]];
    (destruct (node_i128 _); [|by eexists]); cbn [obind]; (destruct (node_u64 _); [|by eexists]); cbn [obind].
  - destruct (node_u64 c); [|by eexists]. cbn [obind]. by apply text_not_built.
  - by apply text_not_built.
Qed.

Lemma id_not_built m streamId who build :
  m <> "create_stream"%string -> m <> "create_stream_with_cliff"%string ->
  exists e, (let? id := node_u64 streamId in buildContractCallXdr build m [Text who; Val id] None) = Throws e.
Proof. intros H1 H2. destruct (node_u64 streamId); [|by eexists]. cbn [obind]. by apply plain_not_built. Qed.

Lemma top_up_not_built streamId who amount build : exists e, buildTopUpXdr streamId who amount build = Throws e.
Proof.
  unfold buildTopUpXdr. destruct (node_u64 streamId); [|by eexists]. cbn [obind].
  destruct (node_i128 amount); [|by eexists]. cbn [obind]. by apply plain_not_built.
Qed.

(** Nothing happens: the operation throws, and nothing was signed or sent. *)
Definition fails {A} (m : Js (list Sent) A) : Prop := forall log, exists e, m log = (Throws e, log).

Lemma run_fails_lift {A B} (o : outcome A) (k : A -> Js (list Sent) B) :
  (exists e, o = Throws e) \/ (forall a, fails (k a)) -> fails (bind (lift o) k).
Proof.
  intros [[e ->]|H] log; [by exists e|]. unfold bind, lift. destruct o as [a|e]; [apply H|by exists e].
Qed.

(** The library cannot do anything: as every write names the account it acts for
    by its text, none of them is built, so nothing is ever signed or sent, with or
    without an injected client; and without one no stream is ever found and
    nothing is ever claimable. *)
Theorem sdk_does_nothing (p : CreateStreamParams) (id amount : Z) (ids : list Z) (signer : Signer) :
  fails (createStream cfg shim p signer) /\ fails (batchWithdraw cfg shim ids signer) /\
  fails (topUpStream cfg shim id amount signer) /\ fails (cancelStream cfg shim id signer) /\
  fails (closeStream cfg shim id signer) /\
  getStream None id = Returns JNull /\ getClaimableAmount None id = Returns 0.
Proof.
  split_and!; [..|done|done].
  - unfold createStream. apply run_fails_lift. right. intros _. apply run_fails_lift. right. intros source.
    apply run_fails_lift. left. apply create_not_built.
  - unfold batchWithdraw. destruct ids as [|i ids]; [by intros log; eexists|]. apply run_fails_lift. right. intros recipient.
    cbn [withdraw_each]. apply run_fails_lift. left. by apply id_not_built.
  - unfold topUpStream. destruct (amount <=? 0); [by intros log; eexists|]. apply run_fails_lift. right. intros sender.
    apply run_fails_lift. left. apply top_up_not_built.
  - unfold cancelStream. apply run_fails_lift. right. intros sender. apply run_fails_lift. left. by apply id_not_built.
  - unfold closeStream. apply run_fails_lift. right. intros caller. apply run_fails_lift. left. by apply id_not_built.
Qed.
End Calls.

(** A batch on a node that builds calls all the same, as the tests' does: one
    signature and one submission per stream, in order, up to the first that fails. *)
Section Batch.
Context {N : StellarNode} (cfg : ClientConfig) (shim : option RpcShim).

Definition signed_count (log : list Sent) : nat := length (List.filter (fun e => match e with Signed _ => true | _ => false end) log).
Definition sent_count (log : list Sent) : nat := length (List.filter (fun e => match e with Submitted _ => true | _ => false end) log).

Lemma count_snoc (f : Sent -> bool) log e :
  length (List.filter f (log ++ [e])) = (length (List.filter f log) + (if f e then 1 else 0))%nat.
Proof. rewrite List.filter_app, length_app. cbn. by destruct (f e). Qed.

(** One stream signs once and sends once; when it fails it has sent at most what
    it signed. *)
Lemma signAndSubmit_counts xdr signer log :
  let '(r, log') := signAndSubmit cfg shim xdr signer log in
  match r with
  | Returns _ => signed_count log' = S (signed_count log) /\ sent_count log' = S (sent_count log)
  | Throws _ => (signed_count log <= signed_count log' <= S (signed_count log))%nat /\
      (sent_count log <= sent_count log' <= S (sent_count log))%nat /\
      (sent_count log' - sent_count log <= signed_count log' - signed_count log)%nat
  end.
Proof.
  unfold signAndSubmit, submitSigned, record_sent, bind, lift, modify, signed_count, sent_count, ret.
  repeat (case_match; simplify_eq); rewrite ?count_snoc; lia.
Qed.

Theorem batch_signs_each_once (ids : list Z) (signer : Signer) (log : list Sent) :
  let '(r, log') := batchWithdraw cfg shim ids signer log in
  (sent_count log' - sent_count log <= signed_count log' - signed_count log <= length ids)%nat /\
  match r with
  | Returns out => map wr_streamId out = ids /\ signed_count log' = (signed_count log + length ids)%nat /\
      sent_count log' = (sent_count log + length ids)%nat
  | Throws _ => True
  end.
Proof.
  assert (forall recipient log, let '(r, log') := withdraw_each cfg shim recipient ids signer log in
    (signed_count log <= signed_count log' /\ sent_count log <= sent_count log' /\
     sent_count log' - sent_count log <= signed_count log' - signed_count log <= length ids)%nat /\
    match r with
    | Returns out => map wr_streamId out = ids /\ signed_count log' = (signed_count log + length ids)%nat /\
        sent_count log' = (sent_count log + length ids)%nat
    | Throws _ => True
    end) as H.
  { clear log. intros recipient. induction ids as [|i ids' IH]; intros log.
    - cbn. split_and!; lia || done.
    - cbn [withdraw_each]. unfold bind at 1, lift. destruct (buildWithdrawXdr _ _ _) as [xdr|e]; [|split_and!; lia || done].
      unfold bind at 1. pose proof (signAndSubmit_counts xdr signer log) as Hc.
      destruct (signAndSubmit cfg shim xdr signer log) as [[sent|e] log1]; [|cbn [length]; split; [lia|done]].
      unfold bind. specialize (IH log1). destruct (withdraw_each cfg shim recipient ids' signer log1) as [[out|e] log2];
        cbn [ret length map wr_streamId]; [|split; [lia|done]].
      destruct IH as (H1 & H2 & H3 & H4). split; [lia|]. split_and!; [by rewrite H2|lia|lia]. }
  unfold batchWithdraw. destruct ids as [|i ids']; [split_and!; cbn; lia || done|].
  unfold bind, lift. destruct (getPublicKey signer) as [recipient|e]; [|split_and!; lia || done].
  specialize (H recipient log). destruct (withdraw_each _ _ _ _ _ _) as [r log'].
  destruct H as ((_ & _ & H) & Hr). by split.
Qed.
End Batch.

(** ** Concrete inputs *)

(** A node that writes calls whose arguments are ScVals, and answers everything. *)
Definition toy_node : StellarNode := {|
  node_Account _ := Returns tt; node_Contract _ := Returns tt;
  node_u64 z := Returns (ScvU64 z); node_i128 z := Returns (ScvI128 0 z);
  call_XDR _ m args _ := if forallb is_val args then Returns ("call:" +:+ m) else Throws TypeErr;
  fromXDR xdr := Returns xdr;
  simulate _ := Returns {| sim_error := None; minResourceFee := Some "100"%string; assembledTx := None |};
  assemble xdr _ := Returns Builder; sendTransaction _ := Returns (Some "hash"%string);
  fromSecret_publicKey s := Returns s; sign_with _ xdr := Returns ("signed:" +:+ xdr);
  freighter_address := Returns "G1"%string; freighter_sign xdr := Returns (Some xdr) |}.
(** One that writes any call. *)
Definition lax_node : StellarNode := {|
  node_Account _ := Returns tt; node_Contract _ := Returns tt;
  node_u64 z := Returns (ScvU64 z); node_i128 z := Returns (ScvI128 0 z);
  call_XDR _ m _ _ := Returns ("call:" +:+ m); fromXDR xdr := Returns xdr;
  simulate _ := Returns {| sim_error := None; minResourceFee := Some "100"%string; assembledTx := None |};
  assemble xdr _ := Returns Builder; sendTransaction _ := Returns (Some "hash"%string);
  fromSecret_publicKey s := Returns s; sign_with _ xdr := Returns ("signed:" +:+ xdr);
  freighter_address := Returns "G1"%string; freighter_sign xdr := Returns (Some xdr) |}.

Lemma toy_vals : call_vals toy_node.
Proof. intros build m args fee xdr. cbn. by destruct (forallb is_val args). Qed.

Definition some_config : ClientConfig :=
  {| cc_rpcUrl := "u"; cc_networkPassphrase := "p"; cc_contractId := "C7"; cc_feeBufferMultiplier := DEFAULT_FEE_BUFFER_MULTIPLIER |}.
Definition some_params : CreateStreamParams :=
  {| sp_sender := "G1"; sp_recipient := "G2"; sp_tokenAddress := "C7"; sp_amount := 1000; sp_duration := 60; sp_cliffDuration := None |}.

Lemma sdk_does_nothing_witness :
  call_vals toy_node /\ exists e, createStream (N:=toy_node) some_config None some_params FreighterSigner [] = (Throws e, []).
Proof.
  split; [exact toy_vals|].
  exact (proj1 (sdk_does_nothing (N:=toy_node) toy_vals some_config None some_params 1 5 [1] FreighterSigner) []).
Defined.

Lemma fee_never_below_minimum_witness :
  exists f, applyFeeBuffer 101 DEFAULT_FEE_BUFFER_MULTIPLIER = Returns (BigInt_toString f) /\ 101 <= f.
Proof.
  pose proof (fee_never_below_minimum 101 DEFAULT_FEE_BUFFER_MULTIPLIER ltac:(lia)) as H. rewrite default_pad in H |- *.
  destruct H as (f & Hf & Hle). exists f. split; [by rewrite <- Hf|exact Hle].
Defined.

(** With the lax node every stream is sent once, and the padded fee is in none. *)
Example lax_batch :
  batchWithdraw (N:=lax_node) some_config None [1; 2] FreighterSigner [] =
  (Returns [{| wr_streamId := 1; wr_amount := 0; wr_transactionHash := "hash" |};
            {| wr_streamId := 2; wr_amount := 0; wr_transactionHash := "hash" |}],
   [Signed "call:withdraw"; Submitted "call:withdraw"; Signed "call:withdraw"; Submitted "call:withdraw"])%string.
Proof. vm_refl. Qed.
