(* ===== verification/EventStream.v ===== *)
(** * Live updates in the browser

    frontend/src/hooks/useStreamEvents.ts and the notification bell over it,
    frontend/src/components/NotificationDropdown.tsx.

    [Live] is the hook's state and refs with the log of what it asked of the
    browser: the event sources opened and the timers set.  A closed
    [EventSource] reports nothing more, so only the source of [lv_source] can
    open, deliver or fail.  [live_step] is one occurrence in the browser.  The
    address of a request is its base and its query pairs, which
    [URLSearchParams] encodes. *)
From S2P Require Import AdminRoutes Prelude JsLang StableSort Texts StreamId Json Schema DeadLetter Amount Auth.
Local Open Scope Z_scope.
Local Open Scope string_scope.

(** ** The hook *)

Record UseStreamEventsOptions := {
  streamIds : list string;
  subscribeToAll : bool;
  autoReconnect : bool;
  maxRetryDelay : Z;
  jwtToken : option string
}.

(** The options of a component that names users only; the hook never reads
    [userPublicKeys]. *)
Definition default_options (streamIds : list string) : UseStreamEventsOptions := {|
  streamIds := streamIds; subscribeToAll := false; autoReconnect := true;
  maxRetryDelay := 30000; jwtToken := None |}.

Definition MAX_RECONNECT_ATTEMPTS : Z := 20.

Record LiveEvent := { le_type : string; le_data : Json; le_timestamp : Z }.

Record Url := { base : string; params : list (string * string) }.

Record Live := {
  lv_events : list LiveEvent;
  connected : bool;
  error : option string;
  reconnecting : bool;
  lv_source : option Url; (* the event source that is not closed *)
  retryDelay : Z;
  reconnectTimeout : option Z; (* the delay of the pending timer *)
  reconnectAttempts : Z;
  opened : list Url; (* every event source made, oldest first *)
  waits : list Z (* every delay waited, oldest first *)
}.

Definition initial_live : Live := {|
  lv_events := []; connected := false; error := None; reconnecting := false;
  lv_source := None; retryDelay := 1000; reconnectTimeout := None;
  reconnectAttempts := 0; opened := []; waits := [] |}.

Section hook.
Context (baseUrl : string) (o : UseStreamEventsOptions).

Definition buildUrl : Url := {|
  base := baseUrl +:+ "/v1/events/subscribe";
  params :=
    (if subscribeToAll o then [("all", "true")] else map (fun id => ("streams", id)) (streamIds o)) ++
    (if truthy (jwtToken o) then [("token", default "" (jwtToken o))] else []) |}.

Definition clearEvents (s : Live) : Live := {|
  lv_events := []; connected := connected s; error := error s; reconnecting := reconnecting s;
  lv_source := lv_source s; retryDelay := retryDelay s; reconnectTimeout := reconnectTimeout s;
  reconnectAttempts := reconnectAttempts s; opened := opened s; waits := waits s |}.

Definition connect (s : Live) : Live := {|
  lv_events := lv_events s; connected := connected s; error := error s; reconnecting := reconnecting s;
  lv_source := Some buildUrl; retryDelay := retryDelay s; reconnectTimeout := None;
  reconnectAttempts := reconnectAttempts s; opened := opened s ++ [buildUrl]; waits := waits s |}.

Definition onopen (s : Live) : Live := {|
  lv_events := lv_events s; connected := true; error := None; reconnecting := false;
  lv_source := lv_source s; retryDelay := 1000; reconnectTimeout := reconnectTimeout s;
  reconnectAttempts := 0; opened := opened s; waits := waits s |}.

(** The newest hundred are kept; text that is no JSON is ignored. *)
Definition handleEvent (type : string) (text : string) (now : Z) (s : Live) : Live :=
  match JSON_parse text with
  | Throws _ => s
  | Returns data => {|
      lv_events := {| le_type := type; le_data := data; le_timestamp := now |} :: take 99 (lv_events s);
      connected := connected s; error := error s; reconnecting := reconnecting s;
      lv_source := lv_source s; retryDelay := retryDelay s; reconnectTimeout := reconnectTimeout s;
      reconnectAttempts := reconnectAttempts s; opened := opened s; waits := waits s |}
  end.

Definition onerror (s : Live) : Live :=
  let attempts := if autoReconnect o then reconnectAttempts s + 1 else reconnectAttempts s in
  let again := autoReconnect o && (attempts <=? MAX_RECONNECT_ATTEMPTS)%Z in
  let delay := Z.min (retryDelay s) (maxRetryDelay o) in
  {| lv_events := lv_events s; connected := false; error := Some "SSE connection failed";
     reconnecting := if autoReconnect o then true else reconnecting s;
     lv_source := None;
     retryDelay := if again then Z.min (retryDelay s * 2) (maxRetryDelay o) else retryDelay s;
     reconnectTimeout :=
       if again then Some delay else if autoReconnect o then None else reconnectTimeout s;
     reconnectAttempts := attempts;
     opened := opened s;
     waits := if again then waits s ++ [delay] else waits s |}.

(** The timer runs the latest [connect]. *)
Definition timer_fires (s : Live) : Live :=
  match reconnectTimeout s with None => s | Some _ => connect s end.

(** The clean-up of the effect. *)
Definition cleanup (s : Live) : Live := {|
  lv_events := lv_events s; connected := connected s; error := error s; reconnecting := reconnecting s;
  lv_source := None; retryDelay := retryDelay s; reconnectTimeout := None;
  reconnectAttempts := reconnectAttempts s; opened := opened s; waits := waits s |}.
End hook.

Definition EVENT_TYPES : list string :=
  ["created"; "topped_up"; "withdrawn"; "cancelled"; "completed"; "paused"; "resumed"].

(** One occurrence in the browser, under the options of the last render; new
    options run the clean-up and connect again. *)
Inductive live_step (baseUrl : string) : UseStreamEventsOptions * Live -> UseStreamEventsOptions * Live -> Prop :=
| step_open o s : lv_source s <> None -> live_step baseUrl (o, s) (o, onopen s)
| step_message o s type text now :
    lv_source s <> None -> type ∈ EVENT_TYPES ->
    live_step baseUrl (o, s) (o, handleEvent type text now s)
| step_error o s : lv_source s <> None -> live_step baseUrl (o, s) (o, onerror o s)
| step_timer o s d : reconnectTimeout s = Some d -> live_step baseUrl (o, s) (o, timer_fires baseUrl o s)
| step_clear o s : live_step baseUrl (o, s) (o, clearEvents s)
| step_options o o' s : live_step baseUrl (o, s) (o', connect baseUrl o' (cleanup s))
| step_unmount o s : live_step baseUrl (o, s) (o, cleanup s).

Definition mounted (baseUrl : string) (o : UseStreamEventsOptions) : UseStreamEventsOptions * Live :=
  (o, connect baseUrl o initial_live).

Definition live_reachable (baseUrl : string) (o : UseStreamEventsOptions) :
    UseStreamEventsOptions * Live -> Prop :=
  rtc (live_step baseUrl) (mounted baseUrl o).

(** ** The endpoint's guard

    An [EventSource] request carries no Authorization header; a response that
    is not a 200 event stream is an error event. *)
Definition answered {Sdk : AuthSdk} (env : AuthEnv) (now : Z) (o : UseStreamEventsOptions) (s : Live) : Live :=
  match requireAuth env now None with
  | LetThrough _ => onopen s
  | _ => onerror o s
  end.

(** The answer to each request, then the pending timer. *)
Fixpoint answers {Sdk : AuthSdk} (env : AuthEnv) (baseUrl : string) (o : UseStreamEventsOptions)
    (times : list Z) (s : Live) : Live :=
  match times with
  | [] => s
  | now :: times =>
      match lv_source s with
      | None => s
      | Some _ => answers env baseUrl o times (timer_fires baseUrl o (answered env now o s))
      end
  end.

(** ** The notification bell *)

(** [String(x)] *)
Definition json_text (j : Json) : string :=
  match j with JNull => "null" | JUndefined => "undefined" | _ => String_element j end.

Definition json_truthy (j : Json) : bool :=
  match j with
  | JNull | JUndefined => false
  | JBool b => b
  | JNumber n | JBigint n => negb (n =? 0)%Z
  | JString s => truthy (Some s)
  | JArray _ | JObject _ => true
  end.

(** [j || d] *)
Definition json_or (j d : Json) : Json := if json_truthy j then j else d.

(** [BigInt(j)] of a value that is not null *)
Definition BigInt_json (j : Json) : outcome Z :=
  match j with
  | JNumber n | JBigint n => Returns n
  | JBool b => Returns (if b then 1 else 0)
  | _ => BigInt_of_string (json_text j)
  end.

Record NotificationItem := {
  n_id : string;
  n_streamId : Json;
  n_type : string;
  n_message : string;
  n_timestamp : Z;
  read : bool
}.

Definition formatEventMessage (e : LiveEvent) : outcome string :=
  let data := json_or (le_data e) (JObject []) in
  let streamId := json_text (json_or (member "streamId" data) (JNumber 0)) in
  let? raw := BigInt_json (json_or (member "amount" data) (JString "0")) in
  let amount := Amount.formatAmount raw 7 in
  let tokenSymbol := json_text (json_or (member "tokenSymbol" data) (JString "USDC")) in
  Returns
    match toLowerCase (le_type e) with
    | "created" | "stream.created" => "New stream #" +:+ streamId +:+ " created"
    | "topped_up" | "stream.topped_up" =>
        "Stream #" +:+ streamId +:+ " was topped up by " +:+ amount +:+ " " +:+ tokenSymbol
    | "withdrawn" | "stream.withdrawn" =>
        "You received " +:+ amount +:+ " " +:+ tokenSymbol +:+ " from stream #" +:+ streamId
    | "cancelled" | "stream.cancelled" => "Stream #" +:+ streamId +:+ " was cancelled — refund incoming"
    | "completed" | "stream.completed" => "Stream #" +:+ streamId +:+ " completed"
    | "paused" | "stream.paused" => "Stream #" +:+ streamId +:+ " was paused"
    | "resumed" | "stream.resumed" => "Stream #" +:+ streamId +:+ " was resumed"
    | "fee_collected" | "stream.fee_collected" => "Fee collected from stream #" +:+ streamId
    | "fee_config_updated" | "stream.fee_config_updated" => "Stream fee configuration was updated"
    | "admin_transferred" | "stream.admin_transferred" => "Stream admin role was transferred"
    | _ => "Activity on stream #" +:+ streamId
    end.

Record Bell := { isOpen : bool; notifications : list NotificationItem; unreadCount : Z }.

Definition event_id (e : LiveEvent) : string :=
  "sse-" +:+ le_type e +:+ "-" +:+ BigInt_toString (le_timestamp e).

Definition notification_of (opn : bool) (e : LiveEvent) : outcome NotificationItem :=
  let? message := formatEventMessage e in
  Returns {| n_id := event_id e;
             n_streamId := json_or (member "streamId" (le_data e)) (JNumber 0);
             n_type := le_type e; n_message := message; n_timestamp := le_timestamp e;
             read := opn |}.

(** [filter((n, i, self) => i === self.findIndex(m => m.id === n.id))] *)
Fixpoint first_of_each (seen : list string) (ns : list NotificationItem) : list NotificationItem :=
  match ns with
  | [] => []
  | n :: ns =>
      if bool_decide (n_id n ∈ seen) then first_of_each seen ns
      else n :: first_of_each (n_id n :: seen) ns
  end.

(** The effect, run whenever the events or [isOpen] change; an event it cannot
    describe throws out of it. *)
Definition notify (events : list LiveEvent) (b : Bell) : outcome Bell :=
  match events with
  | [] => Returns b
  | _ =>
      let? newNotifications := omap_all (notification_of (isOpen b)) events in
      Returns {| isOpen := isOpen b;
                 notifications := take 20 (first_of_each [] (newNotifications ++ notifications b));
                 unreadCount :=
                   if isOpen b then unreadCount b
                   else unreadCount b + Z.of_nat (length newNotifications) |}
  end.

Definition mark_read (n : NotificationItem) : NotificationItem := {|
  n_id := n_id n; n_streamId := n_streamId n; n_type := n_type n; n_message := n_message n;
  n_timestamp := n_timestamp n; read := true |}.

(** A click on the bell, and the effect the change of [isOpen] sets off. *)
Definition handleDropdownOpen (events : list LiveEvent) (b : Bell) : outcome Bell :=
  notify events
    (if isOpen b then {| isOpen := false; notifications := notifications b; unreadCount := unreadCount b |}
     else {| isOpen := true; notifications := map mark_read (notifications b); unreadCount := 0 |}).

(** Events arriving one by one, each handled before the next. *)
Fixpoint notify_each (arrivals : list LiveEvent) (events : list LiveEvent) (b : Bell) : outcome Bell :=
  match arrivals with
  | [] => Returns b
  | e :: arrivals =>
      let events := e :: take 99 events in
      let? b := notify events b in notify_each arrivals events b
  end.

(** * What live updates come to

    The hook keeps one connection or one timer; against the endpoint's guard it
    gives up after twenty-one refused requests, spaced by the doubling delay;
    the bell keeps twenty notifications without repeats, but counts every
    stored event again on every arrival. *)

Local Open Scope Z_scope.

(** ** One connection or one timer *)

Definition live_ok (p : UseStreamEventsOptions * Live) : Prop :=
  let '(o, s) := p in
  (length (lv_events s) <= 100)%nat /\
  (lv_source s = None \/ reconnectTimeout s = None) /\
  (forall d, reconnectTimeout s = Some d -> d <= maxRetryDelay o /\ reconnectAttempts s <= MAX_RECONNECT_ATTEMPTS) /\
  (connected s = true -> error s = None) /\
  0 <= reconnectAttempts s.

Lemma live_step_ok baseUrl p p' : live_step baseUrl p p' -> live_ok p -> live_ok p'.
Proof.
  destruct 1 as [o s Hs|o s type text now Hs Ht|o s Hs|o s d Hd|o s|o o' s|o s];
    intros (Hlen & Hone & Hd' & Hc & Ha); unfold live_ok; simpl.
  - repeat split; try done; try lia; destruct Hone as [?|Hn]; congruence.
  - unfold handleEvent. destruct (JSON_parse text); simpl; repeat split; try done; try naive_solver.
    rewrite length_take. lia.
  - destruct Hone as [?|Hn]; [done|]. rewrite Hn.
    split_and!; auto; [|done|destruct (autoReconnect o); lia].
    intros w. destruct (autoReconnect o); simpl; [|done].
    destruct (Z.leb_spec (reconnectAttempts s + 1) MAX_RECONNECT_ATTEMPTS) as [Hle|Hgt]; intros [=<-]. lia.
  - unfold timer_fires. rewrite Hd. simpl. repeat split; auto; done.
  - repeat split; auto; try lia; try naive_solver.
  - repeat split; auto; done.
  - repeat split; auto; done.
Qed.


Definition sample_live : UseStreamEventsOptions * Live :=
  (default_options ["7"%string],
   timer_fires "http://localhost:3001" (default_options ["7"%string])
     (onerror (default_options ["7"%string]) (mounted "http://localhost:3001" (default_options ["7"%string])).2)).


(** ** Refused for ever *)

Section refused.
Context {Sdk : AuthSdk} (env : AuthEnv) (baseUrl : string) (o : UseStreamEventsOptions).
Hypothesis auto : autoReconnect o = true.
Hypothesis max_nonneg : 0 <= maxRetryDelay o.

Definition wait_of (k : nat) : Z := Z.min (1000 * 2 ^ Z.of_nat k) (maxRetryDelay o).
Definition delay_of (k : nat) : Z := match k with O => 1000 | S _ => wait_of k end.

(** The hook after [k] refused requests, its next one on its way. *)
Definition refused_times (k : nat) (e : option string) : Live := {|
  lv_events := []; connected := false; error := e; reconnecting := negb (k =? 0)%nat;
  lv_source := Some (buildUrl baseUrl o); retryDelay := delay_of k; reconnectTimeout := None;
  reconnectAttempts := Z.of_nat k; opened := repeat (buildUrl baseUrl o) (S k);
  waits := map wait_of (seq 0 k) |}.

Definition given_up (s : Live) : Prop :=
  lv_source s = None /\ reconnectTimeout s = None /\ lv_events s = [] /\ connected s = false /\
  reconnecting s = true /\ opened s = repeat (buildUrl baseUrl o) 21 /\ waits s = map wait_of (seq 0 20).

Lemma answered_refused now s : answered env now o s = onerror o s.
Proof. reflexivity. Qed.

Lemma delay_wait k : Z.min (delay_of k) (maxRetryDelay o) = wait_of k.
Proof. unfold delay_of, wait_of. destruct k; [reflexivity|lia]. Qed.

Lemma delay_next k : Z.min (delay_of k * 2) (maxRetryDelay o) = delay_of (S k).
Proof.
  unfold delay_of, wait_of. rewrite Nat2Z.inj_succ, Z.pow_succ_r by lia.
  destruct k; [reflexivity|]. lia.
Qed.

Lemma refused_step k e : (k < 20)%nat ->
  timer_fires baseUrl o (onerror o (refused_times k e)) =
  refused_times (S k) (Some "SSE connection failed"%string).
Proof.
  intros Hk. unfold timer_fires, onerror. rewrite auto. simpl reconnectAttempts.
  assert (Hle : (Z.of_nat k + 1 <=? MAX_RECONNECT_ATTEMPTS) = true)
    by (apply Z.leb_le; unfold MAX_RECONNECT_ATTEMPTS; lia).
  rewrite Hle. cbn -[delay_of wait_of seq repeat]. unfold connect, refused_times.
  cbn -[delay_of wait_of seq repeat]. rewrite delay_wait, delay_next.
  f_equal; [lia| |].
  - symmetry. apply (repeat_cons (S k)).

  - rewrite (seq_S k 0), map_app. reflexivity.
Qed.

Lemma answers_refused times : forall k e, (k <= 20)%nat -> (20 < k + length times)%nat ->
  given_up (answers env baseUrl o times (refused_times k e)).
Proof.
  induction times as [|now times IH]; intros k e Hk Hlen; simpl in Hlen; [lia|].
  simpl. rewrite answered_refused.
  destruct (decide (k = 20%nat)) as [->|Hne].
  - assert (Hdead : timer_fires baseUrl o (onerror o (refused_times 20 e)) = onerror o (refused_times 20 e)).
    { unfold timer_fires, onerror. rewrite auto. reflexivity. }
    rewrite Hdead.
    assert (Hstop : answers env baseUrl o times (onerror o (refused_times 20 e)) = onerror o (refused_times 20 e)).
    { destruct times; reflexivity. }
    rewrite Hstop. unfold onerror. rewrite auto. repeat split; reflexivity.
  - rewrite refused_step by lia. apply IH; lia.
Qed.
End refused.

(** A browser sends no Authorization header with an event source, so the
    guard of the endpoint refuses every request of the hook, whatever streams,
    users or token it was given: after twenty-one requests, spaced by a delay
    that doubles from a second up to the longest allowed, it stops for good,
    without an event, still saying that it is reconnecting. *)
Theorem live_updates_refused {Sdk : AuthSdk} (env : AuthEnv) baseUrl o times :
  autoReconnect o = true -> 0 <= maxRetryDelay o -> (20 < length times)%nat ->
  let s := answers env baseUrl o times (mounted baseUrl o).2 in
  lv_source s = None /\ reconnectTimeout s = None /\ lv_events s = [] /\ connected s = false /\
  reconnecting s = true /\ opened s = repeat (buildUrl baseUrl o) 21 /\
  waits s = map (fun k => Z.min (1000 * 2 ^ Z.of_nat k) (maxRetryDelay o)) (seq 0 20).
Proof. intros Ha Hm Hl. exact (answers_refused env baseUrl o Ha Hm times 0 None ltac:(lia) ltac:(lia)). Qed.

(** ** The bell *)

Lemma first_of_each_ids seen ns :
  NoDup (map n_id (first_of_each seen ns)) /\
  forall i, i ∈ map n_id (first_of_each seen ns) -> i ∉ seen.
Proof.
  revert seen; induction ns as [|n ns IH]; intros seen; simpl.
  { split; [constructor|]. intros i Hi%not_elem_of_nil. done. }
  case_bool_decide as Hs; [apply IH|].
  destruct (IH (n_id n :: seen)) as [Hn Hi]. simpl. split.
  - constructor; [|exact Hn]. intros Hin%Hi. apply Hin. left.
  - intros i [->|Hin]%elem_of_cons; [exact Hs|]. apply Hi in Hin. set_solver.
Qed.

Definition described (e : LiveEvent) : Prop := is_returns (formatEventMessage e) = true.

Lemma notify_described events b :
  Forall described events ->
  exists b', notify events b = Returns b' /\ isOpen b' = isOpen b /\
    unreadCount b' = (if isOpen b then unreadCount b else unreadCount b + Z.of_nat (length events)) /\
    (events <> [] -> (length (notifications b') <= 20)%nat /\ NoDup (map n_id (notifications b'))).
Proof.
  intros Hd. destruct events as [|e es].
  { exists b. simpl. split_and!; try done. destruct (isOpen b); lia. }
  destruct (omap_all_returns (notification_of (isOpen b)) (e :: es)) as [ys Hys].
  { eapply Forall_impl; [|exact Hd]. intros x Hx. unfold notification_of.
    unfold described in Hx. destruct (formatEventMessage x); done. }
  unfold notify. rewrite Hys. simpl. eexists. split; [reflexivity|]. simpl.
  apply omap_all_length in Hys. rewrite Hys. split; [done|]. split; [done|].
  intros _. rewrite length_take. split; [lia|].
  destruct (first_of_each_ids [] (ys ++ notifications b)) as [Hn _].
  revert Hn. generalize (first_of_each [] (ys ++ notifications b)). intros l Hn.
  rewrite <- (firstn_map n_id). rewrite <- (firstn_skipn 20 (map n_id l)) in Hn.
  apply list.NoDup_app in Hn. tauto.
Qed.

Lemma notify_each_counts arrivals : forall events b,
  isOpen b = false -> Forall described (arrivals ++ events) ->
  (length arrivals + length events <= 100)%nat ->
  (0 < length events -> (length (notifications b) <= 20)%nat /\ NoDup (map n_id (notifications b)))%nat ->
  exists b', notify_each arrivals events b = Returns b' /\
    2 * unreadCount b' = 2 * unreadCount b +
      Z.of_nat (length arrivals) * (2 * Z.of_nat (length events) + Z.of_nat (length arrivals) + 1) /\
    (0 < length arrivals + length events ->
       (length (notifications b') <= 20)%nat /\ NoDup (map n_id (notifications b')))%nat.
Proof.
  induction arrivals as [|e arrivals IH]; intros events b Ho Hd Hlen Hk.
  { exists b. simpl. split; [done|]. split; [lia|]. exact Hk. }
  simpl in Hlen. cbn [notify_each].
  inversion Hd as [|? ? He Hrest]; subst. apply Forall_app in Hrest as [Harr Hev].
  assert (Htake : take 99 events = events) by (apply firstn_all2; lia).
  rewrite Htake.
  destruct (notify_described (e :: events) b) as (b1 & -> & Ho1 & Hu & Hk1); [by constructor|].
  rewrite Ho in Hu, Ho1. cbn [obind].
  destruct (IH (e :: events) b1) as (b' & -> & Hu' & Hk'); try done.
  - apply Forall_app. split; [done|by constructor].
  - simpl. lia.
  - intros _. by apply Hk1.
  - exists b'. split; [done|]. split; [|intros _; apply Hk'; simpl; lia].
    rewrite Hu', Hu. cbn [length]. rewrite !Nat2Z.inj_succ. lia.
Qed.

(** The bell keeps at most twenty notifications, no two of one identity;
    but each arrival counts all the stored events again, so n events that
    arrive one by one leave n(n+1)/2 unread, for up to a hundred events the
    bell can describe. *)
Theorem unread_overcounted arrivals b :
  isOpen b = false -> (0 < length arrivals <= 100)%nat -> Forall described arrivals ->
  exists b', notify_each arrivals [] b = Returns b' /\
    2 * (unreadCount b' - unreadCount b) = Z.of_nat (length arrivals) * (Z.of_nat (length arrivals) + 1) /\
    (length (notifications b') <= 20)%nat /\ NoDup (map n_id (notifications b')).
Proof.
  intros Ho Hl Hd.
  destruct (notify_each_counts arrivals [] b) as (b' & H1 & H2 & H3); rewrite ?app_nil_r; simpl; try done; try lia.
  destruct H3; [simpl; lia|]. exists b'. split_and!; try done. simpl in H2. lia.
Qed.

(** ** A run of the bell *)

Definition sample_event (id now : Z) : LiveEvent := {|
  le_type := "withdrawn"; le_timestamp := now;
  le_data := JObject [("streamId"%string, JNumber id); ("amount"%string, JString "25000000")] |}.

Definition quiet_bell : Bell := {| isOpen := false; notifications := []; unreadCount := 0 |}.

Definition four_events : list LiveEvent := [sample_event 7 1000; sample_event 7 2000; sample_event 8 3000; sample_event 9 4000].

Lemma unread_overcounted_witness :
  exists b', notify_each four_events [] quiet_bell = Returns b' /\
    2 * (unreadCount b' - 0) = 20 /\ (length (notifications b') <= 20)%nat /\ NoDup (map n_id (notifications b')).
Proof.
  apply (unread_overcounted four_events quiet_bell); [reflexivity|simpl; lia|].
  unfold described. repeat constructor.
Defined.

(** Opening the bell and closing it again leaves every event unread once more. *)
Example closed_again_unread :
  (let? b := notify_each four_events [] quiet_bell in
   let? b := handleDropdownOpen (rev four_events) b in
   let? b' := handleDropdownOpen (rev four_events) b in
   Returns (unreadCount b, unreadCount b', map read (notifications b'))) =
  Returns (0, 4, [false; false; false; false]).
Proof. vm_refl. Qed.

(** A withdrawal of 2.5 is announced as such; an amount that is no whole number
    throws out of the effect. *)
Example message_of_withdrawal :
  formatEventMessage (sample_event 7 0) = Returns "You received 2.5 USDC from stream #7"%string.
Proof. vm_refl. Qed.
Example fractional_amount_throws :
  formatEventMessage {| le_type := "created"; le_timestamp := 0;
    le_data := JObject [("amount"%string, JString "2.5")] |} = Throws SyntaxErr.
Proof. vm_refl. Qed.
