(* ===== verification/Activity.v ===== *)
(** * The activity of a wallet in the browser

    frontend/src/utils/activityFilters.ts, the activity page
    frontend/src/app/activity/activity-content.tsx and the table export of
    frontend/src/components/dashboard/ActivityHistory.tsx.

    An identifier travels as a JSON number or as decimal text; [String] and
    [BigInt] of either give the identifier back (StreamId), so the rows here are
    those of the database.  The page is a state machine: requests are in flight
    until [settle] answers them, in any order. *)
From S2P Require Import Prelude JsLang StableSort Texts StreamId Json Schema Amount Dates Csv Statement Auth EventStream DeadLetter MemoryCache Http Soroban StreamApi StreamQueries EventQueries.
From stdpp Require Import sorting.
Local Open Scope Z_scope.

(** ** Filtering and sorting *)

Record ActivityFilters := {
  types : option (list string);
  search : option string;
  fromTimestamp : option Z;
  toTimestamp : option Z
}.

Definition matchesSearch (e : StreamEvent) (needle : string) : bool :=
  match toLowerCase (trim needle) with
  | EmptyString => true
  | q => includes q (toLowerCase (ev_transactionHash e)) || includes q (BigInt_toString (ev_streamId e))
  end.

Definition keeps (f : ActivityFilters) (e : StreamEvent) : bool :=
  match types f with None | Some [] => true | Some ts => bool_decide (ev_eventType e ∈ ts) end &&
  match fromTimestamp f with None => true | Some t => negb (ev_timestamp e <? t) end &&
  match toTimestamp f with None => true | Some t => negb (t <? ev_timestamp e) end &&
  match search f with None => true | Some needle => matchesSearch e needle end.

Definition filterActivityEvents (events : list StreamEvent) (f : ActivityFilters) : list StreamEvent :=
  List.filter (keeps f) events.

Inductive ActivitySortKey := by_timestamp | by_amount | by_streamId.
Inductive SortDirection := asc | desc.

Definition sortValue (key : ActivitySortKey) (e : StreamEvent) : outcome Z :=
  match key with
  | by_amount =>
      match ev_amount e with
      | None | Some EmptyString => Returns 0
      | Some s => BigInt_of_string s
      end
  | by_streamId => Returns (ev_streamId e)
  | by_timestamp => Returns (ev_timestamp e)
  end.

Record Keyed := { k_value : Z; k_index : nat; k_event : StreamEvent }.

(** The comparator of [sort]: the keys, then the place in the list. *)
Definition before (dir : SortDirection) (a b : Keyed) : Prop :=
  let delta := (k_value a - k_value b) * match dir with asc => 1 | desc => -1 end in
  delta < 0 \/ delta = 0 /\ (k_index a <= k_index b)%nat.
#[export] Instance before_dec dir : RelDecision (before dir).
Proof. intros a b. unfold before. apply _. Defined.

Fixpoint keyed (key : ActivitySortKey) (i : nat) (events : list StreamEvent) : outcome (list Keyed) :=
  match events with
  | [] => Returns []
  | e :: events =>
      let? v := sortValue key e in
      let? rest := keyed key (S i) events in
      Returns ({| k_value := v; k_index := i; k_event := e |} :: rest)
  end.

(** The comparator reads the key of every element of a list of two or more, and
    throws what reading throws; a shorter list is not compared. *)
Definition sortActivityEvents (events : list StreamEvent) (key : ActivitySortKey) (dir : SortDirection) :
    outcome (list StreamEvent) :=
  match events with
  | [] | [_] => Returns events
  | _ => let? ks := keyed key 0 events in Returns (map k_event (merge_sort (before dir) ks))
  end.

(** ** The export of the table *)

Definition EXPORT_KEYS : list string := ["Stream ID"; "Event Type"; "Amount"; "Timestamp"; "Tx Hash"]%string.

Definition export_amount (e : StreamEvent) : outcome string :=
  match ev_amount e with
  | None | Some EmptyString => Returns "0"%string
  | Some s => let? raw := BigInt_of_string s in Returns (Amount.formatAmount raw 7)
  end.

Definition export_cells (e : StreamEvent) : outcome (list string) :=
  let? amount := export_amount e in
  let? time := event_time (ev_timestamp e) in
  Returns [BigInt_toString (ev_streamId e); ev_eventType e; amount; time; ev_transactionHash e].

(** A row as the object whose keys the table reads. *)
Definition export_row (cells : list string) (key : string) : option string :=
  snd <$> List.find (fun kc => bool_decide (kc.1 = key)) (combine EXPORT_KEYS cells).

Definition exportToCSV (events : list StreamEvent) : outcome string :=
  let? rows := omap_all export_cells events in
  Returns (convertArrayToCSV EXPORT_KEYS (map export_row rows)).

(** ** The page *)

Definition PAGE_SIZE : Z := 10.

Definition TABS : list string := ["ALL"; "CREATED"; "WITHDRAWN"; "TOPPED_UP"; "CANCELLED"; "PAUSED"]%string.

Record Request := { rq_tab : string; rq_page : Z; rq_append : bool; rq_aborted : bool }.

(** What a response comes to: a failure — the request failed, or its status was
    not a success — or a body, with its [events] when they are a list and its
    [hasMore] when it is a boolean. *)
Inductive Answer := Failed | Body (events : option (list StreamEvent)) (hasMore : option bool).

Record Page := {
  pg_events : list StreamEvent;
  activeTab : string;
  loading : bool;
  page : Z;
  pg_hasMore : bool;
  inflight : list Request
}.

(** The query of a request: the types asked for and the page. *)
Definition type_query (tab : string) : option string :=
  match tab with
  | "ALL" => None
  | "PAUSED" => Some "PAUSED,RESUMED"
  | _ => Some tab
  end%string.

Definition fetchActivity (pageNum : Z) (tab : string) (append : bool) (p : Page) : Page := {|
  pg_events := pg_events p; activeTab := activeTab p; loading := true; page := page p;
  pg_hasMore := pg_hasMore p;
  inflight := inflight p ++ [{| rq_tab := tab; rq_page := pageNum; rq_append := append; rq_aborted := false |}] |}.

(** The page of a connected wallet once its first effect has run. *)
Definition opened_page : Page :=
  fetchActivity 1 "ALL" false
    {| pg_events := []; activeTab := "ALL"; loading := false; page := 1; pg_hasMore := true; inflight := [] |}.

(** The clean-up of the effect aborts the request the effect made, the one that
    replaces the list; later pages have no signal. *)
Definition abort_initial (p : Page) : Page := {|
  pg_events := pg_events p; activeTab := activeTab p; loading := loading p; page := page p;
  pg_hasMore := pg_hasMore p;
  inflight := map (fun r => if rq_append r then r else
    {| rq_tab := rq_tab r; rq_page := rq_page r; rq_append := false; rq_aborted := true |}) (inflight p) |}.

(** A click on a tab; the effect runs again when the tab is another one. *)
Definition select_tab (tab : string) (p : Page) : Page :=
  let p' := {| pg_events := pg_events p; activeTab := tab; loading := loading p; page := 1;
               pg_hasMore := pg_hasMore p; inflight := inflight p |} in
  if bool_decide (tab = activeTab p) then p' else fetchActivity 1 tab false (abort_initial p').

(** The button is there while there is more, and disabled while loading. *)
Definition loadMore (p : Page) : Page :=
  if pg_hasMore p && negb (loading p) then
    let nextPage := page p + 1 in
    fetchActivity nextPage (activeTab p) true
      {| pg_events := pg_events p; activeTab := activeTab p; loading := loading p; page := nextPage;
         pg_hasMore := pg_hasMore p; inflight := inflight p |}
  else p.

(** The answer to the [k]-th request in flight. *)
Definition settle (k : nat) (a : Answer) (p : Page) : Page :=
  match inflight p !! k with
  | None => p
  | Some r =>
      let rest := take k (inflight p) ++ drop (S k) (inflight p) in
      let done events more := {|
        pg_events := events; activeTab := activeTab p; loading := false; page := page p;
        pg_hasMore := more; inflight := rest |} in
      if rq_aborted r then done (pg_events p) (pg_hasMore p)
      else match a with
           | Failed => done (if rq_append r then pg_events p else []) false
           | Body events more =>
               let next := default [] events in
               done (if rq_append r then pg_events p ++ next else next)
                 (default (bool_decide (Z.of_nat (length next) = PAGE_SIZE)) more)
           end
  end.

Inductive Click := Tab (tab : string) | More | Answered (k : nat).

(** [serve] is what the server makes of a request. *)
Definition page_step (serve : Request -> Answer) (p : Page) (c : Click) : Page :=
  match c with
  | Tab tab => select_tab tab p
  | More => loadMore p
  | Answered k => match inflight p !! k with Some r => settle k (serve r) p | None => p end
  end.

Definition browse (serve : Request -> Answer) (clicks : list Click) : Page :=
  fold_left (page_step serve) clicks opened_page.

(** GET /v1/events is behind [requireAuth], and the page sends no header. *)
Definition guarded {Sdk : AuthSdk} (env : AuthEnv) (now : Request -> Z) (handler : Json -> Request -> Answer)
    (r : Request) : Answer :=
  match requireAuth env (now r) None with
  | LetThrough user => handler user r
  | _ => Failed
  end.

(** The pages of a list of events, as GET /v1/events serves them. *)
Definition pages_of (rows : option string -> list StreamEvent) (r : Request) : Answer :=
  let rows := rows (type_query (rq_tab r)) in
  let skip := PAGE_SIZE * (rq_page r - 1) in
  let events := take (Z.to_nat PAGE_SIZE) (drop (Z.to_nat skip) rows) in
  Body (Some events) (Some (skip + Z.of_nat (length events) <? Z.of_nat (length rows))).

(** * The activity table and page

    Sorting is a stable sort whatever the direction, and commutes with
    filtering; the exported table reads back; a page that is scrolled to its end
    holds every event once, unless the active tab is clicked again or a tab is
    left while a page is on its way; and the guard of the endpoint never lets
    the page see an event. *)

Local Open Scope Z_scope.

(** ** The sort *)

Definition sign (dir : SortDirection) : Z := match dir with asc => 1 | desc => -1 end.
Definition value_of (key : ActivitySortKey) (e : StreamEvent) : Z :=
  match sortValue key e with Returns v => v | Throws _ => 0 end.
Definition readable (key : ActivitySortKey) (e : StreamEvent) : Prop := is_returns (sortValue key e) = true.

(** [e] may come before [e'] when sorted by [key] in direction [dir]. *)
Definition in_order (key : ActivitySortKey) (dir : SortDirection) (e e' : StreamEvent) : Prop :=
  value_of key e * sign dir <= value_of key e' * sign dir.

#[export] Instance before_trans dir : Transitive (before dir).
Proof. intros a b c. unfold before. destruct dir; lia. Qed.
#[export] Instance before_total dir : Total (before dir).
Proof. intros a b. unfold before. destruct dir; lia. Qed.

Lemma keyed_returns key events : Forall (readable key) events -> forall i,
  exists ks, keyed key i events = Returns ks /\ map k_event ks = events /\
    map k_index ks = seq i (length events) /\ Forall (fun k => k_value k = value_of key (k_event k)) ks.
Proof.
  induction 1 as [|e events He _ IH]; intros i; simpl; [eauto|].
  destruct (IH (S i)) as (ks & -> & Hm & Hi & Hv). unfold readable in He.
  destruct (sortValue key e) as [v|] eqn:Hs; [|done]. simpl. eexists. split; [done|]. simpl.
  rewrite Hm, Hi. split_and!; try done. constructor; [|done]. simpl. unfold value_of. by rewrite Hs.
Qed.

Lemma keyed_throws key events : ~ Forall (readable key) events -> forall i,
  keyed key i events = Throws SyntaxErr.
Proof.
  induction events as [|e events IH]; intros Hn i; simpl; [destruct Hn; constructor|].
  destruct (sortValue key e) as [v|err] eqn:Hs; simpl.
  - rewrite IH; [done|]. intros H. apply Hn. constructor; [unfold readable; by rewrite Hs|done].
  - destruct key; [done| |done]. simpl in Hs. destruct (ev_amount e) as [[|c s]|]; try done.
    unfold BigInt_of_string, of_option in Hs. destruct (string_to_bigint _); congruence.
Qed.

(** The events with a key in common, in the order of the list. *)
Definition having (key : ActivitySortKey) (v : Z) (events : list StreamEvent) : list StreamEvent :=
  List.filter (fun e => value_of key e =? v) events.

(** A list sorted by key that keeps the order of equal keys is the only one. *)
Lemma stable_unique key dir l1 : forall l2,
  StronglySorted (in_order key dir) l1 -> StronglySorted (in_order key dir) l2 ->
  l1 ≡ₚ l2 -> (forall v, having key v l1 = having key v l2) -> l1 = l2.
Proof.
  induction l1 as [|a l1 IH]; intros l2 H1 H2 Hp Hv.
  { by apply Permutation_nil_l in Hp. }
  destruct l2 as [|b l2]; [by apply Permutation_nil_r in Hp|].
  apply StronglySorted_inv in H1 as [S1 F1]. apply StronglySorted_inv in H2 as [S2 F2].
  assert (Hab : value_of key a = value_of key b).
  { assert (Ha : a ∈ b :: l2) by (rewrite <- Hp; left).
    assert (Hb : b ∈ a :: l1) by (rewrite Hp; left).
    rewrite list.Forall_forall in F1, F2. unfold in_order in *.
    apply elem_of_cons in Ha as [->|Ha]; [done|]. apply elem_of_cons in Hb as [->|Hb]; [done|].
    apply F2 in Ha. apply F1 in Hb. destruct dir; simpl in *; lia. }
  assert (Hh := Hv (value_of key a)). unfold having in Hh. simpl in Hh.
  rewrite Hab, Z.eqb_refl in Hh. injection Hh as -> _. f_equal. apply IH; try done.
  - by apply Permutation.Permutation_cons_inv in Hp.
  - intros v. specialize (Hv v). unfold having in *. simpl in Hv. destruct (value_of key b =? v); congruence.
Qed.

Lemma filter_keyed key v ks :
  Forall (fun k => k_value k = value_of key (k_event k)) ks ->
  having key v (map k_event ks) = map k_event (List.filter (fun k => k_value k =? v) ks).
Proof.
  unfold having. induction 1 as [|k ks Hk _ IH]; [done|]. simpl. rewrite <- Hk, IH. by case_match.
Qed.

(** Within one key, the sort keeps the places. *)
Lemma same_key_in_place dir ks v :
  List.NoDup (map k_index ks) -> StronglySorted (fun a b => k_index a <= k_index b)%nat ks ->
  List.filter (fun k => k_value k =? v) (merge_sort (before dir) ks) = List.filter (fun k => k_value k =? v) ks.
Proof.
  intros Hn Hs.
  assert (Hp : List.filter (fun k => k_value k =? v) (merge_sort (before dir) ks) ≡ₚ
               List.filter (fun k => k_value k =? v) ks) by apply filter_perm, merge_sort_Permutation.
  eapply (StronglySorted_unique_strong (fun a b => k_index a <= k_index b)%nat); [| | |exact Hp].
  - intros a b Ha Hb Hab Hba. rewrite Hp in Ha.
    apply list_elem_of_In, filter_In in Ha as [Ha _]. apply list_elem_of_In, filter_In in Hb as [Hb _].
    apply (map_inj_NoDup k_index ks); [done|done|done|lia].
  - apply (sorted_filter (before dir)); [|apply (StronglySorted_merge_sort (before dir))].
    unfold before. intros a b Ha%Z.eqb_eq Hb%Z.eqb_eq. destruct dir; lia.
  - by apply (sorted_filter (fun a b => k_index a <= k_index b)%nat).
Qed.

Lemma indices_sorted ks : forall i n, map k_index ks = seq i n ->
  StronglySorted (fun a b => k_index a <= k_index b)%nat ks.
Proof.
  induction ks as [|k ks IH]; intros i [|n] Hi; try done; [constructor|].
  simpl in Hi. injection Hi as Hk Hks. constructor; [by eapply IH|].
  apply List.Forall_forall. intros k' Hin.
  assert (In (k_index k') (seq (S i) n)) as H%in_seq by (rewrite <- Hks; by apply in_map). lia.
Qed.

Lemma sort_spec events key dir : Forall (readable key) events ->
  exists out, sortActivityEvents events key dir = Returns out /\
    out ≡ₚ events /\ StronglySorted (in_order key dir) out /\
    forall v, having key v out = having key v events.
Proof.
  intros Hr.
  assert (Hall : exists ks, sortActivityEvents events key dir = Returns (map k_event (merge_sort (before dir) ks)) /\
    map k_event ks = events /\ map k_index ks = seq 0 (length events) /\
    Forall (fun k => k_value k = value_of key (k_event k)) ks).
  { destruct (keyed_returns key events Hr 0) as (ks & Hk & Hm & Hi & Hv). exists ks. split; [|done].
    destruct events as [|e [|e' es]]; unfold sortActivityEvents.
    - destruct ks; [done|done].
    - destruct ks as [|k [|k' ks]]; [done| |done]. simpl in Hm. injection Hm as <-. done.
    - by rewrite Hk. }
  destruct Hall as (ks & -> & Hm & Hi & Hv). eexists. split; [done|].
  assert (Hp := merge_sort_Permutation (before dir) ks).
  assert (Hv' : Forall (fun k => k_value k = value_of key (k_event k)) (merge_sort (before dir) ks)) by (by rewrite Hp).
  split_and!.
  - rewrite Hp. by rewrite Hm.
  - assert (Hs := StronglySorted_merge_sort (before dir) ks). revert Hs Hv'.
    generalize (merge_sort (before dir) ks). intros l. induction 1 as [|k l Hl IH Hk]; intros Hv'; [constructor|].
    inversion Hv' as [|? ? Hkv Hlv]; subst. simpl. constructor; [by apply IH|].
    apply List.Forall_map. rewrite list.Forall_forall in Hk, Hlv |- *. intros k' Hin. specialize (Hk _ Hin).
    specialize (Hlv _ Hin). unfold before in Hk. unfold in_order. simpl. rewrite <- Hkv, <- Hlv. destruct dir; simpl; lia.
  - intros v. rewrite filter_keyed by done. rewrite same_key_in_place.
    + rewrite <- (filter_keyed key) by done. by rewrite Hm.
    + rewrite Hi. apply seq_NoDup.
    + apply (indices_sorted ks 0 (length events)), Hi.
Qed.

(** Filtering commutes with sorting. *)
Lemma filter_sorted events out key dir f :
  Forall (readable key) events -> sortActivityEvents events key dir = Returns out ->
  sortActivityEvents (filterActivityEvents events f) key dir = Returns (filterActivityEvents out f).
Proof.
  intros Hr Ho. destruct (sort_spec events key dir Hr) as (out' & Ho' & Hp & Hs & Hv).
  assert (out' = out) by congruence. subst out'. unfold filterActivityEvents.
  assert (Hr' : Forall (readable key) (List.filter (keeps f) events)).
  { apply list.Forall_forall. intros e He%list_elem_of_In. apply filter_In in He as [He _].
    rewrite list.Forall_forall in Hr. apply Hr. by apply list_elem_of_In. }
  destruct (sort_spec _ key dir Hr') as (out1 & -> & Hp1 & Hs1 & Hv1). f_equal.
  apply (stable_unique key dir); [done| | |].
  - by apply (sorted_filter (in_order key dir)).
  - rewrite Hp1. by apply filter_perm.
  - intros v. rewrite Hv1. unfold having in *.
    assert (Hc : forall l, List.filter (fun e => value_of key e =? v) (List.filter (keeps f) l) =
                 List.filter (keeps f) (List.filter (fun e => value_of key e =? v) l)).
    { induction l as [|e l IH]; [done|]. simpl.
      destruct (keeps f e) eqn:Hk, (value_of key e =? v) eqn:He; simpl; rewrite ?Hk, ?He, IH; done. }
    by rewrite !Hc, Hv.
Qed.

(** When every key can be read, sorting the activity table rearranges its
    rows in the order and direction asked for, keeps the rows of equal keys in
    the order they came in (in both directions), and commutes with every
    filter; a row whose amount is no number makes the sort of two rows or more
    throw. *)
Theorem activity_sort_stable events key dir :
  (Forall (readable key) events ->
    exists out, sortActivityEvents events key dir = Returns out /\
      out ≡ₚ events /\ StronglySorted (in_order key dir) out /\
      (forall v, having key v out = having key v events) /\
      (forall f, sortActivityEvents (filterActivityEvents events f) key dir = Returns (filterActivityEvents out f))) /\
  (~ Forall (readable key) events -> (2 <= length events)%nat ->
    sortActivityEvents events key dir = Throws SyntaxErr).
Proof.
  split.
  - intros Hr. destruct (sort_spec events key dir Hr) as (out & Ho & Hp & Hs & Hv).
    exists out. split_and!; try done. intros f. by apply filter_sorted.
  - intros Hn Hl. destruct events as [|e [|e' es]]; simpl in Hl; [lia|lia|].
    unfold sortActivityEvents. by rewrite keyed_throws.
Qed.

(** ** The exported table *)

Lemma export_line e cells : export_cells e = Returns cells ->
  parseCSVLine (StreamId.join "," (map (fun key => escapeCsvCell (export_row cells key)) EXPORT_KEYS)) = cells.
Proof.
  unfold export_cells. destruct (export_amount e) as [amount|]; simpl; [|done].
  destruct (event_time (ev_timestamp e)) as [time|]; simpl; [|done]. intros [=<-].
  apply (parse_cells (map (fun key => escapeCsvCell (export_row _ key)) EXPORT_KEYS)); [|done].
  repeat apply List.Forall2_cons; try apply (escapeCsvCell_cell (Some _)). constructor.
Qed.

(** The exported table: a header and a line per event, in order, each of which
    reads back as the identifier, the type, the amount in tokens, the time and
    the transaction of its event. *)
Theorem activity_export_reads_back events rows :
  events <> [] -> omap_all export_cells events = Returns rows ->
  exists lines,
    exportToCSV events =
      Returns (StreamId.join (String LF EmptyString) (StreamId.join "," EXPORT_KEYS :: lines)) /\
    Forall2 (fun e line => export_cells e = Returns (parseCSVLine line)) events lines.
Proof.
  intros Hne Hr. unfold exportToCSV. rewrite Hr. cbn [obind]. assert (Hf := omap_all_Forall2 _ _ _ Hr).
  exists (map (fun cells => StreamId.join "," (map (fun key => escapeCsvCell (export_row cells key)) EXPORT_KEYS)) rows).
  split.
  - destruct rows as [|cells rows]; [by inversion Hf; subst|]. unfold convertArrayToCSV. cbn [map].
    by rewrite map_map.
  - clear Hr Hne. induction Hf as [|e cells events rows He Hf IH]; [constructor|].
    rewrite map_cons. constructor; [|done]. rewrite (export_line e cells He). exact He.
Qed.

(** ** The page against the server *)

(** The activity page sends no token and the endpoint it reads is guarded:
    whatever the user clicks and in whatever order the answers arrive, the page
    never holds an event, and there is nothing for it to export. *)
Theorem activity_never_loads {Sdk : AuthSdk} (env : AuthEnv) now handler clicks :
  let p := browse (guarded env now handler) clicks in
  pg_events p = [] /\ exportToCSV (pg_events p) = Returns EmptyString.
Proof.
  simpl. assert (H : pg_events (browse (guarded env now handler) clicks) = []); [|by rewrite H].
  unfold browse. assert (H0 : pg_events opened_page = []) by done. revert H0. generalize opened_page.
  induction clicks as [|c clicks IH]; intros p Hp; [done|]. simpl. apply IH.
  destruct c as [tab| |k]; simpl.
  - unfold select_tab. by case_match.
  - unfold loadMore. by case_match.
  - destruct (inflight p !! k) as [r|] eqn:Hr; [|done]. unfold settle. rewrite Hr.
    change (guarded env now handler r) with Failed. cbv zeta.
    destruct (rq_aborted r); simpl; [done|]. by destruct (rq_append r).
Qed.

(** ** Scrolling to the end *)

Definition scroll (n : nat) : list Click := Answered 0 :: concat (repeat [More; Answered 0] n).

(** The page after [n] further pages: everything so far, nothing in flight. *)
Definition scrolled (rows : list StreamEvent) (n : nat) (p : Page) : Prop :=
  pg_events p = take (10 * (n + 1)) rows /\ activeTab p = "ALL"%string /\ loading p = false /\
  pg_hasMore p = (10 * (n + 1) <? length rows)%nat /\ inflight p = [] /\
  (pg_hasMore p = true -> page p = Z.of_nat n + 1).

Lemma page_more (rows : list StreamEvent) n :
  (10 * Z.of_nat n + Z.of_nat (length (take 10 (drop (10 * n) rows))) <? Z.of_nat (length rows)) =
  (10 * (n + 1) <? length rows)%nat.
Proof.
  rewrite length_take, length_drop.
  destruct (Nat.ltb_spec (10 * (n + 1)) (length rows)); [apply Z.ltb_lt|apply Z.ltb_ge]; lia.
Qed.

Lemma scrolled_first serve_rows :
  scrolled (serve_rows None) 0 (page_step (pages_of serve_rows) opened_page (Answered 0)).
Proof.
  unfold scrolled, page_step, settle, opened_page, pages_of. simpl. split_and!; try done.
  apply (page_more (serve_rows None) 0).
Qed.

Lemma scrolled_next serve_rows n p :
  let rows := serve_rows None in
  scrolled rows n p ->
  scrolled rows (S n) (fold_left (page_step (pages_of serve_rows)) [More; Answered 0] p).
Proof.
  intros rows (He & Ht & Hl & Hm & Hi & Hpg). cbn [fold_left page_step]. unfold loadMore. rewrite Hl, Hm.
  destruct (Nat.ltb_spec (10 * (n + 1)) (length rows)) as [Hlt|Hge].
  2: { simpl. rewrite Hi. simpl. unfold scrolled. split_and!; try done.
       - rewrite He, !take_ge by lia. done.
       - rewrite Hm. symmetry. apply Nat.ltb_ge. lia.
       - by rewrite Hm. }
  assert (Hpg' : page p = Z.of_nat n + 1) by by apply Hpg.
  cbn [andb negb]. unfold fetchActivity, settle. simpl. rewrite Hi, Ht. simpl. unfold pages_of. simpl.
  fold rows. rewrite Hpg'.
  replace (PAGE_SIZE * (Z.of_nat n + 1 + 1 - 1)) with (10 * Z.of_nat (n + 1)) by (unfold PAGE_SIZE; lia).
  replace (Z.to_nat (10 * Z.of_nat (n + 1))) with (10 * (n + 1))%nat by lia.
  change (Z.to_nat PAGE_SIZE) with 10%nat. rewrite page_more.
  replace (10 * (n + 1 + 1))%nat with (10 * (S n + 1))%nat by lia.
  unfold scrolled. simpl pg_events. simpl activeTab. simpl loading. simpl inflight. simpl page. simpl pg_hasMore.
  split_and!; try done; try lia. rewrite He, take_take_drop. f_equal. lia.
Qed.

(** Scrolling an undisturbed page: after the first page and n further ones
    it holds the first 10(n+1) events once each, in the server's order, the
    button is offered exactly while there are more, and nothing is left in
    flight. *)
Theorem activity_scrolls serve_rows n :
  let p := browse (pages_of serve_rows) (scroll n) in
  pg_events p = take (10 * (n + 1)) (serve_rows None) /\ inflight p = [] /\ loading p = false /\
  pg_hasMore p = (10 * (n + 1) <? length (serve_rows None))%nat.
Proof.
  assert (H : scrolled (serve_rows None) n (browse (pages_of serve_rows) (scroll n))).
  { unfold browse, scroll. cbn [fold_left]. induction n as [|n IH]; [apply scrolled_first|].
    change (repeat [More; Answered 0] (S n)) with ([More; Answered 0] :: repeat [More; Answered 0] n).
    rewrite repeat_cons, concat_app, fold_left_app. apply (scrolled_next serve_rows n _ IH). }
  destruct H as (H1 & _ & H2 & H3 & H4 & _). auto.
Qed.

(** ** The pages of the server *)

Lemma digit_prefix_digits s : all_digits s = true -> digit_prefix s = s.
Proof. induction s as [|c s IH]; simpl; [done|]. intros [-> Hs]%andb_prop. by rewrite IH. Qed.

Lemma parseInt10_digits s : digits_only s = true -> parseInt10 s = digits_num s.
Proof.
  intros H. assert (Ha : all_digits s = true) by (by destruct s).
  unfold parseInt10. destruct s as [|c s]; [done|]. simpl in Ha. apply andb_prop in Ha as [Hc _].
  simpl trim_start. rewrite is_digit_not_ws by done.
  destruct c as [[] [] [] [] [] [] [] []]; try discriminate Hc; done.
Qed.

Lemma parseInt10_toString p : 0 <= p <= MAX_SAFE_INTEGER -> parseInt10 (BigInt_toString p) = Fin p.
Proof.
  intros Hp. unfold BigInt_toString. rewrite (proj2 (Z.ltb_ge p 0)) by lia.
  assert (Hd := nat_digits_only p ltac:(lia)). rewrite parseInt10_digits by done.
  assert (Ha : all_digits (nat_digits p) = true) by (destruct (nat_digits p); done).
  unfold digits_num. rewrite digit_prefix_digits by done.
  assert (Hparse := parse_nat_digits p ltac:(lia)).
  destruct (nat_digits p) as [|c s] eqn:E; [done|]. unfold nonempty_parse. rewrite Hparse.
  apply Number_safe. lia.
Qed.

(** What GET /v1/events answers to the request of a tab and a page. *)
Definition events_query (r : Request) : WalletQuery := {|
  wq_type := type_query (rq_tab r); wq_limit := Some (BigInt_toString PAGE_SIZE); wq_offset := None;
  wq_page := Some (BigInt_toString (rq_page r)) |}.

(** Once the guard lets its wallet through, the endpoint serves the page
    requests exactly the pages of one list: the wallet's events of the types of
    the tab. *)
Theorem endpoint_serves_pages {P : PrismaEngine} {Hidden : HiddenColumns} (scan : list StreamEvent) user r (w : World P) :
  STELLAR_PUBLIC_KEY_REGEX user = true -> rq_tab r ∈ TABS ->
  1 <= rq_page r -> 10 * rq_page r <= MAX_SAFE_INTEGER ->
  exists pg, getEvents scan user (Some user) (events_query r) w = (Returns (WalletPage pg), w) /\
    Body (Some (we_events pg)) (Some (we_hasMore pg)) =
    pages_of (fun t => wallet_rows (db w) scan user (parseEventTypeFilter t).2) r.
Proof.
  intros Hk Ht H1 H2. destruct (key_trim _ Hk) as [Htrim Hne].
  unfold getEvents. rewrite Htrim. destruct user as [|c user]; [done|].
  rewrite bool_decide_eq_true_2 by done. simpl negb. cbv iota. unfold wallet_page.
  assert (Hty : let '(requested, types) := parseEventTypeFilter (wq_type (events_query r)) in
    negb (bool_decide (requested = [])) && bool_decide (types = []) = false).
  { unfold events_query, wq_type.
    repeat (apply elem_of_cons in Ht as [->|Ht]; [vm_compute; reflexivity|]). by apply not_elem_of_nil in Ht. }
  change (wq_type (events_query r)) with (type_query (rq_tab r)) in *.
  destruct (parseEventTypeFilter (type_query (rq_tab r))) as [requested types] eqn:Hf. rewrite Hty.
  change (resolveEventsPageSize (default "" (wq_limit (events_query r)))%string) with 10.
  assert (Ho : resolveEventsOffset (wq_offset (events_query r)) (default "" (wq_page (events_query r)))%string 10 =
               Fin (10 * (rq_page r - 1))).
  { unfold resolveEventsOffset, offset_from_page. simpl. rewrite parseInt10_toString by lia.
    rewrite (proj2 (Z.ltb_lt 0 _)) by lia. unfold page_start. rewrite (Number_safe (rq_page r - 1)) by lia.
    rewrite Number_safe by lia. simpl. f_equal. lia. }
  rewrite Ho. unfold listEventsForWallet, bind, lift, gets. cbn [prisma_int].
  eexists. split; [reflexivity|]. unfold pages_of. cbv zeta. rewrite Hf. reflexivity.
Qed.

(** ** Examples *)

Definition sample_row (id : Z) (amount : option string) (hash : string) (t : Z) : StreamEvent := {|
  ev_streamId := id; ev_eventType := "WITHDRAWN"; ev_amount := amount; ev_transactionHash := hash;
  ev_ledgerSequence := 5; ev_timestamp := t; ev_metadata := None |}.

Definition sample_rows : list StreamEvent :=
  [sample_row 3 (Some "500"%string) "aa" 100; sample_row 1 None "bb" 100; sample_row 2 (Some "500"%string) "cc" 90].

Example sorted_by_amount :
  match sortActivityEvents sample_rows by_amount desc with
  | Returns out => map ev_streamId out | Throws _ => [] end = [3; 2; 1].
Proof. vm_refl. Qed.
Example found_by_hash_or_id :
  map ev_streamId (filterActivityEvents sample_rows
    {| types := Some ["WITHDRAWN"%string]; search := Some " BB "%string; fromTimestamp := Some 100; toTimestamp := None |}) = [1].
Proof. vm_refl. Qed.

Definition many : list StreamEvent := map (fun i => sample_row (Z.of_nat i) None "t" 0) (seq 0 25).
Definition many_of (t : option string) : list StreamEvent := if is_some t then take 1 many else many.

Example scrolled_to_the_end :
  map ev_streamId (pg_events (browse (pages_of many_of) (scroll 2))) = map Z.of_nat (seq 0 25).
Proof. vm_refl. Qed.

(** A click on the tab that is already active starts the page count again but
    keeps the list: the next page is the second one once more. *)
Example tab_clicked_again_repeats :
  map ev_streamId (pg_events (browse (pages_of many_of)
    [Answered 0; More; Answered 0; Tab "ALL"; More; Answered 0])) =
  map Z.of_nat (seq 0 20 ++ seq 10 10).
Proof. vm_refl. Qed.

(** A tab left while a further page is on its way: the page of the old tab is
    appended to the list of the new one. *)
Example late_page_in_wrong_tab :
  map ev_streamId (pg_events (browse (pages_of many_of)
    [Answered 0; More; Tab "CREATED"; Answered 1; Answered 0])) =
  map Z.of_nat (0 :: seq 10 10)%nat.
Proof. vm_refl. Qed.

Lemma activity_export_reads_back_witness :
  exists lines, exportToCSV sample_rows =
      Returns (StreamId.join (String LF EmptyString) (StreamId.join "," EXPORT_KEYS :: lines)) /\
    Forall2 (fun e line => export_cells e = Returns (parseCSVLine line)) sample_rows lines.
Proof.
  apply (activity_export_reads_back sample_rows
    match omap_all export_cells sample_rows with Returns r => r | Throws _ => [] end); [discriminate|].
  vm_compute. reflexivity.
Defined.
