(* ===== verification/Subscriptions.v ===== *)
(** * Recurring subscriptions: frontend/src/utils/subscriptions.ts

    Amounts are bigints; percentages and months are doubles.  A [Map] keeps its
    keys in the order they were first set.  [localeCompare] is the browser's. *)
From S2P Require Import Prelude JsLang Double Floats StableSort.
From stdpp Require Import sorting.
Local Open Scope Z_scope.

Record Subscription := {
  sub_id : string;
  sub_merchant : string;
  monthlyAmount : Z;
  sub_tokenSymbol : string;
  allowanceRemaining : Z;
  allowanceTotal : Z;
  sub_active : bool
}.

Definition totalMonthlyBurn (subscriptions : list Subscription) : Z :=
  fold_left (fun sum s => if sub_active s then sum + monthlyAmount s else sum) subscriptions 0.

Definition allowanceRemainingPercent (s : Subscription) : double :=
  if allowanceTotal s <=? 0 then dint 0
  else
    let raw := ddiv_pos (Number_double (Z.quot (allowanceRemaining s * 10000) (allowanceTotal s))) 100 in
    Math_max (dint 0) (Math_min (dint 100) raw).

Definition monthsOfRunway (s : Subscription) : double :=
  if monthlyAmount s <=? 0 then DInf false
  else Number_double (Z.quot (allowanceRemaining s) (monthlyAmount s)).

Definition isRunningLow (s : Subscription) : bool :=
  sub_active s && (allowanceRemaining s <? monthlyAmount s).

Record MerchantMrr := { mm_merchant : string; activeSubscribers : Z; mrr : Z }.

(** The entry of a merchant with one more subscription, at its place in the map. *)
Fixpoint add_subscription (s : Subscription) (entries : list MerchantMrr) : list MerchantMrr :=
  match entries with
  | [] => [{| mm_merchant := sub_merchant s; activeSubscribers := 1; mrr := monthlyAmount s |}]
  | e :: entries =>
      if bool_decide (mm_merchant e = sub_merchant s) then
        {| mm_merchant := mm_merchant e; activeSubscribers := activeSubscribers e + 1;
           mrr := mrr e + monthlyAmount s |} :: entries
      else e :: add_subscription s entries
  end.

Definition by_merchant (subscriptions : list Subscription) : list MerchantMrr :=
  fold_left (fun entries s => if sub_active s then add_subscription s entries else entries) subscriptions [].

Definition merchantMrrBreakdown (localeCompare : string -> string -> Z) (subscriptions : list Subscription) :
    list MerchantMrr :=
  stable_sort (fun a b => localeCompare (mm_merchant a) (mm_merchant b) <=? 0) (by_merchant subscriptions).

(** ** The breakdown *)

Definition Zsum (xs : list Z) : Z := fold_right Z.add 0 xs.
Definition subscribers (m : string) (ss : list Subscription) : list Subscription :=
  List.filter (fun s => sub_active s && bool_decide (sub_merchant s = m)) ss.

(** The entries are those of the subscriptions read so far. *)
Definition tallies (ss : list Subscription) (entries : list MerchantMrr) : Prop :=
  NoDup (map mm_merchant entries) /\
  (forall e, e ∈ entries ->
     mrr e = Zsum (map monthlyAmount (subscribers (mm_merchant e) ss)) /\
     activeSubscribers e = Z.of_nat (length (subscribers (mm_merchant e) ss)) /\
     subscribers (mm_merchant e) ss <> []) /\
  (forall m, m ∉ map mm_merchant entries -> subscribers m ss = []) /\
  Zsum (map mrr entries) = totalMonthlyBurn ss.

Lemma Zsum_app xs ys : Zsum (xs ++ ys) = Zsum xs + Zsum ys.
Proof. unfold Zsum. induction xs; simpl; lia. Qed.

Lemma Zsum_perm xs ys : xs ≡ₚ ys -> Zsum xs = Zsum ys.
Proof. unfold Zsum. induction 1; simpl; lia. Qed.

Lemma burn_snoc ss s :
  totalMonthlyBurn (ss ++ [s]) = totalMonthlyBurn ss + (if sub_active s then monthlyAmount s else 0).
Proof. unfold totalMonthlyBurn. rewrite fold_left_app. simpl. case_match; lia. Qed.

Lemma subscribers_snoc m ss s :
  subscribers m (ss ++ [s]) =
  subscribers m ss ++ (if sub_active s && bool_decide (sub_merchant s = m) then [s] else []).
Proof. unfold subscribers. by rewrite List.filter_app. Qed.

Lemma add_merchants s entries :
  map mm_merchant (add_subscription s entries) =
  map mm_merchant entries ++
    (if bool_decide (sub_merchant s ∈ map mm_merchant entries) then [] else [sub_merchant s]).
Proof.
  induction entries as [|e entries IH]; [done|]. simpl.
  destruct (decide (mm_merchant e = sub_merchant s)) as [He|He].
  - rewrite (bool_decide_eq_true_2 (mm_merchant e = _)) by done.
    rewrite bool_decide_eq_true_2; [simpl; by rewrite app_nil_r|].
    rewrite He. by left.
  - rewrite (bool_decide_eq_false_2 (mm_merchant e = _)) by done. simpl. rewrite IH. f_equal. f_equal.
    erewrite bool_decide_ext; [reflexivity|]. rewrite elem_of_cons. naive_solver.
Qed.

Lemma add_elem s entries e : NoDup (map mm_merchant entries) ->
  e ∈ add_subscription s entries ->
  (mm_merchant e <> sub_merchant s /\ e ∈ entries) \/
  (mm_merchant e = sub_merchant s /\
   ((exists e0, e0 ∈ entries /\ mm_merchant e0 = sub_merchant s /\
       mrr e = mrr e0 + monthlyAmount s /\ activeSubscribers e = activeSubscribers e0 + 1) \/
    (sub_merchant s ∉ map mm_merchant entries /\ mrr e = monthlyAmount s /\ activeSubscribers e = 1))).
Proof.
  induction entries as [|e0 entries IH]; simpl; intros Hn.
  - intros ->%list_elem_of_singleton. right. split; [done|]. right. split; [apply not_elem_of_nil|done].
  - apply list.NoDup_cons in Hn as [Hnot Hn]. case_bool_decide as He.
    + intros [->|Hin]%elem_of_cons.
      * right. split; [done|]. left. exists e0. simpl. split_and!; try done. left.
      * left. split; [|by right]. intros Heq. apply Hnot. rewrite He, <- Heq. by apply (list_elem_of_fmap_2 mm_merchant).
    + intros [->|Hin]%elem_of_cons; [left; split; [done|left]|].
      destruct (IH Hn Hin) as [[H1 H2]|(H1 & [(e1 & H2 & H3)|(H2 & H3)])].
      * left. split; [done|by right].
      * right. split; [done|]. left. exists e1. split; [by right|done].
      * right. split; [done|]. right. split; [|done]. intros [?|?]%elem_of_cons; done.
Qed.

Lemma add_total s entries : Zsum (map mrr (add_subscription s entries)) = Zsum (map mrr entries) + monthlyAmount s.
Proof. unfold Zsum. induction entries as [|e entries IH]; simpl; [lia|]. case_bool_decide; simpl; lia. Qed.

Lemma tallies_add ss s entries : tallies ss entries ->
  tallies (ss ++ [s]) (if sub_active s then add_subscription s entries else entries).
Proof.
  intros (Hn & He & Hm & Ht). unfold tallies. rewrite burn_snoc. destruct (sub_active s) eqn:Ha.
  2: { split_and!; try done; [| |lia].
       - intros e Hin. rewrite subscribers_snoc, Ha, app_nil_r. by apply He.
       - intros m Hin. rewrite subscribers_snoc, Ha, app_nil_r. by apply Hm. }
  split_and!.
  - rewrite add_merchants. case_bool_decide as Hin; [by rewrite app_nil_r|].
    apply list.NoDup_app. split_and!; [done| |apply NoDup_singleton].
    intros m Hm1 ->%list_elem_of_singleton. done.
  - intros e [[Hne Hin]|(Heq & Hcase)]%add_elem; [| |done].
    + rewrite subscribers_snoc, Ha, bool_decide_eq_false_2, app_nil_r by congruence. by apply He.
    + rewrite subscribers_snoc, Ha, bool_decide_eq_true_2 by done. simpl. rewrite map_app, Zsum_app, length_app.
      simpl. split_and!; [| |by destruct (subscribers _ _)].
      * destruct Hcase as [(e0 & H0 & Hm0 & -> & _)|(Hnot & -> & _)].
        -- destruct (He e0 H0) as (-> & _). rewrite Heq, Hm0. lia.
        -- rewrite Heq, (Hm _ Hnot). simpl. lia.
      * destruct Hcase as [(e0 & H0 & Hm0 & _ & ->)|(Hnot & _ & ->)].
        -- destruct (He e0 H0) as (_ & -> & _). rewrite Heq, Hm0. lia.
        -- rewrite Heq, (Hm _ Hnot). simpl. lia.
  - intros m Hin. rewrite add_merchants in Hin. rewrite subscribers_snoc, Ha, (Hm m), bool_decide_eq_false_2; [done| |].
    + intros <-. apply Hin. rewrite elem_of_app. case_bool_decide; [by left|right; by left].
    + intros Hin'. apply Hin. rewrite elem_of_app. by left.
  - rewrite add_total. lia.
Qed.

Lemma by_merchant_tallies ss : tallies ss (by_merchant ss).
Proof.
  unfold by_merchant. induction ss as [|s ss IH] using rev_ind.
  { split_and!; try done; [constructor|]. intros e He%not_elem_of_nil. done. }
  rewrite fold_left_app. simpl. by apply tallies_add.
Qed.

(** The merchant view: one entry per merchant with an active subscription,
    with the number and the sum of exactly its active subscriptions; the
    entries sum up to the subscriber's monthly burn; and they come in the order
    of the browser's comparison, where it is one. *)
Theorem mrr_breakdown_exact localeCompare ss :
  let out := merchantMrrBreakdown localeCompare ss in
  NoDup (map mm_merchant out) /\
  (forall m, m ∈ map mm_merchant out <-> subscribers m ss <> []) /\
  (forall e, e ∈ out ->
     mrr e = Zsum (map monthlyAmount (subscribers (mm_merchant e) ss)) /\
     activeSubscribers e = Z.of_nat (length (subscribers (mm_merchant e) ss))) /\
  Zsum (map mrr out) = totalMonthlyBurn ss /\
  ((forall a b, localeCompare a b <= 0 \/ localeCompare b a <= 0) ->
   (forall a b c, localeCompare a b <= 0 -> localeCompare b c <= 0 -> localeCompare a c <= 0) ->
   StronglySorted (fun a b => (localeCompare (mm_merchant a) (mm_merchant b) <=? 0) = true) out).
Proof.
  intros out. destruct (by_merchant_tallies ss) as (Hn & He & Hm & Ht).
  assert (Hp : out ≡ₚ by_merchant ss) by apply stable_sort_perm.
  split_and!.
  - by rewrite Hp.
  - intros m. rewrite Hp. split.
    + intros (e & -> & Hin)%list_elem_of_fmap. by apply He.
    + intros Hne. destruct (decide (m ∈ map mm_merchant (by_merchant ss))) as [|Hnot]; [done|].
      destruct Hne. by apply Hm.
  - intros e Hin. rewrite Hp in Hin. split; by apply He.
  - rewrite <- Ht. apply Zsum_perm. by rewrite Hp.
  - intros Htot Htr. apply (stable_sort_sorted _ (fun _ => True)); intros; rewrite ?Z.leb_le in *; eauto.
    by apply list.Forall_true.
Qed.

(** ** The meters *)

Lemma Number_double_positive q : 1 <= q -> Number_double q <> dint 0.
Proof.
  intros Hq Heq. assert (H : dle (Number_double 1) (dint 0)) by (rewrite <- Heq; by apply Number_double_mono).
  rewrite Number_double_small in H by lia. unfold dle, dint in H. simpl in H. pose proof TICK_pos. lia.
Qed.

(** The meters of a subscription: the percentage stays between 0 and 100
    and never falls when the allowance grows; a subscription with a charge and
    an allowance is low exactly when it is active and has not one whole month
    left; without a charge the months are infinite. *)
Theorem subscription_meters s :
  dle (dint 0) (allowanceRemainingPercent s) /\ dle (allowanceRemainingPercent s) (dint 100) /\
  (forall s', allowanceTotal s' = allowanceTotal s -> allowanceRemaining s <= allowanceRemaining s' ->
     dle (allowanceRemainingPercent s) (allowanceRemainingPercent s')) /\
  (0 < monthlyAmount s -> 0 <= allowanceRemaining s ->
     isRunningLow s = true <-> sub_active s = true /\ monthsOfRunway s = dint 0) /\
  (monthlyAmount s <= 0 -> monthsOfRunway s = DInf false).
Proof.
  assert (Hraw : forall x, is_NaN (Number_double x) = false) by (intros; apply of_ticks_number).
  assert (H0 : dle (dint 0) (dint 100)) by (unfold dle, dint; pose proof TICK_pos; simpl; lia).
  unfold allowanceRemainingPercent. split_and!.
  - destruct (allowanceTotal s <=? 0); [by apply dle_refl|].
    apply Math_max_spec; [done|]. apply Math_min_number; [done|]. by apply ddiv_pos_number.
  - destruct (allowanceTotal s <=? 0); [done|].
    edestruct (Math_max_spec (dint 0)) as (_ & _ & [-> | ->]); [done|apply Math_min_number; [done|by apply ddiv_pos_number]|done|].
    apply Math_min_spec; [done|]. by apply ddiv_pos_number.
  - intros s' Ht Hr. rewrite Ht. destruct (Z.leb_spec (allowanceTotal s) 0) as [|Hpos]; [by apply dle_refl|].
    apply Math_max_mono; [done|]. apply Math_min_mono; [done|]. apply ddiv_pos_mono; [lia|].
    apply Number_double_mono. apply Z.quot_le_mono; lia.
  - intros Hm Hr. unfold isRunningLow, monthsOfRunway. rewrite (proj2 (Z.leb_gt _ _)) by lia.
    rewrite andb_true_iff, Z.ltb_lt. split; intros [Ha H]; split; try done.
    + by rewrite Z.quot_small by lia.
    + destruct (Z.lt_ge_cases (allowanceRemaining s) (monthlyAmount s)) as [|Hge]; [done|].
      destruct (Number_double_positive (Z.quot (allowanceRemaining s) (monthlyAmount s))); [|done].
      apply Z.quot_le_lower_bound; lia.
  - intros H. unfold monthsOfRunway. by rewrite (proj2 (Z.leb_le _ _)).
Qed.

(** ** Examples *)

Definition plan (m : string) (monthly remaining : Z) (on : bool) : Subscription := {|
  sub_id := "s"; sub_merchant := m; monthlyAmount := monthly; sub_tokenSymbol := "USDC";
  allowanceRemaining := remaining; allowanceTotal := 100; sub_active := on |}.

Example breakdown_of_three :
  merchantMrrBreakdown (fun a b => Z.of_nat (String.length a) - Z.of_nat (String.length b))
    [plan "video" 10 30 true; plan "news" 5 3 true; plan "video" 7 9 true; plan "gym" 50 0 false] =
  [{| mm_merchant := "news"; activeSubscribers := 1; mrr := 5 |};
   {| mm_merchant := "video"; activeSubscribers := 2; mrr := 17 |}].
Proof. vm_refl. Qed.
Example a_third_left : allowanceRemainingPercent (plan "news" 5 33 true) = dint 33.
Proof. vm_refl. Qed.
