(* ===== verification/ApiClient.v ===== *)
(** * The frontend's calls to the stream API

    frontend/src/lib/api/_shared.ts and frontend/src/lib/api/streams.ts, with
    the helpers of frontend/src/lib/dashboard.ts and frontend/src/lib/wallet.ts
    that shape what is shown.

    The network is an argument: what a request to a URL comes to, and after how
    many milliseconds.  A [BackendStream] is a row of the database as the server
    sends it, with the key, the creation time and — where the response includes
    them — the events of the row. *)
From S2P Require Import Prelude JsLang StreamId Json Schema DeadLetter Amount Double Floats WalletCalls Texts.
Local Open Scope Z_scope.
Local Open Scope string_scope.

(** ** Text *)

(** [s.replace(/\/+$/, "")] *)
Fixpoint strip_slashes (s : string) : string :=
  match s with
  | EmptyString => EmptyString
  | String c s' =>
      match strip_slashes s' with
      | EmptyString => if (code c =? 47)%Z then EmptyString else String c EmptyString
      | t => String c t
      end
  end.

(** [s.slice(-n)] for a positive [n] *)
Definition last_chars (n : nat) (s : string) : string := String.substring (String.length s - n) n s.

Definition endsWith (suffix s : string) : bool := bool_decide (last_chars (String.length suffix) s = suffix) &&
  (String.length suffix <=? String.length s)%nat.

(** [s] without its last [n] characters. *)
Definition drop_last (n : nat) (s : string) : string := slice (String.length s - n) s.

Definition shortenPublicKey (publicKey : string) : string :=
  if (String.length publicKey <=? 14)%nat then publicKey
  else slice 7 publicKey +:+ "..." +:+ last_chars 7 publicKey.

Definition shortenAddress (address : string) : string :=
  if (String.length address <? 10)%nat then address
  else slice 6 address +:+ "..." +:+ last_chars 4 address.

(** [Object.entries(TOKEN_ADDRESSES).find(...)] *)
Definition token_symbol (tokens : TokenAddresses) (tokenAddress : string) : option string :=
  if bool_decide (USDC tokens = tokenAddress) then Some "USDC"
  else if bool_decide (XLM tokens = tokenAddress) then Some "XLM"
  else if bool_decide (EURC tokens = tokenAddress) then Some "EURC"
  else None.

(** ** Endpoints and amounts *)

Definition DEFAULT_API_BASE_URL : string := "http://localhost:3001".

(** [env]: NEXT_PUBLIC_API_URL *)
Definition getApiBaseUrl (env : option string) : string := strip_slashes (default DEFAULT_API_BASE_URL env).

Definition getStreamsEndpointCandidates (env : option string) : list string :=
  let baseUrl := getApiBaseUrl env in
  if endsWith "/api/v1" baseUrl || endsWith "/v1" baseUrl then [baseUrl +:+ "/streams"]
  else if endsWith "/api" baseUrl then [baseUrl +:+ "/v1/streams"; drop_last 4 baseUrl +:+ "/v1/streams"]
  else [baseUrl +:+ "/api/v1/streams"; baseUrl +:+ "/v1/streams"].

Definition STROOPS_DIVISOR : Z := 10 ^ 7.

Definition toTokenAmount (raw : string) : double := ddiv_pos (parseFloat raw) STROOPS_DIVISOR.

(** ** Requests *)

Record BackendStream := {
  bs_id : string;
  bs_row : Stream;
  bs_createdAt : string;
  bs_events : option (list StreamEvent)
}.

(** A body: a list, or an object with or without one under [data]. *)
Inductive StreamsPayload := PayloadList (xs : list BackendStream) | PayloadObject (data : option (list BackendStream)).

Definition payload_rows (p : StreamsPayload) : list BackendStream :=
  match p with PayloadList xs => xs | PayloadObject data => default [] data end.

Inductive FetchResult :=
| Rejected (error : JsError)
| Aborted
| Responded (status : Z) (payload : outcome StreamsPayload).

Record Fetched := { fe_took : Z; fe_result : FetchResult }.

Definition ok_status (status : Z) : bool := (200 <=? status)%Z && (status <=? 299)%Z.

Definition DEFAULT_FETCH_TIMEOUT_MS : Z := 10000.

Definition FetchTimeoutError (timeoutMs : Z) : JsError :=
  ErrorMsg ("Request timed out after " +:+ BigInt_toString timeoutMs +:+ "ms").

(** The response, or the error the wrapper throws; nobody else holds the
    controller, so an abort is a timeout. *)
Definition fetchWithTimeout (f : Fetched) (timeoutMs : Z) : outcome (Z * outcome StreamsPayload) :=
  if (timeoutMs <=? fe_took f)%Z then Throws (FetchTimeoutError timeoutMs)
  else match fe_result f with
       | Aborted => Throws (FetchTimeoutError timeoutMs)
       | Rejected e => Throws e
       | Responded status payload => Returns (status, payload)
       end.

(** A query: its pairs in order. *)
Definition Network := string -> list (string * string) -> Fetched.

(** ** Incoming streams *)

Inductive IncomingStreamStatus := in_active | in_paused | in_completed.

Record IncomingStreamRecord := {
  ir_id : string;
  ir_streamId : Z;
  ir_sender : string;
  senderDisplay : string;
  ir_token : string;
  ir_tokenAddress : string;
  ir_ratePerSecond : double;
  ir_deposited : double;
  ir_withdrawn : double;
  ir_startTime : Z;
  ir_lastUpdateTime : double; (* a number: the optimistic update sets a fraction *)
  ir_isActive : bool;
  ir_isPaused : bool;
  ir_pausedAt : option Z;
  ir_totalPausedDuration : Z;
  ir_status : IncomingStreamStatus
}.

Definition toIncomingStreamStatus (r : Stream) : IncomingStreamStatus :=
  if isPaused r then in_paused else if isActive r then in_active else in_completed.

Definition incoming_label (tokens : TokenAddresses) (tokenAddress : string) : string :=
  default (slice 6 tokenAddress +:+ "..." +:+ last_chars 4 tokenAddress) (token_symbol tokens tokenAddress).

Definition mapBackendStream (tokens : TokenAddresses) (s : BackendStream) : IncomingStreamRecord :=
  let r := bs_row s in {|
    ir_id := bs_id s; ir_streamId := streamId r; ir_sender := sender r;
    senderDisplay := shortenPublicKey (sender r);
    ir_token := incoming_label tokens (tokenAddress r); ir_tokenAddress := tokenAddress r;
    ir_ratePerSecond := toTokenAmount (ratePerSecond r);
    ir_deposited := toTokenAmount (depositedAmount r);
    ir_withdrawn := toTokenAmount (withdrawnAmount r);
    ir_startTime := startTime r; ir_lastUpdateTime := dint (lastUpdateTime r);
    ir_isActive := isActive r; ir_isPaused := isPaused r; ir_pausedAt := pausedAt r;
    ir_totalPausedDuration := totalPausedDuration r;
    ir_status := toIncomingStreamStatus r |}.

Definition incoming_query (recipientPublicKey : string) : list (string * string) :=
  [("recipient", recipientPublicKey); ("sort", "lastUpdateTime"); ("order", "desc"); ("limit", "100")].

Section requests.
Context (env : option string) (tokens : TokenAddresses) (net : Network).

(** The loop of [fetchIncomingStreams]: a request that is not answered ends it. *)
Fixpoint try_incoming (endpoints : list string) (params : list (string * string)) (timeoutMs : Z)
    (lastError : option JsError) : outcome (list BackendStream) :=
  match endpoints with
  | [] => Throws (default (ErrorMsg "Failed to fetch incoming streams from backend.") lastError)
  | endpoint :: rest =>
      let? response := fetchWithTimeout (net endpoint params) timeoutMs in
      let '(status, payload) := response in
      if ok_status status then let? p := payload in Returns (payload_rows p)
      else if (status =? 404)%Z then
        try_incoming rest params timeoutMs (Some (ErrorMsg ("Endpoint not found: " +:+ endpoint)))
      else
        try_incoming rest params timeoutMs
          (Some (ErrorMsg ("Failed to fetch incoming streams (" +:+ BigInt_toString status +:+ ") from " +:+ endpoint)))
  end.

Definition fetchIncomingStreams (recipientPublicKey : string) (timeoutMs : Z) : outcome (list IncomingStreamRecord) :=
  let? rows := try_incoming (getStreamsEndpointCandidates env) (incoming_query recipientPublicKey) timeoutMs None in
  Returns (map (mapBackendStream tokens) rows).

(** The loop of the dashboard's [fetchStreams]: only an abort ends it early. *)
Fixpoint try_streams (endpoints : list string) (params : list (string * string)) (lastError : option JsError) :
    outcome (list BackendStream) :=
  match endpoints with
  | [] => Throws (default (ErrorMsg "Failed to fetch streams from backend.") lastError)
  | endpoint :: rest =>
      match fe_result (net endpoint params) with
      | Aborted => Throws (ErrorMsg "AbortError")
      | Rejected e => try_streams rest params (Some e)
      | Responded status payload =>
          if ok_status status then
            match payload with
            | Returns p => Returns (payload_rows p)
            | Throws e => try_streams rest params (Some e)
            end
          else if (status =? 404)%Z then
            try_streams rest params (Some (ErrorMsg ("Endpoint not found: " +:+ endpoint)))
          else
            try_streams rest params
              (Some (ErrorMsg ("Failed to fetch streams (" +:+ BigInt_toString status +:+ ") from " +:+ endpoint)))
      end
  end.

Definition fetchStreams (publicKey role : string) : outcome (list BackendStream) :=
  try_streams (getStreamsEndpointCandidates env) [(role, publicKey)] None.
End requests.

(** ** Examples *)

Example endpoints_by_default :
  getStreamsEndpointCandidates None =
  ["http://localhost:3001/api/v1/streams"; "http://localhost:3001/v1/streams"].
Proof. vm_refl. Qed.
Example endpoints_of_api :
  getStreamsEndpointCandidates (Some "https://x.io/api//") =
  ["https://x.io/api/v1/streams"; "https://x.io/v1/streams"].
Proof. vm_refl. Qed.
Example endpoints_of_v1 : getStreamsEndpointCandidates (Some "https://x.io/v1") = ["https://x.io/v1/streams"].
Proof. vm_refl. Qed.
Example two_and_a_half : toTokenAmount "25000000" = ddiv_pos (dint 5) 2.
Proof. vm_refl. Qed.
