(* ===== verification/Dashboard.v ===== *)
(** * The dashboard: frontend/src/lib/dashboard.ts

    The snapshot of a wallet's streams, the figures computed from it, and the
    server they come from: [server_net] answers a request with what
    [StreamQueries.listStreams] answers.  The two lists are fetched at once; the
    first request that fails decides, here the one for outgoing streams. *)
From S2P Require Import Prelude JsLang StableSort StreamId Json Schema Xdr Worker DeadLetter MemoryCache Contract Claimable Http Soroban StreamApi StreamQueries Amount Double Floats Dates WalletCalls Statement ApiClient.
Local Open Scope Z_scope.
Local Open Scope string_scope.

Inductive ActivityDirection := sent | received.

Record ActivityItem := {
  ai_id : string;
  ai_title : string;
  ai_description : string;
  ai_amount : double;
  ai_direction : ActivityDirection;
  ai_timestamp : string
}.

Inductive StreamStatus := st_active | st_completed | st_paused | st_cancelled.

Record DashboardStream := {
  ds_id : string;
  ds_recipient : string;
  ds_amount : double;
  ds_token : string;
  ds_status : StreamStatus;
  ds_deposited : double;
  ds_withdrawn : double;
  ds_date : string;
  ds_ratePerSecond : double;
  ds_lastUpdateTime : Z;
  ds_isActive : bool
}.

Record DashboardSnapshot := {
  totalSent : double;
  totalReceived : double;
  totalValueLocked : double;
  activeStreamsCount : Z;
  recentActivity : list ActivityItem;
  outgoingStreams : list DashboardStream;
  incomingStreams : list DashboardStream
}.

Definition formatStreamDateUtc (unixTimestampSeconds : Z) : outcome string :=
  let? text := event_time unixTimestampSeconds in Returns (before_T text).

Definition resolveTokenLabel (tokens : TokenAddresses) (tokenAddress : string) : string :=
  default (shortenAddress tokenAddress) (token_symbol tokens tokenAddress).

Definition mapStreamStatus (s : BackendStream) : StreamStatus :=
  if isPaused (bs_row s) then st_paused
  else if isActive (bs_row s) then st_active
  else if existsb (fun e => bool_decide (ev_eventType e = "CANCELLED")) (default [] (bs_events s)) then st_cancelled
  else st_completed.

Definition mapBackendStreamToFrontend (tokens : TokenAddresses) (s : BackendStream) (counterparty : string) :
    outcome DashboardStream :=
  let r := bs_row s in
  let deposited := toTokenAmount (depositedAmount r) in
  let? date := formatStreamDateUtc (startTime r) in
  Returns {|
    ds_id := BigInt_toString (streamId r); ds_recipient := shortenAddress counterparty;
    ds_amount := deposited; ds_token := resolveTokenLabel tokens (tokenAddress r);
    ds_status := mapStreamStatus s; ds_deposited := deposited;
    ds_withdrawn := toTokenAmount (withdrawnAmount r); ds_date := date;
    ds_ratePerSecond := toTokenAmount (ratePerSecond r);
    ds_lastUpdateTime := lastUpdateTime r; ds_isActive := isActive r |}.

Definition amounts (column : Stream -> string) (xs : list BackendStream) : list double :=
  map (fun s => toTokenAmount (column (bs_row s))) xs.

Definition value_locked (xs : list BackendStream) : double :=
  fold_left (fun tvl s =>
    let r := bs_row s in
    if isActive r then
      dadd tvl (dsub (toTokenAmount (depositedAmount r)) (toTokenAmount (withdrawnAmount r)))
    else tvl) xs (dint 0).

Definition activity_of (direction : ActivityDirection) (s : BackendStream) : ActivityItem :=
  let r := bs_row s in
  {| ai_id := (match direction with sent => "act-out-" | received => "act-in-" end) +:+ bs_id s;
     ai_title := match direction with sent => "Outgoing Stream" | received => "Incoming Stream" end;
     ai_description :=
       match direction with
       | sent => "Stream to " +:+ shortenAddress (recipient r)
       | received => "Stream from " +:+ shortenAddress (sender r)
       end;
     ai_amount := toTokenAmount (depositedAmount r);
     ai_direction := direction;
     ai_timestamp := bs_createdAt s |}.

(** [new Date(b).getTime() - new Date(a).getTime() <= 0]; a difference that is
    no number counts as zero. *)
Definition newest_first (engine : string -> num) (a b : ActivityItem) : bool :=
  match Date_parse engine (ai_timestamp b), Date_parse engine (ai_timestamp a) with
  | Fin tb, Fin ta => (tb <=? ta)%Z
  | _, _ => true
  end.

Section dashboard.
Context (env : option string) (tokens : TokenAddresses) (engine : string -> num).

Definition snapshot_of (outgoing incoming : list BackendStream) : outcome DashboardSnapshot :=
  let? outgoingStreams := omap_all (fun s => mapBackendStreamToFrontend tokens s (recipient (bs_row s))) outgoing in
  let? incomingStreams := omap_all (fun s => mapBackendStreamToFrontend tokens s (sender (bs_row s))) incoming in
  Returns {|
    totalSent := dsum (amounts withdrawnAmount outgoing);
    totalReceived := dsum (amounts withdrawnAmount incoming);
    totalValueLocked := value_locked outgoing;
    activeStreamsCount := Z.of_nat (length (List.filter (fun s => isActive (bs_row s)) outgoing));
    recentActivity :=
      take 10 (stable_sort (newest_first engine)
        (map (activity_of sent) outgoing ++ map (activity_of received) incoming)%list);
    outgoingStreams := outgoingStreams;
    incomingStreams := incomingStreams |}.

Definition fetchDashboardData (net : Network) (publicKey : string) : outcome DashboardSnapshot :=
  let? outgoing := fetchStreams env net publicKey "sender" in
  let? incoming := fetchStreams env net publicKey "recipient" in
  snapshot_of outgoing incoming.
End dashboard.

(** ** Figures *)

Definition THIRTY_DAYS_MS : Z := 30 * 24 * 60 * 60 * 1000.

Inductive MetricFormat := currency | percent.

Record DashboardAnalyticsMetric := {
  m_id : string;
  m_label : string;
  m_detail : string;
  m_format : MetricFormat;
  m_value : option double;
  unavailableText : string
}.

Definition metrics (volume net avg utilization : option double) : list DashboardAnalyticsMetric := [
  {| m_id := "total-volume-30d"; m_label := "Total Volume (30D)";
     m_detail := "Total throughput in the last 30 days"; m_format := currency; m_value := volume;
     unavailableText := "Insufficient historical data" |};
  {| m_id := "net-flow-30d"; m_label := "Net Flow (30D)";
     m_detail := "Net capital flow over the last 30 days"; m_format := currency; m_value := net;
     unavailableText := "Insufficient historical data" |};
  {| m_id := "avg-value-per-stream"; m_label := "Avg Value / Stream";
     m_detail := "Mean capital locked across active streams"; m_format := currency; m_value := avg;
     unavailableText := "No active streams" |};
  {| m_id := "stream-utilization"; m_label := "Stream Utilization";
     m_detail := "Share of total capital already withdrawn"; m_format := percent; m_value := utilization;
     unavailableText := "No withdrawal data" |}].

Definition within_30d (engine : string -> num) (now : Z) (item : ActivityItem) : bool :=
  match Date_parse engine (ai_timestamp item) with
  | Fin parsed => (now - THIRTY_DAYS_MS <=? parsed)%Z
  | _ => false
  end.

Definition is_direction (d : ActivityDirection) (item : ActivityItem) : bool :=
  match d, ai_direction item with sent, sent | received, received => true | _, _ => false end.

Definition volume_of (d : ActivityDirection) (items : list ActivityItem) : double :=
  dsum (map ai_amount (List.filter (is_direction d) items)).

Definition getDashboardAnalytics (engine : string -> num) (now : Z) (snapshot : option DashboardSnapshot) :
    list DashboardAnalyticsMetric :=
  match snapshot with
  | None => metrics None None None None
  | Some s =>
      let recent := List.filter (within_30d engine now) (recentActivity s) in
      let incoming30d := volume_of received recent in
      let outgoing30d := volume_of sent recent in
      let all := (outgoingStreams s ++ incomingStreams s)%list in
      let totalDeposited := dsum (map ds_deposited all) in
      let totalWithdrawn := dsum (map ds_withdrawn all) in
      metrics (Some (dadd incoming30d outgoing30d)) (Some (dsub incoming30d outgoing30d))
        (if (0 <? activeStreamsCount s)%Z
         then Some (ddiv (totalValueLocked s) (dint (activeStreamsCount s))) else None)
        (if dltb (dint 0) totalDeposited then Some (ddiv totalWithdrawn totalDeposited) else None)
  end.

(** ** The server *)

Section server.
Context {P : PrismaEngine} {Key : StrKey} {Sdk : SorobanSdk} {Hidden : HiddenColumns}.
Context (row_key : Z -> string).

(** A row of a listing: no events are included. *)
Definition listed (r : Stream) : BackendStream := {|
  bs_id := row_key (streamId r); bs_row := r;
  bs_createdAt := match Date_toISOString (Fin (stream_createdAt (streamId r))) with Returns t => t | Throws _ => "" end;
  bs_events := None |}.

Definition param (name : string) (params : list (string * string)) : option string :=
  snd <$> List.find (fun kv => bool_decide (kv.1 = name)) params.

Definition list_query (params : list (string * string)) : ListQuery := {|
  lq_sender := param "sender" params; lq_recipient := param "recipient" params;
  lq_status := param "status" params; lq_token := param "token" params;
  lq_sort := param "sort" params; lq_order := param "order" params;
  lq_limit := param "limit" params; lq_offset := param "offset" params |}.

(** GET /v1/streams of the default server; its other paths are unknown. *)
Definition server_net (s : Api (P:=P)) : Network := fun endpoint params =>
  {| fe_took := 0;
     fe_result :=
       if bool_decide (endpoint = DEFAULT_API_BASE_URL +:+ "/v1/streams") then
         match (listStreams (list_query params) s).1 with
         | Returns (Http.Answer st (StreamPage data _ _ _ _)) =>
             Responded st (Returns (PayloadObject (Some (map listed data))))
         | Returns r => Responded (status_of r) (Throws SyntaxErr)
         | Throws e => Rejected e
         end
       else Responded 404 (Throws SyntaxErr) |}.
End server.
