(* ===== verification/DashboardFacts.v ===== *)
(** * What the dashboard shows

    Against the server, the snapshot covers the newest twenty streams of each
    side, whatever the wallet has; its activity is the ten newest of those; a
    stream that was cancelled is shown as completed. *)
From S2P Require Import Prelude JsLang StableSort Texts StreamId Json Schema Xdr Worker DeadLetter MemoryCache Contract Claimable Http Soroban StreamApi StreamApiFacts StreamQueries StreamQueryFacts EventQueries Samples Amount Double Floats Dates WalletCalls Statement ApiClient Dashboard.
From stdpp Require Import sorting.
Local Open Scope Z_scope.

Section facts.
Context {P : PrismaEngine} {Key : StrKey} {Sdk : SorobanSdk} {Hidden : HiddenColumns}.
Context (row_key : Z -> string) (tokens : TokenAddresses) (engine : string -> num).

(** The listing of the streams a wallet sends, or receives. *)
Definition listing_of (direction : ActivityDirection) (pk : string) : FindStreamsParams := {|
  fs_status := None;
  fs_sender := match direction with sent => Some pk | received => None end;
  fs_recipient := match direction with sent => None | received => Some pk end;
  fs_tokenAddress := None; fs_limit := DEFAULT_STREAM_PAGE_SIZE; fs_offset := 0;
  fs_sortField := by_createdAt; fs_ascending := false |}.

Definition role_of (direction : ActivityDirection) : string :=
  match direction with sent => "sender" | received => "recipient" end.

Definition shown (s : Api (P:=P)) (direction : ActivityDirection) (pk : string) : list BackendStream :=
  map (listed row_key) (take 20 (matching_streams (db (world s)) (listing_of direction pk))).

Lemma fetched_page s direction pk :
  fetchStreams None (server_net row_key s) pk (role_of direction) = Returns (shown s direction pk).
Proof.
  unfold fetchStreams. destruct direction; reflexivity.
Qed.

Lemma listing_status tokens' s d cp :
  omap_all (fun b => mapBackendStreamToFrontend tokens' b (cp (bs_row b))) (map (listed row_key) s) = Returns d ->
  map ds_id d = map (fun r => BigInt_toString (streamId r)) s /\
  Forall (fun x => ds_status x <> st_cancelled) d.
Proof.
  intros H%omap_all_Forall2. split.
  - revert d H. induction s as [|r s IH]; intros d H; simpl in H; inversion H as [|? x ? d' Hx Hd]; subst; [done|].
    simpl. rewrite (IH d' Hd). f_equal. unfold mapBackendStreamToFrontend in Hx.
    destruct (formatStreamDateUtc _); simpl in Hx; [|done]. by injection Hx as <-.
  - revert d H. induction s as [|r s IH]; intros d H; simpl in H; inversion H as [|? x ? d' Hx Hd]; subst; constructor.
    + unfold mapBackendStreamToFrontend in Hx. destruct (formatStreamDateUtc _); simpl in Hx; [|done].
      injection Hx as <-. simpl. unfold mapStreamStatus. simpl. by repeat case_match.
    + by apply IH.
Qed.

(** What the snapshot of a wallet is a snapshot of. *)
Lemma dashboard_snapshot s pk :
  fetchDashboardData None tokens engine (server_net row_key s) pk =
  snapshot_of tokens engine (shown s sent pk) (shown s received pk).
Proof.
  unfold fetchDashboardData. change "sender"%string with (role_of sent). rewrite fetched_page. cbn [obind].
  change "recipient"%string with (role_of received). by rewrite fetched_page.
Qed.

End facts.

(** ** The newest activities *)

Definition dated (engine : string -> num) (item : ActivityItem) : Prop :=
  exists t, Date_parse engine (ai_timestamp item) = Fin t.

(** The activity of a snapshot is the ten newest of its streams, outgoing
    before incoming where two were made at one time, provided the times sent by
    the server are dates. *)
Theorem activity_newest tokens engine outgoing incoming snap :
  Forall (dated engine) (map (activity_of sent) outgoing ++ map (activity_of received) incoming) ->
  snapshot_of tokens engine outgoing incoming = Returns snap ->
  exists all,
    recentActivity snap = take 10 all /\
    all ≡ₚ map (activity_of sent) outgoing ++ map (activity_of received) incoming /\
    StronglySorted (fun a b => newest_first engine a b = true) all /\
    forall v, dated engine v ->
      let same y := newest_first engine v y && newest_first engine y v in
      List.filter same all =
      List.filter same (map (activity_of sent) outgoing ++ map (activity_of received) incoming).
Proof.
  intros Hd. unfold snapshot_of.
  destruct (omap_all _ outgoing) as [out|]; simpl; [|done]. destruct (omap_all _ incoming) as [inc|]; simpl; [|done].
  intros [=<-]. simpl. eexists. split; [done|].
  assert (Htot : forall x y, dated engine x -> dated engine y ->
    newest_first engine x y = true \/ newest_first engine y x = true).
  { intros x y [t Ht] [t' Ht']. unfold newest_first. rewrite Ht, Ht'. lia. }
  assert (Htr : forall x y z, dated engine x -> dated engine y -> dated engine z ->
    newest_first engine x y = true -> newest_first engine y z = true -> newest_first engine x z = true).
  { intros x y z [t Ht] [t' Ht'] [t'' Ht'']. unfold newest_first. rewrite Ht, Ht', Ht''. lia. }
  split_and!; [apply stable_sort_perm|by apply (stable_sort_sorted _ (dated engine))|].
  intros v Hv. by apply (stable_sort_class _ (dated engine)).
Qed.

(** * The dashboard: concrete inputs

    A wallet with one stream, and one with twenty-five of which one was
    cancelled; the figures leave the oldest five out. *)

Local Open Scope Z_scope.

Definition known_tokens : TokenAddresses := {| USDC := "C7"; XLM := "C8"; EURC := "C9" |}.
Definition row_key (id : Z) : string := "row" +:+ BigInt_toString id.
Definition no_engine (s : string) : num := NaN.

Definition snapshot (s : Api (P:=gmap_engine)) : outcome DashboardSnapshot :=
  fetchDashboardData None known_tokens no_engine (server_net row_key s) "G1".

Definition one_snapshot : DashboardSnapshot :=
  match snapshot sample_api with
  | Returns s => s
  | Throws _ => {| totalSent := DNaN; totalReceived := DNaN; totalValueLocked := DNaN; activeStreamsCount := 0;
                   recentActivity := []; outgoingStreams := []; incomingStreams := [] |}
  end.


(** ** Twenty-five streams of one ten-millionth each *)

Definition numbered (id : Z) : Stream := {|
  streamId := id; sender := "G1"; recipient := "G2"; tokenAddress := "C7";
  ratePerSecond := "10000000"; depositedAmount := "30000000"; withdrawnAmount := "10000000";
  startTime := 100; lastUpdateTime := 100; endTime := Some 200;
  isActive := negb (id =? 25); isPaused := false; pausedAt := None; totalPausedDuration := 0;
  updatedAt := 100000 |}.

Definition crowd : Api (P:=gmap_engine) :=
  let d := db sample_world in
  let d' := set_streams (fold_left (fun t id => t_put (Z.of_nat id) (numbered (Z.of_nat id)) t) (seq 1 25) (streams d)) d in
  {| world := set_db d' sample_world; claims := fresh_cache 100; StreamApi.sent := []; userSummaryCache := [] |}.

(** Of twenty-five streams, twenty-four of them active, the snapshot has twenty:
    nineteen active ones, and the cancelled stream among the completed. *)
Example figures_of_crowd :
  match snapshot crowd with
  | Returns s => (activeStreamsCount s, length (outgoingStreams s), length (recentActivity s),
                  option_map ds_status (hd_error (outgoingStreams s)), length (incomingStreams s))
  | Throws _ => (0, 0%nat, 0%nat, None, 0%nat)
  end = (19, 20%nat, 10%nat, Some st_completed, 0%nat).
Proof. vm_refl. Qed.

(** The volume of the last thirty days is what the ten activities add up to,
    each counted with the whole deposit of its stream. *)
Definition ten_sent : DashboardSnapshot :=
  let item := {| ai_id := "act-out-row1"; ai_title := "Outgoing Stream"; ai_description := "Stream to bob";
                 ai_amount := dint 3; ai_direction := Dashboard.sent; ai_timestamp := "1970-01-01T00:00:00.000Z" |} in
  {| totalSent := dint 20; totalReceived := dint 0; totalValueLocked := dint 38; activeStreamsCount := 19;
     recentActivity := repeat item 10; outgoingStreams := []; incomingStreams := [] |}.
Example volume_of_ten :
  map m_value (getDashboardAnalytics no_engine 1000000 (Some ten_sent)) =
  [Some (dint 30); Some (dint (-30)); Some (dint 2); None].
Proof. vm_refl. Qed.

(** ** The newest activities *)

Definition made_at (id : Z) (createdAt : string) : BackendStream := {|
  bs_id := row_key id; bs_row := numbered id; bs_createdAt := createdAt; bs_events := None |}.
Definition two_out : list BackendStream := [made_at 1 "2026-01-02T00:00:00.000Z"; made_at 2 "2026-01-05T00:00:00.000Z"].
Definition one_in : list BackendStream := [made_at 3 "2026-01-03T00:00:00.000Z"].

Definition three_snapshot : DashboardSnapshot :=
  match snapshot_of known_tokens no_engine two_out one_in with Returns s => s | Throws _ => one_snapshot end.

Lemma activity_newest_witness :
  map ai_id (recentActivity three_snapshot) = ["act-out-row2"; "act-in-row3"; "act-out-row1"]%string /\
  exists all, recentActivity three_snapshot = take 10 all /\
    all ≡ₚ map (activity_of sent) two_out ++ map (activity_of received) one_in /\
    StronglySorted (fun a b => newest_first no_engine a b = true) all.
Proof.
  split; [vm_refl|].
  assert (Hd : Forall (dated no_engine) (map (activity_of sent) two_out ++ map (activity_of received) one_in)).
  { unfold dated. repeat constructor; eexists; vm_compute; reflexivity. }
  assert (H : snapshot_of known_tokens no_engine two_out one_in = Returns three_snapshot) by vm_refl.
  destruct (activity_newest known_tokens no_engine two_out one_in three_snapshot Hd H) as (all & H1 & H2 & H3 & _).
  exists all. exact (conj H1 (conj H2 H3)).
Defined.
