(* ===== verification/StreamingAmount.v ===== *)
(** * The live claimable amount: frontend/src/hooks/useStreamingAmount.ts

    The hook computes the amount once and then adds the rate frame by frame
    while the tab is visible, computing it again when the tab comes back.  Frame
    times and [performance.now()] are doubles, [Date.now()] is an integer.
    [detail_amount] is the amount as the page of a stream shows it
    (frontend/src/app/streams/[id]/stream-details-content.tsx). *)
From S2P Require Import Prelude JsLang AdminRoutes StreamId Json Schema MemoryCache Contract Claimable ClaimableFacts Double Floats Dates Csv.
Local Open Scope Z_scope.

Record AmountParams := {
  sa_deposited : double;
  sa_withdrawn : double;
  sa_ratePerSecond : double;
  sa_startTime : option double;
  sa_lastUpdateTime : option double;
  sa_isActive : bool;
  sa_isPaused : bool;
  sa_pausedAt : option double;
  sa_totalPausedDuration : double
}.

(** A number in a condition. *)
Definition number_truthy (x : double) : bool := negb (is_NaN x) && negb (bool_decide (x = dint 0)).
Definition truthy_number (x : option double) : bool := match x with Some x => number_truthy x | None => false end.

Definition clamp (value min max : double) : double := Math_min max (Math_max min value).

Section hook.
Context (p : AmountParams).

Definition maxClaimable : double := Math_max (dsub (sa_deposited p) (sa_withdrawn p)) (dint 0).

Definition isStreaming : bool :=
  sa_isActive p && negb (sa_isPaused p) && dltb (dint 0) (sa_ratePerSecond p) && dltb (dint 0) maxClaimable.

(** [now] is [Date.now()]. *)
Definition computeClaimable (now : Z) : double :=
  let nowSeconds := ddiv_pos (dint now) 1000 in
  let streamStartTime :=
    match sa_startTime p, sa_lastUpdateTime p with
    | Some t, _ => t
    | None, Some t => t
    | None, None => nowSeconds
    end in
  let elapsedSinceStart := Math_max (dint 0) (dsub nowSeconds streamStartTime) in
  let currentPauseDuration :=
    if sa_isPaused p && truthy_number (sa_pausedAt p)
    then Math_max (dint 0) (dsub nowSeconds (default (dint 0) (sa_pausedAt p)))
    else dint 0 in
  let effectiveElapsed :=
    Math_max (dint 0)
      (dsub (dsub elapsedSinceStart
               (if truthy_number (sa_startTime p) then sa_totalPausedDuration p else dint 0))
         currentPauseDuration) in
  clamp (dmul effectiveElapsed (sa_ratePerSecond p)) (dint 0) maxClaimable.

(** The amount shown, the time of the last frame, and whether a frame is asked for. *)
Record Counter := { claimable : double; lastFrameTime : double; rafId : bool }.

(** The effect; with reduced motion the amount is computed a second time. *)
Definition effect (now again : Z) (performanceNow : double) (reduceMotion : bool) : Counter := {|
  claimable := if reduceMotion && isStreaming then computeClaimable again else computeClaimable now;
  lastFrameTime := performanceNow;
  rafId := negb reduceMotion && isStreaming |}.

Definition tick (hidden : bool) (frameTime : double) (c : Counter) : Counter :=
  if hidden then {| claimable := claimable c; lastFrameTime := frameTime; rafId := true |}
  else
    let deltaSeconds := Math_max (dint 0) (ddiv_pos (dsub frameTime (lastFrameTime c)) 1000) in
    let nextClaimable :=
      if isStreaming
      then clamp (dadd (claimable c) (dmul (sa_ratePerSecond p) deltaSeconds)) (dint 0) maxClaimable
      else dint 0 in
    {| claimable := nextClaimable; lastFrameTime := frameTime;
       rafId := isStreaming && dltb nextClaimable maxClaimable |}.

Definition handleVisibilityChange (hidden : bool) (now : Z) (performanceNow : double) (c : Counter) : Counter :=
  if negb hidden && isStreaming
  then {| claimable := computeClaimable now; lastFrameTime := performanceNow; rafId := rafId c |}
  else c.

(** A frame runs only when one was asked for; [Date.now()] is a time value. *)
Inductive counter_step : Counter -> Counter -> Prop :=
| step_frame c hidden t : rafId c = true -> finite t -> counter_step c (tick hidden t c)
| step_visibility c hidden now t : Z.abs now <= MAX_TIME -> finite t -> counter_step c (handleVisibilityChange hidden now t c).
End hook.

(** ** The page of a stream *)

Definition detail_params (r : Stream) : AmountParams := {|
  sa_deposited := Number_text (depositedAmount r);
  sa_withdrawn := Number_text (withdrawnAmount r);
  sa_ratePerSecond := Number_text (ratePerSecond r);
  sa_startTime := None;
  sa_lastUpdateTime := Some (dint (lastUpdateTime r));
  sa_isActive := isActive r; sa_isPaused := isPaused r;
  sa_pausedAt := dint <$> pausedAt r;
  sa_totalPausedDuration := dint 0 |}.

(** [BigInt(Math.round(x))] where that is finite *)
Definition live_units (x : double) : Z :=
  match Math_round x with
  | DFin t => t / TICK
  | _ => 0
  end.

Definition detail_amount (r : Stream) (now : Z) : Z := live_units (computeClaimable (detail_params r) now).

(** * The live amount stays in bounds and agrees with the service

    Whatever frames and visibility changes occur, the amount shown lies between
    zero and what is left of the deposit, and frames never lower it; on whole
    seconds and amounts a double holds exactly, it is the amount the service and
    the contract compute for an active stream. *)

Local Open Scope Z_scope.

(** ** Numbers *)

Lemma finite_number x : finite x -> is_NaN x = false.
Proof. by intros [t ->]. Qed.

Lemma dadd_number x y : is_NaN x = false -> finite y -> is_NaN (dadd x y) = false.
Proof. intros Hx [b ->]. destruct x as [|[]|a]; try done. apply of_ticks_number. Qed.

Lemma dmul_number x y : finite x -> finite y -> is_NaN (dmul x y) = false.
Proof. intros [a ->] [b ->]. apply of_ticks_number. Qed.

Lemma dadd_double x y : is_double (dadd x y).
Proof. destruct x as [|[]|a], y as [|[]|b]; try done. by apply of_ticks_double. Qed.

Lemma dmul_double x y : is_double (dmul x y).
Proof. destruct x as [|[]|a], y as [|[]|b]; simpl; try done; try case_match; try done. apply of_ticks_double, TICK_pos. Qed.

Lemma choice_double f x y : (f x y = x \/ f x y = y) -> is_double x -> is_double y -> is_double (f x y).
Proof. by intros [-> | ->]. Qed.

Lemma dint_0_double : is_double (dint 0).
Proof. apply dint_double. lia. Qed.

(** ** Clamping *)

Lemma clamp_spec v hi : is_NaN v = false -> dle (dint 0) hi ->
  dle (dint 0) (clamp v (dint 0) hi) /\ dle (clamp v (dint 0) hi) hi /\
  (clamp v (dint 0) hi = hi \/ clamp v (dint 0) hi = Math_max (dint 0) v).
Proof.
  intros Hv H. destruct (dle_number _ _ H) as [_ Hhi]. unfold clamp.
  assert (Hm : is_NaN (Math_max (dint 0) v) = false) by (by apply Math_max_number).
  destruct (Math_max_spec (dint 0) v eq_refl Hv) as (H1 & _ & _).
  destruct (Math_min_spec hi (Math_max (dint 0) v) Hhi Hm) as (H2 & H3 & [E|E]); rewrite E in *; auto using dle_refl.
Qed.

Lemma clamp_double v hi : is_double v -> is_double hi -> is_NaN v = false -> dle (dint 0) hi ->
  is_double (clamp v (dint 0) hi).
Proof.
  intros Hv Hd Hn H. destruct (clamp_spec v hi Hn H) as (_ & _ & [-> | ->]); [done|].
  apply choice_double; [|apply dint_0_double|done]. by apply (Math_max_spec (dint 0) v eq_refl Hn).
Qed.

(** ** The hook *)

Definition timestamp (x : double) : Prop := within (2 ^ 40) x.

(** What a row gives the hook: amounts that are numbers, times in seconds. *)
Record sane (p : AmountParams) : Prop := {
  sn_deposited : finite (sa_deposited p);
  sn_withdrawn : finite (sa_withdrawn p);
  sn_rate : finite (sa_ratePerSecond p);
  sn_start : forall t, sa_startTime p = Some t -> timestamp t;
  sn_update : forall t, sa_lastUpdateTime p = Some t -> timestamp t;
  sn_paused : forall t, sa_pausedAt p = Some t -> timestamp t;
  sn_total : timestamp (sa_totalPausedDuration p)
}.

Definition clock (now : Z) : Prop := Z.abs now <= 2 ^ 53.

Section hook.
Context (p : AmountParams) (Hp : sane p).

Lemma max_nonneg : dle (dint 0) (maxClaimable p).
Proof.
  destruct (sn_deposited p Hp) as [a Ha], (sn_withdrawn p Hp) as [b Hb]. unfold maxClaimable. rewrite Ha, Hb.
  apply Math_max_spec; [|done]. apply of_ticks_number.
Qed.

Lemma max_double : is_double (maxClaimable p).
Proof.
  destruct (sn_deposited p Hp) as [a Ha], (sn_withdrawn p Hp) as [b Hb]. unfold maxClaimable. rewrite Ha, Hb.
  apply choice_double; [|apply dadd_double|apply dint_0_double].
  apply Math_max_spec; [|done]. apply of_ticks_number.
Qed.

Lemma now_seconds now : clock now -> within (2 ^ 44) (ddiv_pos (dint now) 1000).
Proof.
  intros H. unfold clock in H. split.
  - rewrite <- (ddiv_pos_dint (- 2 ^ 44) 1000) by lia. apply ddiv_pos_mono; [lia|]. unfold dle. rewrite dleb_dint. lia.
  - rewrite <- (ddiv_pos_dint (2 ^ 44) 1000) by lia. apply ddiv_pos_mono; [lia|]. unfold dle. rewrite dleb_dint. lia.
Qed.

Lemma effective_finite now : clock now ->
  exists e, finite e /\ computeClaimable p now = clamp (dmul e (sa_ratePerSecond p)) (dint 0) (maxClaimable p).
Proof.
  intros Hc. pose proof (now_seconds now Hc) as Hn. eexists. split; [|reflexivity].
  apply (within_finite (2 ^ 47)).
  assert (Hz : forall B, 0 <= B -> within B (dint 0)) by (intros; apply within_dint; lia).
  assert (Ht : forall t, timestamp t -> within (2 ^ 44) t) by (intros; by eapply within_le; [|eassumption]; lia).
  apply within_max; [apply Hz; lia|].
  apply (within_le (2 ^ 45 + 2 ^ 44 + 2 ^ 45)); [lia|]. apply within_sub; try lia; [apply within_sub; try lia|].
  - apply within_max; [apply Hz; lia|]. apply (within_le (2 ^ 44 + 2 ^ 44)); [lia|].
    apply within_sub; try lia; [done|].
    destruct (sa_startTime p) eqn:Es; [apply Ht, (sn_start p Hp); done|].
    destruct (sa_lastUpdateTime p) eqn:Eu; [apply Ht, (sn_update p Hp); done|done].
  - case_match; [apply Ht, (sn_total p Hp)|apply Hz; lia].
  - case_match; [|apply Hz; lia]. apply within_max; [apply Hz; lia|].
    apply (within_le (2 ^ 44 + 2 ^ 44)); [lia|]. apply within_sub; try lia; [done|].
    destruct (sa_pausedAt p) eqn:Ep; simpl; [apply Ht, (sn_paused p Hp); done|apply Hz; lia].
Qed.

Lemma compute_bounds now : clock now ->
  dle (dint 0) (computeClaimable p now) /\ dle (computeClaimable p now) (maxClaimable p) /\
  is_double (computeClaimable p now).
Proof.
  intros Hc. destruct (effective_finite now Hc) as (e & He & ->).
  assert (Hn : is_NaN (dmul e (sa_ratePerSecond p)) = false) by (apply dmul_number; [done|apply (sn_rate p Hp)]).
  destruct (clamp_spec _ _ Hn max_nonneg) as (H1 & H2 & _). split_and!; [done|done|].
  apply clamp_double; auto using dmul_double, max_double, max_nonneg.
Qed.

Definition counter_ok (c : Counter) : Prop :=
  dle (dint 0) (claimable c) /\ dle (claimable c) (maxClaimable p) /\ is_double (claimable c) /\
  finite (lastFrameTime c) /\ (rafId c = true -> isStreaming p = true).

Lemma frame_gain last t : isStreaming p = true -> finite last -> finite t ->
  let gain := dmul (sa_ratePerSecond p) (Math_max (dint 0) (ddiv_pos (dsub t last) 1000)) in
  nonneg gain.
Proof.
  unfold isStreaming. intros [[_ Hr]%andb_prop _]%andb_prop [l ->] [f ->].
  destruct (sn_rate p Hp) as [r Er]. rewrite Er in *. simpl in Hr. apply Z.ltb_lt in Hr.
  set (d := ddiv_pos _ _). assert (Hd : is_NaN d = false) by (apply ddiv_pos_number, of_ticks_number).
  destruct (Math_max_spec (dint 0) d eq_refl Hd) as (H0 & _ & _). cbv zeta.
  destruct (Math_max (dint 0) d) as [|[]|m]; try done.
  - unfold nonneg, dle. simpl. rewrite (proj2 (Z.eqb_neq _ _)) by lia. by rewrite (proj2 (Z.ltb_ge _ _)) by lia.
  - unfold nonneg, dle in *. simpl in H0. apply Z.leb_le in H0. rewrite <- (of_ticks_0 TICK) by apply TICK_pos.
    apply of_ticks_mono; [apply TICK_pos|]. nia.
Qed.

Lemma dadd_nonneg_number x y : nonneg x -> nonneg y -> is_NaN (dadd x y) = false.
Proof. unfold nonneg, dle. destruct x as [|[]|a], y as [|[]|b]; simpl; try done. intros. apply of_ticks_number. Qed.

(** A visible frame of a running counter: in bounds, and no less than before. *)
Lemma visible_frame c t : counter_ok c -> isStreaming p = true -> finite t ->
  counter_ok (tick p false t c) /\ dle (claimable c) (claimable (tick p false t c)).
Proof.
  intros (H0 & H1 & H2 & H3 & H4) Hs Ht. unfold tick. rewrite Hs. cbv zeta iota. simpl.
  pose proof (frame_gain _ _ Hs H3 Ht) as Hg. cbv zeta in Hg. set (g := dmul _ _) in *.
  assert (Hn : is_NaN (dadd (claimable c) g) = false) by (by apply dadd_nonneg_number).
  destruct (clamp_spec _ _ Hn max_nonneg) as (B1 & B2 & B3). unfold counter_ok. simpl. split_and!; try done.
  - apply clamp_double; auto using dadd_double, max_double, max_nonneg.
  - destruct B3 as [-> | ->]; [done|].
    eapply dle_trans; [|by apply (Math_max_spec (dint 0) _ eq_refl Hn)].
    apply dadd_ge; [done| |done|done]. by apply (dle_number _ _ H1).
Qed.

Lemma counter_step_ok c c' : counter_ok c -> counter_step p c c' -> counter_ok c'.
Proof.
  intros Hc Hstep. destruct Hstep as [c hidden t Hr Ht|c hidden now t Hnow Ht].
  - destruct Hc as (H0 & H1 & H2 & H3 & H4). destruct hidden; [by unfold counter_ok; simpl; split_and!; auto|].
    apply visible_frame; auto. by unfold counter_ok; split_and!.
  - unfold handleVisibilityChange. destruct (negb hidden && isStreaming p) eqn:E; [|done].
    destruct Hc as (_ & _ & _ & _ & H4).
    destruct (compute_bounds now) as (B1 & B2 & B3); [unfold clock, MAX_TIME in *; lia|].
    by unfold counter_ok; simpl; split_and!.
Qed.

Lemma effect_ok now again perf reduceMotion :
  Z.abs now <= MAX_TIME -> Z.abs again <= MAX_TIME -> finite perf -> counter_ok (effect p now again perf reduceMotion).
Proof.
  intros Hn Ha Hf. unfold effect, counter_ok. simpl.
  destruct (compute_bounds now) as (B1 & B2 & B3); [unfold clock, MAX_TIME in *; lia|].
  destruct (compute_bounds again) as (C1 & C2 & C3); [unfold clock, MAX_TIME in *; lia|].
  destruct reduceMotion, (isStreaming p); by split_and!.
Qed.
End hook.

(** C28. Whatever frames, pauses of the tab and returns to it occur, the live
    amount lies between zero and what is left of the deposit, and no frame
    lowers it — with the roundings of doubles, for any finite amounts and any
    times a row can hold. *)
Theorem live_amount_bounded p now again perf reduceMotion c :
  sane p -> Z.abs now <= MAX_TIME -> Z.abs again <= MAX_TIME -> finite perf ->
  rtc (counter_step p) (effect p now again perf reduceMotion) c ->
  dle (dint 0) (claimable c) /\ dle (claimable c) (maxClaimable p) /\
  (forall hidden t, rafId c = true -> finite t -> dle (claimable c) (claimable (tick p hidden t c))).
Proof.
  intros Hp Hn Ha Hf Hr.
  assert (Hc : counter_ok p c).
  { revert Hr. apply (rtc_ind_r (counter_ok p)); [by apply effect_ok|]. intros; by eapply counter_step_ok. }
  destruct Hc as (H0 & H1 & H2 & H3 & H4). split_and!; try done.
  intros hidden t Hraf Ht. destruct hidden; [apply dle_refl; by apply (dle_number _ _ H1)|].
  apply (visible_frame p Hp c t); auto. by unfold counter_ok; split_and!.
Qed.

(** ** Agreement with the service *)

Lemma digits_text z : 0 <= z -> BigInt_toString z = nat_digits z /\ digits_only (nat_digits z) = true.
Proof.
  intros Hz. unfold BigInt_toString. rewrite (proj2 (Z.ltb_ge z 0)) by lia. split; [done|by apply nat_digits_only].
Qed.

Lemma digit_prefix_all s : all_digits s = true -> digit_prefix s = s /\ drop_digits s = EmptyString.
Proof. induction s as [|c s IH]; simpl; [done|]. intros [-> Hs]%andb_prop. by destruct (IH Hs) as [-> ->]. Qed.

Lemma unsigned_float_digits s : digits_only s = true -> unsigned_float s = Number_double (digits_Z s).
Proof.
  intros H. assert (Ha : all_digits s = true) by (by destruct s).
  destruct (digit_prefix_all s Ha) as [Hd Hr]. unfold unsigned_float, decimal_literal. rewrite Hd, Hr.
  destruct s as [|c s]; [done|]. simpl in Ha. apply andb_prop in Ha as [Hc _].
  assert (Hinf : startsWith "Infinity" (String c s) = false).
  { destruct c as [[] [] [] [] [] [] [] []]; try discriminate Hc; done. }
  rewrite Hinf. cbn [fraction_digits]. rewrite app_string_nil.
  unfold decimal_double, Number_double. simpl. f_equal. lia.
Qed.

Lemma Number_text_digits z : 0 <= z -> Number_text (BigInt_toString z) = Number_double z.
Proof.
  intros Hz. destruct (digits_text z Hz) as [-> Hd].
  assert (Ha : all_digits (nat_digits z) = true) by (by destruct (nat_digits z)).
  assert (Hv : digits_Z (nat_digits z) = z) by (unfold digits_Z; by rewrite parse_nat_digits).
  pose proof (unsigned_float_digits _ Hd) as Hu. rewrite Hv in Hu.
  unfold Number_text. rewrite trim_digits by done.
  destruct (digit_prefix_all _ Ha) as [Hp Hr].
  assert (Hdec : decimal_text (nat_digits z) = true).
  { unfold decimal_text. rewrite Hp, Hr. cbn [fraction_digits]. rewrite app_string_nil.
    by destruct (nat_digits z). }
  destruct (nat_digits z) as [|c s]; [done|]. simpl in Ha. apply andb_prop in Ha as [Hc Hs].
  assert (Hun : unsigned_text (String c s) = String c s /\ signed_float (String c s) = unsigned_float (String c s)).
  { destruct c as [[] [] [] [] [] [] [] []]; try discriminate Hc; done. }
  destruct Hun as [Hun Hsg].
  destruct c as [[] [] [] [] [] [] [] []]; try discriminate Hc;
    try (destruct s as [|c' s]; [|simpl in Hs; apply andb_prop in Hs as [Hc' _];
           destruct c' as [[] [] [] [] [] [] [] []]; try discriminate Hc']);
    rewrite Hun, Hdec, orb_true_r, Hsg; exact Hu.
Qed.

(** The seconds that count, as the hook computes them. *)
Definition effective (r : Stream) (now : Z) : Z :=
  let paused := match isPaused r, pausedAt r with true, Some t => Z.max 0 (now - t) | _, _ => 0 end in
  Z.max 0 (Z.max 0 (now - lastUpdateTime r) - paused).

Record exact_row (r : Stream) (rate dep wd now : Z) : Prop := {
  er_rate : ratePerSecond r = BigInt_toString rate;
  er_dep : depositedAmount r = BigInt_toString dep;
  er_wd : withdrawnAmount r = BigInt_toString wd;
  er_rate_small : 0 <= rate <= 2 ^ 53;
  er_dep_small : 0 <= dep <= 2 ^ 53;
  er_wd_small : 0 <= wd <= 2 ^ 53;
  er_accrual : rate * now <= 2 ^ 53;
  er_update : 0 <= lastUpdateTime r <= 2 ^ 40;
  er_now : 0 <= now <= 2 ^ 40;
  er_paused : forall t, pausedAt r = Some t -> 0 < t <= 2 ^ 40
}.

Lemma live_units_dint z : live_units (dint z) = z.
Proof. unfold live_units. rewrite Math_round_dint. unfold dint. apply Z.div_mul. pose proof TICK_pos. lia. Qed.

Lemma truthy_dint t : t <> 0 -> number_truthy (dint t) = true.
Proof.
  intros H. unfold number_truthy. rewrite bool_decide_eq_false_2; [done|].
  intros E. injection E as E. pose proof TICK_pos. nia.
Qed.

Lemma detail_exact r rate dep wd now : exact_row r rate dep wd now ->
  detail_amount r (1000 * now) = Z.min (Z.max (dep - wd) 0) (effective r now * rate).
Proof.
  intros [E1 E2 E3 Hr Hd Hw Hacc Hu Hn Hp]. unfold detail_amount, computeClaimable. cbn [detail_params sa_startTime sa_lastUpdateTime
    sa_isPaused sa_pausedAt sa_ratePerSecond truthy_number].
  replace (1000 * now) with (now * 1000) by lia. rewrite ddiv_pos_dint, dsub_dint, Math_max_dint by lia.
  set (e := Z.max 0 (now - lastUpdateTime r)). assert (He : 0 <= e <= now) by lia.
  assert (Hpause : (if isPaused r && truthy_number (dint <$> pausedAt r)
      then Math_max (dint 0) (dsub (dint now) (default (dint 0) (dint <$> pausedAt r))) else dint 0) =
    dint match isPaused r, pausedAt r with true, Some t => Z.max 0 (now - t) | _, _ => 0 end).
  { destruct (isPaused r); [|done]. destruct (pausedAt r) as [t|] eqn:Et; [|done].
    specialize (Hp t eq_refl). cbn [fmap option_fmap option_map truthy_number default].
    rewrite truthy_dint by lia. cbn [andb from_option]. unfold id. by rewrite dsub_dint, Math_max_dint by lia. }
  rewrite Hpause. set (pause := match isPaused r with true => _ | false => _ end).
  assert (H0 : 0 <= pause <= 2 ^ 41).
  { unfold pause. destruct (isPaused r), (pausedAt r) as [t|]; try specialize (Hp t eq_refl); lia. }
  rewrite (dsub_dint e 0), Z.sub_0_r, dsub_dint, Math_max_dint by lia.
  rewrite E1, Number_text_digits, Number_double_dint by lia.
  assert (Heff : Z.max 0 (e - pause) = effective r now) by (unfold effective, e, pause; reflexivity). rewrite Heff.
  assert (Hb : 0 <= effective r now * rate <= 2 ^ 53).
  { assert (0 <= effective r now <= now) by (rewrite <- Heff; lia). nia. }
  rewrite dmul_dint by lia. unfold clamp, maxClaimable. cbn [sa_deposited sa_withdrawn detail_params].
  rewrite E2, E3, !Number_text_digits, !Number_double_dint, dsub_dint by lia.
  rewrite !Math_max_dint, Math_min_dint, live_units_dint. lia.
Qed.

Lemma elapsed_effective r now : 0 <= lastUpdateTime r -> 0 <= now -> (forall t, pausedAt r = Some t -> 0 < t) ->
  elapsed_time (claimable_state r) (Z.max 0 now) = effective r now.
Proof.
  intros Hu Hn Hp. rewrite Z.max_r by done. unfold elapsed_time, effective. simpl.
  destruct (isPaused r), (pausedAt r) as [t|]; try specialize (Hp t eq_refl);
    repeat (case_match; [rewrite ?Z.ltb_lt in *|rewrite ?Z.ltb_ge in *]); lia.
Qed.


(** ** Samples *)

Definition live_row (active_ : bool) : Stream := {|
  streamId := 7; sender := "G1"; recipient := "G2"; tokenAddress := "C7";
  ratePerSecond := "10"; depositedAmount := "1000"; withdrawnAmount := "300";
  startTime := 100; lastUpdateTime := 130; endTime := Some 200;
  isActive := active_; isPaused := false; pausedAt := None; totalPausedDuration := 0;
  updatedAt := 100000 |}.


Definition live_params : AmountParams := detail_params (live_row true).
Definition first_count : Counter := effect live_params 150000 150000 (dint 1000) false.

Lemma live_amount_bounded_witness :
  dle (dint 200) (claimable (tick live_params false (dint 1016) first_count)) /\
  dle (claimable (tick live_params false (dint 1016) first_count)) (maxClaimable live_params).
Proof.
  split; [vm_compute; reflexivity|].
  assert (Hf : forall z, finite (dint z)) by (intros; by eexists).
  assert (Hs : sane live_params).
  { constructor.
    - eexists. vm_compute. reflexivity.
    - eexists. vm_compute. reflexivity.
    - eexists. vm_compute. reflexivity.
    - intros t H. discriminate H.
    - intros t H. injection H as <-. apply within_dint. vm_compute. discriminate.
    - intros t H. discriminate H.
    - apply within_dint. vm_compute. discriminate. }
  assert (Ht : Z.abs 150000 <= MAX_TIME) by (unfold MAX_TIME; lia).
  assert (Hr : rtc (counter_step live_params) first_count (tick live_params false (dint 1016) first_count)).
  { apply rtc_once, step_frame; [vm_compute; reflexivity|apply Hf]. }
  exact (proj1 (proj2 (live_amount_bounded live_params 150000 150000 (dint 1000) false _ Hs Ht Ht (Hf 1000) Hr))).
Defined.

(** A cancelled stream still shows an amount to claim: the first computation
    does not look at whether the stream is active. *)
Example inactive_shown_claimable :
  (claimable (effect (detail_params (live_row false)) 150000 150000 (dint 0) false),
   compute_claimable (claimable_state (live_row false)) 150) =
  (dint 200, Returns {| cv_streamId := 7; claimableAmount := "0"; actionable := false; calculatedAt := 150 |}).
Proof. vm_refl. Qed.
