(* ===== verification/Incoming.v ===== *)
(** * Incoming streams and withdrawals: frontend/src/hooks/useIncomingStreams.ts

    The query cache holds the list of the connected wallet.  A withdrawal
    updates it before the wallet is asked, puts the old list back when the call
    fails, and polls the indexer when it succeeds.  [Attempt] says what a round
    of polling meets: whether it was aborted before, during or after, and what
    the request came to. *)
From S2P Require Import Prelude JsLang StreamId Json Schema Soroban Simulate Double Floats WalletCalls ApiClient.
Local Open Scope Z_scope.

(** ** The optimistic update *)

Definition set_progress (withdrawn lastUpdateTime : double) (s : IncomingStreamRecord) : IncomingStreamRecord := {|
  ir_id := ir_id s; ir_streamId := ir_streamId s; ir_sender := ir_sender s; senderDisplay := senderDisplay s;
  ir_token := ir_token s; ir_tokenAddress := ir_tokenAddress s; ir_ratePerSecond := ir_ratePerSecond s;
  ir_deposited := ir_deposited s; ir_withdrawn := withdrawn; ir_startTime := ir_startTime s;
  ir_lastUpdateTime := lastUpdateTime; ir_isActive := ir_isActive s; ir_isPaused := ir_isPaused s;
  ir_pausedAt := ir_pausedAt s; ir_totalPausedDuration := ir_totalPausedDuration s; ir_status := ir_status s |}.

Definition claimable_now (nowSeconds : double) (s : IncomingStreamRecord) : double :=
  let elapsed := Math_max (dint 0) (dsub nowSeconds (ir_lastUpdateTime s)) in
  let currentPauseDuration :=
    match ir_pausedAt s with
    | Some p => if ir_isPaused s && negb (p =? 0) then Math_max (dint 0) (dsub nowSeconds (dint p)) else dint 0
    | None => dint 0
    end in
  let effectiveElapsed := Math_max (dint 0) (dsub elapsed currentPauseDuration) in
  let accrued := dmul effectiveElapsed (ir_ratePerSecond s) in
  let maxClaimable := Math_max (dint 0) (dsub (ir_deposited s) (ir_withdrawn s)) in
  Math_min maxClaimable accrued.

(** [now] is [Date.now()]. *)
Definition withdrawn_now (now : Z) (s : IncomingStreamRecord) : IncomingStreamRecord :=
  let nowSeconds := ddiv_pos (dint now) 1000 in
  set_progress (dadd (ir_withdrawn s) (claimable_now nowSeconds s)) nowSeconds s.

Definition optimistic (now : Z) (stream : IncomingStreamRecord) (xs : list IncomingStreamRecord) : list IncomingStreamRecord :=
  map (fun s => if bool_decide (ir_id s = ir_id stream) then withdrawn_now now s else s) xs.

(** The value left in [expectedWithdrawn] by the last row that matched. *)
Definition expected_withdrawn (now : Z) (stream : IncomingStreamRecord) (xs : list IncomingStreamRecord) : double :=
  fold_left (fun e s => if bool_decide (ir_id s = ir_id stream) then ir_withdrawn (withdrawn_now now s) else e)
    xs (ir_withdrawn stream).

(** ** The mutation *)

Record Page := { query : option (list IncomingStreamRecord); outbox : Outbox }.
Record MutationContext := { previousStreams : option (list IncomingStreamRecord); expectedWithdrawn : double }.

Definition set_query (q : option (list IncomingStreamRecord)) : Js Page unit :=
  modify (fun p => {| query := q; outbox := outbox p |}).

(** The wallet call, on the messages of the page. *)
Definition with_wallet {A} (m : Js Outbox A) : Js Page A := fun p =>
  let '(r, o) := m (outbox p) in (r, {| query := query p; outbox := o |}).

Section mutation.
Context {Sdk : SorobanSdk} (nd : Node) (publicKey : option string).

Definition onMutate (now : Z) (stream : IncomingStreamRecord) : Js Page MutationContext :=
  match publicKey with
  | None => ret {| previousStreams := None; expectedWithdrawn := ir_withdrawn stream |}
  | Some _ =>
      let! previous := gets query in
      match previous with
      | None => ret {| previousStreams := None; expectedWithdrawn := ir_withdrawn stream |}
      | Some xs =>
          do! set_query (Some (optimistic now stream xs)) in
          ret {| previousStreams := Some xs; expectedWithdrawn := expected_withdrawn now stream xs |}
      end
  end.

(** [session]: the key of the connected wallet. *)
Definition mutationFn (session : option string) (stream : IncomingStreamRecord) : Js Page string :=
  match session with
  | None => throw (ErrorMsg "Please connect your wallet first")
  | Some key => with_wallet (withdrawFromStream nd key (ir_streamId stream))
  end.

Definition onError (context : MutationContext) : Js Page unit :=
  match publicKey, previousStreams context with
  | Some _, Some xs => set_query (Some xs)
  | _, _ => ret tt
  end.

(** [mutateAsync]: the hash and the amount the poll waits for. *)
Definition withdraw (session : option string) (now : Z) (stream : IncomingStreamRecord) : Js Page (string * double) :=
  let! context := onMutate now stream in
  try_catch
    (let! txHash := mutationFn session stream in ret (txHash, expectedWithdrawn context))
    (fun error => do! onError context in throw error).
End mutation.

(** ** Polling the indexer *)

Record Attempt := {
  aborted_before : bool;
  aborted_waiting : bool;
  answer : outcome (list IncomingStreamRecord);
  aborted_fetching : bool
}.

(** The poll was aborted, stored a list, or asked for a refetch. *)
Inductive Polled := Stopped | Stored (streams : list IncomingStreamRecord) | Invalidated.

Definition MAX_RETRIES : nat := 6.
Definition INITIAL_DELAY : Z := 1000.

Definition indexed (streamId : Z) (oldWithdrawn expectedWithdrawn : double) (streams : list IncomingStreamRecord) : bool :=
  match List.find (fun s => ir_streamId s =? streamId) streams with
  | None => false
  | Some s =>
      dltb oldWithdrawn (ir_withdrawn s) ||
      dleb (dsub expectedWithdrawn (decimal_double 1 (-6))) (ir_withdrawn s)
  end.

(** The result, and the delays waited. *)
Fixpoint poll_rounds (streamId : Z) (oldWithdrawn expected : double) (maxRetries attempt : nat) (delay : Z)
    (attempts : nat -> Attempt) (aborted_at_end : bool) : Polled * list Z :=
  match maxRetries with
  | O => (if aborted_at_end then Stopped else Invalidated, [])
  | S rounds =>
      let a := attempts attempt in
      if aborted_before a then (Stopped, [])
      else if aborted_waiting a then (Stopped, [delay])
      else
        let again :=
          let '(r, ds) := poll_rounds streamId oldWithdrawn expected rounds (S attempt) (delay * 2) attempts aborted_at_end in
          (r, delay :: ds) in
        match answer a with
        | Returns streams =>
            if aborted_fetching a then (Stopped, [delay])
            else if indexed streamId oldWithdrawn expected streams then (Stored streams, [delay])
            else again
        | Throws _ => if aborted_fetching a then (Stopped, [delay]) else again
        end
  end.

Definition pollIndexerForWithdraw (streamId : Z) (oldWithdrawn expected : double) (attempts : nat -> Attempt)
    (aborted_at_end : bool) : Polled * list Z :=
  poll_rounds streamId oldWithdrawn expected MAX_RETRIES 0 INITIAL_DELAY attempts aborted_at_end.
