(* ===== verification/IncomingFacts.v ===== *)
(** * Withdrawing from the list of incoming streams

    A failed withdrawal leaves the list as it was; a successful one leaves every
    other row alone and lowers no amount; the poll afterwards ends within six
    rounds and stores a list only once it shows the withdrawal. *)
From S2P Require Import Prelude JsLang StreamId Json Schema Soroban Simulate Double Floats WalletCalls PayrollFacts ApiClient StreamingAmount Incoming.
Local Open Scope Z_scope.

(** ** The optimistic update *)

(** A row as the list endpoint gives it: amounts that are doubles and not
    negative, times in seconds. *)
Record sound_record (s : IncomingStreamRecord) : Prop := {
  so_withdrawn : is_double (ir_withdrawn s) /\ finite (ir_withdrawn s) /\ nonneg (ir_withdrawn s);
  so_deposited : finite (ir_deposited s);
  so_rate : finite (ir_ratePerSecond s) /\ nonneg (ir_ratePerSecond s);
  so_update : within (2 ^ 45) (ir_lastUpdateTime s);
  so_paused : forall t, ir_pausedAt s = Some t -> Z.abs t <= 2 ^ 40
}.

Lemma nonneg_max x : is_NaN x = false -> nonneg (Math_max (dint 0) x).
Proof. intros H. by apply (Math_max_spec (dint 0) x eq_refl H). Qed.

Lemma dmul_nonneg x y : finite x -> finite y -> nonneg x -> nonneg y -> nonneg (dmul x y).
Proof.
  intros [a ->] [b ->] Ha Hb. unfold nonneg, dle in Ha, Hb. simpl in Ha, Hb. apply Z.leb_le in Ha, Hb.
  unfold nonneg, dmul. rewrite <- (of_ticks_0 TICK) by apply TICK_pos. apply of_ticks_mono; [apply TICK_pos|]. nia.
Qed.

Lemma claimable_nonneg now s : sound_record s -> Z.abs now <= 2 ^ 53 ->
  nonneg (claimable_now (ddiv_pos (dint now) 1000) s).
Proof.
  intros Hs Hn. pose proof (now_seconds now Hn) as Ht. unfold claimable_now. set (t := ddiv_pos _ _) in *. clearbody t.
  destruct (so_withdrawn s Hs) as (_ & [w Hw] & _). destruct (so_deposited s Hs) as [d Hd].
  destruct (so_rate s Hs) as [Hr Hr0].
  assert (Hz : forall B, 0 <= B -> within B (dint 0)) by (intros; apply within_dint; lia).
  assert (Hpause : within (2 ^ 45)
    match ir_pausedAt s with
    | Some p => if ir_isPaused s && negb (p =? 0) then Math_max (dint 0) (dsub t (dint p)) else dint 0
    | None => dint 0
    end).
  { destruct (ir_pausedAt s) as [p|] eqn:Ep; [|apply Hz; lia]. case_match; [|apply Hz; lia].
    apply within_max; [apply Hz; lia|]. apply (within_le (2 ^ 44 + 2 ^ 40)); [lia|].
    apply within_sub; try lia; [done|]. apply within_dint, (so_paused s Hs _ Ep). }
  set (pause := match ir_pausedAt s with Some _ => _ | None => _ end) in *. clearbody pause.
  set (elapsed := Math_max (dint 0) (dsub t (ir_lastUpdateTime s))).
  assert (He : within (2 ^ 46) elapsed).
  { apply within_max; [apply Hz; lia|]. apply (within_le (2 ^ 44 + 2 ^ 45)); [lia|].
    apply within_sub; try lia; [done|apply (so_update s Hs)]. }
  assert (Heff : within (2 ^ 47) (dsub elapsed pause)).
  { apply (within_le (2 ^ 46 + 2 ^ 45)); [lia|]. by apply within_sub; try lia. }
  assert (Hacc : nonneg (dmul (Math_max (dint 0) (dsub elapsed pause)) (ir_ratePerSecond s))).
  { apply dmul_nonneg; [|done| |done].
    - apply (within_finite (2 ^ 47)). apply within_max; [apply Hz; lia|done].
    - apply nonneg_max, finite_number. by apply (within_finite (2 ^ 47)). }
  assert (Hmax : nonneg (Math_max (dint 0) (dsub (ir_deposited s) (ir_withdrawn s)))).
  { apply nonneg_max. rewrite Hd, Hw. apply of_ticks_number. }
  destruct (Math_min_spec _ _ (proj2 (dle_number _ _ Hmax)) (proj2 (dle_number _ _ Hacc))) as (_ & _ & [E|E]);
    rewrite E; done.
Qed.

(** The row after the update: two columns, and nothing taken back. *)
Lemma withdrawn_now_spec now s : sound_record s -> Z.abs now <= 2 ^ 53 ->
  withdrawn_now now s = set_progress (ir_withdrawn (withdrawn_now now s)) (ir_lastUpdateTime (withdrawn_now now s)) s /\
  dle (ir_withdrawn s) (ir_withdrawn (withdrawn_now now s)).
Proof.
  intros Hs Hn. split; [reflexivity|]. destruct (so_withdrawn s Hs) as (Hd & Hf & H0).
  apply dadd_ge; [done|by apply finite_number|done|by apply claimable_nonneg].
Qed.

(** What a row of the list may become. *)
Definition progressed (stream s s' : IncomingStreamRecord) : Prop :=
  (ir_id s <> ir_id stream -> s' = s) /\
  s' = set_progress (ir_withdrawn s') (ir_lastUpdateTime s') s /\ dle (ir_withdrawn s) (ir_withdrawn s').

Lemma optimistic_progressed now stream xs : Forall sound_record xs -> Z.abs now <= 2 ^ 53 ->
  Forall2 (progressed stream) xs (optimistic now stream xs).
Proof.
  intros H Hn. induction H as [|s xs Hs Hxs IH]; simpl; constructor; [|done].
  unfold progressed. case_bool_decide as He.
  - split; [done|]. by apply withdrawn_now_spec.
  - split_and!; [done|by destruct s|apply dle_refl, finite_number, (so_withdrawn s Hs)].
Qed.

Lemma onMutate_list key now stream xs p : query p = Some xs ->
  onMutate (Some key) now stream p =
  (Returns {| previousStreams := Some xs; expectedWithdrawn := expected_withdrawn now stream xs |},
   {| query := Some (optimistic now stream xs); outbox := outbox p |}).
Proof. intros Hq. unfold onMutate, bind, gets. cbn [fst snd]. by rewrite Hq. Qed.

(** C29. A withdrawal from the list: when it fails — no session, a refused
    signature, a failed transaction — the list is what it was; when it succeeds,
    every other row is untouched, the row withdrawn from changes its withdrawn
    amount and its time only, and no amount is lowered. *)
Theorem withdrawal_optimistic {Sdk : SorobanSdk} (nd : Node) key session now stream xs p :
  query p = Some xs -> Forall sound_record xs -> Z.abs now <= 2 ^ 53 ->
  match withdraw nd (Some key) session now stream p with
  | (Throws _, p') => query p' = Some xs
  | (Returns (_, expected), p') =>
      exists xs', query p' = Some xs' /\ Forall2 (progressed stream) xs xs' /\
        expected = expected_withdrawn now stream xs
  end.
Proof.
  intros Hq Hs Hn. unfold withdraw, bind at 1. rewrite (onMutate_list key now stream xs p Hq).
  unfold try_catch, bind, mutationFn, onError. destruct session as [k|]; [|simpl; done].
  unfold with_wallet. cbn [query outbox]. destruct (withdrawFromStream nd k (ir_streamId stream) (outbox p)) as [[h|e] o].
  - simpl. eexists. split; [done|]. split; [by apply optimistic_progressed|done].
  - simpl. done.
Qed.

(** ** The poll *)

Fixpoint doubled (n : nat) (d : Z) : list Z := match n with O => [] | S n => d :: doubled n (d * 2) end.

Lemma poll_rounds_spec id old expected n : forall k delay attempts aborted,
  let '(r, ds) := poll_rounds id old expected n k delay attempts aborted in
  (exists m, (m <= n)%nat /\ ds = doubled m delay) /\
  (forall streams, r = Stored streams ->
     exists i, (k <= i < k + n)%nat /\ answer (attempts i) = Returns streams /\ indexed id old expected streams = true) /\
  (r = Invalidated -> ds = doubled n delay /\
     forall i streams, (k <= i < k + n)%nat -> answer (attempts i) = Returns streams -> indexed id old expected streams = false).
Proof.
  induction n as [|n IH]; intros k delay attempts aborted; simpl.
  { split_and!; [exists 0%nat; split; [lia|done]|destruct aborted; done|]. intros _. split; [done|]. intros; lia. }
  destruct (aborted_before (attempts k)); [split_and!; [exists 0%nat; split; [lia|done]|done|done]|].
  destruct (aborted_waiting (attempts k)); [split_and!; [exists 1%nat; split; [lia|done]|done|done]|].
  specialize (IH (S k) (delay * 2) attempts aborted).
  destruct (poll_rounds id old expected n (S k) (delay * 2) attempts aborted) as [r ds].
  destruct IH as ((m & Hm & ->) & Hst & Hinv).
  assert (Hagain : (forall streams, answer (attempts k) = Returns streams -> indexed id old expected streams = false) ->
    (exists m', (m' <= S n)%nat /\ delay :: doubled m (delay * 2) = doubled m' delay) /\
    (forall streams, r = Stored streams ->
       exists i, (k <= i < k + S n)%nat /\ answer (attempts i) = Returns streams /\ indexed id old expected streams = true) /\
    (r = Invalidated -> delay :: doubled m (delay * 2) = delay :: doubled n (delay * 2) /\
       forall i streams, (k <= i < k + S n)%nat -> answer (attempts i) = Returns streams -> indexed id old expected streams = false)).
  { intros Hno. split_and!.
    - exists (S m). split; [lia|done].
    - intros streams Hr. destruct (Hst streams Hr) as (i & Hi & Ha & Hx). exists i. split_and!; [lia|lia|done|done].
    - intros Hr. destruct (Hinv Hr) as [-> Hall]. split; [done|]. intros i streams Hi Ha.
      destruct (decide (i = k)) as [->|Hne]; [by apply Hno|]. apply (Hall i); [lia|done]. }
  assert (Hstop : (exists m', (m' <= S n)%nat /\ [delay] = doubled m' delay) /\
    (forall streams, Stopped = Stored streams ->
       exists i, (k <= i < k + S n)%nat /\ answer (attempts i) = Returns streams /\ indexed id old expected streams = true) /\
    (Stopped = Invalidated -> [delay] = delay :: doubled n (delay * 2) /\
       forall i streams, (k <= i < k + S n)%nat -> answer (attempts i) = Returns streams -> indexed id old expected streams = false)).
  { split_and!; [exists 1%nat; split; [lia|done]|done|done]. }
  destruct (answer (attempts k)) as [streams|e] eqn:Ea.
  - destruct (aborted_fetching (attempts k)); [exact Hstop|].
    destruct (indexed id old expected streams) eqn:Ex; [|apply Hagain; intros; congruence].
    split_and!; [exists 1%nat; split; [lia|done]| |done].
    intros s [=<-]. exists k. split_and!; [lia|lia|done|done].
  - destruct (aborted_fetching (attempts k)); [exact Hstop|]. apply Hagain. intros; congruence.
Qed.

(** The poll after a withdrawal always ends: within six rounds and 63
    seconds, a list is stored only when it shows the stream with more withdrawn
    than before, or with what was expected to a millionth; a refetch is asked
    for only after six rounds none of whose lists showed it. *)
Theorem withdrawal_poll_ends id old expected attempts aborted :
  let '(r, ds) := pollIndexerForWithdraw id old expected attempts aborted in
  (exists m, (m <= 6)%nat /\ ds = take m [1000; 2000; 4000; 8000; 16000; 32000]) /\
  (forall streams, r = Stored streams ->
     exists i, (i < 6)%nat /\ answer (attempts i) = Returns streams /\ indexed id old expected streams = true) /\
  (r = Invalidated -> length ds = 6%nat /\
     forall i streams, (i < 6)%nat -> answer (attempts i) = Returns streams -> indexed id old expected streams = false).
Proof.
  unfold pollIndexerForWithdraw. pose proof (poll_rounds_spec id old expected MAX_RETRIES 0 INITIAL_DELAY attempts aborted) as H.
  destruct (poll_rounds id old expected MAX_RETRIES 0 INITIAL_DELAY attempts aborted) as [r ds].
  unfold MAX_RETRIES, INITIAL_DELAY in H. destruct H as ((m & Hm & ->) & Hst & Hinv). split_and!.
  - exists m. split; [done|]. do 7 (destruct m as [|m]; [reflexivity|]). lia.
  - intros streams Hr. destruct (Hst streams Hr) as (i & Hi & Ha). exists i. split; [lia|done].
  - intros Hr. destruct (Hinv Hr) as [-> Hall]. split; [done|]. intros i streams Hi. apply Hall. lia.
Qed.

(** * Incoming streams: concrete inputs

    A withdrawal from a list of two against a network that confirms at the
    second poll, and two withdrawals at once of which the first fails. *)

Local Open Scope Z_scope.
#[local] Existing Instance key_soroban.

Definition incoming (n : Z) : IncomingStreamRecord :=
  mapBackendStream sample_tokens {|
    bs_id := BigInt_toString n; bs_createdAt := ""; bs_events := None;
    bs_row := {| streamId := n; sender := payer; recipient := payer; tokenAddress := "C7";
      ratePerSecond := "10000000"; depositedAmount := "1000000000"; withdrawnAmount := "300000000";
      startTime := 100; lastUpdateTime := 130; endTime := None; isActive := true; isPaused := false;
      pausedAt := None; totalPausedDuration := 0; updatedAt := 100000 |} |}.

Definition two : list IncomingStreamRecord := [incoming 1; incoming 2].
Definition listed : Incoming.Page := {| query := Some two; outbox := nothing_sent |}.

Lemma incoming_sound n : sound_record (incoming n).
Proof.
  constructor.
  - assert (H : ir_withdrawn (incoming n) = dint 30) by (vm_compute; reflexivity). rewrite H.
    split; [|split]; [apply dint_double; lia|apply finite_dint|vm_compute; reflexivity].
  - eexists. vm_compute. reflexivity.
  - split; [eexists; vm_compute; reflexivity|vm_compute; reflexivity].
  - apply within_dint. vm_compute. discriminate.
  - discriminate.
Qed.

Definition withdrawn_of (p : Incoming.Page) : list double := map ir_withdrawn (default [] (query p)).

(** After twenty seconds the first stream has paid twenty more. *)
Lemma withdrawal_optimistic_witness :
  withdrawn_of (withdraw slow_node (Some payer) (Some payer) 150000 (incoming 1) listed).2 = [dint 50; dint 30] /\
  match withdraw slow_node (Some payer) (Some payer) 150000 (incoming 1) listed with
  | (Throws _, p') => query p' = Some two
  | (Returns (_, expected), p') =>
      exists xs', query p' = Some xs' /\ Forall2 (progressed (incoming 1)) two xs' /\
        expected = expected_withdrawn 150000 (incoming 1) two
  end.
Proof.
  split; [vm_refl|].
  assert (Hs : Forall sound_record two).
  { apply List.Forall_cons; [apply incoming_sound|apply List.Forall_cons; [apply incoming_sound|apply List.Forall_nil]]. }
  assert (Hn : Z.abs 150000 <= 2 ^ 53) by lia.
  exact (withdrawal_optimistic slow_node payer (Some payer) 150000 (incoming 1) two listed eq_refl Hs Hn).
Defined.

(** Two withdrawals at once: when the first one fails, the list it puts back
    undoes the update of the second one, whose transaction went through. *)
Example rollback_undoes_other :
  match onMutate (Some payer) 150000 (incoming 1) listed with
  | (Returns first, p1) =>
      match withdraw slow_node (Some payer) (Some payer) 150000 (incoming 2) p1 with
      | (Returns _, p2) =>
          (withdrawn_of p2, withdrawn_of (onError (Some payer) first p2).2)
      | _ => ([], [])
      end
  | _ => ([], [])
  end = ([dint 50; dint 50], [dint 30; dint 30]).
Proof. vm_refl. Qed.

(** Against an indexer that never shows the withdrawal the poll waits 63 seconds. *)
Example poll_to_the_end :
  pollIndexerForWithdraw 1 (dint 30) (dint 50)
    (fun _ => {| aborted_before := false; aborted_waiting := false; answer := Returns two; aborted_fetching := false |}) false =
  (Invalidated, [1000; 2000; 4000; 8000; 16000; 32000]).
Proof. vm_refl. Qed.
