(* ===== verification/Cashflow.v ===== *)
(** * Cashflow: frontend/src/utils/cashflowCalculations.ts and the chart of
    frontend/src/components/dashboard/CashflowChart.tsx

    [midnight i] is the time at which the viewer's local day [i] days from today
    begins, in milliseconds; it is the browser's calendar.  [Date] values are
    numbers of milliseconds. *)
From S2P Require Import Prelude JsLang StableSort Double Floats StreamingAmount Dates.
Local Open Scope Z_scope.

(** ** Projection *)

Inductive StreamDirection := incoming | outgoing.

Record ProjectionStream := {
  ps_id : string;
  direction : StreamDirection;
  token : string;
  deposited : double;
  withdrawn : double;
  ratePerSecond : double;
  isActive : bool;
  isPaused : bool;
  startTime : option double;
  cliffDates : option (list double)
}.

Record CashflowPoint := { date : Z; actual : double; projected : double; balance : double; dailyRate : double }.

Definition is_outgoing (s : ProjectionStream) : bool := match direction s with outgoing => true | incoming => false end.

Definition remaining (s : ProjectionStream) : double := Math_max (dint 0) (dsub (deposited s) (withdrawn s)).

(** [stream.startTime && stream.startTime * 1000 > date.getTime()] *)
Definition not_started (s : ProjectionStream) (date : Z) : bool :=
  match startTime s with
  | Some t => number_truthy t && dltb (dint date) (dmul t (dint 1000))
  | None => false
  end.

Definition day_flow (streams : list ProjectionStream) (date : Z) : double :=
  fold_left (fun total s =>
    if negb (isActive s) || isPaused s || not_started s date then total
    else
      let amount := dmul (ratePerSecond s) (dint 86400) in
      dadd total (if is_outgoing s then dneg amount else amount))
    streams (dint 0).

(** [Array.from] with the two running totals. *)
Fixpoint points (streams : list ProjectionStream) (midnight : nat -> Z) (n index : nat) (cumulative balance : double) :
    list CashflowPoint :=
  match n with
  | O => []
  | S n =>
      let date := midnight index in
      let day := day_flow streams date in
      let cumulative := dadd cumulative (Math_max (dint 0) day) in
      let balance := Math_max (dint 0) (dadd balance (Math_min (dint 0) day)) in
      {| date := date; actual := if (index =? 0)%nat then cumulative else dint 0;
         projected := cumulative; balance := balance; dailyRate := day |} ::
      points streams midnight n (S index) cumulative balance
  end.

Definition projectCashflow (streams : list ProjectionStream) (horizonDays : nat) (midnight : nat -> Z) : list CashflowPoint :=
  points streams midnight (horizonDays + 1) 0
    (dsum (map withdrawn (List.filter (fun s => negb (is_outgoing s)) streams)))
    (dsum (map remaining (List.filter is_outgoing streams))).

(** The time of a date made from a number: whole milliseconds within range. *)
Definition TimeClip (x : double) : option Z :=
  match Math_trunc x with
  | DFin t => if Z.abs (t / TICK) <=? MAX_TIME then Some (t / TICK) else None
  | _ => None
  end.

(** No date, or a date, which may be invalid ([Some None]). *)
Definition estimateRunwayDate (streams : list ProjectionStream) (now : Z) : option (option Z) :=
  let paying := List.filter (fun s => is_outgoing s && isActive s && negb (isPaused s)) streams in
  let balance := dsum (map remaining paying) in
  let rate := dsum (map (fun s => dmul (ratePerSecond s) (dint 86400)) paying) in
  if dleb balance (dint 0) || dleb rate (dint 0) then None
  else Some (TimeClip (dadd (dint now) (dmul (ddiv balance rate) (dint 86400000)))).

(** [a.getTime() - b.getTime() <= 0]; an invalid date counts as equal. *)
Definition time_le (a b : option Z) : bool :=
  match a, b with Some x, Some y => x <=? y | _, _ => true end.

Definition getCliffDates (streams : list ProjectionStream) : list (option Z) :=
  stable_sort time_le
    (flat_map (fun s => map (fun t => TimeClip (dmul t (dint 1000))) (default [] (cliffDates s))) streams).

(** ** The chart *)

Record ChartStream := {
  ch_sender : string;
  ch_tokenSymbol : string;
  ch_ratePerSecond : double;
  ch_startTime : double; (* seconds *)
  ch_endTime : option double
}.

Record DailyFlow := { df_date : Z; df_incoming : double; df_outgoing : double; net : double; cumulativeNet : double }.

Definition flows_on (tokenFilter : string) (s : ChartStream) (date : Z) : bool :=
  (bool_decide (tokenFilter = "all"%string) || bool_decide (ch_tokenSymbol s = tokenFilter)) &&
  match TimeClip (dmul (ch_startTime s) (dint 1000)) with Some t => t <=? date | None => false end &&
  match ch_endTime s with
  | Some e =>
      negb (number_truthy e) || match TimeClip (dmul e (dint 1000)) with Some t => date <=? t | None => false end
  | None => true
  end.

Definition flow_sum (keep : ChartStream -> bool) (streams : list ChartStream) : double :=
  fold_left (fun sum s => if keep s then dadd sum (dmul (ch_ratePerSecond s) (dint 86400)) else sum) streams (dint 0).

Section chart.
Context (streams : list ChartStream) (userPublicKey : option string) (tokenFilter : string).

Definition pays (s : ChartStream) : bool := bool_decide (Some (ch_sender s) = userPublicKey).

Definition day_of_chart (date : Z) : double * double :=
  (flow_sum (fun s => flows_on tokenFilter s date && negb (pays s)) streams,
   flow_sum (fun s => flows_on tokenFilter s date && pays s) streams).

Fixpoint daily_flows (midnight : nat -> Z) (n i : nat) (cumulative : double) : list DailyFlow :=
  match n with
  | O => []
  | S n =>
      let '(received, paid) := day_of_chart (midnight i) in
      let net := dsub received paid in
      let cumulative := dadd cumulative net in
      {| df_date := midnight i; df_incoming := received; df_outgoing := paid; net := net;
         cumulativeNet := cumulative |} :: daily_flows midnight n (S i) cumulative
  end.

Definition dailyFlows (midnight : nat -> Z) (days : nat) : list DailyFlow := daily_flows midnight days 0 (dint 0).
End chart.

Record Summary := { totalIncoming : double; totalOutgoing : double; totalNet : double; netFlowPerDay : double; isPositive : bool }.

Definition summary (flows : list DailyFlow) (days : Z) : Summary :=
  let totalIncoming := dsum (map df_incoming flows) in
  let totalOutgoing := dsum (map df_outgoing flows) in
  let totalNet := dsub totalIncoming totalOutgoing in
  {| totalIncoming := totalIncoming; totalOutgoing := totalOutgoing; totalNet := totalNet;
     netFlowPerDay := ddiv_pos totalNet days; isPositive := dleb (dint 0) totalNet |}.

Definition minCumulative (flows : list DailyFlow) : double := fold_right Math_min (dint 0) (map cumulativeNet flows).
Definition maxCumulative (flows : list DailyFlow) : double := fold_right Math_max (dint 0) (map cumulativeNet flows).

Definition normalize (value min max : double) : double :=
  let difference := dsub max min in
  let range := if number_truthy difference then difference else dint 1 in
  dmul (ddiv (dsub value min) range) (dint 100).

(** The height of a point of the line, from the top. *)
Definition height (flows : list DailyFlow) (flow : DailyFlow) : double :=
  dsub (dint 100) (normalize (cumulativeNet flow) (minCumulative flows) (maxCumulative flows)).

(** * The projected cash flow and its chart

    A projection has a point per day; its balance never rises nor goes below
    zero and what it projects never falls.  Every point of the chart's line lies
    inside its frame, rounding included. *)

Local Open Scope Z_scope.

(** ** Sums stay within bounds *)

Lemma within_number B x : within B x -> is_NaN x = false.
Proof. intros H. apply finite_number, (within_finite _ _ H). Qed.

Lemma within_neg B x : within B x -> within B (dneg x).
Proof.
  intros H. destruct (within_finite _ _ H) as [a ->]. destruct H as [H1 H2]. unfold within, dle, dint in *. simpl in *.
  rewrite Z.leb_le in *. lia.
Qed.

Lemma dneg_dneg x : dneg (dneg x) = x.
Proof. destruct x as [|[]|t]; simpl; try done. f_equal. lia. Qed.

Lemma within_add B C x y : B + C <= 2 ^ 53 -> 0 <= B -> 0 <= C -> within B x -> within C y -> within (B + C) (dadd x y).
Proof.
  intros HBC HB HC Hx Hy. rewrite <- (dneg_dneg y). apply within_sub; auto using within_neg.
Qed.

Lemma within_dmul B k x : 0 <= B -> 0 <= k -> B * k <= 2 ^ 53 -> within B x -> within (B * k) (dmul x (dint k)).
Proof.
  intros HB Hk HBk H. pose proof (within_finite _ _ H) as Hf. destruct H as [H1 H2].
  assert (Hn : nonneg (dint k)) by (unfold nonneg, dle; rewrite dleb_dint; lia).
  split.
  - rewrite <- Z.mul_opp_l, <- dmul_dint by lia. apply dmul_mono; auto using finite_dint.
  - rewrite <- dmul_dint by lia. apply dmul_mono; auto using finite_dint.
Qed.

(** Steps that each add at most [C], or nothing. *)
Lemma fold_within {A} (step : double -> A -> double) C l B acc :
  0 <= C -> 0 <= B -> B + C * Z.of_nat (length l) <= 2 ^ 53 ->
  (forall acc x, In x l -> step acc x = acc \/ exists y, step acc x = dadd acc y /\ within C y) ->
  within B acc -> within (B + C * Z.of_nat (length l)) (fold_left step l acc).
Proof.
  intros HC. revert B acc. induction l as [|x l IH]; intros B acc HB Hb Hstep Hacc; cbn [length fold_left] in *.
  { by replace (B + C * Z.of_nat 0) with B by lia. }
  replace (B + C * Z.of_nat (S (length l))) with (B + C + C * Z.of_nat (length l)) by lia.
  apply IH; try lia.
  - intros. apply Hstep. by right.
  - destruct (Hstep acc x (or_introl eq_refl)) as [-> | (y & -> & Hy)].
    + apply (within_le B); [lia|done].
    + apply within_add; auto; lia.
Qed.

(** Adding what is not positive does not raise a double. *)
Lemma dadd_le B x y : B <= 2 ^ 53 -> is_double x -> within B x -> finite y -> dle y (dint 0) -> dle (dadd x y) x.
Proof.
  intros HB Hr Hx [b ->] Hy. destruct (within_finite _ _ Hx) as [a ->]. apply (within_le B (2 ^ 53) _ HB) in Hx.
  destruct Hx as [H1 H2]. unfold dle, dint, is_double in *. simpl in *. rewrite Z.leb_le in *.
  pose proof TICK_pos. assert (2 ^ 53 < 2 ^ 1024) by (apply Z.pow_lt_mono_r; lia).
  pose proof (of_ticks_exact a 1 ltac:(lia) Hr ltac:(nia)) as He. rewrite Z.mul_1_r in He.
  pose proof (of_ticks_mono (a + b) a 1 ltac:(lia) ltac:(lia)) as Hm. by rewrite He in Hm.
Qed.

Lemma within_between B x y : within B y -> dle (dint 0) x -> dle x y -> 0 <= B -> within B x.
Proof.
  intros [_ H] H0 Hxy HB. split; eapply dle_trans; eauto. unfold dle. rewrite dleb_dint. lia.
Qed.

(** ** Projection *)

(** What the streams of a portfolio hold, within what a double adds up exactly. *)
Record modest (streams : list ProjectionStream) : Prop := {
  md_streams : (length streams <= 1024)%nat;
  md_rate : forall s, In s streams -> within (2 ^ 26) (ratePerSecond s);
  md_deposited : forall s, In s streams -> within (2 ^ 41) (deposited s);
  md_withdrawn : forall s, In s streams -> within (2 ^ 41) (withdrawn s) /\ nonneg (withdrawn s)
}.

Section projection.
Context (streams : list ProjectionStream) (Hm : modest streams).

Lemma day_flow_number date : within (2 ^ 53) (day_flow streams date).
Proof.
  pose proof (md_streams _ Hm). unfold day_flow.
  apply (within_le (0 + 2 ^ 26 * 86400 * Z.of_nat (length streams))); [lia|].
  apply fold_within; try lia; [|apply within_dint; lia].
  intros acc s Hs. case_match; [by left|right]. pose proof (md_rate _ Hm s Hs) as Hr.
  assert (within (2 ^ 26 * 86400) (dmul (ratePerSecond s) (dint 86400))) by (apply within_dmul; auto; lia).
  case_match; eauto using within_neg.
Qed.

Lemma dsum_of (f : ProjectionStream -> double) (keep : ProjectionStream -> bool) :
  (forall s, In s streams -> within (2 ^ 42) (f s)) -> within (2 ^ 52) (dsum (map f (List.filter keep streams))).
Proof.
  intros Hf. pose proof (md_streams _ Hm). pose proof (List.filter_length_le keep streams).
  unfold dsum. apply (within_le (0 + 2 ^ 42 * Z.of_nat (length (map f (List.filter keep streams))))).
  { rewrite List.length_map. lia. }
  apply fold_within; try lia; [rewrite List.length_map; lia| |apply within_dint; lia].
  intros acc x (s & <- & [Hs _]%List.filter_In)%in_map_iff. right. eauto.
Qed.

Lemma remaining_within s : In s streams -> within (2 ^ 42) (remaining s) /\ nonneg (remaining s).
Proof.
  intros Hs. pose proof (md_deposited _ Hm s Hs). destruct (md_withdrawn _ Hm s Hs).
  assert (within (2 ^ 41 + 2 ^ 41) (dsub (deposited s) (withdrawn s))) by (apply within_sub; auto; lia).
  unfold remaining. split; [apply within_max; [apply within_dint; lia|done]|].
  apply Math_max_spec; [done|]. eapply within_number; eauto.
Qed.
End projection.

(** Sums of numbers that are not negative are not negative, and doubles. *)
Lemma dsum_nonneg xs : Forall (fun x => nonneg x /\ finite x) xs -> nonneg (dsum xs) /\ is_double (dsum xs).
Proof.
  unfold dsum. assert (H0 : nonneg (dint 0) /\ is_double (dint 0)) by (split; [done|apply dint_0_double]).
  revert H0. generalize (dint 0) as acc. induction xs as [|x xs IH]; intros acc [Hn Hd] H; simpl; [done|].
  apply list.Forall_cons in H as [[Hx Hf] H]. apply IH; [|done].
  assert (dle acc (dadd acc x)) by (apply dadd_ge; auto; apply (dle_number _ _ Hn)).
  split; [unfold nonneg; eauto using dle_trans|apply dadd_double].
Qed.

Definition falling (l : list CashflowPoint) : Prop := forall i p q, l !! i = Some p -> l !! S i = Some q -> dle (balance q) (balance p).
Definition rising (l : list CashflowPoint) : Prop := forall i p q, l !! i = Some p -> l !! S i = Some q -> dle (projected p) (projected q).

Section points.
Context (streams : list ProjectionStream) (midnight : nat -> Z) (Hm : modest streams).

(** The step from one day to the next. *)
Lemma balance_step b date : is_double b -> within (2 ^ 52) b -> nonneg b ->
  let b' := Math_max (dint 0) (dadd b (Math_min (dint 0) (day_flow streams date))) in
  is_double b' /\ within (2 ^ 52) b' /\ nonneg b' /\ dle b' b.
Proof.
  intros Hd Hw Hn b'. pose proof (day_flow_number streams Hm date) as Hf.
  assert (Hmin : finite (Math_min (dint 0) (day_flow streams date)) /\ dle (Math_min (dint 0) (day_flow streams date)) (dint 0)).
  { destruct (Math_min_spec (dint 0) (day_flow streams date) eq_refl (within_number _ _ Hf)) as (H1 & _ & H2).
    split; [|done]. destruct H2 as [-> | ->]; [by eexists|by eapply within_finite]. }
  destruct Hmin as [Hfin Hle].
  assert (Hdn : is_NaN (dadd b (Math_min (dint 0) (day_flow streams date))) = false) by (apply dadd_number; [by eapply within_number|done]).
  pose proof (dadd_le (2 ^ 52) b _ ltac:(lia) Hd Hw Hfin Hle) as Hdown.
  destruct (Math_max_spec (dint 0) _ eq_refl Hdn) as (H1 & _ & H2). fold b' in H1, H2.
  assert (Hb : dle b' b) by (destruct H2 as [-> | ->]; done).
  split_and!; auto; [|eapply within_between; eauto; lia].
  destruct H2 as [-> | ->]; [apply dint_0_double|apply dadd_double].
Qed.

Lemma cumulative_step c date : is_double c -> nonneg c ->
  let c' := dadd c (Math_max (dint 0) (day_flow streams date)) in is_double c' /\ nonneg c' /\ dle c c'.
Proof.
  intros Hd Hn c'. pose proof (day_flow_number streams Hm date) as Hf.
  destruct (Math_max_spec (dint 0) (day_flow streams date) eq_refl (within_number _ _ Hf)) as (H1 & _ & _).
  assert (dle c c') by (apply dadd_ge; auto; apply (dle_number _ _ Hn)).
  split_and!; [apply dadd_double|unfold nonneg; eauto using dle_trans|done].
Qed.

Lemma points_sound n : forall index c b, is_double b -> within (2 ^ 52) b -> nonneg b -> is_double c -> nonneg c ->
  let l := points streams midnight n index c b in
  length l = n /\ falling l /\ rising l /\ Forall (fun p => nonneg (balance p)) l /\
  (forall p, l !! 0%nat = Some p -> dle (balance p) b /\ dle c (projected p)) /\
  (forall i p, l !! i = Some p -> date p = midnight (index + i)%nat).
Proof.
  induction n as [|n IH]; intros index c b Hd Hw Hn Hcd Hc.
  { repeat split; try done; intros [|]; intros; done. }
  destruct (balance_step b (midnight index) Hd Hw Hn) as (Hd' & Hw' & Hn' & Hle).
  destruct (cumulative_step c (midnight index) Hcd Hc) as (Hcd' & Hc' & Hcle).
  specialize (IH (S index) _ _ Hd' Hw' Hn' Hcd' Hc'). cbn zeta in IH. cbn [points]. cbv zeta.
  set (rest := points streams midnight n _ _ _) in *. destruct IH as (Hl & Hf & Hr & Hb & Hfirst & Hdate).
  split_and!.
  - simpl. by rewrite Hl.
  - intros [|i] p q; simpl; [intros [= <-] Hq; by apply Hfirst|apply Hf].
  - intros [|i] p q; simpl; [intros [= <-] Hq; by apply Hfirst|apply Hr].
  - by constructor.
  - intros p [= <-]. done.
  - intros [|i] p; simpl; [intros [= <-]; by rewrite Nat.add_0_r|].
    intros H. rewrite (Hdate _ _ H). f_equal. lia.
Qed.
End points.

(** The projection of a portfolio has a point for today and for each day of the
    horizon, dated by the calendar; the balance it shows never rises from one
    day to the next and is never negative, and the projected income never
    falls. *)
Theorem projection_sound (streams : list ProjectionStream) (midnight : nat -> Z) (horizonDays : nat) :
  modest streams ->
  let l := projectCashflow streams horizonDays midnight in
  length l = S horizonDays /\ falling l /\ rising l /\ Forall (fun p => nonneg (balance p)) l /\
  (forall i p, l !! i = Some p -> date p = midnight i).
Proof.
  intros Hm. unfold projectCashflow.
  assert (Hrem : forall s, In s streams -> within (2 ^ 42) (remaining s)) by (intros; by apply (remaining_within streams)).
  assert (Hw : forall s, In s streams -> within (2 ^ 42) (withdrawn s)).
  { intros s Hs. apply (within_le (2 ^ 41)); [lia|]. by apply (md_withdrawn _ Hm). }
  destruct (dsum_nonneg (map remaining (List.filter is_outgoing streams))) as [Hn Hd].
  { apply List.Forall_map, List.Forall_forall. intros s [Hs _]%List.filter_In. split; [by apply (remaining_within streams)|].
    by eapply within_finite, Hrem. }
  destruct (dsum_nonneg (map withdrawn (List.filter (fun s => negb (is_outgoing s)) streams))) as [Hcn Hcd].
  { apply List.Forall_map, List.Forall_forall. intros s [Hs _]%List.filter_In. split; [by apply (md_withdrawn _ Hm)|].
    by eapply within_finite, Hw. }
  destruct (points_sound streams midnight Hm (horizonDays + 1) 0 _ _ Hd (dsum_of streams Hm _ _ Hrem) Hn Hcd Hcn)
    as (H1 & H2 & H3 & H4 & _ & H6). cbv zeta. split_and!; auto. rewrite H1. lia.
Qed.

(** ** The chart stays in its frame *)

Lemma fold_extreme (f : double -> double -> double) (R : double -> double -> Prop) l :
  (forall x y, is_NaN x = false -> is_NaN y = false -> R (f x y) x /\ R (f x y) y /\ (f x y = x \/ f x y = y)) ->
  (forall x y z, R x y -> R y z -> R x z) -> (forall x, is_NaN x = false -> R x x) ->
  Forall finite l ->
  let e := fold_right f (dint 0) l in finite e /\ R e (dint 0) /\ Forall (R e) l.
Proof.
  intros Hf Ht Hr. induction 1 as [|x l Hx _ (Hfin & H0 & Hl)]; simpl.
  { split_and!; [by eexists|by apply Hr|done]. }
  destruct (Hf x (fold_right f (dint 0) l)) as (H1 & H2 & H3); [by apply finite_number..|].
  split_and!; [by destruct H3 as [-> | ->]|by eapply Ht|].
  constructor; [done|]. eapply List.Forall_impl; [|exact Hl]. intros y Hy. by eapply Ht.
Qed.

(** A part of a whole is between nothing and one hundred per cent of it. *)
Lemma share_bounds a r : 0 < r -> 0 <= a <= r ->
  let s := dmul (ddiv (DFin a) (DFin r)) (dint 100) in finite s /\ dle (dint 0) s /\ dle s (dint 100).
Proof.
  intros Hr Ha. pose proof TICK_pos. unfold ddiv. rewrite (proj2 (Z.eqb_neq r 0)), Z.sgn_pos, Z.abs_eq by lia.
  pose proof (of_ticks_mono 0 (a * 1 * TICK) r Hr ltac:(nia)) as H0. rewrite of_ticks_0 in H0 by done.
  pose proof (of_ticks_mono (a * 1 * TICK) (1 * TICK * r) r Hr ltac:(nia)) as H1. rewrite of_ticks_integer in H1 by lia.
  assert (Hw : within 1 (of_ticks (a * 1 * TICK) r)).
  { split; [|done]. eapply dle_trans; [|exact H0]. by vm_compute. }
  assert (Hn : nonneg (dint 100)) by by vm_compute.
  pose proof (within_dmul 1 100 _ ltac:(lia) ltac:(lia) ltac:(lia) Hw) as Hs.
  pose proof (within_finite _ _ Hw) as Hfw.
  cbv zeta. split_and!; [by eapply within_finite| |exact (proj2 Hs)].
  pose proof (dmul_mono _ _ _ Hn (finite_dint 100) (finite_dint 0) Hfw H0) as Hm.
  by rewrite dmul_dint in Hm by lia.
Qed.

Lemma extreme_within (f : double -> double -> double) l :
  (forall x y, is_NaN x = false -> is_NaN y = false -> f x y = x \/ f x y = y) ->
  Forall (within (2 ^ 52)) l -> within (2 ^ 52) (fold_right f (dint 0) l).
Proof.
  intros Hf. induction 1 as [|x l Hx _ IH]; simpl; [apply within_dint; lia|].
  destruct (Hf x (fold_right f (dint 0) l)) as [-> | ->]; eauto using within_number.
Qed.

Lemma dsub_self x : finite x -> dsub x x = dint 0.
Proof. intros [a ->]. unfold dsub. simpl. rewrite Z.add_opp_diag_r. apply of_ticks_0. lia. Qed.

Lemma dsub_anti x y z : finite x -> finite y -> finite z -> dle x y -> dle (dsub z y) (dsub z x).
Proof. intros [a ->] [b ->] [c ->] H. unfold dle in *. simpl in *. apply of_ticks_mono; lia. Qed.

Lemma height_bounds B flows f :
  2 * B <= 2 ^ 53 -> 0 <= B -> within B (minCumulative flows) -> within B (maxCumulative flows) ->
  dle (minCumulative flows) (cumulativeNet f) -> dle (cumulativeNet f) (maxCumulative flows) ->
  dle (dint 0) (height flows f) /\ dle (height flows f) (dint 100).
Proof.
  intros HB HB0 Hmin Hmax H1 H2. unfold height, normalize.
  set (lo := minCumulative flows) in *. set (hi := maxCumulative flows) in *. set (v := cumulativeNet f) in *.
  assert (Hlo : finite lo) by by eapply within_finite.
  assert (Hd : within (B + B) (dsub hi lo)) by (apply within_sub; auto; lia).
  destruct (within_finite _ _ Hd) as [r Er].
  pose proof (dsub_mono _ _ lo Hlo H1) as Ha. rewrite dsub_self in Ha by done.
  pose proof (dsub_mono _ _ lo Hlo H2) as Hb. rewrite Er in *.
  assert (exists a, dsub v lo = DFin a) as [a Ea].
  { destruct (dsub v lo) as [|[]|a]; try done. by eexists. }
  rewrite Ea in *. unfold dle in Ha, Hb. simpl in Ha, Hb. apply Z.leb_le in Ha, Hb.
  assert (exists r', 0 < r' /\ 0 <= a <= r' /\ (if number_truthy (DFin r) then DFin r else dint 1) = DFin r') as (r' & Hr & Har & ->).
  { pose proof TICK_pos. destruct (decide (r = 0)) as [->|Hr]; [exists TICK|exists r].
    - split_and!; [lia..|]. unfold number_truthy. rewrite bool_decide_eq_true_2 by done. simpl. unfold dint. by rewrite Z.mul_1_l.
    - split_and!; [lia..|]. unfold number_truthy. rewrite bool_decide_eq_false_2; [done|]. unfold dint. by intros [=]. }
  destruct (share_bounds a r' Hr Har) as (Hs & Hs0 & Hs1). split.
  - rewrite <- (dsub_self (dint 100)) by apply finite_dint. apply dsub_anti; auto using finite_dint.
  - eapply dle_trans; [apply (dsub_anti (dint 0)); auto using finite_dint|]. rewrite dsub_dint by lia. by vm_compute.
Qed.

(** A rendered chart has bounded figures: at most 1024 streams of moderate rates
    and at most 90 days. *)
Record modest_chart (streams : list ChartStream) (days : nat) : Prop := {
  mc_streams : (length streams <= 1024)%nat;
  mc_days : (days <= 90)%nat;
  mc_rate : forall s, In s streams -> within (2 ^ 18) (ch_ratePerSecond s)
}.

Section chart.
Context (streams : list ChartStream) (userPublicKey : option string) (tokenFilter : string) (days : nat).
Context (Hm : modest_chart streams days) (midnight : nat -> Z).

Definition DAY_BOUND : Z := 2 ^ 18 * 86400 * 1024.

Lemma flow_sum_within keep : within DAY_BOUND (flow_sum keep streams).
Proof.
  pose proof (mc_streams _ _ Hm). unfold DAY_BOUND.
  apply (within_le (0 + 2 ^ 18 * 86400 * Z.of_nat (length streams))); [lia|]. unfold flow_sum.
  apply fold_within; try lia; [|apply within_dint; lia].
  intros acc s Hs. case_match; [right|by left]. eexists. split; [reflexivity|].
  apply within_dmul; try lia. by apply (mc_rate _ _ Hm).
Qed.

Lemma daily_flows_within n : forall i B c, 0 <= B -> B + 2 * DAY_BOUND * Z.of_nat n <= 2 ^ 52 -> within B c ->
  Forall (fun f => within (2 ^ 52) (cumulativeNet f)) (daily_flows streams userPublicKey tokenFilter midnight n i c) /\
  length (daily_flows streams userPublicKey tokenFilter midnight n i c) = n.
Proof.
  assert (HD : 0 <= DAY_BOUND) by (unfold DAY_BOUND; lia).
  induction n as [|n IH]; intros i B c HB Hb Hc; [done|].
  assert (0 <= DAY_BOUND * Z.of_nat n) by nia. unfold daily_flows; fold daily_flows. unfold day_of_chart. cbv beta zeta.
  assert (Hn : within (DAY_BOUND + DAY_BOUND)
    (dsub (flow_sum (fun s => flows_on tokenFilter s (midnight i) && negb (pays userPublicKey s)) streams)
          (flow_sum (fun s => flows_on tokenFilter s (midnight i) && pays userPublicKey s) streams)))
    by (apply within_sub; auto using flow_sum_within; unfold DAY_BOUND; lia).
  assert (Hc' := within_add B (DAY_BOUND + DAY_BOUND) c _ ltac:(lia) HB ltac:(lia) Hc Hn).
  destruct (IH (S i) (B + (DAY_BOUND + DAY_BOUND)) _ ltac:(lia) ltac:(lia) Hc') as [H1 H2].
  split; [constructor; [eapply within_le; [|exact Hc']; lia|exact H1]|]. cbn [length]. by f_equal.
Qed.

End chart.

(** Every point of the chart's line is drawn between the top and the bottom of
    the frame, for any mix of streams and any local calendar. *)
Theorem chart_in_frame (streams : list ChartStream) (userPublicKey : option string) (tokenFilter : string)
    (midnight : nat -> Z) (days : nat) :
  modest_chart streams days ->
  let flows := dailyFlows streams userPublicKey tokenFilter midnight days in
  length flows = days /\
  Forall (fun f => dle (dint 0) (height flows f) /\ dle (height flows f) (dint 100)) flows.
Proof.
  intros Hm flows. pose proof (mc_days _ _ Hm).
  destruct (daily_flows_within streams userPublicKey tokenFilter days Hm midnight days 0 0 (dint 0)) as [Hf Hl];
    [lia|change DAY_BOUND with 23192823398400; lia|apply within_dint; lia|]. fold (dailyFlows streams userPublicKey tokenFilter midnight days) in *.
  fold flows in Hf, Hl. split; [done|].
  assert (Hw : Forall (within (2 ^ 52)) (map cumulativeNet flows)) by by apply List.Forall_map.
  assert (Hfin : Forall finite (map cumulativeNet flows)) by (eapply List.Forall_impl; [apply within_finite|exact Hw]).
  destruct (fold_extreme Math_min dle _ Math_min_spec dle_trans dle_refl Hfin) as (Hmin & Hmin0 & Hmins).
  destruct (fold_extreme Math_max (fun x y => dle y x) (map cumulativeNet flows)) as (Hmax & Hmax0 & Hmaxs); auto using dle_refl.
  { intros x y Hx Hy. by apply Math_max_spec. }
  { eauto using dle_trans. }
  assert (Hext : within (2 ^ 52) (minCumulative flows) /\ within (2 ^ 52) (maxCumulative flows)).
  { split; apply (extreme_within _ (map cumulativeNet flows)); auto; intros x y Hx Hy; [by apply Math_min_spec|by apply Math_max_spec]. }
  apply List.Forall_forall. intros f Hin.
  rewrite List.Forall_map, List.Forall_forall in Hmins, Hmaxs.
  apply (height_bounds (2 ^ 52)); try apply Hext; auto; lia.
Qed.
