(* ===== verification/Tracker.v ===== *)
(** * Following a transaction: components/TransactionTracker.tsx and
    app/incoming/incoming-content.tsx of the frontend

    The tracker's state with its transitions, the comparison of a row with what
    was expected of it, the summary of what changed, and the effect that polls
    the indexer.  [fetch k] is what the k-th request comes to; a poll that was
    cancelled (the component unmounted or its inputs changed) before or during a
    request says no more.  The page of incoming streams composes the tracker with
    the withdrawal of [Incoming]. *)
From S2P Require Import Prelude JsLang StreamId Json Schema Amount Soroban Simulate Double WalletCalls ApiClient Incoming.
Local Open Scope Z_scope.
Local Open Scope string_scope.

(** ** The tracker's state *)

Inductive TransactionStatus :=
| tx_idle | tx_signing | tx_submitted | tx_confirming | tx_confirmed | tx_failed | tx_cancelled.

Inductive TransactionAction := act_create | act_withdraw | act_topup | act_cancel | act_pause | act_resume.

(** What is going on, and what was done. *)
Definition ACTION_LABELS (a : TransactionAction) : string * string :=
  match a with
  | act_create => ("Creating stream", "Stream created")
  | act_withdraw => ("Withdrawing", "Withdrawn")
  | act_topup => ("Topping up", "Topped up")
  | act_cancel => ("Cancelling stream", "Stream cancelled")
  | act_pause => ("Pausing stream", "Stream paused")
  | act_resume => ("Resuming stream", "Stream resumed")
  end.

#[export] Instance TransactionStatus_eq_dec : EqDecision TransactionStatus.
Proof. solve_decision. Defined.

Record Tracker := {
  tr_status : TransactionStatus;
  tr_txHash : option string;
  tr_error : option string;
  tr_errorCode : option string
}.

(** [useState] of the hook, and [reset] *)
Definition idle_tracker : Tracker :=
  {| tr_status := tx_idle; tr_txHash := None; tr_error := None; tr_errorCode := None |}.
Definition reset (t : Tracker) : Tracker := idle_tracker.

Definition with_status (s : TransactionStatus) (t : Tracker) : Tracker :=
  {| tr_status := s; tr_txHash := tr_txHash t; tr_error := tr_error t; tr_errorCode := tr_errorCode t |}.

Definition start (t : Tracker) : Tracker :=
  {| tr_status := tx_signing; tr_txHash := tr_txHash t; tr_error := None; tr_errorCode := None |}.
Definition submit (hash : string) (t : Tracker) : Tracker :=
  {| tr_status := tx_submitted; tr_txHash := Some hash; tr_error := tr_error t; tr_errorCode := tr_errorCode t |}.
Definition confirm : Tracker -> Tracker := with_status tx_confirming.
Definition succeed : Tracker -> Tracker := with_status tx_confirmed.
Definition fail (err : string) (code : option string) (t : Tracker) : Tracker :=
  {| tr_status := tx_failed; tr_txHash := tr_txHash t; tr_error := Some err; tr_errorCode := code |}.
Definition cancel : Tracker -> Tracker := with_status tx_cancelled.

(** ** What is expected of a row *)

Record ExpectedChanges := {
  xc_depositedAmount : option string;
  xc_withdrawnAmount : option string;
  xc_isActive : option bool;
  xc_isPaused : option bool
}.

Definition unchanged {A} `{EqDecision A} (expected : option A) (current : A) : bool :=
  match expected with Some x => bool_decide (current = x) | None => true end.

Definition checkConfirmation (current : Stream) (expected : option ExpectedChanges) : bool :=
  match expected with
  | None => true
  | Some x =>
      unchanged (xc_depositedAmount x) (depositedAmount current) &&
      unchanged (xc_withdrawnAmount x) (withdrawnAmount current) &&
      unchanged (xc_isActive x) (isActive current)
  end.

Inductive Change := Deposited_more (text : string) | Withdrawn_more (text : string) | Status_now (active : bool).

(** The difference of two amounts, as it is shown. *)
Definition difference (before after : string) : outcome string :=
  let? a := BigInt_of_string after in
  let? b := BigInt_of_string before in
  Returns (formatAmount (a - b) 7).

(** The lines of the summary; none stands for its text without changes. *)
Definition renderChanges (prev current : Stream) : outcome (list Change) :=
  let? deposited :=
    if bool_decide (depositedAmount prev = depositedAmount current) then Returns []
    else let? text := difference (depositedAmount prev) (depositedAmount current) in Returns [Deposited_more text] in
  let? withdrawn :=
    if bool_decide (withdrawnAmount prev = withdrawnAmount current) then Returns []
    else let? text := difference (withdrawnAmount prev) (withdrawnAmount current) in Returns [Withdrawn_more text] in
  Returns (deposited ++ withdrawn ++
           (if bool_decide (isActive prev = isActive current) then [] else [Status_now (isActive current)]))%list.

(** ** Polling *)

Definition POLL_INTERVAL : Z := 3000.
Definition MAX_POLL_ATTEMPTS : nat := 20.

Inductive Toast := Success (text : string) | Failure (text : string).

(** How a poll ends: the message it leaves, the requests made, the milliseconds
    waited between them and the last row it was given. *)
Record PollEnd := { pe_toast : option Toast; pe_requests : nat; pe_waited : Z; pe_stream : option Stream }.

Section polling.
Context (action : TransactionAction) (expected : option ExpectedChanges).
Context (fetch : nat -> outcome Stream) (before during : nat -> bool).

(** [None]: out of fuel. *)
Fixpoint poll (fuel attempts : nat) (waited : Z) (stream : option Stream) : option PollEnd :=
  let ends toast attempts stream :=
    Some {| pe_toast := toast; pe_requests := attempts; pe_waited := waited; pe_stream := stream |} in
  match fuel with
  | O => None
  | S fuel =>
      if before attempts then ends None attempts stream
      else if (MAX_POLL_ATTEMPTS <=? attempts)%nat then
        ends (Some (Failure "Confirmation timeout - please check explorer for status")) attempts stream
      else
        let again stream :=
          if during attempts then ends None (S attempts) stream
          else poll fuel (S attempts) (waited + POLL_INTERVAL)%Z stream in
        match fetch attempts with
        | Throws _ => again stream
        | Returns data =>
            if checkConfirmation data expected && negb (during attempts) then
              ends (Some (Success ((ACTION_LABELS action).2 +:+ " successfully!"))) (S attempts) (Some data)
            else again (Some data)
        end
  end.
End polling.

(** The effect runs only while a stream is being confirmed. *)
Definition polls (t : Tracker) (streamId : option string) : bool :=
  bool_decide (tr_status t = tx_confirming) &&
  match streamId with Some (String _ _) => true | _ => false end.

(** ** The page of incoming streams *)

Record IncomingPage := { ip_page : Incoming.Page; ip_tracker : Tracker; ip_toasts : list Toast }.

Section incoming.
Context {Sdk : SorobanSdk} (nd : Node) (session : option string).

(** [handleWithdraw], with the callbacks it gave the mutation. *)
Definition handleWithdraw (now : Z) (stream : IncomingStreamRecord) (p : IncomingPage) : IncomingPage :=
  let t := start (ip_tracker p) in
  match withdraw nd session session now stream (ip_page p) with
  | (Returns (txHash, _), page) =>
      {| ip_page := page; ip_tracker := confirm (submit txHash t);
         ip_toasts := (ip_toasts p ++
           [Success ("Withdrawal submitted for stream #" +:+ BigInt_toString (ir_streamId stream))])%list |}
  | (Throws error, page) =>
      let message := toSorobanErrorMessage error in
      {| ip_page := page; ip_tracker := fail message None t; ip_toasts := (ip_toasts p ++ [Failure message])%list |}
  end.

(** What the page hands the tracker names no stream. *)
Definition tracked_stream (p : IncomingPage) : option string := None.
End incoming.

(** * Following a transaction: properties *)

(** ** Polling *)

Section polling_facts.
Context (action : TransactionAction) (expected : option ExpectedChanges).
Context (fetch : nat -> outcome Stream) (before during : nat -> bool).

(** The k-th answer shows what was expected. *)
Definition shows (k : nat) : Prop := exists data, fetch k = Returns data /\ checkConfirmation data expected = true.
(** How the rest of a poll ends, from its attempt [from] on. *)
Inductive ends_from (from : nat) (waited : Z) : PollEnd -> Prop :=
| ends_confirmed k data stream :
    (from <= k < MAX_POLL_ATTEMPTS)%nat -> fetch k = Returns data -> checkConfirmation data expected = true ->
    (forall j, (from <= j < k)%nat -> ~ shows j) ->
    (forall j, (from <= j <= k)%nat -> before j = false /\ during j = false) ->
    stream = Some data ->
    ends_from from waited
      {| pe_toast := Some (Success ((ACTION_LABELS action).2 +:+ " successfully!")); pe_requests := S k;
         pe_waited := waited + POLL_INTERVAL * Z.of_nat (k - from); pe_stream := stream |}
| ends_timed_out stream :
    (forall j, (from <= j < MAX_POLL_ATTEMPTS)%nat -> ~ shows j /\ before j = false /\ during j = false) ->
    before MAX_POLL_ATTEMPTS = false ->
    ends_from from waited
      {| pe_toast := Some (Failure "Confirmation timeout - please check explorer for status");
         pe_requests := MAX_POLL_ATTEMPTS;
         pe_waited := waited + POLL_INTERVAL * Z.of_nat (MAX_POLL_ATTEMPTS - from); pe_stream := stream |}
| ends_cancelled k ms stream :
    (from <= k <= MAX_POLL_ATTEMPTS)%nat -> before k = true \/ ((from < k)%nat /\ during (pred k) = true) ->
    (waited <= ms <= waited + POLL_INTERVAL * Z.of_nat (k - from))%Z ->
    ends_from from waited {| pe_toast := None; pe_requests := k; pe_waited := ms; pe_stream := stream |}.

Lemma ends_step from waited r :
  (from < MAX_POLL_ATTEMPTS)%nat -> ~ shows from -> before from = false -> during from = false ->
  ends_from (S from) (waited + POLL_INTERVAL) r -> ends_from from waited r.
Proof.
  intros Hlt Hno Hb Hd H. destruct H as [k data stream Hk Hf Hc Hn Ha Hs|stream Ha Hb'|k ms stream Hk Hc Hms].
  - replace (waited + POLL_INTERVAL + POLL_INTERVAL * Z.of_nat (k - S from))%Z
      with (waited + POLL_INTERVAL * Z.of_nat (k - from))%Z by (unfold POLL_INTERVAL; lia).
    apply (ends_confirmed from waited k data); auto; try lia.
    + intros j Hj. destruct (decide (j = from)) as [->|]; [done|]. apply Hn. lia.
    + intros j Hj. destruct (decide (j = from)) as [->|]; [done|]. apply Ha. lia.
  - replace (waited + POLL_INTERVAL + POLL_INTERVAL * Z.of_nat (MAX_POLL_ATTEMPTS - S from))%Z
      with (waited + POLL_INTERVAL * Z.of_nat (MAX_POLL_ATTEMPTS - from))%Z by (unfold POLL_INTERVAL; lia).
    apply ends_timed_out; [|done].
    intros j Hj. destruct (decide (j = from)) as [->|]; [done|]. apply Ha. lia.
  - apply ends_cancelled; [lia| |unfold POLL_INTERVAL in *; lia].
    destruct Hc as [?|[? ?]]; [by left|right; split; [lia|done]].
Qed.

Lemma poll_ends fuel from waited stream :
  (from <= MAX_POLL_ATTEMPTS)%nat -> (MAX_POLL_ATTEMPTS - from < fuel)%nat ->
  exists r, poll action expected fetch before during fuel from waited stream = Some r /\ ends_from from waited r.
Proof.
  revert from waited stream. induction fuel as [|fuel IH]; intros from waited stream Hle Hf; [lia|].
  cbn [poll]. destruct (before from) eqn:Hb.
  { eexists. split; [reflexivity|]. apply ends_cancelled; [lia|by left|unfold POLL_INTERVAL; lia]. }
  destruct (Nat.leb_spec MAX_POLL_ATTEMPTS from) as [Hmax|Hmax].
  { assert (from = MAX_POLL_ATTEMPTS) as -> by lia. eexists. split; [reflexivity|].
    replace waited with (waited + POLL_INTERVAL * Z.of_nat (MAX_POLL_ATTEMPTS - MAX_POLL_ATTEMPTS))%Z at 2
      by (unfold POLL_INTERVAL; lia).
    apply ends_timed_out; [|done]. intros j Hj. lia. }
  assert (Hagain : forall st, ~ shows from ->
    exists r, (if during from then Some {| pe_toast := None; pe_requests := S from; pe_waited := waited; pe_stream := st |}
               else poll action expected fetch before during fuel (S from) (waited + POLL_INTERVAL)%Z st) = Some r /\
              ends_from from waited r).
  { intros st Hno. destruct (during from) eqn:Hd.
    - eexists. split; [reflexivity|]. apply ends_cancelled; [lia|right; split; [lia|done]|unfold POLL_INTERVAL; lia].
    - destruct (IH (S from) (waited + POLL_INTERVAL)%Z st ltac:(lia) ltac:(lia)) as (r & -> & Hr).
      eexists. split; [reflexivity|]. by apply ends_step. }
  destruct (fetch from) as [data|e] eqn:Hfetch.
  - destruct (checkConfirmation data expected) eqn:Hc; cbn [andb].
    + destruct (during from) eqn:Hd; cbn [negb].
      * eexists. split; [reflexivity|]. apply ends_cancelled; [lia|right; split; [lia|done]|unfold POLL_INTERVAL; lia].
      * eexists. split; [reflexivity|].
        replace waited with (waited + POLL_INTERVAL * Z.of_nat (from - from))%Z at 2 by (unfold POLL_INTERVAL; lia).
        apply (ends_confirmed from waited from data); auto; try lia.
        intros j Hj. by assert (j = from) as -> by lia.
    + apply Hagain. intros (d & Hd & Hd'). congruence.
  - apply Hagain. intros (d & Hd & _). congruence.
Qed.

(** A confirmation always comes to an end, within twenty requests and a minute
    of waiting between them: at the first row that shows what was expected, with
    the only message of success; after twenty rows that do not, with the
    time-out; or silently, once it is cancelled. *)
Theorem confirmation_polling_ends :
  exists r, poll action expected fetch before during (S MAX_POLL_ATTEMPTS) 0 0 None = Some r /\
    ends_from 0 0 r /\ (pe_requests r <= 20)%nat /\ (0 <= pe_waited r <= 60000)%Z.
Proof.
  destruct (poll_ends (S MAX_POLL_ATTEMPTS) 0 0 None) as (r & Hr & He); [unfold MAX_POLL_ATTEMPTS; lia..|].
  exists r. split; [done|]. split; [done|].
  unfold MAX_POLL_ATTEMPTS, POLL_INTERVAL in *.
  inversion He; subst; simpl; unfold MAX_POLL_ATTEMPTS, POLL_INTERVAL in *; lia.
Qed.
End polling_facts.

(** The comparison leaves out the pause: whatever pause was expected, every row
    confirms it, and so does every row when nothing is expected. *)
Theorem pause_confirmed_by_any_row (row : Stream) (paused : option bool) :
  checkConfirmation row None = true /\
  checkConfirmation row (Some {| xc_depositedAmount := None; xc_withdrawnAmount := None; xc_isActive := None;
                                 xc_isPaused := paused |}) = true.
Proof. done. Qed.

(** ** The page of incoming streams *)

Section incoming_facts.
Context {Sdk : SorobanSdk} (nd : Node) (session : option string).

Definition idle_page (query : option (list IncomingStreamRecord)) (o : Outbox) : IncomingPage :=
  {| ip_page := {| Incoming.query := query; outbox := o |}; ip_tracker := idle_tracker; ip_toasts := [] |}.

(** The withdrawals of a visit: the time and the row of each. *)
Definition visit (clicks : list (Z * IncomingStreamRecord)) (p : IncomingPage) : IncomingPage :=
  fold_left (fun p c => handleWithdraw nd session c.1 c.2 p) clicks p.

(** What the page says of a transaction, and what it is true of. *)
Definition reported (p : IncomingPage) : Prop :=
  match tr_status (ip_tracker p) with
  | tx_idle => ip_toasts p = []
  | tx_confirming => exists hash, tr_txHash (ip_tracker p) = Some hash /\ hash ∈ map snd (sent (outbox (ip_page p)))
  | tx_failed => exists message, tr_error (ip_tracker p) = Some message /\ exists earlier, ip_toasts p = (earlier ++ [Failure message])%list
  | _ => False
  end.

Lemma withdraw_sent now stream p hash expected p' :
  faithful_wallet nd -> withdraw nd session session now stream p = (Returns (hash, expected), p') ->
  hash ∈ map snd (sent (outbox p')).
Proof.
  intros Hw. unfold withdraw, bind at 1.
  destruct (onMutate session now stream p) as [[context|e] p1] eqn:Hm; [|done].
  unfold try_catch, bind. destruct session as [key|]; [|done]. cbn [mutationFn].
  unfold with_wallet. pose proof (on_stream_once nd "withdraw" key (ir_streamId stream) (outbox p1) Hw eq_refl) as Ho.
  unfold withdrawFromStream. destruct (on_stream nd "withdraw" key (ir_streamId stream) (outbox p1)) as [r o] eqn:Er.
  destruct Ho as [_ [[_ Hno]|(tx & h & Hsent & _ & Hret)]]; simpl in *.
  - destruct r as [h|e]; [done|]. unfold onError. by destruct (previousStreams context).
  - destruct r as [h'|e].
    + intros [= <- _ <-]. simpl. destruct (proj1 (Hret h') eq_refl) as [-> _]. rewrite Hsent, map_app.
      apply elem_of_app. right. simpl. set_solver.
    + unfold onError. by destruct (previousStreams context).
Qed.

(** The page of incoming streams says truthfully what was sent and what failed,
    and no more: it names no stream to the tracker, so nothing is ever polled and
    no withdrawal is ever shown as confirmed, however many are made. *)
Theorem incoming_never_confirms (query : option (list IncomingStreamRecord)) (o : Outbox)
    (clicks : list (Z * IncomingStreamRecord)) :
  faithful_wallet nd ->
  let p := visit clicks (idle_page query o) in
  reported p /\ tr_status (ip_tracker p) <> tx_confirmed /\ polls (ip_tracker p) (tracked_stream p) = false.
Proof.
  intros Hw. assert (H : forall p, reported p -> reported (visit clicks p)).
  { induction clicks as [|c clicks' IH]; intros p Hp; [done|]. simpl. apply IH.
    unfold handleWithdraw. destruct (withdraw nd session session c.1 c.2 (ip_page p)) as [[[hash e]|err] page] eqn:E.
    - exists hash. split; [done|]. by eapply withdraw_sent.
    - eexists. split; [done|]. by eexists. }
  specialize (H (idle_page query o) eq_refl). intros p. fold p in H. split_and!; [done| |].
  - intros Hc. unfold reported in H. by rewrite Hc in H.
  - unfold polls, tracked_stream. apply andb_false_r.
Qed.
End incoming_facts.
