(* ===== verification/StreamPage.v ===== *)
(** * The page of a stream: app/streams/[id]/stream-details-content.tsx

    A state machine: requests for the stream and for its events are in flight
    until they are answered, in any order, and only the answer to the newest
    request of a kind counts; the buttons make a call of the wallet and then ask
    for the stream again.  [server_stream] and [server_events] are the answers of
    the endpoints ([StreamQueries]) as the page reads them: a row of the database
    has no column [status], and a page of events comes under [data], where the
    page looks for [events].  Times in the text of a locale, markup and the
    animation are left out; the live amount is [StreamingAmount.detail_amount]. *)
From S2P Require Import Prelude JsLang Texts StreamId Json Schema Xdr Worker MemoryCache Contract Claimable Http Soroban Simulate StreamApi StreamQueries Amount Double WalletCalls ApiClient Tracker.
Local Open Scope Z_scope.
Local Open Scope string_scope.

(** What the page reads of a stream; a field the body lacks is [None]. *)
Record StreamDetail := {
  sd_sender : string;
  sd_recipient : string;
  sd_tokenAddress : string;
  sd_depositedAmount : string;
  sd_withdrawnAmount : string;
  sd_ratePerSecond : string;
  sd_isActive : bool;
  sd_isPaused : option bool;
  sd_status : option string
}.

Definition EVENTS_PER_PAGE : Z := 10.

Definition TOKEN_SYMBOLS (address : string) : option string :=
  if bool_decide (address = "CDLZFC3SYJYDZT7K67VZ75HPJVIEUVNIXF47ZG2FB2RMQQVU2HHGCN") then Some "XLM"
  else if bool_decide (address = "CBIELTK6YBZJU5UP2WWQEUCYKLPU6AUNZ2BQ4WWFEIE3USCIHMXQDAMA") then Some "USDC"
  else if bool_decide (address = "CCWAMYJME4YOIUNAKVYEBYOG5I65QMKEX2NMN4OJAPXRPIF24ONPSHY") then Some "EURC"
  else None.

(** ** The state *)

(** Who waits for a request: nobody, a handler, or the dialog behind it. *)
Inductive Waiter := nobody | handler | dialog.

(** A request in flight: its number, the page asked for, whether it was sent for
    a live event, whether it was given up, and who waits for it. *)
Record Flight := {
  reqId : nat;
  for_page : option Z; (* [None]: for the stream *)
  live : bool;
  aborted : bool;
  waiter : Waiter
}.

Record Shown := {
  sh_stream : option StreamDetail;
  sh_events : list StreamEvent;
  sh_eventsTotal : Z;
  sh_error : option string
}.

Record Form := {
  eventsPage : Z;
  topUpAmount : string;
  showTopUp : bool;
  showCancelModal : bool;
  isSubmitting : bool (* of the dialog *)
}.

Record Requests := { streamReqId : nat; eventsReqId : nat; inflight : list Flight; live_events : bool }.

Record DetailPage := {
  shown : Shown;
  form : Form;
  requests : Requests;
  tracker : Tracker;
  dp_outbox : Outbox;
  dp_toasts : list Toast
}.

Definition set_shown (x : Shown) (p : DetailPage) : DetailPage := {|
  shown := x; form := form p; requests := requests p; tracker := tracker p; dp_outbox := dp_outbox p; dp_toasts := dp_toasts p |}.
Definition set_form (x : Form) (p : DetailPage) : DetailPage := {|
  shown := shown p; form := x; requests := requests p; tracker := tracker p; dp_outbox := dp_outbox p; dp_toasts := dp_toasts p |}.
Definition set_requests (x : Requests) (p : DetailPage) : DetailPage := {|
  shown := shown p; form := form p; requests := x; tracker := tracker p; dp_outbox := dp_outbox p; dp_toasts := dp_toasts p |}.
Definition set_tracker (x : Tracker) (p : DetailPage) : DetailPage := {|
  shown := shown p; form := form p; requests := requests p; tracker := x; dp_outbox := dp_outbox p; dp_toasts := dp_toasts p |}.
Definition set_outbox (x : Outbox) (p : DetailPage) : DetailPage := {|
  shown := shown p; form := form p; requests := requests p; tracker := tracker p; dp_outbox := x; dp_toasts := dp_toasts p |}.
Definition say (t : Toast) (p : DetailPage) : DetailPage := {|
  shown := shown p; form := form p; requests := requests p; tracker := tracker p; dp_outbox := dp_outbox p;
  dp_toasts := (dp_toasts p ++ [t])%list |}.

Definition setStream (data : StreamDetail) (p : DetailPage) : DetailPage :=
  set_shown {| sh_stream := Some data; sh_events := sh_events (shown p); sh_eventsTotal := sh_eventsTotal (shown p);
               sh_error := sh_error (shown p) |} p.
Definition setEvents (events : list StreamEvent) (total : Z) (p : DetailPage) : DetailPage :=
  set_shown {| sh_stream := sh_stream (shown p); sh_events := events; sh_eventsTotal := total;
               sh_error := sh_error (shown p) |} p.
Definition setError (message : string) (p : DetailPage) : DetailPage :=
  set_shown {| sh_stream := sh_stream (shown p); sh_events := sh_events (shown p);
               sh_eventsTotal := sh_eventsTotal (shown p); sh_error := Some message |} p.

(** ** Requests *)

Definition request (id : nat) (page : option Z) (for_live : bool) (waits : Waiter) : Flight :=
  {| reqId := id; for_page := page; live := for_live; aborted := false; waiter := waits |}.

Definition fetchStream (for_live : bool) (waits : Waiter) (p : DetailPage) : DetailPage :=
  let r := requests p in
  set_requests {| streamReqId := S (streamReqId r); eventsReqId := eventsReqId r;
                  inflight := (inflight r ++ [request (S (streamReqId r)) None for_live waits])%list;
                  live_events := live_events r |} p.
Definition fetchEvents (page : Z) (for_live : bool) (p : DetailPage) : DetailPage :=
  let r := requests p in
  set_requests {| streamReqId := streamReqId r; eventsReqId := S (eventsReqId r);
                  inflight := (inflight r ++ [request (S (eventsReqId r)) (Some page) for_live nobody])%list;
                  live_events := live_events r |} p.

(** A page that was just opened, its first two requests sent. *)
Definition opened (o : Outbox) : DetailPage :=
  fetchEvents 1 false (fetchStream false nobody {|
    shown := {| sh_stream := None; sh_events := []; sh_eventsTotal := 0; sh_error := None |};
    form := {| eventsPage := 1; topUpAmount := ""; showTopUp := false; showCancelModal := false; isSubmitting := false |};
    requests := {| streamReqId := 0; eventsReqId := 0; inflight := []; live_events := false |};
    tracker := idle_tracker; dp_outbox := o; dp_toasts := [] |}).

(** The page loads until its first two requests are answered. *)
Definition loading (p : DetailPage) : bool := existsb (fun f => (reqId f =? 1)%nat) (inflight (requests p)).

Definition abort_live (f : Flight) : Flight :=
  if live f then {| reqId := reqId f; for_page := for_page f; live := true; aborted := true; waiter := waiter f |}
  else f.

Definition give_up_live (p : DetailPage) : DetailPage :=
  let r := requests p in
  set_requests {| streamReqId := streamReqId r; eventsReqId := eventsReqId r;
                  inflight := map abort_live (inflight r); live_events := live_events r |} p.
Definition note_live (p : DetailPage) : DetailPage :=
  let r := requests p in
  set_requests {| streamReqId := streamReqId r; eventsReqId := eventsReqId r; inflight := inflight r;
                  live_events := true |} p.

(** The effect of a live event, and of another page while there were any: the
    requests of its last run are given up. *)
Definition refreshStreamData (p : DetailPage) : DetailPage :=
  if live_events (requests p)
  then fetchEvents (eventsPage (form p)) true (fetchStream true nobody (give_up_live p))
  else give_up_live p.

Definition live_event (p : DetailPage) : DetailPage := refreshStreamData (note_live p).

Section page.
Context {Sdk : SorobanSdk} (nd : Node) (session : option string) (streamId : string).

Definition stream_answered (f : Flight) (answer : outcome StreamDetail) (p : DetailPage) : DetailPage :=
  if aborted f then p
  else if (reqId f =? streamReqId (requests p))%nat then
    match answer with Returns data => setStream data p | Throws e => setError (message_of e) p end
  else p.

(** [data.events || []] and [data.total || 0]; an error is logged. *)
Definition events_answered (f : Flight) (answer : outcome (option (list StreamEvent) * Z)) (p : DetailPage) : DetailPage :=
  match answer with
  | Returns (events, total) =>
      if negb (aborted f) && (reqId f =? eventsReqId (requests p))%nat then setEvents (default [] events) total p else p
  | Throws _ => p
  end.

(** What the server answers, by the number of the request. *)
Record Answers := {
  stream_answer : nat -> outcome StreamDetail;
  events_answer : nat -> Z -> outcome (option (list StreamEvent) * Z)
}.

(** What the dialog says when the handler it called has ended. *)
Definition cancelled_text : string := "Stream " +:+ streamId +:+ " cancelled successfully".

Definition landed (k : nat) (p : DetailPage) : DetailPage :=
  let r := requests p in
  set_requests {| streamReqId := streamReqId r; eventsReqId := eventsReqId r;
                  inflight := (take k (inflight r) ++ drop (S k) (inflight r))%list; live_events := live_events r |} p.

(** The [k]-th request in flight is answered; the handler that waits goes on. *)
Definition settle (answers : Answers) (k : nat) (p : DetailPage) : DetailPage :=
  match inflight (requests p) !! k with
  | None => p
  | Some f =>
      let p :=
        match for_page f with
        | None => stream_answered f (stream_answer answers (reqId f)) (landed k p)
        | Some page => events_answered f (events_answer answers (reqId f) page) (landed k p)
        end in
      match waiter f with
      | nobody => p
      | handler => set_tracker (succeed (tracker p)) p
      | dialog => say (Success cancelled_text) (set_tracker (succeed (tracker p)) p)
      end
  end.

(** ** What is shown *)

Inductive BadgeStyle := yellow | green | blue | red | slate.

(** [status.toLowerCase()] throws where there is no [status]. *)
Definition StatusBadge (status : option string) (isPaused : option bool) : outcome (BadgeStyle * string) :=
  if default false isPaused then Returns (yellow, "Paused")
  else
    match status with
    | None => Throws TypeErr
    | Some s =>
        let lower := toLowerCase s in
        Returns
          (if bool_decide (lower = "active") then green
           else if bool_decide (lower = "completed") then blue
           else if bool_decide (lower = "cancelled") then red
           else slate, s)
    end.

Definition token_label (s : StreamDetail) : string :=
  match TOKEN_SYMBOLS (sd_tokenAddress s) with Some symbol => symbol | None => slice 4 (sd_tokenAddress s) end.

Record Details := {
  v_badge : BadgeStyle * string;
  v_rate : string;
  v_ratePerDay : string;
  v_deposited : string;
  v_withdrawn : string;
  v_progress : num;
  v_sender : bool; (* the viewer sends the stream *)
  v_recipient : bool;
  v_actions : bool
}.

Inductive View := Skeleton | NotFound (text : string) | Shows (d : Details).

Definition isSender (s : StreamDetail) : bool := bool_decide (session = Some (sd_sender s)).
Definition isRecipient (s : StreamDetail) : bool := bool_decide (session = Some (sd_recipient s)).

Definition in_token (s : StreamDetail) (amount : Z) : string := formatAmount amount 7 +:+ " " +:+ token_label s.

Definition view (p : DetailPage) : outcome View :=
  if loading p then Returns Skeleton
  else
    match sh_error (shown p), sh_stream (shown p) with
    | Some e, _ => Returns (NotFound (match e with EmptyString => "Stream not found" | _ => e end))
    | None, None => Returns (NotFound "Stream not found")
    | None, Some s =>
        let? deposited := BigInt_of_string (sd_depositedAmount s) in
        let? withdrawn := BigInt_of_string (sd_withdrawnAmount s) in
        let? ratePerSecond := BigInt_of_string (sd_ratePerSecond s) in
        let? badge := StatusBadge (sd_status s) (sd_isPaused s) in
        Returns (Shows {|
          v_badge := badge;
          v_rate := in_token s ratePerSecond +:+ "/sec";
          v_ratePerDay := in_token s (ratePerSecond * 86400);
          v_deposited := in_token s deposited;
          v_withdrawn := in_token s withdrawn;
          v_progress := streamProgressPercent withdrawn deposited;
          v_sender := isSender s;
          v_recipient := isRecipient s;
          v_actions := (isSender s || isRecipient s) && sd_isActive s |})
    end.

(** ** The buttons *)

(** A handler: the wallet signs and waits, then the stream is asked for again.
    What happens to the page while the wallet waits is put before or after. *)
Definition signed (op : string -> Js Outbox string) (message : string) (after : Form -> Form) (waits : Waiter)
    (p : DetailPage) : DetailPage :=
  match session with
  | None => say (Failure "Please connect your wallet") p
  | Some key =>
      let p := set_tracker (start (tracker p)) p in
      match op key (dp_outbox p) with
      | (Returns txHash, o) =>
          let p := set_tracker (confirm (submit txHash (tracker p))) (set_outbox o p) in
          fetchStream false waits (set_form (after (form p)) (say (Success message) p))
      | (Throws err, o) =>
          let text := toSorobanErrorMessage err in
          say (Failure text) (set_tracker (fail text None (tracker p)) (set_outbox o p))
      end
  end.

(** A call for the stream of the page: [BigInt(streamId)]. *)
Definition for_stream (call : string -> Z -> Js Outbox string) (key : string) : Js Outbox string :=
  let! id := lift (BigInt_of_string streamId) in call key id.

Definition handleWithdraw : DetailPage -> DetailPage :=
  signed (for_stream (withdrawFromStream nd)) "Withdrawal successful!" (fun f => f) handler.
Definition handlePause : DetailPage -> DetailPage :=
  signed (for_stream (pauseStream nd)) "Stream paused" (fun f => f) handler.
Definition handleResume : DetailPage -> DetailPage :=
  signed (for_stream (resumeStream nd)) "Stream resumed" (fun f => f) handler.
Definition edit (g : Form -> Form) (p : DetailPage) : DetailPage := set_form (g (form p)) p.
Definition modal (shown submitting : bool) (f : Form) : Form := {|
  eventsPage := eventsPage f; topUpAmount := topUpAmount f; showTopUp := showTopUp f;
  showCancelModal := shown; isSubmitting := submitting |}.

Definition handleCancel : Waiter -> DetailPage -> DetailPage :=
  signed (for_stream (cancelStream nd)) "Stream cancelled" (modal false false).

(** The dialog's [handleConfirm]: the handler never throws, so the dialog always
    reports success; unless the handler closed it, it stays as it is. *)
Definition handleConfirm (p : DetailPage) : DetailPage :=
  let p := handleCancel dialog (edit (modal true true) p) in
  if showCancelModal (form p) then say (Success cancelled_text) p else p.

Definition handleTopUp (p : DetailPage) : DetailPage :=
  let text := topUpAmount (form p) in
  if is_some session && (bool_decide (text = "") || dleb (parseFloat text) (dint 0)) then
    say (Failure "Please enter a valid amount") p
  else
    signed
      (fun key =>
        let! amount := lift (toBaseUnits text 7) in
        for_stream (fun key id => topUpStream nd key id amount) key)
      "Stream topped up successfully!"
      (fun f => {| eventsPage := eventsPage f; topUpAmount := ""; showTopUp := false;
                   showCancelModal := showCancelModal f; isSubmitting := isSubmitting f |}) handler p.

Definition turn_page (page : Z) (p : DetailPage) : DetailPage :=
  refreshStreamData (fetchEvents page false (edit (fun f =>
    {| eventsPage := page; topUpAmount := topUpAmount f; showTopUp := showTopUp f;
       showCancelModal := showCancelModal f; isSubmitting := isSubmitting f |}) p)).

(** ** Runs *)

Inductive Step :=
| Withdraw | Pause | Resume | OpenCancel | CloseCancel | ConfirmCancel | ToggleTopUp
| TypeAmount (text : string) | AddFunds | Turn (page : Z) | Answered (k : nat) | Live.

(** A button that is shown and not disabled; [live]: the amount that can be
    withdrawn, as the page shows it. *)
Definition enabled (live : Z) (p : DetailPage) (d : Details) (step : Step) : bool :=
  let idle := bool_decide (tr_status (tracker p) = tx_idle) in
  let paused := match sh_stream (shown p) with Some s => default false (sd_isPaused s) | None => false end in
  let total := (sh_eventsTotal (shown p) + 9) / 10 in
  let page := eventsPage (form p) in
  match step with
  | Withdraw => v_actions d && v_recipient d && idle && (0 <? live)%Z
  | Pause => v_actions d && v_sender d && idle && negb paused
  | Resume => v_actions d && v_sender d && idle && paused
  | OpenCancel => v_actions d && v_sender d && idle
  | CloseCancel | ConfirmCancel => showCancelModal (form p) && negb (isSubmitting (form p))
  | ToggleTopUp => v_actions d && v_sender d
  | TypeAmount _ | AddFunds => v_actions d && showTopUp (form p)
  | Turn n =>
      bool_decide (sh_events (shown p) <> []) && (1 <? total)%Z &&
      ((n =? page - 1)%Z && negb (page =? 1)%Z || (n =? page + 1)%Z && negb (page =? total)%Z)
  | Answered _ | Live => true
  end.

Definition perform (answers : Answers) (step : Step) (p : DetailPage) : DetailPage :=
  match step with
  | Withdraw => handleWithdraw p
  | Pause => handlePause p
  | Resume => handleResume p
  | OpenCancel => edit (modal true false) p
  | CloseCancel => edit (modal false false) p
  | ConfirmCancel => handleConfirm p
  | ToggleTopUp => edit (fun f =>
      {| eventsPage := eventsPage f; topUpAmount := topUpAmount f; showTopUp := negb (showTopUp f);
         showCancelModal := showCancelModal f; isSubmitting := isSubmitting f |}) p
  | TypeAmount text => edit (fun f =>
      {| eventsPage := eventsPage f; topUpAmount := text; showTopUp := showTopUp f;
         showCancelModal := showCancelModal f; isSubmitting := isSubmitting f |}) p
  | AddFunds => handleTopUp p
  | Turn n => turn_page n p
  | Answered k => settle answers k p
  | Live => live_event p
  end.

(** A click needs its button; answers and live events do not. *)
Definition page_step (answers : Answers) (live : Z) (p : DetailPage) (step : Step) : DetailPage :=
  match step with
  | Answered _ | Live => perform answers step p
  | _ =>
      match view p with
      | Returns (Shows d) => if enabled live p d step then perform answers step p else p
      | _ => p
      end
  end.

(** A visit: each step with the amount shown then. *)
Definition browse (answers : Answers) (steps : list (Step * Z)) (o : Outbox) : DetailPage :=
  fold_left (fun p s => page_step answers s.2 p s.1) steps (opened o).
End page.

(** ** The server *)

Definition detail_of_row (r : Stream) : StreamDetail := {|
  sd_sender := sender r; sd_recipient := recipient r; sd_tokenAddress := tokenAddress r;
  sd_depositedAmount := depositedAmount r; sd_withdrawnAmount := withdrawnAmount r;
  sd_ratePerSecond := ratePerSecond r; sd_isActive := isActive r; sd_isPaused := Some (isPaused r);
  sd_status := None |}.

(** [{ ...stream, ...chain }], or the chain's fields alone *)
Definition detail_of_chain (paused : option bool) (c : ChainRecord) : StreamDetail := {|
  sd_sender := ch_sender c; sd_recipient := ch_recipient c; sd_tokenAddress := ch_tokenAddress c;
  sd_depositedAmount := ch_depositedAmount c; sd_withdrawnAmount := ch_withdrawnAmount c;
  sd_ratePerSecond := ch_ratePerSecond c; sd_isActive := ch_isActive c; sd_isPaused := paused;
  sd_status := None |}.

Definition read_stream (r : outcome (Reply QueryBody)) : outcome StreamDetail :=
  match r with
  | Returns (Answer _ (OneStream row _)) => Returns (detail_of_row row)
  | Returns (Answer _ (FromChain c)) => Returns (detail_of_chain None c)
  | Returns (Answer _ (Refreshed row _ c)) => Returns (detail_of_chain (Some (isPaused row)) c)
  | Returns _ => Throws (ErrorMsg "Stream not found")
  | Throws e => Throws e
  end.

(** A body without [events], but with a [total]; another is no page of events. *)
Definition read_events (r : outcome (Reply QueryBody)) : outcome (option (list StreamEvent) * Z) :=
  match r with
  | Returns (Answer _ (EventPage data total _)) => Returns (None, total)
  | Returns _ => Throws TypeErr
  | Throws e => Throws e
  end.

Definition events_query (page : Z) : EventsQuery := {|
  eq_limit := Some (BigInt_toString EVENTS_PER_PAGE); eq_offset := None;
  eq_page := Some (BigInt_toString page); eq_cursor := None; eq_order := None; eq_eventType := None |}.

Section server.
Context {P : PrismaEngine} {Key : StrKey} {Sdk : SorobanSdk} {Hidden : HiddenColumns}.
Context (cfg : SorobanConfig) (rpc : option Server) (streamId : string).

(** The endpoints, with the clock and the state each request meets. *)
Definition server_answers (now : nat -> Z) (at_ : nat -> Api (P:=P)) : Answers := {|
  stream_answer := fun n => read_stream (getStream cfg rpc (now n) (Segment streamId) (at_ n)).1;
  events_answer := fun n page => read_events (getStreamEvents (Segment streamId) (events_query page) (at_ n)).1 |}.
End server.

(** * The page of a stream: properties *)

Section page_facts.
Context {Sdk : SorobanSdk} (nd : Node) (session : option string) (streamId : string).
#[local] Abbreviation step_ := (page_step nd session streamId).

(** What every part of a step keeps, every step keeps. *)
Lemma perform_closed (I : DetailPage -> Prop) answers :
  (forall p q, I p -> shown q = shown p -> requests q = requests p -> I q) ->
  (forall b w p, I p -> I (fetchStream b w p)) -> (forall page b p, I p -> I (fetchEvents page b p)) ->
  (forall p, I p -> I (give_up_live p)) -> (forall p, I p -> I (note_live p)) ->
  (forall k p, I p -> I (settle streamId answers k p)) ->
  forall step p, I p -> I (perform nd session streamId answers step p).
Proof.
  intros Hsame Hs He Hg Hn Hk step p Hp.
  assert (Hsigned : forall op message after waits p, I p -> I (signed session op message after waits p)).
  { intros op message after waits q Hq. unfold signed. destruct session as [key|]; [|by eapply Hsame].
    destruct (op key _) as [[h|e] o]; [|by eapply Hsame]. apply Hs. by eapply Hsame. }
  assert (Hr : forall p, I p -> I (refreshStreamData p)).
  { intros q Hq. unfold refreshStreamData. case_match; auto. }
  destruct step; simpl; try (by apply Hsigned); try (by eapply Hsame).
  - unfold handleConfirm. assert (I (handleCancel nd session streamId dialog (edit (modal true true) p))).
    { apply Hsigned. by eapply Hsame. }
    case_match; [by eapply Hsame|done].
  - unfold handleTopUp. case_match; [by eapply Hsame|by apply Hsigned].
  - apply Hr, He. by eapply Hsame.
  - by apply Hk.
  - by apply Hr, Hn.
Qed.

(** Every property of steps is one of what they perform. *)
Lemma step_induction (I : DetailPage -> Prop) answers :
  (forall step p, I p -> I (perform nd session streamId answers step p)) ->
  forall live step p, I p -> I (step_ answers live p step).
Proof.
  intros H live step p Hp. unfold page_step.
  destruct step; try (by apply H);
    (destruct (view session p) as [[]|]; [done|done| |done]; case_match; [by apply H|done]).
Qed.

Lemma browse_induction (I : DetailPage -> Prop) answers o :
  I (opened o) -> (forall step p, I p -> I (perform nd session streamId answers step p)) ->
  forall steps, I (browse nd session streamId answers steps o).
Proof.
  intros H0 H steps. unfold browse. revert H0. generalize (opened o) as p.
  induction steps as [|s steps IH]; intros p Hp; [done|]. simpl. apply IH. by apply step_induction.
Qed.

(** ** What the server gives the page *)

Definition blind (answers : Answers) : Prop :=
  (forall n d, stream_answer answers n = Returns d -> sd_status d = None) /\
  (forall n page es total, events_answer answers n page = Returns (es, total) -> es = None).

Definition unseen (p : DetailPage) : Prop :=
  sh_events (shown p) = [] /\ forall s, sh_stream (shown p) = Some s -> sd_status s = None.

Lemma settle_shown answers k p :
  shown (settle streamId answers k p) =
  match inflight (requests p) !! k with
  | None => shown p
  | Some f => match for_page f with
              | None => shown (stream_answered f (stream_answer answers (reqId f)) (landed k p))
              | Some page => shown (events_answered f (events_answer answers (reqId f) page) (landed k p))
              end
  end.
Proof. unfold settle. destruct (_ !! k) as [f|]; [|done]. by destruct (for_page f), (waiter f). Qed.

Lemma settle_unseen answers k p : blind answers -> unseen p -> unseen (settle streamId answers k p).
Proof.
  intros [Hs He] [H1 H2]. unfold unseen. rewrite settle_shown.
  destruct (_ !! k) as [f|]; [|done]. destruct (for_page f) as [page|].
  - unfold events_answered. destruct (events_answer answers (reqId f) page) as [[es total]|] eqn:E; [|done].
    case_match; [|done]. simpl. by rewrite (He _ _ _ _ E).
  - unfold stream_answered. destruct (aborted f); [done|]. case_match; [|done].
    destruct (stream_answer answers (reqId f)) as [d|] eqn:E; simpl; [|done].
    split; [done|]. intros s [= <-]. by eapply Hs.
Qed.

Lemma browse_unseen answers steps o : blind answers -> unseen (browse nd session streamId answers steps o).
Proof.
  intros Hb. apply browse_induction; [done|]. apply perform_closed; unfold unseen; try done.
  - intros p q Hp -> _. exact Hp.
  - intros k p. by apply settle_unseen.
Qed.

(** ** An error stays *)

Definition spoiled (p : DetailPage) : Prop := is_some (sh_error (shown p)) = true.

Lemma settle_spoiled answers k p : spoiled p -> spoiled (settle streamId answers k p).
Proof.
  unfold spoiled. rewrite settle_shown. intros H. destruct (_ !! k) as [f|]; [|done].
  destruct (for_page f) as [page|].
  - unfold events_answered. destruct (events_answer answers (reqId f) page) as [[es total]|]; [|done]. by case_match.
  - unfold stream_answered. destruct (aborted f); [done|]. case_match; [|done].
    by destruct (stream_answer answers (reqId f)).
Qed.

(** Once the newest request for the stream has failed, whatever comes later and
    however it is answered, the page shows no stream again. *)
Theorem error_never_cleared answers (steps : list (Step * Z)) p :
  spoiled p ->
  let q := fold_left (fun p s => step_ answers s.2 p s.1) steps p in
  view session q = Returns Skeleton \/ exists text, view session q = Returns (NotFound text).
Proof.
  intros Hp q. assert (Hq : spoiled q).
  { unfold q. revert Hp. generalize p. induction steps as [|s steps' IH]; intros r Hr; [done|]. simpl. apply IH.
    apply step_induction; [|done]. apply perform_closed; unfold spoiled; try done.
    - by intros ? ? ? ->.
    - intros k r'. by apply settle_spoiled. }
  unfold view. destruct (loading q); [by left|right]. unfold spoiled in Hq.
  destruct (sh_error (shown q)) as [e|]; [by eexists|done].
Qed.

(** ** The newest answer is shown *)

(** Nothing but [d] can be shown before the stream is asked for again. *)
Definition decided (n : nat) (d : StreamDetail) (p : DetailPage) : Prop :=
  (n <= streamReqId (requests p))%nat /\
  (streamReqId (requests p) = n ->
     sh_stream (shown p) = Some d /\
     Forall (fun f => for_page f = None -> reqId f <> n) (inflight (requests p))).

Lemma decided_requests n d p q :
  decided n d p -> shown q = shown p -> (streamReqId (requests p) <= streamReqId (requests q))%nat ->
  (streamReqId (requests q) = streamReqId (requests p) ->
     Forall (fun f => for_page f = None -> reqId f <> n) (inflight (requests p)) ->
     Forall (fun f => for_page f = None -> reqId f <> n) (inflight (requests q))) ->
  decided n d q.
Proof.
  intros [H1 H2] Hs Hle Hf. split; [lia|]. intros Hn. rewrite Hs.
  destruct (H2 ltac:(lia)) as [H3 H4]. split; [done|]. apply Hf; [lia|done].
Qed.

Lemma decided_fetchStream n d b w p : decided n d p -> decided n d (fetchStream b w p).
Proof. intros H. apply (decided_requests n d p); [done|done|simpl; lia|]. simpl. lia. Qed.
Lemma decided_fetchEvents n d page b p : decided n d p -> decided n d (fetchEvents page b p).
Proof.
  intros H. apply (decided_requests n d p); [done|done|simpl; lia|]. intros _ Hf. simpl.
  apply Forall_app. split; [done|]. by repeat constructor.
Qed.
Lemma decided_same n d p q : decided n d p -> shown q = shown p -> requests q = requests p -> decided n d q.
Proof. intros H Hs Hr. apply (decided_requests n d p); rewrite ?Hr; auto. Qed.

Lemma decided_give_up n d p : decided n d p -> decided n d (give_up_live p).
Proof.
  intros H. apply (decided_requests n d p); [done|done|simpl; lia|]. intros _ Hf. simpl. apply List.Forall_map.
  eapply List.Forall_impl; [|exact Hf]. intros f. unfold abort_live. by destruct (live f).
Qed.

Lemma landed_inflight k p : Forall (fun f => f ∈ inflight (requests p)) (inflight (requests (landed k p))).
Proof.
  simpl. apply Forall_app. split; apply List.Forall_forall; intros f Hf; apply list_elem_of_In in Hf.
  - by eapply subseteq_take.
  - by eapply subseteq_drop.
Qed.

Lemma decided_settle n d answers k p : decided n d p -> decided n d (settle streamId answers k p).
Proof.
  intros [H1 H2]. assert (Hl : decided n d (landed k p)).
  { apply (decided_requests n d p); [done|done|done|]. intros _ Hf.
    eapply List.Forall_impl; [|apply landed_inflight]. intros f Hin. simpl in Hf.
    rewrite list.Forall_forall in Hf. by apply Hf. }
  unfold settle. destruct (inflight (requests p) !! k) as [f|] eqn:Hk; [|done].
  assert (Hq : decided n d match for_page f with
                           | None => stream_answered f (stream_answer answers (reqId f)) (landed k p)
                           | Some page => events_answered f (events_answer answers (reqId f) page) (landed k p)
                           end).
  { destruct (for_page f) as [page|] eqn:Hp.
    - unfold events_answered. destruct (events_answer _ _ _) as [[es total]|]; [|done]. case_match; [|done].
      destruct Hl as [Hl1 Hl2]. split; [done|]. exact Hl2.
    - unfold stream_answered. destruct (aborted f); [done|].
      destruct (Nat.eqb_spec (reqId f) (streamReqId (requests (landed k p)))) as [E|]; [|done].
      assert (Hne : streamReqId (requests p) <> n).
      { intros Hn. destruct (H2 Hn) as [_ Hf]. rewrite list.Forall_forall in Hf.
        apply (Hf f); [by eapply list_elem_of_lookup_2|done|]. simpl in E. lia. }
      destruct (stream_answer answers (reqId f)); (split; [exact H1|]); intros Hn; by destruct Hne. }
  destruct (waiter f); [done|by eapply decided_same..].
Qed.

Lemma decided_perform n d answers step p : decided n d p -> decided n d (perform nd session streamId answers step p).
Proof.
  apply perform_closed; eauto using decided_same, decided_fetchStream, decided_fetchEvents, decided_give_up, decided_settle.
Qed.

(** Requests for the stream in flight have different numbers, none above the newest. *)
Definition apart (n : nat) (fs : list Flight) : Prop :=
  (forall i j f g, fs !! i = Some f -> fs !! j = Some g -> for_page f = None -> for_page g = None ->
     reqId f = reqId g -> i = j) /\
  (forall i f, fs !! i = Some f -> for_page f = None -> (reqId f <= n)%nat).
Definition numbered_apart (p : DetailPage) : Prop := apart (streamReqId (requests p)) (inflight (requests p)).

Lemma apart_append n n' fs f :
  apart n fs -> (n <= n')%nat -> (for_page f = None -> reqId f = n' /\ (n < n')%nat) -> apart n' (fs ++ [f])%list.
Proof.
  intros [H1 H2] Hn Hf. split.
  - intros i j a b Ha Hb Pa Pb E.
    apply lookup_app_Some in Ha as [Ha|[Hi Ha]]; apply lookup_app_Some in Hb as [Hb|[Hj Hb]].
    + by eapply H1.
    + apply list_lookup_singleton_Some in Hb as [_ <-]. specialize (H2 _ _ Ha Pa). specialize (Hf Pb). lia.
    + apply list_lookup_singleton_Some in Ha as [_ <-]. specialize (H2 _ _ Hb Pb). specialize (Hf Pa). lia.
    + apply list_lookup_singleton_Some in Ha as [? _], Hb as [? _]. lia.
  - intros i a Ha Pa. apply lookup_app_Some in Ha as [Ha|[_ Ha]].
    + specialize (H2 _ _ Ha Pa). lia.
    + apply list_lookup_singleton_Some in Ha as [_ <-]. specialize (Hf Pa). lia.
Qed.

(** A request that lands leaves the others where they were, and none of its number. *)
Lemma lookup_landed (fs : list Flight) k j f :
  (take k fs ++ drop (S k) fs)%list !! j = Some f -> exists i, i <> k /\ fs !! i = Some f /\ (i = j \/ i = S j) /\
    (i = j <-> (j < k)%nat).
Proof.
  rewrite <- delete_take_drop. intros H. destruct (Nat.lt_ge_cases j k) as [Hlt|Hge].
  - rewrite list_lookup_delete_lt in H by done. exists j. split_and!; auto; lia.
  - rewrite list_lookup_delete_ge in H by done. exists (S j). split_and!; auto; lia.
Qed.

Lemma apart_landed n fs k : apart n fs -> apart n (take k fs ++ drop (S k) fs)%list.
Proof.
  intros [H1 H2]. split.
  - intros i j f g (i' & _ & Hi & Ci & Di)%lookup_landed (j' & _ & Hj & Cj & Dj)%lookup_landed Pf Pg E.
    specialize (H1 _ _ _ _ Hi Hj Pf Pg E). lia.
  - intros i f (i' & _ & Hi & _)%lookup_landed. by eapply H2.
Qed.

Lemma settle_requests answers k p :
  requests (settle streamId answers k p) = requests p \/
  requests (settle streamId answers k p) = requests (landed k p).
Proof.
  unfold settle. destruct (_ !! k) as [f|]; [right|by left].
  assert (E : requests match for_page f with
                       | None => stream_answered f (stream_answer answers (reqId f)) (landed k p)
                       | Some page => events_answered f (events_answer answers (reqId f) page) (landed k p)
                       end = requests (landed k p)).
  { destruct (for_page f) as [page|].
    - unfold events_answered. destruct (events_answer _ _ _) as [[es total]|]; [|done]. by case_match.
    - unfold stream_answered. destruct (aborted f); [done|]. case_match; [|done]. by destruct (stream_answer _ _). }
  by destruct (waiter f).
Qed.

Lemma numbered_perform answers step p : numbered_apart p -> numbered_apart (perform nd session streamId answers step p).
Proof.
  apply perform_closed; unfold numbered_apart.
  - by intros q q' H _ ->.
  - intros b w q H. simpl. eapply apart_append; [exact H|lia|]. simpl. lia.
  - intros page b q H. simpl. eapply apart_append; [exact H|lia|done].
  - intros q [H1 H2]. simpl. split.
    + intros i j f g. rewrite !list_lookup_fmap. intros (f' & Hf & ->)%fmap_Some (g' & Hg & ->)%fmap_Some.
      unfold abort_live. destruct (live f'), (live g'); simpl; eauto.
    + intros i f. rewrite list_lookup_fmap. intros (f' & Hf & ->)%fmap_Some. unfold abort_live.
      destruct (live f'); simpl; eauto.
  - done.
  - intros k q H. destruct (settle_requests answers k q) as [-> | ->]; [done|]. simpl. by apply apart_landed.
Qed.

Lemma numbered_browse answers steps o : numbered_apart (browse nd session streamId answers steps o).
Proof.
  apply browse_induction; [|apply numbered_perform].
  unfold numbered_apart. simpl. apply (apart_append 1 1 [_]); [|done|done].
  apply (apart_append 0 1 []); [|lia|simpl; lia]. by split.
Qed.

(** However many requests for the stream are in flight and in whatever order they
    are answered, the answer to the newest is shown, and goes on being shown until
    the stream is asked for again. *)
Theorem newest_answer_shown answers (earlier later : list (Step * Z)) o k live f d :
  let p := browse nd session streamId answers earlier o in
  inflight (requests p) !! k = Some f -> for_page f = None -> aborted f = false ->
  reqId f = streamReqId (requests p) -> stream_answer answers (reqId f) = Returns d ->
  let q := fold_left (fun p s => step_ answers s.2 p s.1) ((Answered k, live) :: later) p in
  streamReqId (requests q) = reqId f -> sh_stream (shown q) = Some d.
Proof.
  intros p Hk Hf Ha Hn Hd q Hq.
  assert (H0 : decided (reqId f) d (settle streamId answers k p)).
  { split.
    - destruct (settle_requests answers k p) as [-> | ->]; simpl; lia.
    - intros _. rewrite settle_shown, Hk, Hf. split.
      + unfold stream_answered. rewrite Ha, Hn. simpl. rewrite Nat.eqb_refl, <- Hn, Hd. done.
      + assert (E : inflight (requests (settle streamId answers k p)) = inflight (requests (landed k p))).
        { unfold settle. rewrite Hk, Hf. unfold stream_answered. rewrite Ha.
          by repeat (case_match; simpl). }
        rewrite E. apply list.Forall_forall. intros g Hg Pg Eg. apply list_elem_of_lookup_1 in Hg as (j & Hj).
        apply lookup_landed in Hj as (i & Hi & Hgi & _).
        destruct (numbered_browse answers earlier o) as [H1 _]. apply Hi, (H1 _ _ _ _ Hgi Hk Pg Hf). done. }
  assert (Hdec : decided (reqId f) d q).
  { unfold q. cbn [fold_left]. change (step_ answers _ p _) with (settle streamId answers k p).
    revert H0. generalize (settle streamId answers k p) as r.
    clear q Hq. induction later as [|s later' IH]; intros r Hr; [done|]. cbn [fold_left]. apply IH.
    apply step_induction; [|done]. apply decided_perform. }
  by apply Hdec.
Qed.

(** ** One action, and a dialog that does not close *)

Definition busy (p : DetailPage) : Prop := tr_status (tracker p) <> tx_idle.

Lemma refresh_same p : form (refreshStreamData p) = form p /\ tracker (refreshStreamData p) = tracker p.
Proof. unfold refreshStreamData. by case_match. Qed.

Lemma settle_same answers k p :
  form (settle streamId answers k p) = form p /\ (busy p -> busy (settle streamId answers k p)).
Proof.
  unfold settle. destruct (_ !! k) as [f|]; [|done].
  set (p' := match for_page f with None => _ | Some page => _ end).
  assert (E : form p' = form p /\ tracker p' = tracker p).
  { unfold p'. destruct (for_page f) as [page|].
    - unfold events_answered. destruct (events_answer _ _ _) as [[es total]|]; [|done]. by case_match.
    - unfold stream_answered. destruct (aborted f); [done|]. case_match; [|done]. by destruct (stream_answer _ _). }
  destruct E as [E1 E2]. destruct (waiter f); (split; [exact E1|]); unfold busy; simpl; by rewrite ?E2.
Qed.

Lemma signed_busy op message after waits p : busy p -> busy (signed session op message after waits p).
Proof. unfold busy, signed. destruct session as [key|]; [|done]. by destruct (op key _) as [[h|e] o]. Qed.

Lemma signed_form op message after waits p :
  form (signed session op message after waits p) = form p \/
  form (signed session op message after waits p) = after (form p).
Proof. unfold signed. destruct session as [key|]; [|by left]. destruct (op key _) as [[h|e] o]; [by right|by left]. Qed.

Lemma perform_busy answers step p : busy p -> busy (perform nd session streamId answers step p).
Proof.
  intros H. destruct step; simpl; try done; try (by apply signed_busy).
  - unfold handleConfirm. assert (busy (handleCancel nd session streamId dialog (edit (modal true true) p)))
      by by apply signed_busy. by case_match.
  - unfold handleTopUp. case_match; [done|by apply signed_busy].
  - unfold turn_page, busy. by rewrite (proj2 (refresh_same _)).
  - by apply settle_same.
Qed.

(** The tracker is never reset: after one action, whether it succeeded or failed,
    the buttons to withdraw, pause, resume and cancel do nothing any more, until
    the page is left. *)
Theorem one_action_per_visit answers (steps : list (Step * Z)) p :
  busy p ->
  let q := fold_left (fun p s => step_ answers s.2 p s.1) steps p in
  busy q /\
  forall live step, step = Withdraw \/ step = Pause \/ step = Resume \/ step = OpenCancel -> step_ answers live q step = q.
Proof.
  intros Hp q. assert (Hq : busy q).
  { unfold q. revert Hp. generalize p. induction steps as [|s steps' IH]; intros r Hr; [done|]. cbn [fold_left].
    apply IH. apply step_induction; [|done]. apply perform_busy. }
  split; [done|]. intros live step Hs. unfold page_step.
  destruct Hs as [-> |[-> |[-> | ->]]]; (destruct (view session q) as [[]|]; [done|done| |done]); simpl;
    rewrite (bool_decide_eq_false_2 _ Hq), ?andb_false_r; done.
Qed.

(** The dialog is open and waits. *)
Definition trapped (p : DetailPage) : Prop :=
  busy p /\ showCancelModal (form p) = true /\ isSubmitting (form p) = true.

Lemma step_trapped answers live step p : trapped p -> trapped (step_ answers live p step).
Proof.
  intros (Hb & Hm & Hs). split; [apply step_induction; [apply perform_busy|done]|].
  unfold page_step. destruct step; simpl; try (by destruct (proj1 (settle_same answers k p)));
    try (unfold live_event; by rewrite (proj1 (refresh_same _)));
    (destruct (view session p) as [[]|]; [done|done| |done]); simpl;
    rewrite ?(bool_decide_eq_false_2 _ Hb), ?Hm, ?Hs, ?andb_false_r; simpl; try done;
    case_match; try done.
  - unfold handleTopUp. case_match; [done|]. by edestruct signed_form as [-> | ->].
  - unfold turn_page. by rewrite (proj1 (refresh_same _)).
Qed.

(** A cancellation that fails is reported as failed and, at once, as successful;
    and the dialog can neither be closed nor used again: whatever happens, it
    stays over the page. *)
Theorem failed_cancel_traps key err o answers (steps : list (Step * Z)) p :
  session = Some key -> for_stream streamId (cancelStream nd) key (dp_outbox p) = (Throws err, o) ->
  let q := handleConfirm nd session streamId p in
  dp_toasts q = (dp_toasts p ++ [Failure (toSorobanErrorMessage err); Success (cancelled_text streamId)])%list /\
  trapped (fold_left (fun p s => step_ answers s.2 p s.1) steps q).
Proof.
  intros Hkey Hcall q.
  assert (E : q = say (Success (cancelled_text streamId)) (say (Failure (toSorobanErrorMessage err))
    (set_tracker (fail (toSorobanErrorMessage err) None (start (tracker p))) (set_outbox o
      (set_tracker (start (tracker p)) (edit (modal true true) p)))))).
  { unfold q, handleConfirm, handleCancel, signed. rewrite Hkey. simpl. by rewrite Hcall. }
  split; [rewrite E; simpl; by rewrite <- app_assoc|].
  assert (Hq : trapped q) by (rewrite E; by split_and!).
  revert Hq. generalize q. induction steps as [|s steps' IH]; intros r Hr; [done|]. cbn [fold_left].
  apply IH. by apply step_trapped.
Qed.
End page_facts.

(** ** The page and its server *)

Section page_and_server.
Context {P : PrismaEngine} {Key : StrKey} {Sdk : SorobanSdk} {Hidden : HiddenColumns}.
Context (cfg : SorobanConfig) (rpc : option Server) (nd : Node) (session : option string) (streamId : string).

Lemma server_blind now (at_ : nat -> Api (P:=P)) : blind (server_answers cfg rpc streamId now at_).
Proof.
  split.
  - intros n d. simpl. unfold read_stream. by destruct (getStream _ _ _ _ _).1 as [[|? []]|]; intros [= <-].
  - intros n page es total. simpl. unfold read_events. by destruct (getStreamEvents _ _ _).1 as [[|? []]|]; intros [= <- _].
Qed.

(** C14. Against the server the page works for paused streams only: a body has no
    [status], so showing any other stream throws; and it has no [events], so the
    history is always empty. *)
Theorem only_paused_shown now (at_ : nat -> Api (P:=P)) (steps : list (Step * Z)) o :
  let p := browse nd session streamId (server_answers cfg rpc streamId now at_) steps o in
  sh_events (shown p) = [] /\
  (forall d, view session p = Returns (Shows d) ->
     exists s, sh_stream (shown p) = Some s /\ sd_isPaused s = Some true /\ v_badge d = (yellow, "Paused")) /\
  (forall s, loading p = false -> sh_error (shown p) = None -> sh_stream (shown p) = Some s ->
     sd_isPaused s <> Some true -> exists e, view session p = Throws e).
Proof.
  intros p. destruct (browse_unseen nd session streamId _ steps o (server_blind now at_)) as [He Hs].
  fold p in He, Hs. split; [done|]. split.
  - intros d. unfold view. destruct (loading p); [done|]. destruct (sh_error (shown p)); [done|].
    destruct (sh_stream (shown p)) as [s|] eqn:Es; [|done]. specialize (Hs s eq_refl).
    destruct (BigInt_of_string (sd_depositedAmount s)); [|done].
    destruct (BigInt_of_string (sd_withdrawnAmount s)); [|done].
    destruct (BigInt_of_string (sd_ratePerSecond s)); [|done]. simpl. unfold StatusBadge. rewrite Hs.
    destruct (sd_isPaused s) as [[]|] eqn:Ep; simpl; try done. intros [= <-]. by exists s.
  - intros s Hl Herr Es Hp. unfold view. rewrite Hl, Herr, Es. specialize (Hs s Es).
    destruct (BigInt_of_string (sd_depositedAmount s)); [|by eexists].
    destruct (BigInt_of_string (sd_withdrawnAmount s)); [|by eexists].
    destruct (BigInt_of_string (sd_ratePerSecond s)); [|by eexists]. simpl. unfold StatusBadge. rewrite Hs.
    destruct (sd_isPaused s) as [[]|]; simpl; eauto. by destruct Hp.
Qed.
End page_and_server.
