(* ===== verification/DashboardPage.v ===== *)
(** * The dashboard page: components/dashboard/dashboard-view.tsx with its dialogs,
    stream-creation/TopUpModal.tsx, CancelConfirmModal.tsx and
    dashboard/BatchClaimDrawer.tsx

    [Board] is the cached query of the wallet's snapshot with the dialog over the
    page, what was sent and what was said.  A handler is a function in [Js Board]:
    it asks the wallet, then corrects the cached snapshot itself instead of asking
    the server again; a failure is shown and thrown on, to the dialog that called.
    A row is turned back into a number of a stream by its digits
    ([stream_number]).  A loading message is replaced by the outcome's, so only
    the latter is kept. *)
From S2P Require Import Prelude JsLang Texts StreamId Json Schema Xdr Soroban SorobanFacts Simulate Amount Double WalletCalls PayrollFacts StreamForm Statement Dates ApiClient Dashboard StreamingAmount Floats StableSort Tracker.
Local Open Scope Z_scope.
Local Open Scope string_scope.

(** ** The state *)

(** The dialogs of the page, with the fields they keep. *)
Inductive ModalState :=
| no_modal
| topup_modal (stream : DashboardStream) (amount : string) (err : option string) (isSubmitting : bool)
| cancel_modal (stream : DashboardStream) (isSubmitting : bool)
| details_modal (stream : DashboardStream).

(** The cached query: its data, whether it loads, and the error of its last fetch. *)
Record Query := { q_data : option DashboardSnapshot; isLoading : bool; q_error : option JsError }.

Record Board := {
  snapshot : Query;
  modal : ModalState;
  showWizard : bool;
  withdrawingIncomingStreamId : option string;
  bd_outbox : Outbox;
  bd_toasts : list Toast
}.

Definition set_snapshot (q : Query) (b : Board) : Board := {|
  snapshot := q; modal := modal b; showWizard := showWizard b;
  withdrawingIncomingStreamId := withdrawingIncomingStreamId b; bd_outbox := bd_outbox b; bd_toasts := bd_toasts b |}.
Definition setModal (m : ModalState) (b : Board) : Board := {|
  snapshot := snapshot b; modal := m; showWizard := showWizard b;
  withdrawingIncomingStreamId := withdrawingIncomingStreamId b; bd_outbox := bd_outbox b; bd_toasts := bd_toasts b |}.
Definition setShowWizard (w : bool) (b : Board) : Board := {|
  snapshot := snapshot b; modal := modal b; showWizard := w;
  withdrawingIncomingStreamId := withdrawingIncomingStreamId b; bd_outbox := bd_outbox b; bd_toasts := bd_toasts b |}.
Definition setWithdrawing (id : option string) (b : Board) : Board := {|
  snapshot := snapshot b; modal := modal b; showWizard := showWizard b;
  withdrawingIncomingStreamId := id; bd_outbox := bd_outbox b; bd_toasts := bd_toasts b |}.
Definition set_outbox (o : Outbox) (b : Board) : Board := {|
  snapshot := snapshot b; modal := modal b; showWizard := showWizard b;
  withdrawingIncomingStreamId := withdrawingIncomingStreamId b; bd_outbox := o; bd_toasts := bd_toasts b |}.
Definition toast (t : Toast) (b : Board) : Board := {|
  snapshot := snapshot b; modal := modal b; showWizard := showWizard b;
  withdrawingIncomingStreamId := withdrawingIncomingStreamId b; bd_outbox := bd_outbox b;
  bd_toasts := (bd_toasts b ++ [t])%list |}.

(** [queryClient.setQueryData] with an updater that keeps a missing snapshot:
    data set by hand clears the error. *)
Definition setQueryData (f : DashboardSnapshot -> DashboardSnapshot) (b : Board) : Board :=
  match q_data (snapshot b) with
  | None => b
  | Some s => set_snapshot {| q_data := Some (f s); isLoading := isLoading (snapshot b); q_error := None |} b
  end.

(** ** Optimistic corrections *)

Definition with_outgoing (f : list DashboardStream -> list DashboardStream) (count : Z -> Z) (s : DashboardSnapshot) :
    DashboardSnapshot := {|
  totalSent := totalSent s; totalReceived := totalReceived s; totalValueLocked := totalValueLocked s;
  activeStreamsCount := count (activeStreamsCount s); recentActivity := recentActivity s;
  outgoingStreams := f (outgoingStreams s); incomingStreams := incomingStreams s |}.

Definition cancelled_row (streamId : string) (s : DashboardStream) : DashboardStream :=
  if bool_decide (ds_id s = streamId) then {|
    ds_id := ds_id s; ds_recipient := ds_recipient s; ds_amount := ds_amount s; ds_token := ds_token s;
    ds_status := st_cancelled; ds_deposited := ds_deposited s; ds_withdrawn := ds_withdrawn s; ds_date := ds_date s;
    ds_ratePerSecond := ds_ratePerSecond s; ds_lastUpdateTime := ds_lastUpdateTime s; ds_isActive := false |}
  else s.

Definition removeStreamLocally (streamId : string) : Board -> Board :=
  setQueryData (with_outgoing (map (cancelled_row streamId)) (fun n => Z.max 0 (n - 1))).

Definition topped_up_row (streamId : string) (amount : double) (s : DashboardStream) : DashboardStream :=
  if bool_decide (ds_id s = streamId) then {|
    ds_id := ds_id s; ds_recipient := ds_recipient s; ds_amount := ds_amount s; ds_token := ds_token s;
    ds_status := ds_status s; ds_deposited := dadd (ds_deposited s) amount; ds_withdrawn := ds_withdrawn s;
    ds_date := ds_date s; ds_ratePerSecond := ds_ratePerSecond s; ds_lastUpdateTime := ds_lastUpdateTime s;
    ds_isActive := ds_isActive s |}
  else s.

Definition topUpStreamLocally (streamId : string) (amount : double) : Board -> Board :=
  setQueryData (with_outgoing (map (topped_up_row streamId amount)) (fun n => n)).

Definition local_id (now : Z) : string := "stream-" +:+ BigInt_toString now.

Definition new_row (now : Z) (data : StreamFormData) : outcome DashboardStream :=
  let? today := Date_toISOString (Fin now) in
  Returns {|
    ds_id := local_id now; ds_date := before_T today; ds_recipient := shortenPublicKey (fd_recipient data);
    ds_amount := parseFloat (fd_amount data); ds_token := fd_token data; ds_status := st_active;
    ds_deposited := parseFloat (fd_amount data); ds_withdrawn := dint 0; ds_ratePerSecond := dint 0;
    ds_lastUpdateTime := now / 1000; ds_isActive := true |}.

Definition addStreamLocally (now : Z) (data : StreamFormData) : Js Board () :=
  let! newStream := lift (new_row now data) in
  modify (setQueryData (with_outgoing (cons newStream) (fun n => n + 1))).

(** ** The handlers *)

(** [id.replace(/\D/g, "")] *)
Fixpoint digits_of (s : string) : string :=
  match s with
  | EmptyString => EmptyString
  | String c s' => if is_digit c then String c (digits_of s') else digits_of s'
  end.

Definition stream_number (id : string) : outcome Z :=
  BigInt_of_string (match digits_of id with EmptyString => "0" | d => d end).

(** The wallet call, on the messages of the board. *)
Definition asking {A} (m : Js Outbox A) : Js Board A := fun b =>
  let '(r, o) := m (bd_outbox b) in (r, set_outbox o b).

Section board.
Context {Sdk : SorobanSdk} (tokens : TokenAddresses) (nd : Node) (key : string).

(** What every handler does around its work: it says how it ended, and throws on. *)
Definition reporting {A} (message : string) (work : Js Board A) : Js Board A :=
  try_catch (let! r := work in do! modify (toast (Success message)) in ret r)
    (fun err => do! modify (toast (Failure (toSorobanErrorMessage err))) in throw err).

Definition form_params (data : StreamFormData) : outcome CreateStreamParams :=
  let? tokenAddress := getTokenAddress tokens (fd_token data) in
  let? amount := toBaseUnits (fd_amount data) 7 in
  let? durationSeconds := toDurationSeconds (fd_duration data) (fd_durationUnit data) in
  Returns {| cp_recipient := fd_recipient data; cp_tokenAddress := tokenAddress;
             cp_amount := amount; cp_durationSeconds := durationSeconds |}.

Definition handleCreateStream (now : Z) (data : StreamFormData) : Js Board string :=
  reporting "Transaction confirmed on-chain!"
    (let! params := lift (form_params data) in
     let! result := asking (createStream nd key params) in
     do! addStreamLocally now data in ret result).

Definition handleTopUpConfirm (streamId amountStr : string) : Js Board () :=
  reporting "Stream topped up successfully!"
    (let! number := lift (stream_number streamId) in
     let! amount := lift (toBaseUnits amountStr 7) in
     do! asking (topUpStream nd key number amount) in
     do! modify (topUpStreamLocally streamId (parseFloat amountStr)) in
     modify (setModal no_modal)).

Definition handleCancelConfirm (streamId : string) : Js Board () :=
  reporting "Stream cancelled."
    (let! number := lift (stream_number streamId) in
     do! asking (cancelStream nd key number) in
     do! modify (removeStreamLocally streamId) in
     modify (setModal no_modal)).

(** [refetch] never throws: a failed fetch keeps the data and leaves its error. *)
Definition refetchSnapshot (answer : outcome DashboardSnapshot) (b : Board) : Board :=
  set_snapshot
    match answer with
    | Returns s => {| q_data := Some s; isLoading := false; q_error := None |}
    | Throws e => {| q_data := q_data (snapshot b); isLoading := false; q_error := Some e |}
    end b.

Definition handleIncomingWithdraw (answer : outcome DashboardSnapshot) (stream : DashboardStream) : Js Board () :=
  fun b =>
    let '(r, b) :=
      reporting "Withdrawal successful!"
        (let! number := lift (stream_number (ds_id stream)) in
         do! asking (withdrawFromStream nd key number) in
         modify (refetchSnapshot answer)) (setWithdrawing (Some (ds_id stream)) b) in
    (r, setWithdrawing None b).

(** ** The dialogs *)

Definition validate (amount : string) : option string :=
  match validateAmountInput amount 7 with
  | Some e => Some e
  | None => if hasValidPrecision amount 7 then None
            else Some "Amount exceeds maximum precision (7 decimal places)."
  end.

Definition confirm_topup (stream : DashboardStream) (amount : string) (b : Board) : Board :=
  match validate amount with
  | Some e => setModal (topup_modal stream amount (Some e) false) b
  | None =>
      match handleTopUpConfirm (ds_id stream) amount (setModal (topup_modal stream amount None true) b) with
      | (Returns _, b) => toast (Success ("Successfully added " +:+ amount +:+ " " +:+ ds_token stream +:+ " to stream")) b
      | (Throws _, b) =>
          setModal (topup_modal stream amount None false)
            (toast (Failure "Failed to top up stream. Please try again.") b)
      end
  end.

Definition confirm_cancel (stream : DashboardStream) (b : Board) : Board :=
  match handleCancelConfirm (ds_id stream) (setModal (cancel_modal stream true) b) with
  | (Returns _, b) => toast (Success ("Stream " +:+ ds_id stream +:+ " cancelled successfully")) b
  | (Throws _, b) =>
      setModal (cancel_modal stream false) (toast (Failure "Failed to cancel stream. Please try again.") b)
  end.

(** What the user does, and answers of the server; the rows are those shown. *)
Inductive Step :=
| ClickTopUp (s : DashboardStream) | ClickCancel (s : DashboardStream) | ClickDetails (s : DashboardStream)
| TypeTopUp (text : string) | Confirm | Close
| ShowWizard | CloseWizard | SubmitWizard (now : Z) (data : StreamFormData)
| WithdrawIncoming (s : DashboardStream) (answer : outcome DashboardSnapshot)
| Refetched (answer : outcome DashboardSnapshot).

Definition board_step (b : Board) (step : Step) : Board :=
  match step with
  | ClickTopUp s => setModal (topup_modal s "" None false) b
  | ClickCancel s => setModal (cancel_modal s false) b
  | ClickDetails s => setModal (details_modal s) b
  | TypeTopUp text =>
      match modal b with topup_modal s _ e false => setModal (topup_modal s text e false) b | _ => b end
  | Confirm =>
      match modal b with
      | topup_modal s amount _ false => confirm_topup s amount b
      | cancel_modal s false => confirm_cancel s b
      | _ => b
      end
  | Close =>
      match modal b with topup_modal _ _ _ true | cancel_modal _ true => b | _ => setModal no_modal b end
  | ShowWizard => setShowWizard true b
  | CloseWizard => setShowWizard false b
  | SubmitWizard now data => if showWizard b then (handleCreateStream now data b).2 else b
  | WithdrawIncoming s answer => (handleIncomingWithdraw answer s b).2
  | Refetched answer => refetchSnapshot answer b
  end.

(** ** Claiming several streams at once *)

Section claims.
Context (vec_ScVal : list Z -> option ScVal).

(** [now]: [Date.now()] *)
Definition claimable (now : Z) (s : DashboardStream) : double :=
  if negb (ds_isActive s) || negb (match ds_status s with st_active => true | _ => false end) then dint 0
  else
    let elapsed := Math_max (dint 0) (dsub (ddiv_pos (dint now) 1000) (dint (ds_lastUpdateTime s))) in
    Math_min (Math_max (dint 0) (dsub (ds_deposited s) (ds_withdrawn s))) (dmul elapsed (ds_ratePerSecond s)).

Definition claimableStreams (now : Z) (streams : list DashboardStream) : list DashboardStream :=
  List.filter (fun s => dltb (dint 0) (claimable now s)) streams.

Definition selectedItems (now : Z) (streams : list DashboardStream) (selected : list string) : list DashboardStream :=
  List.filter (fun s => bool_decide (ds_id s ∈ selected)) (claimableStreams now streams).

(** The drawer's [submit]: the call, then the refetch; it closes on success. *)
Definition submit (now : Z) (streams : list DashboardStream) (selected : list string)
    (answer : outcome DashboardSnapshot) (b : Board) : Board * bool :=
  match selectedItems now streams selected with
  | [] => (b, false)
  | items =>
      match (let! ids := lift (omap_all (fun s => stream_number (ds_id s)) items) in
             asking (batchWithdrawFromStreams vec_ScVal nd key ids)) b with
      | (Returns _, b) => (refetchSnapshot answer (toast (Success "Batch claim submitted") b), true)
      | (Throws e, b) => (toast (Failure (message_of e)) b, false)
      end
  end.
End claims.
End board.

(** ** What is shown *)

Definition SIDEBAR_ITEMS : list (string * string) := [
  ("overview", "Overview"); ("incoming", "Incoming"); ("outgoing", "Outgoing");
  ("paused", "Paused"); ("activity", "Activity"); ("settings", "Settings")].

Definition activeTab (tabParam : option string) : string :=
  match tabParam with
  | Some tab => if bool_decide (tab ∈ map fst SIDEBAR_ITEMS) then tab else "overview"
  | None => "overview"
  end.

Inductive Content :=
| Skeleton | ErrorState (message : string) | FirstStream | Tab (id : string) (s : DashboardSnapshot)
| UnderConstruction.

Section content.
Context {Sdk : SorobanSdk}.

Definition snapshotError (b : Board) : string := match q_error (snapshot b) with Some e => message_of e | None => "" end.

Definition renderContent (tabParam : option string) (b : Board) : Content :=
  if isLoading (snapshot b) then Skeleton
  else
    match snapshotError b, q_data (snapshot b) with
    | String _ _ as e, _ => ErrorState e
    | _, None => FirstStream
    | _, Some s =>
        match outgoingStreams s, incomingStreams s with
        | [], [] => FirstStream
        | _, _ =>
            if bool_decide (activeTab tabParam ∈ map fst SIDEBAR_ITEMS) then Tab (activeTab tabParam) s
            else UnderConstruction
        end
    end.

End content.

(** The rows of the table, and its count. *)
Definition active_rows (s : DashboardSnapshot) : list DashboardStream :=
  List.filter (fun r => match ds_status r with st_active => true | _ => false end) (outgoingStreams s).

(** A live event that makes the snapshot stale. *)
Definition relevantTypes : list string :=
  ["created"; "topped_up"; "withdrawn"; "cancelled"; "completed"; "paused"; "resumed"].
Definition invalidates (types : list string) : bool :=
  match types with latest :: _ => bool_decide (latest ∈ relevantTypes) | [] => false end.

(** * The dashboard page: properties

    A dialog sends at most one call, for the stream of its row and for exactly
    the amount that was typed; the page is corrected if and only if the chain
    confirmed.  The corrections keep the count of active streams.  The row the
    page adds itself is no stream: its number is the time it was added. *)

Section numbers.
Lemma digits_of_digits s : all_digits s = true -> digits_of s = s.
Proof. induction s as [|c s IH]; simpl; [done|]. intros [-> Hs]%andb_prop. by rewrite IH. Qed.

Lemma stream_number_digits s n : digits_of s = nat_digits n -> 0 <= n -> stream_number s = Returns n.
Proof.
  intros Hs Hn. unfold stream_number. rewrite Hs. pose proof (nat_digits_only n Hn) as Hd.
  assert (E : BigInt_toString n = nat_digits n) by (unfold BigInt_toString; by rewrite (proj2 (Z.ltb_ge n 0) Hn)).
  pose proof (BigInt_roundtrip n) as Hr. rewrite E in Hr. by destruct (nat_digits n).
Qed.

Lemma nat_digits_of n : 0 <= n -> digits_of (nat_digits n) = nat_digits n.
Proof.
  intros Hn. apply digits_of_digits. pose proof (nat_digits_only n Hn) as H. unfold digits_only in H.
  by destruct (nat_digits n).
Qed.

(** The number of a row of the server, and of a row the page added. *)
Lemma row_number n : 0 <= n -> stream_number (BigInt_toString n) = Returns n.
Proof.
  intros Hn. apply stream_number_digits; [|done]. unfold BigInt_toString. rewrite (proj2 (Z.ltb_ge n 0) Hn).
  by apply nat_digits_of.
Qed.
Lemma local_number now : 0 <= now -> stream_number (local_id now) = Returns now.
Proof.
  intros Hn. apply stream_number_digits; [|done]. unfold local_id, BigInt_toString. rewrite (proj2 (Z.ltb_ge now 0) Hn).
  cbn. by apply nat_digits_of.
Qed.

(** No row of the server has the name of a row the page added. *)
Lemma local_no_server_id now n : local_id now <> BigInt_toString n.
Proof.
  unfold local_id. unfold BigInt_toString at 2. destruct (Z.ltb_spec n 0) as [Hn|Hn]; [done|]. intros H.
  pose proof (nat_digits_only n Hn) as Hd. by rewrite <- H in Hd.
Qed.
Lemma local_id_inj t t' : local_id t = local_id t' -> t = t'.
Proof.
  unfold local_id. intros [= H]. change (BigInt_toString t = BigInt_toString t') in H.
  pose proof (BigInt_roundtrip t) as Hr. rewrite H, BigInt_roundtrip in Hr. congruence.
Qed.
End numbers.

Section dialogs.
Context {Sdk : SorobanSdk} (nd : Node) (key : string).

(** A top-up of [raw] units, and a call that names a stream only. *)
Definition top_up_call (id raw : Z) (tx : Invocation) : Prop :=
  exists a v, new_Address key = Some a /\ native_i128 raw = Returns v /\
    tx = {| method := "top_up_stream"; args := [ScvAddress a; ScvU64 id; v] |}.
Definition stream_call (name : string) (id : Z) (tx : Invocation) : Prop :=
  exists a, new_Address key = Some a /\ tx = {| method := name; args := [ScvAddress a; ScvU64 id] |}.

Lemma topUp_sends id raw s :
  faithful_wallet nd -> one_call nd (top_up_call id raw) s (topUpStream nd key id raw s).
Proof.
  intros Hw. unfold topUpStream. apply one_call_lift. intros v (a & Ha & ->)%address_arg.
  apply one_call_lift. intros v ->%native_u64_val. apply one_call_lift. intros v Hv.
  apply freighterCall_once; [done|]. by exists a, v.
Qed.

Lemma on_stream_sends name id s :
  faithful_wallet nd -> one_call nd (stream_call name id) s (on_stream nd name key id s).
Proof.
  intros Hw. unfold on_stream. apply one_call_lift. intros v (a & Ha & ->)%address_arg.
  apply one_call_lift. intros v ->%native_u64_val. apply freighterCall_once; [done|]. by exists a.
Qed.

(** What the page has to show for a call of the kind [P]: with a confirmation the
    call was sent, and confirmed; without, at most one call was sent. *)
Definition sent_one (P : Invocation -> Prop) (ok : bool) (o o' : Outbox) : Prop :=
  if ok then exists tx hash, WalletCalls.sent o' = (WalletCalls.sent o ++ [(tx, hash)])%list /\ P tx /\ confirmed nd hash
  else WalletCalls.sent o' = WalletCalls.sent o \/ exists tx hash, WalletCalls.sent o' = (WalletCalls.sent o ++ [(tx, hash)])%list /\ P tx /\ ~ confirmed nd hash.

Lemma one_call_sent P o r o' : one_call nd P o (r, o') -> sent_one P (is_returns r) o o'.
Proof.
  intros [_ [[Hs Hr]|(tx & hash & Hs & HP & Hr)]]; simpl in *.
  - rewrite Hr. by left.
  - destruct r as [h|e]; simpl.
    + exists tx, hash. split; [done|]. split; [done|]. by destruct (proj1 (Hr h) eq_refl) as [-> ?].
    + right. exists tx, hash. split; [done|]. split; [done|]. intros Hc.
      by specialize (proj2 (Hr hash) (conj eq_refl Hc)).
Qed.

(** Below 2^51 units a validated amount is sent exactly. *)
Lemma validated_units amount raw :
  validateAmountInput amount 7 = None -> parseAmount amount 7 = Returns raw -> raw < 2 ^ 51 ->
  toBaseUnits amount 7 = Returns raw.
Proof.
  intros Hin Hread Hlt. pose proof (validated_scaled _ 7 _ Hin ltac:(lia) Hread Hlt) as Hs.
  pose proof (validated_reads _ _ Hin) as (_ & _ & Hp & _). rewrite parseFloat_trim in Hp, Hs.
  unfold toBaseUnits. by rewrite Hp.
Qed.

Lemma topup_handler id n amount raw b :
  stream_number id = Returns n -> toBaseUnits amount 7 = Returns raw ->
  handleTopUpConfirm nd key id amount b =
  match topUpStream nd key n raw (bd_outbox b) with
  | (Returns _, o) =>
      (Returns tt, toast (Success "Stream topped up successfully!")
         (setModal no_modal (topUpStreamLocally id (parseFloat amount) (set_outbox o b))))
  | (Throws e, o) => (Throws e, toast (Failure (toSorobanErrorMessage e)) (set_outbox o b))
  end.
Proof.
  intros Hn Ha. unfold handleTopUpConfirm, reporting, try_catch, bind, lift, asking, modify, ret, throw.
  rewrite Hn, Ha. by destruct (topUpStream _ _ _ _ _) as [[h|e] o].
Qed.

Lemma cancel_handler id n b :
  stream_number id = Returns n ->
  handleCancelConfirm nd key id b =
  match cancelStream nd key n (bd_outbox b) with
  | (Returns _, o) =>
      (Returns tt, toast (Success "Stream cancelled.") (setModal no_modal (removeStreamLocally id (set_outbox o b))))
  | (Throws e, o) => (Throws e, toast (Failure (toSorobanErrorMessage e)) (set_outbox o b))
  end.
Proof.
  intros Hn. unfold handleCancelConfirm, reporting, try_catch, bind, lift, asking, modify, ret, throw.
  rewrite Hn. by destruct (cancelStream _ _ _ _) as [[h|e] o].
Qed.

Lemma setQueryData_data f b : q_data (snapshot (setQueryData f b)) = f <$> q_data (snapshot b).
Proof. unfold setQueryData. destruct (q_data (snapshot b)) as [s|] eqn:E; simpl; by rewrite ?E. Qed.
Lemma setQueryData_outbox f b : bd_outbox (setQueryData f b) = bd_outbox b.
Proof. unfold setQueryData. by case_match. Qed.


(** The dialog to cancel, likewise; the row may be one the page added itself. *)
Theorem cancel_dialog tokens (s : DashboardStream) (id : Z) (b : Board) :
  faithful_wallet nd -> modal b = cancel_modal s false -> stream_number (ds_id s) = Returns id ->
  let b' := board_step tokens nd key b Confirm in
  (modal b' = no_modal /\ sent_one (stream_call "cancel_stream" id) true (bd_outbox b) (bd_outbox b') /\
   q_data (snapshot b') =
     with_outgoing (map (cancelled_row (ds_id s))) (fun n => Z.max 0 (n - 1)) <$> q_data (snapshot b)) \/
  (modal b' = cancel_modal s false /\ snapshot b' = snapshot b /\
   sent_one (stream_call "cancel_stream" id) false (bd_outbox b) (bd_outbox b')).
Proof.
  intros Hw Hm Hid b'. subst b'. simpl. rewrite Hm. unfold confirm_cancel. rewrite (cancel_handler _ id) by done.
  pose proof (on_stream_sends "cancel_stream" id (bd_outbox b) Hw) as Ho. cbn [bd_outbox setModal].
  change (on_stream nd "cancel_stream" key id) with (cancelStream nd key id) in Ho.
  destruct (cancelStream nd key id (bd_outbox b)) as [[h|err] o]; apply one_call_sent in Ho; simpl in Ho.
  - left. cbn. unfold removeStreamLocally. rewrite setQueryData_outbox, setQueryData_data. done.
  - right. done.
Qed.

(** The row of a stream that was just created is not that stream: until the
    snapshot is fetched again, cancelling it asks the chain to cancel the stream
    whose number is the time of day, in milliseconds. *)
Theorem new_row_is_no_stream tokens (now : Z) (data : StreamFormData) (hash : string) (b b1 : Board) (s : DashboardSnapshot) :
  faithful_wallet nd -> 0 <= now -> q_data (snapshot b) = Some s ->
  handleCreateStream tokens nd key now data b = (Returns hash, b1) ->
  exists row s1, q_data (snapshot b1) = Some s1 /\ head (active_rows s1) = Some row /\
    let b2 := fold_left (board_step tokens nd key) [ClickCancel row; Confirm] b1 in
    exists ok, sent_one (stream_call "cancel_stream" now) ok (bd_outbox b1) (bd_outbox b2).
Proof.
  intros Hw Hnow Hs. unfold handleCreateStream, reporting, try_catch, addStreamLocally, bind, lift, modify, ret, throw.
  destruct (form_params tokens data) as [params|]; [|done]. unfold asking.
  destruct (createStream nd key params (bd_outbox b)) as [[h|] o]; [|done].
  destruct (new_row now data) as [row|] eqn:Hrow; [|done]. intros [= -> <-].
  exists row. eexists. split; [cbn; rewrite setQueryData_data; simpl; by rewrite Hs|].
  unfold new_row in Hrow. destruct (Date_toISOString (Fin now)) as [today|]; [|done]. injection Hrow as <-.
  split; [done|]. cbv zeta. cbn [fold_left]. set (row := Build_DashboardStream _ _ _ _ _ _ _ _ _ _ _).
  match goal with |- context [board_step _ _ _ ?b1 (ClickCancel row)] => set (b2 := board_step _ _ _ b1 (ClickCancel row)) end.
  destruct (cancel_dialog tokens row now b2 Hw eq_refl (local_number now Hnow)) as [(_ & Ho & _)|(_ & _ & Ho)];
    eexists; exact Ho.
Qed.
End dialogs.

(** ** The count of active streams *)

Definition active_count (xs : list DashboardStream) : Z := Z.of_nat (length (List.filter ds_isActive xs)).

(** The count is that of the active rows, and no two rows share a name. *)
Definition counted (s : DashboardSnapshot) : Prop :=
  activeStreamsCount s = active_count (outgoingStreams s) /\ NoDup (map ds_id (outgoingStreams s)).

Lemma cancelled_ids id xs : map ds_id (map (cancelled_row id) xs) = map ds_id xs.
Proof. rewrite map_map. apply map_ext. intros s. unfold cancelled_row. by case_bool_decide. Qed.
Lemma topped_up_ids id a xs : map ds_id (map (topped_up_row id a) xs) = map ds_id xs.
Proof. rewrite map_map. apply map_ext. intros s. unfold topped_up_row. by case_bool_decide. Qed.

Lemma active_cons s xs : active_count (s :: xs) = (if ds_isActive s then 1 else 0) + active_count xs.
Proof. unfold active_count. simpl. destruct (ds_isActive s); simpl; lia. Qed.

Lemma cancelled_other id xs : id ∉ map ds_id xs -> map (cancelled_row id) xs = xs.
Proof.
  induction xs as [|s xs IH]; [done|]. simpl. intros [Hne Hnot]%not_elem_of_cons. rewrite IH by done.
  unfold cancelled_row. by rewrite bool_decide_eq_false_2.
Qed.

Lemma cancelled_count r xs :
  NoDup (map ds_id xs) -> r ∈ xs -> ds_isActive r = true ->
  active_count (map (cancelled_row (ds_id r)) xs) = active_count xs - 1.
Proof.
  induction xs as [|s xs IH]; simpl; [by intros _ ?%not_elem_of_nil|].
  intros [Hnot Hnd]%list.NoDup_cons Hin Hact. rewrite !active_cons. apply elem_of_cons in Hin as [<-|Hin].
  - rewrite cancelled_other by done. unfold cancelled_row. rewrite bool_decide_eq_true_2 by done. rewrite Hact. simpl. lia.
  - rewrite IH by done. assert (E : cancelled_row (ds_id r) s = s); [|rewrite E; lia].
    unfold cancelled_row. rewrite bool_decide_eq_false_2; [done|]. intros E. apply Hnot. rewrite E.
    apply list_elem_of_In, in_map, list_elem_of_In, Hin.
Qed.

(** Every correction keeps the count: a cancellation of an active row, a top-up of
    any, and a new row whose name is not taken. *)
Theorem corrections_counted (s : DashboardSnapshot) :
  counted s ->
  (forall r, r ∈ outgoingStreams s -> ds_isActive r = true ->
     counted (with_outgoing (map (cancelled_row (ds_id r))) (fun n => Z.max 0 (n - 1)) s)) /\
  (forall id a, counted (with_outgoing (map (topped_up_row id a)) (fun n => n) s)) /\
  (forall now data r, new_row now data = Returns r -> local_id now ∉ map ds_id (outgoingStreams s) ->
     counted (with_outgoing (cons r) (fun n => n + 1) s)).
Proof.
  intros [Hc Hn]. split_and!.
  - intros r Hr Ha. split; simpl; [|by rewrite cancelled_ids].
    rewrite cancelled_count by done. rewrite Hc. apply Z.max_r.
    rewrite <- cancelled_count with (r := r) by done. unfold active_count. lia.
  - intros id a. split; simpl; [|by rewrite topped_up_ids]. rewrite Hc. unfold active_count. f_equal.
    clear. induction (outgoingStreams s) as [|x xs IH]; [done|]. simpl.
    assert (E : ds_isActive (topped_up_row id a x) = ds_isActive x) by (unfold topped_up_row; by case_bool_decide).
    rewrite E. by destruct (ds_isActive x); simpl; rewrite IH.
  - intros now data r Hr Hfresh. unfold new_row in Hr. destruct (Date_toISOString (Fin now)); [|done].
    injection Hr as <-. split; simpl.
    + rewrite active_cons, Hc. simpl. lia.
    + by apply list.NoDup_cons.
Qed.

(** What the server answers is counted, and leaves every local name free. *)
Theorem server_counted tokens engine (outgoing incoming : list BackendStream) (s : DashboardSnapshot) :
  NoDup (map (fun r => streamId (bs_row r)) outgoing) ->
  snapshot_of tokens engine outgoing incoming = Returns s ->
  counted s /\ forall now, local_id now ∉ map ds_id (outgoingStreams s).
Proof.
  intros Hnd. unfold snapshot_of. destruct (omap_all _ outgoing) as [out|] eqn:Ho; [|done]. simpl.
  destruct (omap_all _ incoming) as [inc|]; [|done]. simpl. intros [= <-].
  assert (Hrow : Forall2 (fun r x => ds_id x = BigInt_toString (streamId (bs_row r)) /\ ds_isActive x = isActive (bs_row r))
                   outgoing out).
  { eapply list.Forall2_impl; [apply (omap_all_Forall2 _ _ _ Ho)|]. intros r x. unfold mapBackendStreamToFrontend.
    destruct (formatStreamDateUtc _); [|done]. by intros [= <-]. }
  clear Ho. unfold counted. simpl. split.
  - induction Hrow as [|r x outgoing out [Hid Hact] Hrow IH]; [split; [done|constructor]|]. simpl in *.
    apply list.NoDup_cons in Hnd as [Hnot Hnd]. destruct (IH Hnd) as [IH1 IH2]. split.
    + rewrite active_cons, Hact, <- IH1. destruct (isActive (bs_row r)); simpl; lia.
    + apply list.NoDup_cons. split; [|done]. rewrite Hid. intros Hin. apply Hnot. clear -Hrow Hin.
      induction Hrow as [|r' x' outgoing out [Hid' _] Hrow IH]; simpl in *; [by apply not_elem_of_nil in Hin|].
      apply elem_of_cons in Hin as [E|Hin]; [|apply elem_of_cons; auto]. apply elem_of_cons. left.
      rewrite Hid' in E. pose proof (BigInt_roundtrip (streamId (bs_row r))) as H. rewrite E, BigInt_roundtrip in H. congruence.
  - intros now. clear Hnd. induction Hrow as [|r x outgoing out [Hid _] Hrow IH]; simpl; [by apply not_elem_of_nil|].
    apply not_elem_of_cons. split; [|done]. rewrite Hid. apply local_no_server_id.
Qed.

(** ** Claims and contents *)

Section contents.
Context {Sdk : SorobanSdk} (vec_ScVal : list Z -> option ScVal) (nd : Node) (key : string).

(** A batch claim takes active streams with something to claim, each once if the
    rows are; what it sends is never a call the contract can take. *)
Theorem batch_claim_untyped (now : Z) (streams : list DashboardStream) (selected : list string) answer (b : Board) :
  faithful_wallet nd ->
  Forall (fun s => ds_status s = st_active /\ ds_isActive s = true /\ ds_id s ∈ selected /\ s ∈ streams)
    (selectedItems now streams selected) /\
  let b' := (submit nd key vec_ScVal now streams selected answer b).1 in
  WalletCalls.sent (bd_outbox b') = WalletCalls.sent (bd_outbox b) \/
  exists tx hash, WalletCalls.sent (bd_outbox b') = (WalletCalls.sent (bd_outbox b) ++ [(tx, hash)])%list /\
    well_typed tx = false.
Proof.
  intros Hw. split.
  - apply List.Forall_forall. intros s [[Hin Hc]%filter_In Hsel]%filter_In.
    apply bool_decide_eq_true_1 in Hsel. unfold claimable in Hc.
    destruct (ds_isActive s), (ds_status s); simpl in Hc; try done.
    split_and!; try done. by apply list_elem_of_In.
  - unfold submit. destruct (selectedItems now streams selected) as [|i items]; [by left|].
    unfold bind, lift. destruct (omap_all _ _) as [ids|]; [|by left]. unfold asking.
    pose proof (batch_withdrawal_untyped vec_ScVal nd key ids (bd_outbox b) Hw) as [_ H].
    destruct (batchWithdrawFromStreams vec_ScVal nd key ids (bd_outbox b)) as [[h|e] o]; simpl in *;
      (destruct H as [[H _]|(tx & hash & H & Ht & _)]; [by left|right; by exists tx, hash]).
Qed.

(** Every tab has its content; a snapshot that could not be fetched again is not
    shown any more, though its data are still there, until a correction or an
    answer clears the error. *)
Theorem contents_of_board (tab : option string) (b : Board) :
  renderContent tab b <> UnderConstruction /\
  (forall e, message_of e <> "" -> renderContent tab (refetchSnapshot (Throws e) b) = ErrorState (message_of e)) /\
  (forall e f s, q_data (snapshot b) = Some s ->
     snapshotError (setQueryData f (refetchSnapshot (Throws e) b)) = "").
Proof.
  split_and!.
  - unfold renderContent. destruct (isLoading (snapshot b)); [done|]. destruct (snapshotError b); [|done].
    destruct (q_data (snapshot b)) as [s|]; [|done].
    assert (H : activeTab tab ∈ map fst SIDEBAR_ITEMS).
    { unfold activeTab. destruct tab as [t|]; [case_bool_decide; [done|]|]; apply list_elem_of_In; by left. }
    rewrite bool_decide_eq_true_2 by done. by destruct (outgoingStreams s), (incomingStreams s).
  - intros e He. unfold renderContent, snapshotError, refetchSnapshot. simpl. by destruct (message_of e).
  - intros e f s Hs. unfold setQueryData, refetchSnapshot. simpl. rewrite Hs. done.
Qed.
End contents.

(** ** The dialog at work *)

#[local] Existing Instance key_soroban.

Definition sample_row : DashboardStream := {|
  ds_id := "7"; ds_recipient := "GBBDIO...J2EU"; ds_amount := dint 10; ds_token := "XLM"; ds_status := st_active;
  ds_deposited := dint 10; ds_withdrawn := dint 0; ds_date := "2024-02-29"; ds_ratePerSecond := dint 1;
  ds_lastUpdateTime := 1709210096; ds_isActive := true |}.

Definition sample_snapshot : DashboardSnapshot := {|
  totalSent := dint 0; totalReceived := dint 0; totalValueLocked := dint 10; activeStreamsCount := 1;
  recentActivity := []; outgoingStreams := [sample_row]; incomingStreams := [] |}.

(** The page with the dialog open over it, an amount typed. *)
Definition topping_up (amount : string) : Board := {|
  snapshot := {| q_data := Some sample_snapshot; isLoading := false; q_error := None |};
  modal := topup_modal sample_row amount None false; showWizard := false; withdrawingIncomingStreamId := None;
  bd_outbox := nothing_sent; bd_toasts := [] |}.


Lemma corrections_counted_sample :
  counted (with_outgoing (map (cancelled_row "7")) (fun n => Z.max 0 (n - 1)) sample_snapshot).
Proof.
  apply (proj1 (corrections_counted sample_snapshot (conj eq_refl (list.NoDup_singleton "7"))) sample_row); [|done].
  by apply list_elem_of_singleton.
Qed.
