(* ===== verification/WalletSession.v ===== *)
(** * The wallet's session: frontend/src/lib/wallet.ts and
    context/wallet-context.tsx

    [connectWallet] asks a wallet for an account and builds a session; the
    provider keeps the session in its state and in the browser's storage.  The
    extension and the bridges that other wallets put on the window are given
    ([Wallets]): what each call answers, or what it throws, which need not be an
    error.  Several connections can be under way; each ends in its own time. *)
From S2P Require Import Prelude JsLang Texts StreamId Json Dates WalletCalls.
Local Open Scope Z_scope.
Local Open Scope string_scope.

(** ** Wallets *)

Inductive WalletId := freighter | albedo | xbull | hana | walletconnect.
#[export] Instance WalletId_eq_dec : EqDecision WalletId.
Proof. solve_decision. Defined.

Record WalletDescriptor := { wd_id : WalletId; wd_name : string; badge : string; wd_description : string }.

Definition SUPPORTED_WALLETS : list WalletDescriptor := [
  {| wd_id := freighter; wd_name := "Freighter"; badge := "Extension";
     wd_description := "Direct browser wallet for Stellar accounts and Soroban apps." |};
  {| wd_id := albedo; wd_name := "Albedo"; badge := "Web / Mobile";
     wd_description := "Popup wallet for browser and mobile users." |};
  {| wd_id := xbull; wd_name := "xBull"; badge := "Extension / Web";
     wd_description := "Stellar wallet for desktop and web users." |};
  {| wd_id := hana; wd_name := "Hana"; badge := "Extension"; wd_description := "Secure Stellar browser wallet." |};
  {| wd_id := walletconnect; wd_name := "WalletConnect"; badge := "Mobile";
     wd_description := "Connect mobile wallets with WalletConnect." |}].

(** A [WalletId] as a text. *)
Definition id_text (w : WalletId) : string :=
  match w with
  | freighter => "freighter" | albedo => "albedo" | xbull => "xbull" | hana => "hana"
  | walletconnect => "walletconnect"
  end.

Record WalletSession := {
  walletId : WalletId;
  walletName : string;
  publicKey : string;
  connectedAt : string;
  network : string;
  mocked : bool
}.

(** What can be thrown. *)
Inductive Thrown := FreighterNotInstalledError | AnError (message : string) | AString (s : string) | AnythingElse.
Definition Result (A : Type) : Type := A + Thrown.

Definition not_installed_text : string :=
  "Freighter extension is not installed. Please install it from freighter.app.".

(** NEXT_PUBLIC_STELLAR_NETWORK *)
Definition STELLAR_NETWORK (env : option string) : string := default "TESTNET" env.
Definition is_mainnet (env : option string) : bool := bool_decide (STELLAR_NETWORK env = "MAINNET").
Definition STELLAR_NETWORK_ID (env : option string) : string :=
  if is_mainnet env then "Public Global Stellar Network ; September 2015" else "Test SDF Network ; September 2015".

(** The answers of a wallet; the errors the extension reports as texts. *)
Record Extension := {
  isConnected : Result bool;
  setAllowed : Result ();
  getAddress : Result (string * option string);
  getNetworkDetails : Result (string * option string)
}.

Inductive Bridge := no_bridge | no_connect | Connects (answer : Result (option string * option string)).

Record Wallets := { extension : Extension; bridge : WalletId -> Bridge }.

Definition find_wallet (w : WalletId) : option WalletDescriptor :=
  List.find (fun d => bool_decide (wd_id d = w)) SUPPORTED_WALLETS.

Definition buildSession (now : string) (w : WalletId) (key label : string) : Result WalletSession :=
  match find_wallet w with
  | None => inr (AnError "Unsupported wallet selected.")
  | Some d => inl {| walletId := w; walletName := wd_name d; publicKey := key; connectedAt := now;
                     network := label; mocked := false |}
  end.

Definition truthy (s : string) : bool := match s with EmptyString => false | _ => true end.

(** The network of a passphrase. *)
Definition passphrase_network (passphrase : string) : string :=
  let raw := toLowerCase passphrase in
  if includes "public" raw || bool_decide (raw = "mainnet") then "Mainnet"
  else if includes "test" raw || includes "sdf" raw then "Testnet"
  else "Other".

Section connecting.
Context (env : option string) (ws : Wallets).

Definition connectFreighter (now : string) : Result WalletSession :=
  match isConnected (extension ws) with
  | inr e => inr e
  | inl false => inr FreighterNotInstalledError
  | inl true =>
      match setAllowed (extension ws), getAddress (extension ws) with
      | inr e, _ | _, inr e => inr e
      | inl _, inl (address, addressError) =>
          if negb (truthy address) || truthy (default "" addressError) then
            inr (AnError match addressError with
                         | Some (String _ _ as e) => e
                         | _ => "Freighter did not return a valid public key."
                         end)
          else
            let networkId := if includes "public" (toLowerCase (STELLAR_NETWORK_ID env)) then "Mainnet" else "Testnet" in
            let networkId :=
              match getNetworkDetails (extension ws) with
              | inl (passphrase, err) =>
                  if truthy passphrase && negb (truthy (default "" err)) then passphrase_network passphrase else networkId
              | inr _ => networkId
              end in
            buildSession now freighter address networkId
      end
  end.

Definition connectWallet (now : string) (w : WalletId) : Result WalletSession :=
  match w with
  | freighter => connectFreighter now
  | _ =>
      match bridge ws w with
      | no_bridge =>
          inr (AnError ((match find_wallet w with Some d => wd_name d | None => id_text w end)
                        +:+ " is not installed or available."))
      | no_connect => inr (AnError (id_text w +:+ " does not expose a compatible connect API."))
      | Connects (inr e) => inr e
      | Connects (inl (key, address)) =>
          match (match key with Some k => Some k | None => address end) with
          | Some (String _ _ as key) => buildSession now w key (if is_mainnet env then "Mainnet" else "Testnet")
          | _ => inr (AnError (id_text w +:+ " did not return a public key."))
          end
      end
  end.
End connecting.

(** ** What is shown *)

(** [/a.*b/] on upper-case texts *)
Fixpoint then_on_line (a b s : string) : bool :=
  (startsWith a s && includes b (first_line (String.substring (String.length a) (String.length s) s))) ||
  match s with EmptyString => false | String _ s' => then_on_line a b s' end.
Definition contains_then (a b s : string) : bool := then_on_line (toUpperCase a) (toUpperCase b) (toUpperCase s).

Definition user_rejection (s : string) : bool :=
  contains "rejected" s || contains "declined" s || contains "denied" s || contains "canceled" s ||
  contains "cancelled" s || contains "closed" s || contains_then "user" "denied" s || contains_then "user" "abort" s ||
  contains_then "popup" "closed" s || contains_then "window" "closed" s.

Definition rejection_text : string := "You rejected the connection request. Try again when ready.".

Definition toWalletErrorMessage (error : Thrown) : string :=
  let mapped s := if user_rejection s then rejection_text else s in
  match error with
  | FreighterNotInstalledError => not_installed_text
  | AnError s | AString s => mapped s
  | AnythingElse => mapped "Wallet connection failed. Please try again."
  end.

Definition formatNetwork (label : string) : string :=
  let n := toLowerCase (trim label) in
  if includes "public" n || bool_decide (n = "mainnet") || bool_decide (n = "public") then "Mainnet"
  else if includes "test" n || bool_decide (n = "testnet") || includes "sdf" n || bool_decide (n = "stellar testnet")
  then "Testnet"
  else label.

Definition isExpectedNetwork (env : option string) (label : string) : bool :=
  bool_decide (formatNetwork label = if is_mainnet env then "Mainnet" else "Testnet").

(** ** The provider *)

Inductive WalletStatus := idle | connecting | connected | failed.

Record WalletState := {
  status : WalletStatus;
  session : option WalletSession;
  selectedWalletId : option WalletId;
  errorMessage : option string;
  isHydrated : bool
}.

Inductive WalletAction :=
| hydrate (s : option WalletSession)
| connect_start (w : WalletId)
| connect_success (s : WalletSession)
| connect_error (message : string)
| disconnect_action
| error_clear.

Definition INITIAL_STATE : WalletState := {|
  status := idle; session := None; selectedWalletId := None; errorMessage := None; isHydrated := false |}.

Definition walletReducer (state : WalletState) (action : WalletAction) : WalletState :=
  match action with
  | hydrate None => {|
      status := status state; session := session state; selectedWalletId := selectedWalletId state;
      errorMessage := errorMessage state; isHydrated := true |}
  | hydrate (Some s) => {|
      status := connected; session := Some s; selectedWalletId := Some (walletId s); errorMessage := None;
      isHydrated := true |}
  | connect_start w => {|
      status := connecting; session := session state; selectedWalletId := Some w; errorMessage := None;
      isHydrated := isHydrated state |}
  | connect_success s => {|
      status := connected; session := Some s; selectedWalletId := Some (walletId s); errorMessage := None;
      isHydrated := isHydrated state |}
  | connect_error message => {|
      status := failed; session := None; selectedWalletId := selectedWalletId state; errorMessage := Some message;
      isHydrated := isHydrated state |}
  | disconnect_action => {|
      status := idle; session := None; selectedWalletId := None; errorMessage := None; isHydrated := isHydrated state |}
  | error_clear => {|
      status := match status state with failed => idle | s => s end; session := session state;
      selectedWalletId := selectedWalletId state; errorMessage := None; isHydrated := isHydrated state |}
  end.

Definition wallet_of_text (s : string) : option WalletId :=
  wd_id <$> List.find (fun d => bool_decide (id_text (wd_id d) = s)) SUPPORTED_WALLETS.

(** [isWalletSession], with the session it narrows to. *)
Definition isWalletSession (value : Json) : option WalletSession :=
  match member "walletId" value, member "walletName" value, member "publicKey" value,
        member "connectedAt" value, member "network" value, member "mocked" value with
  | JString w, JString name, JString key, JString at_, JString net, JBool false =>
      match wallet_of_text w with
      | Some w => Some {| walletId := w; walletName := name; publicKey := key; connectedAt := at_; network := net;
                          mocked := false |}
      | None => None
      end
  | _, _, _, _, _, _ => None
  end.

Definition session_json (s : WalletSession) : Json :=
  JObject [("walletId", JString (id_text (walletId s))); ("walletName", JString (walletName s));
           ("publicKey", JString (publicKey s)); ("connectedAt", JString (connectedAt s));
           ("network", JString (network s)); ("mocked", JBool (mocked s))].

(** The entry [flowfi.wallet.session.v1] of the storage: what it holds is a
    session, or it is removed. *)
Definition readStoredSession (stored : option string) : option WalletSession * option string :=
  match stored with
  | None | Some EmptyString => (None, stored)
  | Some raw =>
      match JSON_parse raw with
      | Returns parsed => match isWalletSession parsed with Some s => (Some s, stored) | None => (None, None) end
      | Throws _ => (None, None)
      end
  end.

(** The provider: its state, the entry of the storage, and the connections under
    way, with the wallets each was made with. *)
Record Provider := {
  state : WalletState;
  stored : option string;
  underway : list (WalletId * Wallets)
}.

Definition dispatch (a : WalletAction) (p : Provider) : Provider :=
  {| state := walletReducer (state p) a; stored := stored p; underway := underway p |}.
Definition store (entry : option string) (p : Provider) : Provider :=
  {| state := state p; stored := entry; underway := underway p |}.

(** A page that was just loaded. *)
Definition mounted (entry : option string) : Provider :=
  let '(s, entry) := readStoredSession entry in
  dispatch (hydrate s) {| state := INITIAL_STATE; stored := entry; underway := [] |}.

Section provider.
Context (env : option string).

Definition connect (w : WalletId) (ws : Wallets) (p : Provider) : Provider :=
  let p := dispatch (connect_start w) p in
  {| state := state p; stored := stored p; underway := (underway p ++ [(w, ws)])%list |}.

(** The [k]-th connection under way ends. *)
Definition finish (k : nat) (now : string) (p : Provider) : Provider :=
  match underway p !! k with
  | None => p
  | Some (w, ws) =>
      let p := {| state := state p; stored := stored p;
                  underway := (take k (underway p) ++ drop (S k) (underway p))%list |} in
      match connectWallet env ws now w with
      | inl s => store (Some (JSON_stringify (session_json s))) (dispatch (connect_success s) p)
      | inr e => store None (dispatch (connect_error (toWalletErrorMessage e)) p)
      end
  end.

Definition disconnect (p : Provider) : Provider := store None (dispatch disconnect_action p).
Definition clearError (p : Provider) : Provider := dispatch error_clear p.

Inductive Step := Connect (w : WalletId) (ws : Wallets) | Finish (k : nat) (now : string) | Disconnect | ClearError.

Definition provider_step (p : Provider) (step : Step) : Provider :=
  match step with
  | Connect w ws => connect w ws p
  | Finish k now => finish k now p
  | Disconnect => disconnect p
  | ClearError => clearError p
  end.
End provider.

(** * The wallet's session: properties

    The state of the provider and the storage agree after any run, so a reload
    finds the session that was there; what a session says of its network; a
    disconnection does not stop a connection that is under way. *)

(** ** Sessions *)

Lemma find_wallet_some w : exists d, find_wallet w = Some d /\ wd_id d = w.
Proof. destruct w; by eexists. Qed.

Definition network_labels : list string := ["Mainnet"; "Testnet"; "Other"].

Lemma passphrase_label s : passphrase_network s ∈ network_labels.
Proof.
  unfold passphrase_network. destruct (_ || _); [apply elem_of_cons; by left|].
  destruct (_ || _); apply elem_of_cons; right; apply elem_of_cons; [by left|right; by apply list_elem_of_singleton].
Qed.

Lemma main_or_test (b : bool) : (if b then "Mainnet" else "Testnet") ∈ network_labels.
Proof. destruct b; apply elem_of_cons; [by left|right; apply elem_of_cons; by left]. Qed.

Lemma label_formatted l : l ∈ network_labels -> formatNetwork l = l.
Proof.
  intros H. assert (l = "Mainnet" \/ l = "Testnet" \/ l = "Other") as [-> |[-> | ->]]
    by (unfold network_labels in H; set_solver); by vm_compute.
Qed.

(** The session of a wallet is that wallet's, for an account, on a network with a
    label that the page shows as it is.  For every wallet but Freighter the label
    is the network of the page itself, whatever the wallet uses: only a Freighter
    session can be on another network than expected. *)
Theorem session_of_wallet env ws now w s :
  connectWallet env ws now w = inl s ->
  walletId s = w /\ mocked s = false /\ truthy (publicKey s) = true /\ connectedAt s = now /\
  network s ∈ network_labels /\ formatNetwork (network s) = network s /\
  (w <> freighter -> isExpectedNetwork env (network s) = true).
Proof.
  assert (Hbuild : forall k l, l ∈ network_labels -> truthy k = true -> buildSession now w k l = inl s ->
    (w <> freighter -> isExpectedNetwork env l = true) ->
    walletId s = w /\ mocked s = false /\ truthy (publicKey s) = true /\ connectedAt s = now /\
    network s ∈ network_labels /\ formatNetwork (network s) = network s /\
    (w <> freighter -> isExpectedNetwork env (network s) = true)).
  { intros k l Hl Hk Hb He. unfold buildSession in Hb. destruct (find_wallet_some w) as (d & Hd & _). rewrite Hd in Hb.
    injection Hb as <-. simpl. split_and!; try done. by apply label_formatted. }
  pose proof (main_or_test (is_mainnet env)) as Hown.
  assert (Hexp : isExpectedNetwork env (if is_mainnet env then "Mainnet" else "Testnet") = true).
  { unfold isExpectedNetwork. rewrite label_formatted by done. by apply bool_decide_eq_true_2. }
  intros H. destruct w; simpl in H.
  1: { unfold connectFreighter in H. destruct (isConnected _) as [[]|]; [|done|done].
    destruct (setAllowed _); [|done]. destruct (getAddress _) as [[address err]|]; [|done].
    destruct (truthy address) eqn:Ha; [|done]. simpl in H. destruct (truthy (default "" err)); [done|].
    eapply Hbuild; [|exact Ha|exact H|done].
    destruct (getNetworkDetails _) as [[pass e]|]; [|apply main_or_test].
    destruct (_ && _); [apply passphrase_label|apply main_or_test]. }
  all: match type of H with context [bridge ?x ?w] =>
         destruct (bridge x w) as [| |[[key address]|]]; [done|done| |done] end;
    destruct (match key with Some k => Some k | None => address end) as [[|c k]|]; [done| |done];
    by apply (Hbuild (String c k) _ Hown eq_refl H).
Qed.

Lemma wallet_of_id w : wallet_of_text (id_text w) = Some w.
Proof. by destruct w. Qed.

(** What the provider stores, it reads. *)
Lemma session_stored s :
  mocked s = false ->
  readStoredSession (Some (JSON_stringify (session_json s))) = (Some s, Some (JSON_stringify (session_json s))).
Proof.
  intros Hm. assert (E : isWalletSession (normalize (session_json s)) = Some s).
  { destruct s as [w name key at_ net m]. simpl in Hm. subst m. unfold isWalletSession, session_json.
    cbn -[wallet_of_text id_text]. closed_texts. cbn -[wallet_of_text id_text]. by rewrite wallet_of_id. }
  unfold readStoredSession. assert (exists c t, JSON_stringify (session_json s) = String c t) as (c & t & Ht) by by do 2 eexists.
  rewrite Ht. cbv iota. rewrite <- Ht, JSON_parse_normalize, E. done.
Qed.

Lemma read_again entry : readStoredSession (readStoredSession entry).2 = readStoredSession entry.
Proof.
  unfold readStoredSession at 2 3. destruct entry as [[|c raw]|]; [done| |done].
  destruct (JSON_parse (String c raw)) as [j|] eqn:Hp; [|done]. destruct (isWalletSession j) as [s|] eqn:Hs; [|done].
  unfold readStoredSession. simpl. by rewrite Hp, Hs.
Qed.

(** ** Runs of the provider *)

Definition provider_ok (p : Provider) : Prop :=
  isHydrated (state p) = true /\ readStoredSession (stored p) = (session (state p), stored p) /\
  match status (state p) with
  | idle => session (state p) = None /\ errorMessage (state p) = None
  | connecting => is_Some (selectedWalletId (state p)) /\ errorMessage (state p) = None
  | connected => (exists s, session (state p) = Some s /\ selectedWalletId (state p) = Some (walletId s)) /\
                 errorMessage (state p) = None
  | failed => session (state p) = None /\ is_Some (errorMessage (state p))
  end.

Lemma mounted_ok entry : provider_ok (mounted entry).
Proof.
  unfold mounted. pose proof (read_again entry) as H. destruct (readStoredSession entry) as [[s|] entry'];
    (split; [done|]; split; [exact H|]); [|done]. split; [by exists s|done].
Qed.

Lemma step_ok env step p : provider_ok p -> provider_ok (provider_step env p step).
Proof.
  intros (Hh & Hs & Hst). destruct step as [w ws|k now| |]; simpl.
  - split; [done|]. split; [done|]. by split.
  - unfold finish. destruct (underway p !! k) as [[w ws]|]; [|by split].
    destruct (connectWallet env ws now w) as [s|e] eqn:Hc.
    + apply session_of_wallet in Hc as (_ & Hm & _). split; [done|]. split; [by apply session_stored|].
      split; [by exists s|done].
    + split; [done|]. split; [done|]. by split.
  - split; [done|]. by split.
  - split; [done|]. split; [done|]. unfold clearError, dispatch. simpl. destruct (status (state p)); by destruct Hst.
Qed.

Definition run (env : option string) (steps : list Step) (p : Provider) : Provider := fold_left (provider_step env) steps p.

Lemma run_ok env steps p : provider_ok p -> provider_ok (run env steps p).
Proof.
  revert p. induction steps as [|step steps IH]; intros p Hp; [done|]. simpl. by apply IH, step_ok.
Qed.

(** C31. Whatever the storage held, and whatever connections succeed, fail or overtake
    one another, state and storage stay of one mind: a page that is loaded again
    finds the session the last one had, and is connected exactly if it had one. *)
Theorem session_survives_reload (env : option string) (entry : option string) (steps : list Step) :
  let p := run env steps (mounted entry) in
  let q := mounted (stored p) in
  provider_ok p /\ session (state q) = session (state p) /\ stored q = stored p /\ errorMessage (state q) = None /\
  status (state q) = match session (state p) with Some _ => connected | None => idle end.
Proof.
  intros p q. assert (Hp : provider_ok p) by apply run_ok, mounted_ok. destruct (Hp) as (_ & Hs & _).
  unfold q, mounted. rewrite Hs. split; [done|]. by destruct (session (state p)).
Qed.

(** A disconnection forgets the session, but not the connections under way: one
    that succeeds later connects again, and is stored. *)
Theorem disconnect_does_not_cancel env k now w ws s p :
  underway p !! k = Some (w, ws) -> connectWallet env ws now w = inl s ->
  let q := disconnect p in
  session (state q) = None /\ stored q = None /\
  let r := finish env k now q in
  status (state r) = connected /\ session (state r) = Some s /\ stored r = Some (JSON_stringify (session_json s)).
Proof.
  intros Hk Hc. split; [done|]. split; [done|]. unfold finish. simpl. by rewrite Hk, Hc.
Qed.

(** ** Messages and networks *)

Lemma startsWith_first_line b s : startsWith b (first_line s) = true -> startsWith b s = true.
Proof.
  revert b. induction s as [|c s IH]; intros b; [done|]. cbn [first_line]. destruct (_ || _)%Z.
  - by destruct b.
  - destruct b as [|d b]; [done|]. simpl. intros [-> H]%andb_prop. by apply IH.
Qed.

Lemma includes_first_line b s : includes b (first_line s) = true -> includes b s = true.
Proof.
  induction s as [|c s IH]; [done|]. cbn [first_line]. destruct (_ || _)%Z eqn:Hc.
  - simpl. rewrite orb_false_r. by destruct b.
  - cbn [includes]. intros [H|H]%orb_prop.
    + apply orb_true_intro. left. apply (startsWith_first_line b (String c s)). cbn [first_line]. by rewrite Hc.
    + by rewrite IH, orb_true_r.
Qed.

Lemma includes_substring b n m s : includes b (String.substring n m s) = true -> includes b s = true.
Proof.
  revert n m. induction s as [|c s IH]; intros n m; [by destruct n, m|]. destruct n as [|n].
  - destruct m as [|m]; [simpl; rewrite orb_false_r; by destruct b|]. simpl. intros [H|H]%orb_prop.
    + apply orb_true_intro. left. clear IH. destruct b as [|d b]; [done|]. simpl in *.
      apply andb_prop in H as [-> H]. simpl. revert b m H. induction s as [|e s IH]; intros b m H; [by destruct m|].
      destruct b as [|d' b]; [done|]. destruct m as [|m]; [done|]. simpl in *. apply andb_prop in H as [-> H]. simpl. eauto.
    + by rewrite (IH 0%nat m), orb_true_r.
  - simpl. intros H. by rewrite (IH n m), orb_true_r.
Qed.

Lemma contains_then_second a b s : contains_then a b s = true -> contains b s = true.
Proof.
  unfold contains_then, contains. generalize (toUpperCase a) as a', (toUpperCase b) as b'. intros a' b'.
  induction (toUpperCase s) as [|c t IH]; cbn [then_on_line].
  - rewrite orb_false_r. intros [_ H]%andb_prop. by apply includes_first_line, includes_substring in H.
  - intros [[_ H]%andb_prop|H]%orb_prop; [by apply includes_first_line, includes_substring in H|].
    cbn [includes]. by rewrite (IH H), orb_true_r.
Qed.

(** Three of the ten patterns of a rejection match nothing the others do not, and
    the message of a missing extension needs no case of its own. *)
Theorem rejection_patterns (s : string) :
  user_rejection s =
    contains "rejected" s || contains "declined" s || contains "denied" s || contains "canceled" s ||
    contains "cancelled" s || contains "closed" s || contains_then "user" "abort" s /\
  toWalletErrorMessage FreighterNotInstalledError = toWalletErrorMessage (AnError not_installed_text).
Proof.
  split; [|by vm_compute]. unfold user_rejection.
  destruct (contains_then "user" "denied" s) eqn:H1; [apply contains_then_second in H1; rewrite H1, ?orb_true_r; done|].
  destruct (contains_then "popup" "closed" s) eqn:H2; [apply contains_then_second in H2; rewrite H2, ?orb_true_r; done|].
  destruct (contains_then "window" "closed" s) eqn:H3; [apply contains_then_second in H3; rewrite H3, ?orb_true_r; done|].
  by rewrite !orb_false_r.
Qed.

(** The passphrases of the public network and of the test network are told apart;
    that of another test network is taken for the test network's. *)
Example public_network : passphrase_network "Public Global Stellar Network ; September 2015" = "Mainnet".
Proof. vm_refl. Qed.
Example test_network : passphrase_network "Test SDF Network ; September 2015" = "Testnet".
Proof. vm_refl. Qed.
Example future_network :
  isExpectedNetwork None (passphrase_network "Test SDF Future Network ; October 2022") = true.
Proof. vm_refl. Qed.
Example standalone_network :
  isExpectedNetwork None (passphrase_network "Standalone Network ; February 2017") = false.
Proof. vm_refl. Qed.
