(* ===== verification/Settings.v ===== *)
(** * Preferences and stored data across tabs: frontend/src/hooks/useSettings.ts,
    lib/app-data.ts, components/providers/app-data-sync.tsx and the storing part of
    app/settings/settings-content.tsx

    [World] is a browser: the local storage all tabs share, and the tabs, each
    with the module state of the hook, the copies its mounted components hold, its
    session storage, its wallet, and the storage events it has still to handle.  A
    write that changes an entry is an event for every tab but the one that wrote. *)
From S2P Require Import Prelude JsLang StreamId Json Amount WalletSession.
From stdpp Require Import gmap strings.
Local Open Scope Z_scope.
Local Open Scope string_scope.

(** ** The hook's settings *)

Inductive DisplayCurrency := USD | EUR | GBP | cur_XLM | cur_USDC.
Inductive AmountFormat := full | compact.
Inductive DecimalPlaces := two | four | seven.

Definition currency_text (c : DisplayCurrency) : string :=
  match c with USD => "USD" | EUR => "EUR" | GBP => "GBP" | cur_XLM => "XLM" | cur_USDC => "USDC" end.
Definition format_text (f : AmountFormat) : string := match f with full => "full" | compact => "compact" end.
Definition places (d : DecimalPlaces) : Z := match d with two => 2 | four => 4 | seven => 7 end.

(** Settings as they are read: casts check nothing. *)
Record Settings := { displayCurrency : string; amountFormat : string; decimalPlaces : num }.
#[export] Instance num_eq_dec' : EqDecision num.
Proof. solve_decision. Defined.

Definition DEFAULT_SETTINGS : Settings := {| displayCurrency := "USD"; amountFormat := "full"; decimalPlaces := Fin 7 |}.

Definition CURRENCY_KEY : string := "flowfi-currency".
Definition FORMAT_KEY : string := "flowfi-amount-format".
Definition DECIMALS_KEY : string := "flowfi-decimal-places".
Definition THEME_KEY : string := "flowfi-theme".
Definition STORAGE_KEYS : list string := [CURRENCY_KEY; FORMAT_KEY; DECIMALS_KEY].

#[local] Abbreviation Storage := (gmap string string).

(** [getItem(key) || fallback] *)
Definition item (s : Storage) (key fallback : string) : string :=
  match s !! key with None | Some EmptyString => fallback | Some v => v end.

Definition getDecimalPlaces (s : Storage) : num :=
  match s !! DECIMALS_KEY with None | Some EmptyString => Fin 7 | Some v => parseInt10 v end.
Definition getAmountFormat (s : Storage) : string := item s FORMAT_KEY "full".
Definition getDisplayCurrency (s : Storage) : string := item s CURRENCY_KEY "USD".

Definition loadSettingsFromStorage (s : Storage) : Settings := {|
  displayCurrency := item s CURRENCY_KEY (displayCurrency DEFAULT_SETTINGS);
  amountFormat := item s FORMAT_KEY (amountFormat DEFAULT_SETTINGS);
  decimalPlaces := match s !! DECIMALS_KEY with
                   | None | Some EmptyString => decimalPlaces DEFAULT_SETTINGS
                   | Some v => parseInt10 v
                   end |}.

(** [s.slice(0, n)]; a text has fewer characters than an infinity. *)
Definition slice_num (n : num) (s : string) : string :=
  match n with
  | Fin n => if 0 <=? n then slice (Z.to_nat n) s else slice (String.length s - Z.to_nat (- n)) s
  | _ => ""
  end%Z.

(** [formatAmountWithPreference] for a bigint *)
Definition formatAmountWithPreference (s : Storage) (raw : Z) (tokenDecimals : nat) : string :=
  let divisor := 10 ^ Z.of_nat tokenDecimals in
  let integerPart := Z.quot raw divisor in
  let fractionalPart := Z.rem raw divisor in
  if (fractionalPart =? 0)%Z then BigInt_toString integerPart
  else
    let fractionalStr := slice_num (getDecimalPlaces s) (padStart (BigInt_toString fractionalPart) tokenDecimals) in
    match strip_zeros fractionalStr with
    | EmptyString => BigInt_toString integerPart
    | trimmed => BigInt_toString integerPart +:+ "." +:+ trimmed
    end.

(** ** Tabs *)

Record Tab := {
  sharedSettings : Settings;
  sharedIsHydrated : bool;
  hooks : list (Settings * bool); (* what each mounted component shows *)
  waiting : bool; (* a microtask that loads the settings is queued *)
  sessionStorage : Storage;
  wallet : WalletState;
  events : list string (* the keys of storage events not yet handled *)
}.

Record World := { localStorage : Storage; tabs : list Tab }.

Definition shares (x : Settings) (h : bool) (t : Tab) : Tab := {|
  sharedSettings := x; sharedIsHydrated := h; hooks := map (fun _ => (x, h)) (hooks t); waiting := waiting t;
  sessionStorage := sessionStorage t; wallet := wallet t; events := events t |}.
Definition set_hooks (hs : list (Settings * bool)) (queued : bool) (t : Tab) : Tab := {|
  sharedSettings := sharedSettings t; sharedIsHydrated := sharedIsHydrated t; hooks := hs; waiting := queued;
  sessionStorage := sessionStorage t; wallet := wallet t; events := events t |}.
Definition set_stores (s : Storage) (w : WalletState) (t : Tab) : Tab := {|
  sharedSettings := sharedSettings t; sharedIsHydrated := sharedIsHydrated t; hooks := hooks t; waiting := waiting t;
  sessionStorage := s; wallet := w; events := events t |}.
Definition set_events (es : list string) (t : Tab) : Tab := {|
  sharedSettings := sharedSettings t; sharedIsHydrated := sharedIsHydrated t; hooks := hooks t; waiting := waiting t;
  sessionStorage := sessionStorage t; wallet := wallet t; events := es |}.

Definition on_tab (i : nat) (f : Tab -> Tab) (w : World) : World :=
  {| localStorage := localStorage w; tabs := alter f i (tabs w) |}.

(** The [i]-th tab writes or removes an entry. *)
Definition notify (i : nat) (key : string) (ts : list Tab) : list Tab :=
  imap (fun j t => if (j =? i)%nat then t else set_events (events t ++ [key])%list t) ts.
Definition setItem (i : nat) (key value : string) (w : World) : World := {|
  localStorage := <[key := value]> (localStorage w);
  tabs := if bool_decide (localStorage w !! key = Some value) then tabs w else notify i key (tabs w) |}.
Definition removeItem (i : nat) (key : string) (w : World) : World := {|
  localStorage := delete key (localStorage w);
  tabs := if bool_decide (localStorage w !! key = None) then tabs w else notify i key (tabs w) |}.

(** ** Operations of a tab *)

(** A component with the hook mounts: it shows what is shared, and the first one
    of the page queues the loading. *)
Definition mount (i : nat) : World -> World := on_tab i (fun t =>
  set_hooks (hooks t ++ [(sharedSettings t, sharedIsHydrated t)])%list (waiting t || negb (sharedIsHydrated t)) t).

Definition unmount (i k : nat) : World -> World := on_tab i (fun t => set_hooks (delete k (hooks t)) (waiting t) t).

Definition load (s : Storage) (t : Tab) : Tab := shares (loadSettingsFromStorage s) true t.

Definition microtask (i : nat) (w : World) : World :=
  on_tab i (fun t =>
    if waiting t then
      let t := set_hooks (hooks t) false t in
      if sharedIsHydrated t then t else load (localStorage w) t
    else t) w.

Definition with_currency (c : string) (x : Settings) : Settings :=
  {| displayCurrency := c; amountFormat := amountFormat x; decimalPlaces := decimalPlaces x |}.
Definition with_format (f : string) (x : Settings) : Settings :=
  {| displayCurrency := displayCurrency x; amountFormat := f; decimalPlaces := decimalPlaces x |}.
Definition with_places (d : num) (x : Settings) : Settings :=
  {| displayCurrency := displayCurrency x; amountFormat := amountFormat x; decimalPlaces := d |}.

(** The setters: the shared value, the entry, then the listeners. *)
Definition change (i : nat) (key value : string) (f : Settings -> Settings) (w : World) : World :=
  on_tab i (fun t => shares (f (sharedSettings t)) (sharedIsHydrated t) t) (setItem i key value w).
Definition setDisplayCurrency (i : nat) (c : DisplayCurrency) : World -> World :=
  change i CURRENCY_KEY (currency_text c) (with_currency (currency_text c)).
Definition setAmountFormat (i : nat) (f : AmountFormat) : World -> World :=
  change i FORMAT_KEY (format_text f) (with_format (format_text f)).
Definition setDecimalPlaces (i : nat) (d : DecimalPlaces) : World -> World :=
  change i DECIMALS_KEY (BigInt_toString (places d)) (with_places (Fin (places d))).

(** The settings page saves its draft: entries only. *)
Record Draft := { theme : string; dr_currency : DisplayCurrency; dr_format : AmountFormat; dr_places : DecimalPlaces }.
Definition persistSettings (i : nat) (d : Draft) (w : World) : World :=
  setItem i DECIMALS_KEY (BigInt_toString (places (dr_places d)))
    (setItem i FORMAT_KEY (format_text (dr_format d))
      (setItem i CURRENCY_KEY (currency_text (dr_currency d)) (setItem i THEME_KEY (theme d) w))).

Definition WALLET_KEY : string := "flowfi.wallet.session.v1".
Definition DISPOSABLE_LOCAL_STORAGE_KEYS : list string :=
  [WALLET_KEY; THEME_KEY; CURRENCY_KEY; FORMAT_KEY; DECIMALS_KEY; "flowfi.stream.templates.v1"].
Definition DISPOSABLE_SESSION_STORAGE_KEYS : list string := ["flowfi.create-stream.draft.v1"].
Definition APP_DATA_CLEAR_EVENT : string := "flowfi.app-data.clear.v1".

(** [broadcast]: the time of day, when other tabs are to follow. *)
Definition clearDisposableAppData (broadcast : option Z) (i : nat) (w : World) : World :=
  let w := fold_left (fun w key => removeItem i key w) DISPOSABLE_LOCAL_STORAGE_KEYS w in
  let w := on_tab i (fun t =>
    set_stores (fold_left (fun s key => delete key s) DISPOSABLE_SESSION_STORAGE_KEYS (sessionStorage t)) (wallet t) t) w in
  match broadcast with
  | None => w
  | Some now => setItem i APP_DATA_CLEAR_EVENT (JSON_stringify (JObject [("clearedAt", JNumber now)])) w
  end.

(** The wallet's [disconnect] in a tab. *)
Definition disconnect (i : nat) (w : World) : World :=
  removeItem i WALLET_KEY
    (on_tab i (fun t => set_stores (sessionStorage t) (walletReducer (wallet t) disconnect_action) t) w).

Definition handleClearAppData (now : Z) (i : nat) (w : World) : World :=
  disconnect i (clearDisposableAppData (Some now) i w).

(** The listeners of a tab for its oldest storage event: the hook's and the one of
    [AppDataSync]. *)
Definition handleStorage (i : nat) (w : World) : World :=
  match tabs w !! i with
  | Some t =>
      match events t with
      | [] => w
      | key :: rest =>
          let w := on_tab i (set_events rest) w in
          let w := if bool_decide (key ∈ STORAGE_KEYS) then on_tab i (load (localStorage w)) w else w in
          if bool_decide (key = APP_DATA_CLEAR_EVENT) then disconnect i (clearDisposableAppData None i w) else w
      end
  | None => w
  end.

(** What components with the hook, and the browser, do. *)
Inductive Step :=
| Mount (i : nat) | Unmount (i k : nat) | Microtask (i : nat) | SetCurrency (i : nat) (c : DisplayCurrency)
| SetFormat (i : nat) (f : AmountFormat) | SetPlaces (i : nat) (d : DecimalPlaces) | HandleEvent (i : nat).

Definition world_step (w : World) (step : Step) : World :=
  match step with
  | Mount i => mount i w
  | Unmount i k => unmount i k w
  | Microtask i => microtask i w
  | SetCurrency i c => setDisplayCurrency i c w
  | SetFormat i f => setAmountFormat i f w
  | SetPlaces i d => setDecimalPlaces i d w
  | HandleEvent i => handleStorage i w
  end.

(** Tabs that were just opened, with what their session storage and wallets hold. *)
Definition fresh_tab (s : Storage) (x : WalletState) : Tab := {|
  sharedSettings := DEFAULT_SETTINGS; sharedIsHydrated := false; hooks := []; waiting := false;
  sessionStorage := s; wallet := x; events := [] |}.

(** * Preferences and stored data: properties

    Tabs that only use the hook come to agree with the storage; a page that writes
    the entries itself is not seen in its own tab.  Clearing reaches every tab,
    and may reach too far: a late one erases what was stored since. *)

(** ** Formatting *)

Theorem preference_truncates (s : Storage) (raw n : Z) (decimals : nat) :
  getDecimalPlaces s = Fin n -> 0 <= n ->
  formatAmountWithPreference s raw decimals = truncateAmount raw decimals (Z.to_nat n).
Proof.
  intros Hp Hn. unfold formatAmountWithPreference, truncateAmount. rewrite Hp. unfold slice_num.
  rewrite (proj2 (Z.leb_le 0 n) Hn). destruct (Z.eqb_spec raw 0) as [->|]; [|done].
  pose proof (Amount.pow10_pos decimals). rewrite Z.rem_0_l, Z.quot_0_l by lia. done.
Qed.

(** A negative amount is garbled: the sign stands between the digits. *)
Example negative_garbled : formatAmountWithPreference ∅ (-15000000) 7 = "-1.-5".
Proof. vm_refl. Qed.

(** ** Tabs that use the hook *)

Definition agrees (s : Storage) (t : Tab) : Prop :=
  Forall (fun key => key ∈ STORAGE_KEYS) (events t) /\
  Forall (fun h => h = (sharedSettings t, sharedIsHydrated t)) (hooks t) /\
  (sharedIsHydrated t = true -> events t = [] -> sharedSettings t = loadSettingsFromStorage s).
Definition all_agree (w : World) : Prop := forall i t, tabs w !! i = Some t -> agrees (localStorage w) t.

Lemma on_tab_agree i f w :
  (forall t, agrees (localStorage w) t -> agrees (localStorage w) (f t)) -> all_agree w -> all_agree (on_tab i f w).
Proof.
  intros Hf Hw j t. unfold on_tab. simpl. destruct (decide (i = j)) as [<-|Hne].
  - rewrite list_lookup_alter_eq. intros (t0 & Ht & ->)%fmap_Some. by apply Hf, (Hw i).
  - rewrite list_lookup_alter_ne by done. apply Hw.
Qed.

Lemma loaded_agrees s t : Forall (fun key => key ∈ STORAGE_KEYS) (events t) -> agrees s (load s t).
Proof.
  intros He. split; [done|]. split; [|done]. simpl. apply List.Forall_map, List.Forall_forall. done.
Qed.

(** A setter writes what it makes of the settings. *)
Definition writes (key value : string) (f : Settings -> Settings) : Prop :=
  key ∈ STORAGE_KEYS /\ forall s, loadSettingsFromStorage (<[key := value]> s) = f (loadSettingsFromStorage s).

Lemma writes_currency c : writes CURRENCY_KEY (currency_text c) (with_currency (currency_text c)).
Proof.
  split; [apply elem_of_cons; by left|]. intros s. unfold loadSettingsFromStorage, item.
  rewrite lookup_insert_eq, !lookup_insert_ne by done. by destruct c.
Qed.
Lemma writes_format f : writes FORMAT_KEY (format_text f) (with_format (format_text f)).
Proof.
  split; [apply elem_of_cons; right; apply elem_of_cons; by left|]. intros s. unfold loadSettingsFromStorage, item.
  rewrite lookup_insert_eq, !lookup_insert_ne by done. by destruct f.
Qed.
Lemma writes_places d : writes DECIMALS_KEY (BigInt_toString (places d)) (with_places (Fin (places d))).
Proof.
  split; [do 2 (apply elem_of_cons; right); by apply list_elem_of_singleton|]. intros s.
  unfold loadSettingsFromStorage, item. rewrite lookup_insert_eq, !lookup_insert_ne by done. by destruct d.
Qed.

Lemma change_agree i key value f w : writes key value f -> all_agree w -> all_agree (change i key value f w).
Proof.
  intros [Hkey Hload] Hw j t'. unfold change, on_tab, setItem. simpl. intros Ht.
  assert (exists t, tabs w !! j = Some t /\
    t' = (if decide (i = j) then shares (f (sharedSettings t)) (sharedIsHydrated t) t
          else if bool_decide (localStorage w !! key = Some value) then t else set_events (events t ++ [key])%list t))
    as (t & Hj & ->).
  { destruct (decide (i = j)) as [<-|Hne].
    - rewrite list_lookup_alter_eq in Ht. apply fmap_Some in Ht as (t & Ht & ->). exists t. split; [|done].
      case_bool_decide; [done|]. unfold notify in Ht. rewrite list_lookup_imap in Ht.
      apply fmap_Some in Ht as (t0 & Ht0 & ->). by rewrite Nat.eqb_refl.
    - rewrite list_lookup_alter_ne in Ht by done. case_bool_decide; [by exists t'|].
      unfold notify in Ht. rewrite list_lookup_imap in Ht. apply fmap_Some in Ht as (t0 & Ht0 & ->). exists t0.
      rewrite (proj2 (Nat.eqb_neq j i)) by congruence. done. }
  destruct (Hw _ _ Hj) as (He & Hh & Hs). case_decide.
  - split; [done|]. split; [apply List.Forall_map, List.Forall_forall; done|]. simpl. intros H1 H2.
    by rewrite Hload, <- Hs.
  - case_bool_decide as Hsame.
    + rewrite insert_id by done. done.
    + split; [simpl; apply Forall_app; by split; [|constructor]|]. split; [done|]. simpl. intros _ E. by destruct (events t).
Qed.

Lemma clear_no_setting : APP_DATA_CLEAR_EVENT ∉ STORAGE_KEYS.
Proof. by apply (bool_decide_unpack _). Qed.

Lemma step_agree step w : all_agree w -> all_agree (world_step w step).
Proof.
  intros Hw. destruct step as [i|i k|i|i c|i f|i d|i]; simpl.
  - apply on_tab_agree; [|done]. intros t (He & Hh & Hs). split; [done|]. split; [|done]. simpl.
    apply Forall_app. split; [done|]. by constructor.
  - apply on_tab_agree; [|done]. intros t (He & Hh & Hs). split; [done|]. split; [|done]. simpl.
    rewrite list.Forall_forall in Hh |- *. intros h Hin. apply Hh. apply list_elem_of_lookup_1 in Hin as (n & Hn). apply list_elem_of_lookup.
    destruct (Nat.lt_ge_cases n k); [rewrite list_lookup_delete_lt in Hn by done; by exists n|].
    rewrite list_lookup_delete_ge in Hn by done. by exists (S n).
  - apply on_tab_agree; [|done]. intros t (He & Hh & Hs). destruct (waiting t); [|done].
    cbn [sharedIsHydrated set_hooks]. destruct (sharedIsHydrated t) eqn:E; [|by apply loaded_agrees].
    split; [done|]. split; simpl; rewrite E; [exact Hh|exact Hs].
  - by apply change_agree; [apply writes_currency|].
  - by apply change_agree; [apply writes_format|].
  - by apply change_agree; [apply writes_places|].
  - unfold handleStorage. destruct (tabs w !! i) as [t|] eqn:Ht; [|done]. destruct (events t) as [|key rest] eqn:Ev; [done|].
    destruct (Hw _ _ Ht) as (He & Hh & Hs). rewrite Ev in He. apply list.Forall_cons in He as [Hk He].
    rewrite (bool_decide_eq_true_2 _ Hk). rewrite bool_decide_eq_false_2.
    + intros j t'. unfold on_tab. cbn [tabs localStorage]. destruct (decide (i = j)) as [<-|Hne].
      * rewrite !list_lookup_alter_eq, Ht. simpl. intros [= <-]. by apply loaded_agrees.
      * rewrite !list_lookup_alter_ne by done. apply Hw.
    + intros ->. by apply clear_no_setting in Hk.
Qed.

Definition open_tabs (s : Storage) (ts : list (Storage * WalletState)) : World :=
  {| localStorage := s; tabs := map (fun t => fresh_tab t.1 t.2) ts |}.


(** ** Writes the hook does not see *)

Lemma setItem_own i key value w : tabs (setItem i key value w) !! i = tabs w !! i.
Proof.
  unfold setItem. simpl. case_bool_decide; [done|]. unfold notify. rewrite list_lookup_imap.
  destruct (tabs w !! i); simpl; by rewrite ?Nat.eqb_refl.
Qed.
Lemma removeItem_own i key w : tabs (removeItem i key w) !! i = tabs w !! i.
Proof.
  unfold removeItem. simpl. case_bool_decide; [done|]. unfold notify. rewrite list_lookup_imap.
  destruct (tabs w !! i); simpl; by rewrite ?Nat.eqb_refl.
Qed.

(** Saving on the settings page stores the draft, and changes nothing that the
    components of its own tab show: they go on with the old settings. *)
Theorem own_page_stale (i : nat) (d : Draft) (w : World) :
  loadSettingsFromStorage (localStorage (persistSettings i d w)) =
    {| displayCurrency := currency_text (dr_currency d); amountFormat := format_text (dr_format d);
       decimalPlaces := Fin (places (dr_places d)) |} /\
  tabs (persistSettings i d w) !! i = tabs w !! i.
Proof.
  split; [|unfold persistSettings; by rewrite !setItem_own].
  unfold persistSettings. cbn [localStorage setItem].
  rewrite (proj2 (writes_places _)), (proj2 (writes_format _)), (proj2 (writes_currency _)). done.
Qed.

(** ** Clearing *)

Definition removals (i : nat) (keys : list string) (w : World) : World :=
  fold_left (fun w key => removeItem i key w) keys w.

Lemma removals_own i keys w : tabs (removals i keys w) !! i = tabs w !! i.
Proof.
  revert w. induction keys as [|k keys IH]; intros w; [done|]. simpl. rewrite IH. apply removeItem_own.
Qed.
Lemma removals_lookup i keys key w :
  key ∈ keys \/ localStorage w !! key = None -> localStorage (removals i keys w) !! key = None.
Proof.
  revert w. induction keys as [|k keys IH]; intros w H; simpl; [by destruct H as [?%not_elem_of_nil|]|].
  apply IH. simpl. destruct (decide (k = key)) as [->|Hne]; [right; apply lookup_delete_eq|].
  rewrite lookup_delete_ne by done. destruct H as [[->|H]%elem_of_cons|H]; [done|by left|by right].
Qed.

(** The state of a tab is that of its own steps, when it clears and disconnects. *)
Definition disconnected (t t' : Tab) : Prop :=
  WalletSession.session (wallet t') = None /\ status (wallet t') = idle /\
  sharedSettings t' = sharedSettings t /\ hooks t' = hooks t /\ events t' = events t.

Lemma cleared_own b i t w :
  tabs w !! i = Some t ->
  exists t', tabs (disconnect i (clearDisposableAppData b i w)) !! i = Some t' /\ disconnected t t'.
Proof.
  intros Ht. unfold disconnect. rewrite removeItem_own. unfold on_tab at 1. cbn [tabs]. rewrite list_lookup_alter_eq.
  unfold clearDisposableAppData. fold (removals i DISPOSABLE_LOCAL_STORAGE_KEYS w).
  destruct b as [now|]; rewrite ?setItem_own; unfold on_tab; cbn [tabs]; rewrite list_lookup_alter_eq, removals_own, Ht;
    by eexists.
Qed.

Lemma cleared_storage b i w key :
  key ∈ DISPOSABLE_LOCAL_STORAGE_KEYS -> localStorage (disconnect i (clearDisposableAppData b i w)) !! key = None.
Proof.
  intros Hk. unfold disconnect. cbn [localStorage removeItem on_tab].
  destruct (decide (WALLET_KEY = key)) as [<-|Hne]; [apply lookup_delete_eq|]. rewrite lookup_delete_ne by done.
  unfold clearDisposableAppData. fold (removals i DISPOSABLE_LOCAL_STORAGE_KEYS w).
  assert (H : localStorage (removals i DISPOSABLE_LOCAL_STORAGE_KEYS w) !! key = None) by (apply removals_lookup; by left).
  destruct b as [now|]; cbn [localStorage setItem on_tab]; [|done]. rewrite lookup_insert_ne; [done|].
  intros E. rewrite <- E in Hk. by apply (bool_decide_unpack (APP_DATA_CLEAR_EVENT ∉ DISPOSABLE_LOCAL_STORAGE_KEYS)) in Hk.
Qed.

(** One event handled: it is gone, and a tab that has no session gets none. *)
Lemma handled j t key rest w :
  tabs w !! j = Some t -> events t = key :: rest ->
  exists t', tabs (handleStorage j w) !! j = Some t' /\ events t' = rest /\
    (key = APP_DATA_CLEAR_EVENT \/ WalletSession.session (wallet t) = None -> WalletSession.session (wallet t') = None).
Proof.
  intros Ht He. unfold handleStorage. rewrite Ht, He.
  set (w1 := on_tab j (set_events rest) w).
  set (w2 := if bool_decide (key ∈ STORAGE_KEYS) then on_tab j (load (localStorage w1)) w1 else w1).
  assert (H2 : exists t2, tabs w2 !! j = Some t2 /\ events t2 = rest /\ wallet t2 = wallet t).
  { assert (H1 : tabs w1 !! j = Some (set_events rest t)) by (unfold w1, on_tab; cbn [tabs]; by rewrite list_lookup_alter_eq, Ht).
    unfold w2. case_bool_decide; [|by eexists]. unfold on_tab. cbn [tabs]. rewrite list_lookup_alter_eq, H1. by eexists. }
  destruct H2 as (t2 & H2 & E2 & W2). case_bool_decide as Hk.
  - destruct (cleared_own None j t2 w2 H2) as (t' & Ht' & Hs & _ & _ & _ & Hev). exists t'. by rewrite Hev, E2.
  - exists t2. split_and!; [done|done|]. intros [?|?]; [done|]. by rewrite W2.
Qed.

Definition handle_all (j : nat) (n : nat) (w : World) : World := Nat.iter n (handleStorage j) w.

Lemma handle_all_clears j n t w :
  tabs w !! j = Some t -> length (events t) = n ->
  APP_DATA_CLEAR_EVENT ∈ events t \/ WalletSession.session (wallet t) = None ->
  exists t', tabs (handle_all j n w) !! j = Some t' /\ events t' = [] /\ WalletSession.session (wallet t') = None.
Proof.
  revert t w. induction n as [|n IH]; intros t w Ht Hn Hc.
  - exists t. destruct (events t); [|done]. by destruct Hc as [?%not_elem_of_nil|].
  - destruct (events t) as [|key rest] eqn:He; [done|]. destruct (handled j t key rest w Ht He) as (t' & Ht' & He' & Hs).
    unfold handle_all. rewrite Nat.iter_succ_r. apply (IH t'); [done|rewrite He'; by injection Hn|].
    rewrite He'. destruct Hc as [[<-|Hc]%elem_of_cons|Hc]; [right; apply Hs; by left|by left|right; apply Hs; by right].
Qed.

(** What another tab does to a tab: it may give it events to handle. *)
Definition told (j : nat) (w w' : World) : Prop :=
  forall t, tabs w !! j = Some t -> exists t' es, tabs w' !! j = Some t' /\ events t' = (events t ++ es)%list.

Lemma told_trans j w1 w2 w3 : told j w1 w2 -> told j w2 w3 -> told j w1 w3.
Proof.
  intros H1 H2 t Ht. destruct (H1 t Ht) as (t2 & es & H & E). destruct (H2 t2 H) as (t3 & es' & H' & E').
  exists t3, (es ++ es')%list. split; [done|]. by rewrite E', E, app_assoc.
Qed.
Lemma told_same j w w' : tabs w' !! j = tabs w !! j -> told j w w'.
Proof. intros E t Ht. exists t, []. rewrite E, app_nil_r. done. Qed.
Lemma told_on_tab i j f w : i <> j -> told j w (on_tab i f w).
Proof. intros Hne. apply told_same. unfold on_tab. simpl. by rewrite list_lookup_alter_ne. Qed.
Lemma notified i j key ts t : i <> j -> ts !! j = Some t -> notify i key ts !! j = Some (set_events (events t ++ [key])%list t).
Proof.
  intros Hne Ht. unfold notify. rewrite list_lookup_imap, Ht. simpl. by rewrite (proj2 (Nat.eqb_neq j i)) by congruence.
Qed.
Lemma told_remove i j key w : i <> j -> told j w (removeItem i key w).
Proof.
  intros Hne t Ht. unfold removeItem. simpl. case_bool_decide; [exists t, []; by rewrite app_nil_r|].
  rewrite (notified i j key _ t) by done. by do 2 eexists.
Qed.
Lemma told_removals i j keys w : i <> j -> told j w (removals i keys w).
Proof.
  intros Hne. revert w. induction keys as [|k keys IH]; intros w; [by apply told_same|].
  simpl. eapply told_trans; [by apply told_remove|apply IH].
Qed.

Definition clear_mark (now : Z) : string := JSON_stringify (JObject [("clearedAt", JNumber now)]).

(** Clearing the data of the app in one tab removes its entries and disconnects
    that tab at once, and every other as soon as it has handled its events; but
    the components of the clearing tab go on showing their old settings. *)
Theorem clearing_reaches_all_tabs (i j : nat) (now : Z) (w : World) (t u : Tab) :
  i <> j -> tabs w !! i = Some t -> tabs w !! j = Some u ->
  localStorage w !! APP_DATA_CLEAR_EVENT <> Some (clear_mark now) ->
  let w' := handleClearAppData now i w in
  (forall key, key ∈ DISPOSABLE_LOCAL_STORAGE_KEYS -> localStorage w' !! key = None) /\
  (exists t', tabs w' !! i = Some t' /\ disconnected t t') /\
  (exists u', tabs w' !! j = Some u' /\
     exists u'', tabs (handle_all j (length (events u')) w') !! j = Some u'' /\ events u'' = [] /\
       WalletSession.session (wallet u'') = None).
Proof.
  intros Hne Hi Hj Hmark w'. split; [intros key; apply cleared_storage|]. split; [by apply cleared_own|].
  set (w1 := removals i DISPOSABLE_LOCAL_STORAGE_KEYS w).
  set (w2 := on_tab i (fun t => set_stores (fold_left (fun s key => delete key s) DISPOSABLE_SESSION_STORAGE_KEYS
                                  (sessionStorage t)) (wallet t) t) w1).
  assert (H2 : told j w w2) by (eapply told_trans; [by apply told_removals|by apply told_on_tab]).
  destruct (H2 u Hj) as (u2 & es & Hu2 & _).
  assert (Hkept : localStorage w2 !! APP_DATA_CLEAR_EVENT = localStorage w !! APP_DATA_CLEAR_EVENT).
  { unfold w2, w1. simpl. by rewrite !lookup_delete_ne by done. }
  assert (Hset : tabs (setItem i APP_DATA_CLEAR_EVENT (clear_mark now) w2) !! j =
                 Some (set_events (events u2 ++ [APP_DATA_CLEAR_EVENT])%list u2)).
  { unfold setItem. cbn [tabs]. rewrite Hkept. rewrite bool_decide_eq_false_2 by done. by apply notified. }
  assert (H3 : told j (setItem i APP_DATA_CLEAR_EVENT (clear_mark now) w2) w').
  { eapply told_trans; [by apply (told_on_tab i j)|]. by apply told_remove. }
  destruct (H3 _ Hset) as (u' & es' & Hu' & He'). exists u'. split; [done|].
  apply (handle_all_clears j _ u'); [done|done|]. left. rewrite He'. simpl.
  apply elem_of_app. left. apply elem_of_app. right. by apply list_elem_of_singleton.
Qed.

(** An event that is handled late clears again: a session that another tab has
    stored since is gone, while that tab takes itself to be connected; its next
    load finds nothing. *)
Theorem late_clear_erases (i j : nat) (w : World) (t u : Tab) (rest : list string) :
  i <> j -> tabs w !! i = Some t -> tabs w !! j = Some u -> events u = APP_DATA_CLEAR_EVENT :: rest ->
  let w' := handleStorage j w in
  (exists t', tabs w' !! i = Some t' /\ wallet t' = wallet t) /\
  localStorage w' !! WALLET_KEY = None /\
  status (state (mounted (localStorage w' !! WALLET_KEY))) = idle.
Proof.
  intros Hne Hi Hj He w'.
  assert (Hw : localStorage w' !! WALLET_KEY = None).
  { unfold w', handleStorage. rewrite Hj, He. rewrite bool_decide_eq_true_2 by done.
    apply cleared_storage. apply elem_of_cons. by left. }
  split; [|by rewrite Hw].
  assert (Hsame : forall w1, (exists t1, tabs w1 !! i = Some t1 /\ wallet t1 = wallet t) ->
     forall k, exists t2, tabs (removeItem j k w1) !! i = Some t2 /\ wallet t2 = wallet t).
  { intros w1 (t1 & H1 & E1) k. unfold removeItem. simpl. case_bool_decide; [by exists t1|].
    rewrite (notified j i k _ t1) by done. by eexists. }
  assert (Hon : forall w1 f, (exists t1, tabs w1 !! i = Some t1 /\ wallet t1 = wallet t) ->
     exists t2, tabs (on_tab j f w1) !! i = Some t2 /\ wallet t2 = wallet t).
  { intros w1 f H. unfold on_tab. simpl. by rewrite list_lookup_alter_ne. }
  unfold w', handleStorage. rewrite Hj, He. rewrite (bool_decide_eq_true_2 (APP_DATA_CLEAR_EVENT = _)) by done.
  rewrite (bool_decide_eq_false_2 _ clear_no_setting). unfold disconnect. apply Hsame, Hon.
  unfold clearDisposableAppData. apply Hon. cbn [fold_left DISPOSABLE_LOCAL_STORAGE_KEYS].
  do 6 apply Hsame. apply Hon. by exists t.
Qed.

(** Two tabs; one changes the currency, the other hears of it. *)
Definition two_tabs : list Step := [
  Mount 0; Mount 1; Microtask 0; Microtask 1; SetCurrency 0 EUR; SetPlaces 0 two; HandleEvent 1; Mount 1; HandleEvent 1].
Definition after_change : World := fold_left world_step two_tabs (open_tabs ∅ [(∅, INITIAL_STATE); (∅, INITIAL_STATE)]).
Definition second_tab : Tab := default (fresh_tab ∅ INITIAL_STATE) (tabs after_change !! 1%nat).

