(* ===== verification/Tokens.v ===== *)
(** * Tokens and networks in the browser: the token decimals of utils/amount.ts,
    hooks/useTokenPrice.ts and components/FiatEquivalent.tsx, and the choice of a
    network in lib/stellar-config.ts, context/NetworkContext.tsx and lib/soroban.ts

    The node, the price service and the browser's currency format are arguments.
    A cache of decimals is a map by token; prices are doubles. *)
From S2P Require Import Prelude JsLang Texts StreamId Json Double Floats WalletCalls.
From stdpp Require Import gmap strings.
Local Open Scope Z_scope.
Local Open Scope string_scope.

(** ** The decimals of a token *)

#[local] Abbreviation Cache := (gmap string double).

Definition getCachedTokenDecimals (token : string) (c : Cache) : option double := c !! token.
Definition setCachedTokenDecimals (token : string) (d : double) (c : Cache) : Cache := <[token := d]> c.
Definition clearTokenDecimalsCache (c : Cache) : Cache := ∅.

Definition getDefaultTokenDecimals (symbol : string) : Z :=
  let s := toUpperCase symbol in
  if bool_decide (s = "XLM") then 7 else if bool_decide (s = "USDC") then 7
  else if bool_decide (s = "EURC") then 7 else if bool_decide (s = "FLOW") then 7 else 7.

Definition double_of_num (n : num) : double :=
  match n with Fin z => dint z | PosInf => DInf false | NegInf => DInf true | NaN => DNaN end.

(** What the node answers for an account no ledger has, a key made at random, and
    to the simulated call of [decimals]. *)
Record DecimalsNode := {
  dn_getAccount : outcome ();
  dn_contract : string -> bool; (* whether [new Contract] accepts the address *)
  dn_simulate : string -> outcome SimulationAnswer
}.

Definition native_decimals (v : NativeValue) : double :=
  match v with
  | NativeNumber x => x
  | NativeBigInt z => double_of_num (Number_of_bigint z)
  | NativeString s => double_of_num (parseInt10 s)
  | NativeOther => dint 7
  end.

(** The [try] block: the decimals, and any error. *)
Definition asked_decimals (nd : DecimalsNode) (token : string) : outcome double :=
  let? _ := dn_getAccount nd in
  if negb (dn_contract nd token) then Throws (ErrorMsg "Invalid contract ID")
  else
    let? simResult := dn_simulate nd token in
    match simResult with
    | SimFault _ | SimValue None => Returns (dint 7)
    | SimValue (Some v) => Returns (native_decimals v)
    end.

Definition fetchTokenDecimals (nd : DecimalsNode) (token : string) (c : Cache) : double * Cache :=
  match getCachedTokenDecimals token c with
  | Some d => (d, c)
  | None =>
      let d := match asked_decimals nd token with Returns d => d | Throws _ => dint 7 end in
      (d, setCachedTokenDecimals token d c)
  end.

(** The value at once, and the one the callback gets, if there is a callback. *)
Definition getTokenDecimalsSync (nd : DecimalsNode) (token : string) (callback : bool) (c : Cache) :
    (double * option double) * Cache :=
  match getCachedTokenDecimals token c with
  | Some d => ((d, None), c)
  | None =>
      if callback then
        let '(d, c) := fetchTokenDecimals nd token c in ((dint 7, Some d), c)
      else ((dint 7, None), c)
  end.

(** ** Prices *)

Definition number (s : string) : double := parseFloat s.

Definition STABLECOIN_PARITY (symbol : string) : option double :=
  if bool_decide (symbol = "USDC") then Some (number "1.0")
  else if bool_decide (symbol = "EURC") then Some (number "1.08")
  else None.

(** The names of the tokens at the price service. *)
Definition TOKEN_MAPPING (symbol : string) : option string :=
  if bool_decide (symbol = "XLM") then Some "stellar"
  else if bool_decide (symbol = "USDC") then Some "usd-coin"
  else if bool_decide (symbol = "EURC") then Some "euro-coin"
  else None.

Record TokenPrice := { tp_symbol : string; priceUSD : double; priceEUR : double; priceGBP : double; tp_timestamp : Z }.

(** An entry of the service's answer; the service throws also where the answer is
    not one of success, or is no object. *)
Record Quote := { usd : option double; eur : option double; gbp : option double }.
Definition PriceService : Type := string -> outcome (option Quote).

Definition price_at (now : Z) (symbol : string) (u e g : double) : TokenPrice :=
  {| tp_symbol := symbol; priceUSD := u; priceEUR := e; priceGBP := g; tp_timestamp := now |}.

Definition useTokenPrice (service : PriceService) (now : Z) (tokenSymbol : string) : TokenPrice :=
  let symbol := toUpperCase tokenSymbol in
  match TOKEN_MAPPING symbol with
  | None => price_at now symbol (dint 0) (dint 0) (dint 0)
  | Some coingeckoId =>
      match STABLECOIN_PARITY symbol with
      | Some parityRate =>
          price_at now symbol parityRate (dmul parityRate (number "0.92")) (dmul parityRate (number "0.79"))
      | None =>
          match service coingeckoId with
          | Returns prices =>
              let quoted (f : Quote -> option double) := default (dint 0) (prices ≫= f) in
              price_at now symbol (quoted usd) (quoted eur) (quoted gbp)
          | Throws _ =>
              if bool_decide (symbol = "XLM")
              then price_at now symbol (number "0.12") (number "0.11") (number "0.09")
              else price_at now symbol (number "1.0") (number "0.92") (number "0.79")
          end
      end
  end.

(** An amount as it is passed. *)
Inductive FiatInput := InText (s : string) | InNumber (x : double) | InUnits (z : Z).

Definition falsy (x : double) : bool := match x with DNaN => true | _ => bool_decide (x = dint 0) end.

Definition convertToFiat (amount : FiatInput) (tokenPrice : double) (decimals : nat) : double :=
  let amountNum :=
    match amount with
    | InUnits z => ddiv_pos (double_of_num (Number_of_bigint z)) (10 ^ Z.of_nat decimals)
    | InText s => let x := parseFloat s in if falsy x then dint 0 else x
    | InNumber x => x
    end in
  dmul amountNum tokenPrice.

Inductive Period := per_second | per_hour | per_day | per_month.
Definition multiplier (p : Period) : Z :=
  match p with per_second => 1 | per_hour => 3600 | per_day => 86400 | per_month => 2592000 end.

(** The rate before it is formatted. *)
Definition ratePerPeriod (ratePerSecond tokenPrice : double) (p : Period) : double :=
  dmul (dmul ratePerSecond tokenPrice) (dint (multiplier p)).

(** [tokenPrice[`price${currency}`]]; another name has no price. *)
Definition price_in (currency : string) (p : TokenPrice) : option double :=
  if bool_decide (currency = "USD") then Some (priceUSD p)
  else if bool_decide (currency = "EUR") then Some (priceEUR p)
  else if bool_decide (currency = "GBP") then Some (priceGBP p)
  else None.

(** The currency an amount is labelled with, and the price it is computed with. *)
Definition shown_in (displayCurrency : string) (p : TokenPrice) : string * double :=
  let currency :=
    if bool_decide (displayCurrency = "USD") || bool_decide (displayCurrency = "XLM") ||
       bool_decide (displayCurrency = "USDC") then "USD" else displayCurrency in
  (currency,
   match price_in currency p with
   | Some x => if falsy x then priceUSD p else x
   | None => priceUSD p
   end).

(** The amount of the badge, before it is formatted; [Number]: of a text. *)
Definition FiatBadge (Number : string -> double) (displayCurrency : string) (price : option TokenPrice)
    (amount : string + Z) : option (string * double) :=
  match price with
  | None => None
  | Some p =>
      let '(currency, tokenPriceForCurrency) := shown_in displayCurrency p in
      let amountNum :=
        match amount with
        | inr z => ddiv_pos (double_of_num (Number_of_bigint z)) (10 ^ 7)
        | inl s => Number s
        end in
      Some (currency, dmul amountNum tokenPriceForCurrency)
  end.

(** ** Networks *)

Inductive NetworkId := testnet | futurenet | mainnet | sandbox.
Definition network_text (n : NetworkId) : string :=
  match n with testnet => "testnet" | futurenet => "futurenet" | mainnet => "mainnet" | sandbox => "sandbox" end.
Definition network_ids : list NetworkId := [testnet; futurenet; mainnet; sandbox].

Record NetworkConfig := {
  nc_id : NetworkId;
  nc_name : string;
  passphrase : string;
  horizonUrl : string;
  rpcUrl : string;
  contractId : string;
  explorerUrl : string
}.

Definition fallbackContract : string := "CAAAAAAAAAAAAAAAAAAAAAAAAAAAAAAAAAAAAAAAAAAAAAAAAAAAFCT4".

(** The environment the page was built with, by name. *)
Definition NETWORK_CONFIGS (env : string -> option string) (n : NetworkId) : NetworkConfig :=
  match n with
  | testnet => {|
      nc_id := testnet; nc_name := "Testnet"; passphrase := "Test SDF Network ; September 2015";
      horizonUrl := "https://horizon-testnet.stellar.org"; rpcUrl := "https://soroban-testnet.stellar.org";
      contractId := default fallbackContract (env "NEXT_PUBLIC_STREAM_CONTRACT_ID");
      explorerUrl := "https://stellar.expert/explorer/testnet" |}
  | futurenet => {|
      nc_id := futurenet; nc_name := "Futurenet"; passphrase := "Test SDF Future Network ; October 2022";
      horizonUrl := "https://horizon-futurenet.stellar.org"; rpcUrl := "https://rpc-futurenet.stellar.org";
      contractId := default fallbackContract (env "NEXT_PUBLIC_FUTURENET_STREAM_CONTRACT_ID");
      explorerUrl := "https://stellar.expert/explorer/futurenet" |}
  | mainnet => {|
      nc_id := mainnet; nc_name := "Mainnet"; passphrase := "Public Global Stellar Network ; September 2015";
      horizonUrl := "https://horizon.stellar.org"; rpcUrl := "https://soroban-rpc.mainnet.stellar.gateway.fm";
      contractId := default fallbackContract (env "NEXT_PUBLIC_MAINNET_STREAM_CONTRACT_ID");
      explorerUrl := "https://stellar.expert/explorer/public" |}
  | sandbox => {|
      nc_id := sandbox; nc_name := "Local Sandbox"; passphrase := "Standalone Network ; February 2017";
      horizonUrl := default "http://localhost:8000" (env "NEXT_PUBLIC_SANDBOX_HORIZON_URL");
      rpcUrl := default "http://localhost:8000/soroban/rpc" (env "NEXT_PUBLIC_SANDBOX_RPC_URL");
      contractId := default fallbackContract (env "NEXT_PUBLIC_SANDBOX_STREAM_CONTRACT_ID");
      explorerUrl := "http://localhost:8000" |}
  end.

(** [activeNetworkConfig]: the network of the calls a wallet signs. *)
Definition activeNetwork (stored : option string) : NetworkId :=
  if bool_decide (stored = Some "mainnet") then mainnet
  else if bool_decide (stored = Some "futurenet") then futurenet
  else if bool_decide (stored = Some "sandbox") then sandbox
  else testnet.

(** Members every object has. *)
Definition object_members : list string :=
  ["constructor"; "__proto__"; "hasOwnProperty"; "isPrototypeOf"; "propertyIsEnumerable"; "toLocaleString";
   "toString"; "valueOf"; "__defineGetter__"; "__defineSetter__"; "__lookupGetter__"; "__lookupSetter__"].

(** [stored in NETWORK_CONFIGS] *)
Definition in_configs (s : string) : bool := bool_decide (s ∈ map network_text network_ids ++ object_members)%list.

(** The provider: the name of its network, and the entry of the storage. *)
Record NetworkProvider := { networkId : string; nw_stored : option string; isHydrated : bool }.

Definition hydrated (stored : option string) : NetworkProvider := {|
  networkId := match stored with
               | Some (String _ _ as s) => if in_configs s then s else network_text testnet
               | _ => network_text testnet
               end;
  nw_stored := stored; isHydrated := true |}.

Definition setPersistedNetwork (n : NetworkId) (p : NetworkProvider) : NetworkProvider :=
  {| networkId := network_text n; nw_stored := Some (network_text n); isHydrated := isHydrated p |}.

(** The configuration of a name, if it is a network's. *)
Definition getNetworkConfig (env : string -> option string) (id : string) : option NetworkConfig :=
  NETWORK_CONFIGS env <$> List.find (fun n => bool_decide (network_text n = id)) network_ids.

(** * Tokens and networks: properties *)

(** The first answer about a token is kept, whatever it was, until the cache is
    cleared: a failure too, and nothing that the node says later matters. *)
Theorem first_decimals_kept (nd nd' : DecimalsNode) (token : string) (c : Cache) :
  let '(d, c') := fetchTokenDecimals nd token c in
  fetchTokenDecimals nd' token c' = (d, c') /\
  (forall other, other <> token -> c' !! other = c !! other) /\
  (c !! token = None -> c' = <[token := d]> c) /\
  (fetchTokenDecimals nd' token (clearTokenDecimalsCache c')).1 =
    match asked_decimals nd' token with Returns d => d | Throws _ => dint 7 end.
Proof.
  unfold fetchTokenDecimals, getCachedTokenDecimals, setCachedTokenDecimals, clearTokenDecimalsCache.
  destruct (c !! token) as [d|] eqn:Hc.
  - rewrite Hc. by rewrite lookup_empty.
  - rewrite lookup_insert_eq, lookup_empty. split_and!; try done. intros other Hne. by rewrite lookup_insert_ne.
Qed.

(** The account the call is simulated for is made up, so no ledger has it: where
    a node knows no such account, every token has seven decimals, and the
    contract is never asked. *)
Theorem decimals_never_asked (nd : DecimalsNode) (token : string) (c : Cache) (e : JsError) :
  dn_getAccount nd = Throws e ->
  (forall t d, c !! t = Some d -> d = dint 7) ->
  (fetchTokenDecimals nd token c).1 = dint 7 /\
  (forall t d, (fetchTokenDecimals nd token c).2 !! t = Some d -> d = dint 7) /\
  forall callback, (getTokenDecimalsSync nd token callback c).1.1 = dint 7.
Proof.
  intros He Hc. unfold getTokenDecimalsSync, fetchTokenDecimals, getCachedTokenDecimals, setCachedTokenDecimals, asked_decimals.
  rewrite He. cbn [obind]. destruct (c !! token) as [d|] eqn:Hd.
  - rewrite (Hc token d Hd). split_and!; [done| |done]. intros t d' Ht. by eapply Hc.
  - split; [done|]. split; [|by intros []]. intros t d'. cbn [snd]. destruct (decide (t = token)) as [->|Hne].
    + rewrite lookup_insert_eq. by intros [= <-].
    + rewrite lookup_insert_ne by done. apply Hc.
Qed.

(** The price of a stablecoin is its parity, though the service may know better:
    it is never asked.  The price in dollars of an unknown token is zero. *)
Theorem parity_without_asking (s s' : PriceService) (now : Z) (symbol : string) :
  toUpperCase symbol = "USDC" \/ toUpperCase symbol = "EURC" ->
  useTokenPrice s now symbol = useTokenPrice s' now symbol /\
  Some (priceUSD (useTokenPrice s now symbol)) = STABLECOIN_PARITY (toUpperCase symbol).
Proof. intros [H|H]; unfold useTokenPrice; by rewrite H. Qed.

(** An amount in a currency without a price is computed in dollars, and labelled
    with the currency; a badge and [convertToFiat] compute the same amount. *)
Theorem missing_price_in_dollars (p : TokenPrice) (display : string) (Number : string -> double) (z : Z) :
  (display = "EUR" /\ priceEUR p = dint 0 \/ display = "GBP" /\ priceGBP p = dint 0 ->
   shown_in display p = (display, priceUSD p)) /\
  FiatBadge Number display (Some p) (inr z) =
    Some ((shown_in display p).1, convertToFiat (InUnits z) (shown_in display p).2 7).
Proof.
  split; [|unfold FiatBadge; by destruct (shown_in display p)].
  intros [[-> H]|[-> H]]; unfold shown_in, price_in; simpl; rewrite H; done.
Qed.

(** Unless the entry is the name of a member every object has, the provider and
    the calls a wallet signs are on the same network, one that is configured; and
    so they are after any choice. *)
Theorem networks_agree (env : string -> option string) (stored : option string) (choices : list NetworkId) :
  (forall s, stored = Some s -> s ∉ object_members) ->
  let p := fold_left (fun p n => setPersistedNetwork n p) choices (hydrated stored) in
  networkId p = network_text (activeNetwork (nw_stored p)) /\
  getNetworkConfig env (networkId p) = Some (NETWORK_CONFIGS env (activeNetwork (nw_stored p))).
Proof.
  intros Hs p. assert (H : networkId p = network_text (activeNetwork (nw_stored p))).
  { unfold p. destruct (rev choices) as [|n rest] eqn:E.
    - assert (choices = []) as -> by (destruct choices as [|x xs] using rev_ind; [done|by rewrite rev_app_distr in E]).
      simpl. unfold activeNetwork. destruct stored as [s|]; [|done]. destruct (decide (s ∈ map network_text network_ids)) as [Hin|Hin].
      + assert (s = "testnet" \/ s = "futurenet" \/ s = "mainnet" \/ s = "sandbox") as [-> |[-> |[-> | ->]]]
          by (unfold network_ids in Hin; simpl in Hin; set_solver); done.
      + assert (Hn : in_configs s = false).
        { unfold in_configs. apply bool_decide_eq_false_2. intros [?|?]%elem_of_app; [done|]. by apply (Hs s). }
        assert (Hne : forall n, s <> network_text n).
        { intros n ->. apply Hin. unfold network_ids. simpl. destruct n; set_solver. }
        rewrite !bool_decide_eq_false_2; [|intros [= E']; by apply (Hne sandbox)|intros [= E']; by apply (Hne futurenet)
                                          |intros [= E']; by apply (Hne mainnet)].
        destruct s; [done|]. by rewrite Hn.
    - assert (choices = rev rest ++ [n])%list as -> by (rewrite <- (rev_involutive choices), E; done).
      rewrite fold_left_app. simpl. by destruct n. }
  split; [done|]. rewrite H. by destruct (activeNetwork (nw_stored p)).
Qed.

(** An entry such as [toString] is taken for a network by the provider only, and
    has no configuration. *)
Example odd_entry env :
  networkId (hydrated (Some "toString")) = "toString" /\ activeNetwork (Some "toString") = testnet /\
  getNetworkConfig env "toString" = None.
Proof. done. Qed.
